(* ===== verification/_CoqProject ===== *)
-Q . S2P
Prelude.v
JsString.v
Uri.v
Base64.v
JsValue.v
Json.v
JsText.v
World.v
Promise.v
Token.v
Uuid.v
Storage.v
CallbackStore.v
Urls.v
Adapter.v
Callback.v
Redirect.v
Iframe.v
Refresh.v
Init.v
EventLoop.v
Invariants.v
Microtasks.v
Login.v
Security.v
Authz.v
StatusIframe.v
AdminResources.v
AdminLoaders.v
AdminRoutes.v
AuthzRoutes.v
AdminServices.v
AdminHttp.v
RoleControl.v
AdminView.v
AdminUsers.v
RoleMappings.v
AdminAccess.v
RealmSettings.v
RealmLists.v
RealmImport.v
AngularEquals.v
ClientDetail.v
ClientScopes.v
ClientForms.v
PolicyPages.v
AuthzSelections.v
AuthzResources.v
UserStorage.v
AdminShared.v
IdentityProviders.v
AuthFlows.v
RealmTokens.v
ScopeMappings.v
ClientEvaluate.v
ClientMappers.v
ClientTabs.v
ClientStorage.v
AdminDirectives.v
AccountAdapter.v
UserPages.v
ClientKeys.v
RealmPages.v
SharedState.v
AuthzLists.v
Navigation.v
Witnesses.v
AdminWitnesses.v
