(* ===== verification/Prelude.v ===== *)
(** * Keycloak's browser code

    A model of the JavaScript that Keycloak delivers to browsers, with the theorems
    that make it correct.

    ** The program

    [src/adapters/oidc/js/src/main/resources/] holds the JavaScript adapter:
    - [keycloak.js], the OpenID Connect client an application loads.  It sends the
      user to the authorization server, reads the response from the URL of the
      redirect, exchanges a code for tokens, keeps and refreshes the tokens, and asks
      an iframe of the server whether the session has ended;
    - [login-status-iframe.html], that iframe;
    - [keycloak-authz.js], the UMA client that gets permissions with such a token.

    [src/themes/src/main/resources/theme/base/admin/resources/js/] holds the admin
    console, an AngularJS application that logs in with [keycloak.js]: [services.js]
    and [authz/authz-services.js] declare the REST resources and the small services,
    [loaders.js] the fetches a route waits for, [app.js] and [authz/authz-app.js] the
    routes, [app.js] also the start of the console, the interceptors of its requests,
    filters and directives, and [controllers/] the pages.

    ** The files

    Language and browser:
    - [Prelude]: record update, the exceptions and [outcome], the state and exception
      monad [M], [preserves] and the tactic [preserve], hint databases;
    - [JsString], [Uri], [Base64], [JsValue], [Json]: strings, [encodeURIComponent]
      and its companions, [atob], values with truthiness and the two equalities,
      [JSON.parse] and [JSON.stringify], each with the round trips the rest uses;
    - [JsText]: [trim], [split] with a longer separator, [lastIndexOf], [parseInt].

    keycloak.js:
    - [World]: the public object [kc] ([Kc]), the variables of the constructor's
      closure and the browser ([World], [Browser]).  A function literal passed to a
      promise, a request or a timer is a constructor of [cont], [xhr_cont] or [timer]
      with the variables it captures;
    - [Promise]: [createPromise] in its native and legacy form.  [AdapterOps] is the
      interface of an adapter, which an application may replace by its own; [Env]
      hands a component the adapter and the function that runs a callback;
    - [Token]: [decodeToken], [setToken], [isTokenExpired], the role tests;
    - [Uuid]: [createUUID];  [Storage]: [LocalStorage], [CookieStorage];
    - [CallbackStore]: the class of stores that keep a login until it is read once, which
      both storages are instances of;
    - [Urls]: [getRealmUrl], the endpoint tables, the functions that build URLs;
    - [Adapter]: the three adapters of [loadAdapter], [login] to
      [accountManagement], [clearToken];
    - [Callback]: [parseCallback], [parseCallbackUrl], [parseCallbackParams],
      [processCallback];
    - [Redirect]: from the URL of a login to its redirect, for every [CallbackStore];
    - [Iframe]: [setupCheckLoginIframe], [checkLoginIframe] and their handlers;
    - [Refresh]: [updateToken], [loadUserProfile], [loadUserInfo];
    - [Init]: the constructor, [loadConfig], [kc.init];
    - [EventLoop]: [dispatch] is the body of every callback, an [event] a call of the
      application, a microtask, a response, a timer, a message or an event of a
      window, [handle] the code that runs for it and [step] one turn of the loop;
    - [Invariants]: what every turn preserves.  [Admissible] is what a predicate has
      to promise, [Polite] what an adapter has to; the adapters of the library are
      shown polite;
    - [Microtasks]: that the queue of microtasks runs empty;
    - [Login]: a whole login, from the constructor to the settled promise;
    - [Security]: properties that combine several components;
    - [AccountAdapter]: the copy of keycloak.js that the account console carries
      ([theme/keycloak-preview]), where it differs, compared with the original.

    The other sources:
    - [Authz]: keycloak-authz.js;  [StatusIframe]: login-status-iframe.html;
    - [AdminResources], [AdminLoaders], [AdminRoutes], [AuthzRoutes]: the declarations of
      the admin console as data, with what [$resource], [Loader] and the router read of
      them; [AuthzRoutes] also has the router's choice of a route;
    - [AdminServices]: [TimeUnit], [TimeUnit2], [Notifications], [ComponentUtils], the
      filter [removeSelectedPolicies] and the URL builders of services.js;
    - [AdminHttp]: the start of the console, the interceptors and the spinner;
    - [AdminView]: filters, paging, [kcSave], [kcReadOnly] and [ProviderConfigCtrl];
    - [RoleControl]: [roleControl] of services.js, the page of a role;
    - [RoleMappings]: the role mappings of users and groups, with the store of arrays
      that queries return and fill later;
    - [AdminUsers]: attributes, federated identities, paging and passwords (users.js,
      groups.js);
    - [AdminAccess]: what an administrator may see, and the first page (realm.js);
    - [RealmSettings], [RealmLists], [RealmImport]: settings, lists and the partial import
      of a realm (realm.js);
    - [AngularEquals]: [angular.equals], with the equivalence it is;
    - [ClientDetail]: the page of a client (clients.js), with the digest that runs its
      watches; [ClientScopes]: client scopes and built-in mappers; [ClientForms]: new
      clients, the page of a scope, the authenticator of a client;
    - [PolicyPages]: [PolicyController] of authz-controller.js, with the state it shares between
      the pages of policies and permissions.  A delegate is the object a page gives it; the
      class [Restoring] is what a page promises that is left and come back to, [Associated] what
      the page promises that is visited meanwhile;
    - [AuthzSelections]: the pages of policies that select users, clients, roles and groups, and
      those of rules, scripts and times;  [AuthzResources]: resources, scopes, the lists with
      their details, the evaluation and the switch of permissions;
    - [UserStorage]: user storage and LDAP providers, mappers, the tree of groups (users.js);
    - [AdminShared]: [Dialog], [CopyDialog] and [ServerInfo] (services.js), the list of groups
      (groups.js);
    - [IdentityProviders]: identity providers with their imports, and their mappers;
      [AuthFlows]: authentication flows, executions and their configuration;  [RealmTokens]:
      lifespans of action tokens with the digest of their watches, keys, pushes, keystores and
      policies of registration (realm.js);
    - [ScopeMappings]: the scope mappings of clients and client scopes, over the store of
      [RoleMappings];  [ClientEvaluate]: the evaluation of the scopes of a client;
      [ClientMappers]: protocol mappers;  [ClientTabs]: keys, the secret, sessions, clustering,
      installation and identity providers of a client, the list of clients (clients.js), the
      members of a role (roles.js);  [ClientStorage]: client storage providers;
    - [ClientKeys]: keys of SAML, uploads and roles of clients, [Array.prototype.remove]
      (clients.js);  [UserPages]: credentials, links, memberships, requests of user storage and
      LDAP mappers (users.js);  [RealmPages]: the page of a realm and its renaming, new realms,
      login settings, events, export (realm.js);  [SharedState]: [Current] and
      [UserSearchState] (services.js);  [AuthzLists]: the lists and settings of a resource server
      (authz-controller.js);  [Navigation]: that the URLs of these pages lead to theirs;
    - [AdminDirectives]: the dialogs that choose a role, [capitalize], switches, fieldsets and the
      validation of [kcSave] (app.js).

    [Witnesses] and [AdminWitnesses] apply the theorems to concrete states.

    ** What is shown

    - Login: [createLoginUrl] makes a query that parses to the intended parameters,
      with UUIDs of version 4; the redirect of that login is recognised once, in every flow and
      response mode and with either storage ([login_redirect_roundtrip]); the code is exchanged at the
      realm's token endpoint; a fulfilled login implies that every token carries the
      nonce of the login ([accepted_tokens_have_the_nonce]).  With a server that answers,
      the promise of [kc.init] settles, and is fulfilled for tokens with that nonce, with the
      session check by iframe and without ([login_completes]); microtasks never go on for ever ([microtasks_terminate]).
    - Tokens: a token decodes to its payload; [setToken] keeps the public object
      coherent; [isTokenExpired] is right up to a second and half the round trip of
      the request that brought it, with the skew that handling the answer sets
      ([isTokenExpired_accuracy], in [Refresh]); the role tests answer from the payload;
      [clearToken] logs out, and sends the user to the login page where one is required.
    - Refresh: over all interleavings at most one refresh request is in flight, and
      its answer settles every waiting call ([one_refresh_at_a_time],
      [onRefreshResponse_success], [onRefreshResponse_failure]).
    - Session check: a message of another origin or window changes nothing; the three
      answers of the server settle all waiting checks; the iframe answers its asker
      only, and says [unchanged] only for the session of the cookie.
    - Storage: both storages refine a store from which an entry is read once
      ([storages_refine]); clearing removes expired entries only, and all of them but one that
      follows another that went.
    - Configuration: objects, files and error statuses.
    - Admin console, declarations: every page has a URL that leads to it, with its
      parameters; a route supplies the parameters its loaders read and names loaders that
      exist, a loader binds the parameters of its resource.
    - Admin console, requests: the console runs exactly after a login with two good
      answers; the spinner is shown until no request is open for the first time, and exactly
      while requests are open from then on; requests wait for a
      token that is good for five seconds.
    - Admin console, pages: moving composites and default roles keeps every role in one
      list, however requests and answers are interleaved, and the lists in agreement with the
      server as long as answers come before the next selection; the lists of role mappings are
      the server's once everything is answered, whatever the order, but for two lists after a
      callback has thrown; rights follow from the roles of the realm; attributes, password policies, the SMTP
      server, lifespans and units of time survive the forms that edit them, with the
      exceptions stated; an import sends what is switched on and nothing else; pages of a
      table partition it; notifications are shown exactly while their timer runs.
    - Admin console, clients: the digests of the page of a client end, what it shows agrees
      with the client it edits, and a client that is saved opens as it was
      ([client_page_consistent], [client_save_roundtrip]); assigned scopes are reloaded by the
      last answer ([setup_counters]); evaluated scopes stay in one list and their parameter
      can be read back.
    - Admin console, authorization: a page that is left to create or look at an associated
      policy is found as it was, with the new policy, whatever is loaded and filled in on the
      other page, unless that one is left for a third ([associated_policy_round_trip],
      [nested_policy_strands]); users, clients and roles of a policy are saved as they
      were loaded, in whatever order they come, and the roles with what is required
      ([selection_loads], [role_policy_roundtrip]); no role is selected twice, and once the roles of
      the policy are loaded none of the client's is offered and selected at once
      ([roles_stay_apart]); the three ways of removing agree ([removals_agree]); attributes of a
      resource survive its page ([resource_attributes_roundtrip]); the switch of permissions settles
      ([switch_settles]).
    - Admin console, providers and groups: the page of a provider completes its settings and
      changes none ([storage_page_complete]), another vendor settles in one round of the watch
      ([vendor_watch_settles]), providers are listed in the one order their comparison allows
      ([listProviderIds_spec]); the tree of groups to join loses a group with those below it and
      nothing else ([group_tree_spec]).
    - Admin console, identity providers and flows: imports replace what they name and keep the
      rest ([imports_accumulate]), the buttons that are shown work ([upload_safe]), the list of
      providers settles ([configured_settles]), the redirect URI is that of the realm
      ([callbackUrl_spec]), a new provider and every button of a flow lead to their pages
      ([created_provider_opens], [flow_buttons_open]); an administrator who waits for answers
      sees what the server has ([patient_form_saved]); a flow that was left is found again
      ([flow_is_shown]); a requirement is sent with the execution the server gave
      ([choice_is_sent]); the watches of the lifespans settle ([tokens_digest_ends]) and write
      what is typed ([typed_lifespan_written]).
    - Admin console, tabs of a client: the lists of scope mappings become those of the server
      ([scope_lists_become_current]); an evaluation shows what was chosen
      ([evaluation_shows_chosen]), and sessions the page that was asked for last where answers
      keep their order ([sessions_shown]); what is downloaded as an installation is what was
      shown ([installation_shown]); the settings of clustering come back as they were
      ([clustering_roundtrip]); the rows of identity providers stand at the indices of the
      providers that are saved ([provider_rows_aligned]); a new client storage provider opens
      with what it was created with ([created_provider_opens_same]), and its page fills in what
      that of user storage does ([client_storage_like_user_storage]).
    - Admin console, shared state and navigation: the realm of the console is that of the route
      once the queries are answered, in whatever order ([current_follows_route]); a list of users
      is found as it was left ([search_remembered]); lists of a resource server show what was
      asked for last ([list_shows_asked]); the URLs that the pages build lead to the pages they
      are meant for ([storage_pages_open], [client_pages_open], [policy_buttons_open],
      [key_pages_open]); a renamed realm is found under its new name ([renamed_location]); no realm
      allows duplicate emails with a login by email ([no_duplicates_with_email]).
    - Account console: [init] and the Cordova login of the copy are those of the original where
      neither asks for what the copy lacks ([account_init_same],
      [account_cordova_login_same], [account_window_same]).
    - Where the code does not do what it means to, a theorem says what it does:
      [refresh_stuck], [cordova_ignores_state], [hybrid_exchange_after_nonce_failure],
      [id_token_survives_nonce_failure], [setToken_not_atomic], [clearExpired_skips],
      [processInit_invalid_onLoad], [formatPermission_hash], [then_is_shared]; in the
      console [own_transformer_silences_spinner], [selection_race], [update_race],
      [loadClient_keeps_self], [stale_marks_enable], [fractional_page_overshoots],
      [failed_save_merges_values], [unknown_link_hides_provider], [paste_before_cut],
      [client_answer_without_client], [undefined_policy_value], [smtp_test_after_reset],
      [reset_after_save], [tokens_save_twice], [client_roles_race],
      [keystore_opens_changed], [null_roles_throw], [switch_forgotten],
      [dialog_at_every_change], [import_saves_original], [overlapping_adds],
      [refused_request_no_reload], [builtin_mapper_lost], [authenticator_taken_back],
      [scope_opens_changed], [x509_reset_stays_changed], [reload_new_policy_throws],
      [reload_back_throws], [late_answer_strands], [realm_name_breaks_return],
      [late_load_drops_selection], [selection_hides_edit], [role_before_clients_lost],
      [late_role_is_offered], [nested_policy_strands],
      [rules_defaults_lost], [time_policy_opens_changed], [midnight_is_required],
      [group_watch_throws], [attribute_commas], [new_resource_keeps_text], [first_uri_throws],
      [scope_not_restored], [details_shown_early], [details_filter_throws],
      [delete_message_verbatim], [client_search_space], [evaluate_by_type_throws],
      [switch_after_error], [sync_period_lost], [subgroups_not_joinable], [groups_overtaken],
      [opens_changed], [upload_hides_import], [social_row_shows_alias], [callbackUrl_admin_host],
      [late_edit_taken_for_saved], [slash_in_alias], [typed_after_reset_lost],
      [choice_disables_save], [reset_after_mapper_saved], [new_mapper_defaults],
      [effective_roles_stale], [late_token_shown], [saml_export_leaves_elsewhere],
      [download_error_garbled], [sessions_overtaken], [clustering_opens_changed],
      [installation_overtaken], [search_untyped_throws], [client_pages],
      [provider_rows_misaligned], [refused_provider_disabled], [role_of_other_client],
      [email_despite_changes], [reset_keeps_name], [renamed_context_path],
      [suffix_taken_for_master], [imported_realm_id], [removed_config_shows_first],
      [removed_realm_not_named], [removal_from_realm_before], [search_of_other_realm],
      [default_groups_unselected], [loaded_too_early], [old_key_shown],
      [upload_after_cancel]; in the account console [account_exit_ignored], [account_native_ignored],
      [account_redirectUri_ignored].

    ** Bounds

    - Strings are the bytes of their UTF-8 encoding.  The functions that count work on
      ASCII delimiters, where bytes and code units agree on the result.
    - Numbers are the integers and [NaN], midpoints of times are rationals; a JSON
      number with a fraction or an exponent ends in [NotModelled], as does an
      unpaired surrogate.
    - [JSON_parse] has the length of the text as fuel, which is proved enough;
      [clearLoop] has the number of items, [popQueue] the length of the queue, both
      proved enough; [checkLocales] has the lengths of its two lists, proved enough.
      [spliceLoop] has the length of its list, of which the theorem on [removePolicy] shows it enough.
      [digestLoop] has the ten rounds AngularJS allows, of which two are proved enough;
      that of [RealmTokens] needs three, that of [configuredDigest] two.
      Legacy promises run their callbacks from inside the library:
      [callFuel] lets them nest 64 deep, and a deeper nesting is [OutOfFuel].  The
      theorems with the hypothesis [native] are about browsers that have [Promise],
      where no callback nests and the fuel is not used.

    ** What is not modelled

    - The transport: a response, a message, a timer or an event of a window arrives as
      an [event], at any time the loop allows.  The Cordova plugins and an
      application's own adapter are parameters in the same way.
    - Reentrance: a hook or a callback of the application is an output here, and a
      call it makes to the library is an event after the handler that ran it.
    - That [createRegisterUrl] writes to the caller's options, syntax errors of
      [postMessage], output to the console, and [createCallbackId], which nothing
      calls.
    - AngularJS itself ([$resource], injection, the digest) but for the router's matching
      of paths, [angular.equals] and the digests of [ClientDetail], [IdentityProviders] and
      [RealmTokens]: elsewhere a watch is run
      after the change it watches, an answer is an event.
    - [SelectRoleDialog] of services.js, which nothing uses; directives that only arrange elements or
      load a template; the date of a revocation, which is a number with a fraction; the flag
      [fullScopeAllowed] on the page of scope mappings, and those parts of the controllers that
      copy an answer of the server to the page or send one request and reload.
    - Letters outside of ASCII in [capitalize] and in the search of clients, where the case of a
      letter matters.
    - The server, which is written in Java; the account console itself, which is TypeScript; the
      examples and test applications, and the libraries that are copied into the themes. *)

#[export] Set Warnings "-postfix-notation-not-level-1,-clear-no-such-hyp".

From stdpp Require Export base tactics option list strings gmap.
From Stdlib Require Export Ascii ZArith Lia.

#[global] Arguments Ascii.eqb _ _ : simpl never.
#[global] Arguments String.eqb _ _ : simpl never.
#[global] Arguments Nat.modulo _ _ : simpl never.
#[global] Arguments Nat.div _ _ : simpl never.

(** ** Record fields

    [r <| f := v |>] is [r] with field [f] set to [v], [r <| f ::= g |>] applies
    [g] to the field, and [r <| f -> h := v |>] sets field [h] of the record in
    field [f].  A record declares its fields as instances of [Field], built by
    [mk_field] from the record's eta-expansion; [simpl] then computes a field of
    an updated record and leaves the update itself folded. *)

Class Field {R E : Type} (proj : R → E) := upd : (E → E) → R → R.
Arguments upd {R E} proj {_} f r : rename.

Declare Scope record_scope.
Open Scope record_scope.

Notation "r <| p := v |>" := (upd p (λ _, v) r)
  (at level 8, left associativity, p at level 1, v at level 99,
   format "r  <|  p  :=  v  |>") : record_scope.
Notation "r <| p ::= f |>" := (upd p f r)
  (at level 8, left associativity, p at level 1, f at level 99,
   format "r  <|  p  ::=  f  |>") : record_scope.
Notation "r <| p -> q := v |>" := (upd p (upd q (λ _, v)) r)
  (at level 8, left associativity, p at level 1, q at level 1, v at level 99,
   format "r  <|  p  ->  q  :=  v  |>") : record_scope.
Notation "r <| p -> q ::= f |>" := (upd p (upd q f) r)
  (at level 8, left associativity, p at level 1, q at level 1, f at level 99,
   format "r  <|  p  ->  q  ::=  f  |>") : record_scope.

Ltac mk_field eta proj :=
  let f := fresh "f" in
  let r := fresh "r" in
  intros f r;
  let b := eval cbv beta delta [eta] in (eta r) in
  lazymatch eval pattern (proj r) in b with
  | ?F _ => let t := eval cbv beta in (F (f (proj r))) in exact t
  end.

(** ** Outcomes: JavaScript completions

    A JavaScript computation returns normally or throws.  What the sources
    throw themselves is a string ([Thrown]); the other constructors are the
    errors the language and the browser raise. *)

Inductive exn :=
  | Thrown (msg : string)
  | TypeError
  | ReferenceError
  | SyntaxError
  | URIError
  | InvalidCharacterError
  | SecurityError
  | NotModelled
  | OutOfFuel.

#[global] Instance exn_eq_dec : EqDecision exn.
Proof. solve_decision. Defined.

Inductive outcome (A : Type) :=
  | Returns (a : A)
  | Throws (e : exn).
Arguments Returns {A} a.
Arguments Throws {A} e.

#[global] Instance outcome_eq_dec {A} `{EqDecision A} : EqDecision (outcome A).
Proof. solve_decision. Defined.

(** ** The state-and-exception monad

    State changes made before a [throw] persist, as they do in JavaScript, so
    the state is returned next to the outcome and not inside it. *)

Definition M (S A : Type) : Type := S → outcome A * S.

Section monad.
Context {S : Type}.

#[global] Instance M_ret : MRet (M S) := λ A a s, (Returns a, s).

#[global] Instance M_bind : MBind (M S) := λ A B f m s,
  match m s with
  | (Returns a, s') => f a s'
  | (Throws e, s') => (Throws e, s')
  end.

Definition throw {A} (e : exn) : M S A := λ s, (Throws e, s).
Definition gets {A} (f : S → A) : M S A := λ s, (Returns (f s), s).
Definition modify (f : S → S) : M S unit := λ s, (Returns tt, f s).
Definition lift {A} (o : outcome A) : M S A := λ s, (o, s).

(** [try m catch h]: the handler runs in the state the body left. *)
Definition try_catch {A} (m : M S A) (h : exn → M S A) : M S A := λ s,
  match m s with
  | (Returns a, s') => (Returns a, s')
  | (Throws e, s') => h e s'
  end.

Definition when (b : bool) (m : M S unit) : M S unit := if b then m else mret tt.

(** [for (x of l) f(x)], left to right. *)
Fixpoint for_each {A} (f : A → M S unit) (l : list A) : M S unit :=
  match l with
  | [] => mret tt
  | x :: l' => f x ≫= λ _, for_each f l'
  end.
End monad.

#[global] Instance outcome_ret : MRet outcome := λ A a, Returns a.
#[global] Instance outcome_bind : MBind outcome := λ A B f o,
  match o with Returns a => f a | Throws e => Throws e end.

Arguments M_ret _ _ _ _ /.
Arguments M_bind _ _ _ _ _ _ /.

Section monad_laws.
Context {S A B C : Type}.

Lemma bind_ret (a : A) (f : A → M S B) s : (mret a ≫= f) s = f a s.
Proof. done. Qed.

Lemma bind_throw e (f : A → M S B) s : (throw e ≫= f) s = (Throws e, s).
Proof. done. Qed.

Lemma bind_gets (g : S → A) (f : A → M S B) s : (gets g ≫= f) s = f (g s) s.
Proof. done. Qed.

Lemma bind_modify g (f : unit → M S B) s : (modify g ≫= f) s = f tt (g s).
Proof. done. Qed.

Lemma bind_lift (a : A) (f : A → M S B) s : (lift (Returns a) ≫= f) s = f a s.
Proof. done. Qed.

Lemma bind_lift_throws e (f : A → M S B) s : (lift (Throws e) ≫= f) s = (Throws e, s).
Proof. done. Qed.

Lemma bind_bind (m : M S A) (f : A → M S B) (g : B → M S C) s :
  ((m ≫= f) ≫= g) s = (m ≫= λ a, f a ≫= g) s.
Proof. unfold mbind, M_bind. by destruct (m s) as [[] ?]. Qed.

Lemma bind_returns (m : M S A) (f : A → M S B) s s' b :
  (m ≫= f) s = (Returns b, s') ↔
  ∃ a s1, m s = (Returns a, s1) ∧ f a s1 = (Returns b, s').
Proof.
  unfold mbind, M_bind. destruct (m s) as [[a|e] s1]; split.
  - eauto.
  - by intros (? & ? & [= <- <-] & ?).
  - done.
  - by intros (? & ? & ? & ?).
Qed.

Lemma for_each_app (f : A → M S unit) l1 l2 s :
  for_each f (l1 ++ l2) s = (for_each f l1 ≫= λ _, for_each f l2) s.
Proof.
  revert s. induction l1 as [|x l1 IH]; intros s; [done|].
  simpl. unfold mbind, M_bind in *.
  destruct (f x s) as [[] s']; [apply IH | done].
Qed.
End monad_laws.

Create Rewrite HintDb io.
#[export] Hint Rewrite @bind_ret @bind_throw @bind_gets @bind_modify @bind_lift
  @bind_lift_throws @bind_bind : io.

(** A state predicate is preserved by a computation whichever way it ends. *)
Definition preserves {S A} (P : S → Prop) (m : M S A) : Prop :=
  ∀ s, P s → P (m s).2.

Section preserves.
Context {S : Type} (P : S → Prop).

Lemma preserves_ret {A} (a : A) : preserves P (mret a : M S A).
Proof. by intros s. Qed.
Lemma preserves_throw {A} e : preserves P (throw e : M S A).
Proof. by intros s. Qed.
Lemma preserves_gets {A} (f : S → A) : preserves P (gets f).
Proof. by intros s. Qed.
Lemma preserves_lift {A} (o : outcome A) : preserves P (lift o : M S A).
Proof. by intros s. Qed.
Lemma preserves_modify f : (∀ s, P s → P (f s)) → preserves P (modify f).
Proof. intros H s. apply H. Qed.

Lemma preserves_bind {A B} (m : M S A) (f : A → M S B) :
  preserves P m → (∀ a, preserves P (f a)) → preserves P (m ≫= f).
Proof.
  intros Hm Hf s Hs. specialize (Hm s Hs). unfold mbind, M_bind.
  destruct (m s) as [[a|e] s'] eqn:E; simpl in *; [by apply Hf | done].
Qed.

Lemma preserves_try {A} (m : M S A) h :
  preserves P m → (∀ e, preserves P (h e)) → preserves P (try_catch m h).
Proof.
  intros Hm Hh s Hs. specialize (Hm s Hs). unfold try_catch.
  destruct (m s) as [[a|e] s'] eqn:E; simpl in *; [done | by apply Hh].
Qed.

Lemma preserves_if {A} (b : bool) (m1 m2 : M S A) :
  preserves P m1 → preserves P m2 → preserves P (if b then m1 else m2).
Proof. by destruct b. Qed.

Lemma preserves_when b (m : M S unit) : preserves P m → preserves P (when b m).
Proof. by destruct b; [|intros _ s]. Qed.

Lemma preserves_for_each {A} (f : A → M S unit) l :
  (∀ x, preserves P (f x)) → preserves P (for_each f l).
Proof.
  intros Hf. induction l as [|x l IH]; simpl; [by intros s|].
  apply preserves_bind; [apply Hf | done].
Qed.
End preserves.

Create HintDb kc discriminated.
#[export] Hint Constants Opaque : kc.
#[export] Hint Resolve preserves_ret preserves_throw preserves_gets preserves_lift : kc.

(** Case analysis on the test of the first [if] or [match] of the goal, for
    goals about a computation whose branches all end the same way. *)
Ltac split_ifs :=
  repeat (case_match; simplify_eq/=; try done).

(** [preserves P m] by the structure of [m]: the database [kc] has the lemmas on
    the operations it calls, and [tac] deals with its [modify]s. *)
Ltac preserve tac :=
  repeat first
    [ progress intros
    | progress cbv zeta
    | match goal with |- preserves _ (modify _) => apply preserves_modify; tac end
    | solve [eauto 4 with kc nocore]
    | match goal with |- preserves _ (_ ≫= _) => apply preserves_bind end
    | match goal with |- preserves _ (match ?x with _ => _ end) => destruct x end
    | match goal with |- preserves _ (when _ _) => apply preserves_when end
    | match goal with |- preserves _ (for_each _ _) => apply preserves_for_each end
    | match goal with |- preserves _ (try_catch _ _) => apply preserves_try end ].

(** Unfold one layer of a computation applied to a state. *)
Ltac run_io :=
  unfold mbind, M_bind, mret, M_ret, gets, modify, lift, throw, when in *; simpl in *.
