(* ===== verification/JsString.v ===== *)
(** JavaScript strings.

    A JavaScript string is represented by the bytes of its UTF-8 encoding, so
    an [ascii] of a [string] is one such byte.  The operations the sources use
    ([indexOf], [substring], [charAt], [split], [join], [replace] with ASCII
    arguments) commute with that encoding.  Indices are [Z], because the sources
    compare them with -1 and compute with them. *)

From S2P Require Import Prelude.

Module JsString.

(** *** Characters *)

Fixpoint occurs (c : ascii) (s : string) : bool :=
  match s with
  | "" => false
  | String a s' => Ascii.eqb c a || occurs c s'
  end.

Fixpoint forall_chars (p : ascii → bool) (s : string) : bool :=
  match s with
  | "" => true
  | String a s' => p a && forall_chars p s'
  end.

Fixpoint starts_with (p s : string) : bool :=
  match p, s with
  | "", _ => true
  | String a p', String b s' => Ascii.eqb a b && starts_with p' s'
  | String _ _, "" => false
  end.

Fixpoint drop_s (n : nat) (s : string) : string :=
  match n, s with
  | S n', String _ s' => drop_s n' s'
  | _, _ => s
  end.

Fixpoint take_s (n : nat) (s : string) : string :=
  match n, s with
  | S n', String a s' => String a (take_s n' s')
  | _, _ => ""
  end.

(** *** [indexOf] *)

Fixpoint find_s (p s : string) : option nat :=
  if starts_with p s then Some 0
  else match s with
       | "" => None
       | String _ s' => S <$> find_s p s'
       end.

(** [s.indexOf(p)] *)
Definition indexOf (s p : string) : Z :=
  match find_s p s with
  | Some n => Z.of_nat n
  | None => -1
  end.

(** [s.indexOf(p, from)] *)
Definition indexOf_from (s p : string) (from : nat) : Z :=
  match find_s p (drop_s from s) with
  | Some n => Z.of_nat (from + n)
  | None => -1
  end.

(** *** [substring], [charAt], [slice] *)

Definition length_s (s : string) : Z := Z.of_nat (String.length s).

(** [s.substring(a, b)]: both bounds are clamped to the string and the smaller
    one is the start. *)
Definition substring (s : string) (a b : Z) : string :=
  let clamp x := Z.min (Z.max x 0) (length_s s) in
  let lo := Z.to_nat (Z.min (clamp a) (clamp b)) in
  let hi := Z.to_nat (Z.max (clamp a) (clamp b)) in
  take_s (hi - lo) (drop_s lo s).

(** [s.substring(a)] *)
Definition substring_from (s : string) (a : Z) : string :=
  substring s a (length_s s).

(** [s.charAt(i)], the empty string out of range. *)
Definition charAt (s : string) (i : Z) : string :=
  if bool_decide (0 ≤ i)%Z then take_s 1 (drop_s (Z.to_nat i) s) else "".

(** [s.slice(0, n)] for a non-negative [n]. *)
Definition slice0 (s : string) (n : nat) : string := take_s n s.

(** *** [split] with a one-character separator, and [join] *)

Fixpoint split (c : ascii) (s : string) : list string :=
  match s with
  | "" => [""]
  | String a s' =>
      if Ascii.eqb c a then "" :: split c s'
      else match split c s' with
           | [] => [String a ""]
           | w :: ws => String a w :: ws
           end
  end.

Fixpoint join (sep : string) (l : list string) : string :=
  match l with
  | [] => ""
  | [w] => w
  | w :: ws => w +:+ sep +:+ join sep ws
  end.

(** *** [replace] *)

(** [s.replace(/c/g, d)] for single characters. *)
Fixpoint replace_all (c d : ascii) (s : string) : string :=
  match s with
  | "" => ""
  | String a s' => String (if Ascii.eqb c a then d else a) (replace_all c d s')
  end.

(** [s.replace(p, r)] with a string pattern: the first occurrence only. *)
Definition replace_first (s p r : string) : string :=
  match find_s p s with
  | Some n => take_s n s +:+ r +:+ drop_s (n + String.length p) s
  | None => s
  end.

(** [while (c.charAt(0) == ' ') c = c.substring(1)] *)
Fixpoint trim_left (s : string) : string :=
  match s with
  | String " "%char s' => trim_left s'
  | _ => s
  end.

Fixpoint repeat_s (n : nat) (c : ascii) : string :=
  match n with 0 => "" | S n' => String c (repeat_s n' c) end.

(** ** Lemmas *)

Lemma app_cons a s t : String a s +:+ t = String a (s +:+ t).
Proof. done. Qed.

Lemma app_nil_l s : "" +:+ s = s.
Proof. done. Qed.

Lemma app_nil_r s : s +:+ "" = s.
Proof. induction s as [|a s IH]; [done|]. by rewrite app_cons, IH. Qed.

Lemma app_assoc_s s t u : (s +:+ t) +:+ u = s +:+ (t +:+ u).
Proof. induction s as [|a s IH]; [done|]. by rewrite !app_cons, IH. Qed.

Lemma length_app_s s t : String.length (s +:+ t) = String.length s + String.length t.
Proof. induction s as [|a s IH]; [done|]. rewrite app_cons. simpl. by rewrite IH. Qed.

Lemma occurs_app c s t : occurs c (s +:+ t) = occurs c s || occurs c t.
Proof.
  induction s as [|a s IH]; [done|]. rewrite app_cons. simpl.
  by rewrite IH, orb_assoc.
Qed.

Lemma forall_chars_app p s t :
  forall_chars p (s +:+ t) = forall_chars p s && forall_chars p t.
Proof.
  induction s as [|a s IH]; [done|]. rewrite app_cons. simpl.
  by rewrite IH, andb_assoc.
Qed.

Lemma forall_chars_impl (p q : ascii → bool) s :
  (∀ a, p a = true → q a = true) → forall_chars p s = true → forall_chars q s = true.
Proof.
  intros Hpq. induction s as [|a s IH]; [done|]. simpl.
  rewrite !andb_true_iff. intros [??]; split; auto.
Qed.

Lemma forall_chars_not_occurs p c s :
  p c = false → forall_chars p s = true → occurs c s = false.
Proof.
  intros Hc. induction s as [|a s IH]; [done|]. simpl.
  intros [Ha Hs]%andb_true_iff. rewrite IH by done. rewrite orb_false_r.
  destruct (Ascii.eqb_spec c a); congruence.
Qed.

Lemma starts_with_app p s : starts_with p (p +:+ s) = true.
Proof. induction p as [|a p IH]; [done|]. rewrite app_cons. simpl. by rewrite Ascii.eqb_refl. Qed.

Lemma starts_with_spec p s : starts_with p s = true ↔ ∃ t, s = p +:+ t.
Proof.
  split.
  - revert s. induction p as [|a p IH]; intros s; [by exists s|].
    destruct s as [|b s]; [done|]. simpl.
    intros [->%Ascii.eqb_eq [t ->]%IH]%andb_true_iff. by exists t.
  - intros [t ->]. apply starts_with_app.
Qed.

Lemma take_s_app s t : take_s (String.length s) (s +:+ t) = s.
Proof. induction s as [|a s IH]; [done|]. rewrite app_cons. simpl. by rewrite IH. Qed.

Lemma drop_s_app s t : drop_s (String.length s) (s +:+ t) = t.
Proof. induction s as [|a s IH]; [done|]. rewrite app_cons. simpl. done. Qed.

Lemma take_drop_s n s : take_s n s +:+ drop_s n s = s.
Proof.
  revert s. induction n as [|n IH]; intros [|a s]; try done.
  simpl. by rewrite app_cons, IH.
Qed.

Lemma take_s_all n s : String.length s ≤ n → take_s n s = s.
Proof.
  revert s. induction n as [|n IH]; intros [|a s]; simpl; try done; intros; [lia|].
  f_equal. apply IH. lia.
Qed.

Lemma length_take_s n s : String.length (take_s n s) = Nat.min n (String.length s).
Proof. revert s. induction n as [|n IH]; intros [|a s]; simpl; auto. Qed.

Lemma length_drop_s n s : String.length (drop_s n s) = String.length s - n.
Proof. revert s. induction n as [|n IH]; intros [|a s]; simpl; auto. Qed.

Lemma drop_s_ge n s : String.length s ≤ n → drop_s n s = "".
Proof.
  revert s. induction n as [|n IH]; intros [|a s]; simpl; try done; intros; [lia|].
  apply IH. lia.
Qed.

Lemma drop_s_app_le n s t :
  n ≤ String.length s → drop_s n (s +:+ t) = drop_s n s +:+ t.
Proof.
  revert s. induction n as [|n IH]; intros [|a s]; simpl; try done; intros; [lia|].
  apply IH. lia.
Qed.

Lemma occurs_drop_s c n s : occurs c s = false → occurs c (drop_s n s) = false.
Proof.
  intros H. rewrite <- (take_drop_s n s), occurs_app in H.
  by apply orb_false_iff in H as [_ ?].
Qed.

Lemma find_s_None_char c s : occurs c s = false → find_s (String c "") s = None.
Proof.
  induction s as [|a s IH]; [done|]. simpl.
  intros [Ha Hs]%orb_false_iff. by rewrite Ha, IH.
Qed.

Lemma find_s_first_char c s t :
  occurs c s = false → find_s (String c "") (s +:+ String c t) = Some (String.length s).
Proof.
  induction s as [|a s IH]; simpl.
  - by rewrite Ascii.eqb_refl.
  - intros [Ha Hs]%orb_false_iff. by rewrite Ha, IH.
Qed.

Lemma find_s_Some p s n :
  find_s p s = Some n → s = take_s n s +:+ p +:+ drop_s (n + String.length p) s.
Proof.
  revert n. induction s as [|a s IH]; intros n.
  - simpl. destruct p; [|done]. simpl. by intros [= <-].
  - simpl. destruct (starts_with p (String a s)) eqn:Hp.
    + intros [= <-]. apply starts_with_spec in Hp as [t ->]. simpl.
      by rewrite drop_s_app.
    + intros (m & Hm & ->)%fmap_Some. simpl. rewrite app_cons. f_equal. by apply IH.
Qed.

Lemma indexOf_absent c s : occurs c s = false → indexOf s (String c "") = (-1)%Z.
Proof. intros H. unfold indexOf. by rewrite find_s_None_char. Qed.

Lemma indexOf_first c s t :
  occurs c s = false → indexOf (s +:+ String c t) (String c "") = length_s s.
Proof. intros H. unfold indexOf. by rewrite find_s_first_char. Qed.

Lemma length_s_app s t : length_s (s +:+ t) = (length_s s + length_s t)%Z.
Proof. unfold length_s. rewrite length_app_s. lia. Qed.

Lemma length_s_nonneg s : (0 ≤ length_s s)%Z.
Proof. unfold length_s. lia. Qed.

Lemma substring_prefix s t : substring (s +:+ t) 0 (length_s s) = s.
Proof.
  unfold substring. rewrite length_s_app.
  pose proof (length_s_nonneg s). pose proof (length_s_nonneg t).
  replace (Z.to_nat _ - Z.to_nat _) with (String.length s) by (unfold length_s in *; lia).
  replace (Z.to_nat _) with 0 by (unfold length_s in *; lia).
  apply take_s_app.
Qed.

Lemma substring_all s : substring s 0 (length_s s) = s.
Proof. rewrite <- (app_nil_r s) at 1. apply substring_prefix. Qed.

Lemma substring_from_app s t : substring_from (s +:+ t) (length_s s) = t.
Proof.
  unfold substring_from, substring. rewrite length_s_app.
  pose proof (length_s_nonneg s). pose proof (length_s_nonneg t).
  replace (Z.to_nat (Z.min _ _)) with (String.length s) by (unfold length_s in *; lia).
  rewrite drop_s_app. apply take_s_all. unfold length_s in *. lia.
Qed.

Lemma split_nonempty c s : split c s ≠ [].
Proof. destruct s as [|a s]; simpl; repeat case_match; done. Qed.

Lemma join_cons sep w ws : ws ≠ [] → join sep (w :: ws) = w +:+ sep +:+ join sep ws.
Proof. by destruct ws. Qed.

(** Splitting and joining with the same separator are inverse. *)
Lemma join_split c s : join (String c "") (split c s) = s.
Proof.
  induction s as [|a s IH]; [done|]. simpl.
  destruct (Ascii.eqb_spec c a) as [->|Hne].
  - rewrite join_cons by apply split_nonempty. by rewrite IH.
  - destruct (split c s) as [|w ws] eqn:E; [by destruct (split_nonempty c s)|].
    rewrite <- IH. by destruct ws.
Qed.

Lemma split_no_sep c s : occurs c s = false → split c s = [s].
Proof.
  induction s as [|a s IH]; [done|]. simpl.
  intros [-> Hs]%orb_false_iff. by rewrite IH.
Qed.

Fixpoint count_char (c : ascii) (s : string) : nat :=
  match s with "" => 0 | String a s' => (if Ascii.eqb c a then 1 else 0) + count_char c s' end.

Lemma length_split c s : length (split c s) = S (count_char c s).
Proof.
  induction s as [|a s IH]; [done|]. simpl. destruct (Ascii.eqb c a); simpl; [by rewrite IH|].
  destruct (split c s) eqn:E; simpl in *; lia.
Qed.

Lemma count_char_app c s t : count_char c (s +:+ t) = count_char c s + count_char c t.
Proof. induction s as [|a s IH]; [done|]. rewrite app_cons. simpl. rewrite IH. lia. Qed.

Lemma count_char_occurs c s : occurs c s = true → 1 ≤ count_char c s.
Proof. induction s as [|a s IH]; [done|]. simpl. destruct (Ascii.eqb c a); simpl; [lia|auto]. Qed.

Lemma split_app c s t : occurs c s = false → split c (s +:+ String c t) = s :: split c t.
Proof.
  induction s as [|a s IH]; simpl.
  - by rewrite Ascii.eqb_refl.
  - intros [Ha Hs]%orb_false_iff. by rewrite Ha, IH.
Qed.

Lemma split_join c l :
  l ≠ [] → Forall (λ w, occurs c w = false) l → split c (join (String c "") l) = l.
Proof.
  intros Hl HF. induction HF as [|w ws Hw Hws IH]; [done|].
  destruct ws as [|w' ws']; [by apply split_no_sep|].
  rewrite join_cons, app_cons, app_nil_l, split_app by done. by rewrite IH.
Qed.

Lemma split_pieces_no_sep c s : Forall (λ w, occurs c w = false) (split c s).
Proof.
  induction s as [|a s IH]; simpl; [by repeat constructor|].
  destruct (Ascii.eqb c a) eqn:E; [by constructor|].
  destruct (split c s) as [|w ws]; [repeat constructor; simpl; by rewrite E|].
  inversion IH; subst. constructor; [|done]. simpl. by rewrite E.
Qed.

Lemma join_app sep l1 l2 :
  l1 ≠ [] → l2 ≠ [] → join sep (l1 ++ l2) = join sep l1 +:+ sep +:+ join sep l2.
Proof.
  intros H1 H2. induction l1 as [|w l1 IH]; [done|].
  destruct l1 as [|w' l1]; simpl app; [by rewrite join_cons|].
  rewrite (join_cons sep w (w' :: l1 ++ l2)), (join_cons sep w (w' :: l1)) by done.
  rewrite <- app_comm_cons in IH. rewrite IH by done. by rewrite !app_assoc_s.
Qed.

Lemma length_replace_all c d s : String.length (replace_all c d s) = String.length s.
Proof. induction s as [|a s IH]; simpl; auto. Qed.

Lemma replace_all_absent c d s : occurs c s = false → replace_all c d s = s.
Proof.
  induction s as [|a s IH]; [done|]. simpl.
  intros [-> Hs]%orb_false_iff. by rewrite IH.
Qed.

Lemma replace_all_app c d s t : replace_all c d (s +:+ t) = replace_all c d s +:+ replace_all c d t.
Proof. induction s as [|a s IH]; [done|]. rewrite app_cons. simpl. by rewrite app_cons, IH. Qed.

(** A literal pattern with a character the string does not have never matches. *)
Lemma find_s_None_occurs c p s :
  occurs c p = true → occurs c s = false → find_s p s = None.
Proof.
  intros Hp Hs. destruct (find_s p s) as [n|] eqn:E; [|done].
  apply find_s_Some in E. rewrite E, !occurs_app, Hp, orb_true_r in Hs. done.
Qed.

Lemma replace_first_absent c p r s :
  occurs c p = true → occurs c s = false → replace_first s p r = s.
Proof. intros Hp Hs. unfold replace_first. by rewrite (find_s_None_occurs c). Qed.

End JsString.

Create Rewrite HintDb js_string.
#[export] Hint Rewrite JsString.app_nil_l JsString.app_nil_r JsString.app_assoc_s
  JsString.app_cons : js_string.
