(* ===== verification/Uri.v ===== *)
(** UTF-8, [encodeURIComponent], [decodeURIComponent] and [escape].

    A JavaScript string is its UTF-8 encoding (see [JsString]).  A string of code
    units below 256, which is what [atob] returns and [escape] reads, is a
    [latin1]: one [ascii] per code unit. *)

From S2P Require Import Prelude JsString.
Import JsString.

Module Uri.

(** *** Bytes *)

Definition code (a : ascii) : nat := nat_of_ascii a.

Definition is_upper (a : ascii) : bool := (65 <=? code a) && (code a <=? 90).
Definition is_lower (a : ascii) : bool := (97 <=? code a) && (code a <=? 122).
Definition is_digit (a : ascii) : bool := (48 <=? code a) && (code a <=? 57).
Definition is_alnum (a : ascii) : bool := is_upper a || is_lower a || is_digit a.

(** [encodeURIComponent] keeps A-Z a-z 0-9 - _ . ! ~ * ' ( ) *)
Definition uri_unreserved (a : ascii) : bool :=
  is_alnum a || occurs a "-_.!~*'()".

(** [escape] keeps A-Z a-z 0-9 @ * _ + - . / *)
Definition escape_unreserved (a : ascii) : bool :=
  is_alnum a || occurs a "@*_+-./".

Definition hex_digit (n : nat) : ascii :=
  ascii_of_nat (if n <? 10 then 48 + n else 55 + n).

Definition hex_value (a : ascii) : option nat :=
  let n := code a in
  if is_digit a then Some (n - 48)
  else if (65 <=? n) && (n <=? 70) then Some (n - 55)
  else if (97 <=? n) && (n <=? 102) then Some (n - 87)
  else None.

Definition percent (a : ascii) : string :=
  String "%" (String (hex_digit (code a / 16)) (String (hex_digit (code a mod 16)) "")).

Fixpoint percent_encode (keep : ascii → bool) (s : string) : string :=
  match s with
  | "" => ""
  | String a s' =>
      (if keep a then String a "" else percent a) +:+ percent_encode keep s'
  end.

(** *** UTF-8 validity (RFC 3629), as [decodeURIComponent] checks it *)

Definition cont_byte (a : ascii) : bool := (128 <=? code a) && (code a <=? 191).

Fixpoint utf8_valid (s : string) : bool :=
  match s with
  | "" => true
  | String a s1 =>
      let n := code a in
      if n <? 128 then utf8_valid s1
      else if (194 <=? n) && (n <=? 223) then
        match s1 with
        | String b s2 => cont_byte b && utf8_valid s2
        | _ => false
        end
      else if (224 <=? n) && (n <=? 239) then
        match s1 with
        | String b (String c s3) =>
            cont_byte b && cont_byte c
            && (if n =? 224 then 160 <=? code b else true)
            && (if n =? 237 then code b <=? 159 else true)
            && utf8_valid s3
        | _ => false
        end
      else if (240 <=? n) && (n <=? 244) then
        match s1 with
        | String b (String c (String d s4)) =>
            cont_byte b && cont_byte c && cont_byte d
            && (if n =? 240 then 144 <=? code b else true)
            && (if n =? 244 then code b <=? 143 else true)
            && utf8_valid s4
        | _ => false
        end
      else false
  end.

(** *** The two global functions *)

Definition encodeURIComponent (s : string) : string := percent_encode uri_unreserved s.

Fixpoint percent_decode (s : string) : option string :=
  match s with
  | "" => Some ""
  | String "%"%char (String h (String l s')) =>
      h' ← hex_value h; l' ← hex_value l;
      String (ascii_of_nat (16 * h' + l')) <$> percent_decode s'
  | String "%"%char _ => None
  | String a s' => String a <$> percent_decode s'
  end.

Definition decodeURIComponent (s : string) : outcome string :=
  match percent_decode s with
  | Some t => if utf8_valid t then Returns t else Throws URIError
  | None => Throws URIError
  end.

Inductive latin1 := Latin1 (units : string).

Definition units (l : latin1) : string := let 'Latin1 u := l in u.

Definition escape (l : latin1) : string := percent_encode escape_unreserved (units l).

(** The code units of a string all of whose units are below 256; [btoa] throws
    on any other string. *)
Fixpoint to_latin1 (s : string) : option string :=
  match s with
  | "" => Some ""
  | String a s1 =>
      let n := code a in
      if n <? 128 then String a <$> to_latin1 s1
      else match s1 with
           | String b s2 =>
               if ((n =? 194) || (n =? 195)) && cont_byte b then
                 String (ascii_of_nat (64 * (n - 192) + (code b - 128))) <$> to_latin1 s2
               else None
           | _ => None
           end
  end.

(** ** Lemmas *)

Lemma code_lt a : code a < 256.
Proof. unfold code. apply nat_ascii_bounded. Qed.

Lemma ascii_code a : ascii_of_nat (code a) = a.
Proof. apply ascii_nat_embedding. Qed.

(** Facts about one byte are checked on all 256 of them. *)
Definition all_bytes (p : ascii → bool) : bool :=
  forallb (λ n, p (ascii_of_nat n)) (seq 0 256).

Lemma all_bytes_spec p a : all_bytes p = true → p a = true.
Proof.
  unfold all_bytes. rewrite forallb_forall. intros H.
  rewrite <- (ascii_code a). apply H, in_seq. pose proof (code_lt a). lia.
Qed.

Lemma hex_percent a :
  (hex_value (hex_digit (code a / 16)) = Some (code a / 16)) ∧
  (hex_value (hex_digit (code a mod 16)) = Some (code a mod 16)).
Proof.
  set (p a := bool_decide (hex_value (hex_digit (code a / 16)) = Some (code a / 16)) &&
              bool_decide (hex_value (hex_digit (code a mod 16)) = Some (code a mod 16))).
  assert (p a = true) as H by (apply all_bytes_spec; vm_compute; reflexivity).
  unfold p in H. apply andb_true_iff in H as [H1 H2].
  split; by eapply bool_decide_eq_true_1.
Qed.

Lemma percent_decode_percent a s :
  percent_decode (percent a +:+ s) = String a <$> percent_decode s.
Proof.
  unfold percent. destruct (hex_percent a) as [H1 H2].
  rewrite !app_cons, app_nil_l.
  change (percent_decode (String "%" (String ?h (String ?l s)))) with
    (h' ← hex_value h; l' ← hex_value l;
     String (ascii_of_nat (16 * h' + l')) <$> percent_decode s).
  rewrite H1, H2. cbn [mbind option_bind].
  by rewrite <- Nat.div_mod_eq, ascii_code.
Qed.

Lemma percent_decode_keep a s :
  a ≠ "%"%char → percent_decode (String a s) = String a <$> percent_decode s.
Proof.
  intros Ha. destruct a as [[] [] [] [] [] [] [] []]; try done.
Qed.

(** Percent-encoding is inverted whatever is kept, as long as % is not. *)
Lemma percent_decode_encode keep s :
  keep "%"%char = false → percent_decode (percent_encode keep s) = Some s.
Proof.
  intros Hk. induction s as [|a s IH]; [done|]. simpl.
  destruct (keep a) eqn:Ha.
  - rewrite app_cons, app_nil_l, percent_decode_keep by congruence. by rewrite IH.
  - rewrite percent_decode_percent. by rewrite IH.
Qed.

Lemma decode_escape b :
  decodeURIComponent (escape (Latin1 b)) =
  if utf8_valid b then Returns b else Throws URIError.
Proof. unfold decodeURIComponent, escape. by rewrite percent_decode_encode. Qed.

Lemma decode_encode s :
  utf8_valid s = true → decodeURIComponent (encodeURIComponent s) = Returns s.
Proof.
  intros H. unfold decodeURIComponent, encodeURIComponent.
  by rewrite percent_decode_encode, H.
Qed.

(** What [encodeURIComponent] emits: unreserved characters and % only. *)
Lemma percent_chars (p : ascii → bool) :
  p "%"%char = true → (∀ a, is_digit a || is_upper a = true → p a = true) →
  ∀ a, forall_chars p (percent a) = true.
Proof.
  intros Hp Hh a. unfold percent. cbn [forall_chars]. rewrite Hp.
  assert (is_digit (hex_digit (code a / 16)) || is_upper (hex_digit (code a / 16)) = true
    ∧ is_digit (hex_digit (code a mod 16)) || is_upper (hex_digit (code a mod 16)) = true)
    as [H1 H2].
  { apply andb_true_iff.
    apply (all_bytes_spec (λ a, (is_digit (hex_digit (code a / 16)) || is_upper (hex_digit (code a / 16)))
      && (is_digit (hex_digit (code a mod 16)) || is_upper (hex_digit (code a mod 16))))).
    vm_compute. reflexivity. }
  by rewrite (Hh _ H1), (Hh _ H2).
Qed.

Definition uri_char (a : ascii) : bool := uri_unreserved a || Ascii.eqb a "%".

Lemma encodeURIComponent_chars s : forall_chars uri_char (encodeURIComponent s) = true.
Proof.
  unfold encodeURIComponent. induction s as [|a s IH]; [done|]. simpl.
  rewrite forall_chars_app, IH, andb_true_r.
  destruct (uri_unreserved a) eqn:Ha.
  - simpl. unfold uri_char. by rewrite Ha.
  - apply percent_chars; [done|]. intros b Hb. unfold uri_char, uri_unreserved, is_alnum.
    destruct (is_upper b), (is_digit b); simpl in *; by rewrite ?orb_true_r.
Qed.

(** No delimiter of a URL's query survives encoding. *)
Lemma encodeURIComponent_no_delim c s :
  uri_char c = false → occurs c (encodeURIComponent s) = false.
Proof. intros H. eapply forall_chars_not_occurs; [done|]. apply encodeURIComponent_chars. Qed.

Lemma encodeURIComponent_fixed s :
  forall_chars uri_unreserved s = true → encodeURIComponent s = s.
Proof.
  unfold encodeURIComponent. induction s as [|a s IH]; [done|]. simpl.
  intros [Ha Hs]%andb_true_iff. by rewrite Ha, IH.
Qed.

Lemma encodeURIComponent_inj s t : encodeURIComponent s = encodeURIComponent t → s = t.
Proof.
  intros H%(f_equal percent_decode). unfold encodeURIComponent in H.
  rewrite !percent_decode_encode in H by done. congruence.
Qed.

Lemma utf8_valid_ascii s :
  forall_chars (λ a, code a <? 128) s = true → utf8_valid s = true.
Proof. induction s as [|a s IH]; [done|]. simpl. intros [-> ?]%andb_true_iff. auto. Qed.

End Uri.
