(* ===== verification/Base64.v ===== *)
(** [atob] and [btoa] (the forgiving base64 decoding of the WHATWG Infra
    standard), and the base64url encoding of RFC 7515 in which the parts of a
    token are written. *)

From Stdlib Require Import Zify ZifyNat.
From S2P Require Import Prelude JsString Uri.
Import JsString Uri.

#[local] Ltac Zify.zify_post_hook ::= Z.div_mod_to_equations.

Module Base64.

Definition b64_char (n : nat) : ascii :=
  ascii_of_nat (if n <? 26 then 65 + n
                else if n <? 52 then 71 + n
                else if n <? 62 then n - 4
                else if n =? 62 then 43 else 47).

Definition b64_value (a : ascii) : option nat :=
  let n := code a in
  if is_upper a then Some (n - 65)
  else if is_lower a then Some (n - 71)
  else if is_digit a then Some (n + 4)
  else if n =? 43 then Some 62
  else if n =? 47 then Some 63
  else None.

(** *** Encoding *)

Definition group2 (a : nat) : string :=
  String (b64_char (a / 4)) (String (b64_char (a mod 4 * 16)) "").

Definition group3 (a b : nat) : string :=
  String (b64_char (a / 4)) (String (b64_char (a mod 4 * 16 + b / 16))
    (String (b64_char (b mod 16 * 4)) "")).

Definition group4 (a b c : nat) : string :=
  String (b64_char (a / 4)) (String (b64_char (a mod 4 * 16 + b / 16))
    (String (b64_char (b mod 16 * 4 + c / 64)) (String (b64_char (c mod 64)) ""))).

Fixpoint b64_digits (s : string) : string :=
  match s with
  | "" => ""
  | String a "" => group2 (code a)
  | String a (String b "") => group3 (code a) (code b)
  | String a (String b (String c s')) => group4 (code a) (code b) (code c) +:+ b64_digits s'
  end.

Definition b64_padding (s : string) : string :=
  match String.length s mod 3 with
  | 1 => "=="
  | 2 => "="
  | _ => ""
  end.

Definition b64_encode (s : string) : string := b64_digits s +:+ b64_padding s.

(** [btoa(s)] *)
Definition btoa (s : string) : outcome string :=
  match to_latin1 s with
  | Some u => Returns (b64_encode u)
  | None => Throws InvalidCharacterError
  end.

(** *** Decoding *)

Fixpoint b64_decode (s : string) : option string :=
  match s with
  | "" => Some ""
  | String _ "" => None
  | String a (String b "") =>
      x ← b64_value a; y ← b64_value b;
      Some (String (ascii_of_nat (x * 4 + y / 16)) "")
  | String a (String b (String c "")) =>
      x ← b64_value a; y ← b64_value b; z ← b64_value c;
      Some (String (ascii_of_nat (x * 4 + y / 16))
             (String (ascii_of_nat (y mod 16 * 16 + z / 4)) ""))
  | String a (String b (String c (String d s'))) =>
      x ← b64_value a; y ← b64_value b; z ← b64_value c; w ← b64_value d;
      t ← b64_decode s';
      Some (String (ascii_of_nat (x * 4 + y / 16))
             (String (ascii_of_nat (y mod 16 * 16 + z / 4))
               (String (ascii_of_nat (z mod 4 * 64 + w)) t)))
  end.

Definition is_ws (a : ascii) : bool :=
  match code a with 9 | 10 | 12 | 13 | 32 => true | _ => false end.

Fixpoint strip_ws (s : string) : string :=
  match s with
  | "" => ""
  | String a s' => if is_ws a then strip_ws s' else String a (strip_ws s')
  end.

(** One or two trailing = are dropped when the length is a multiple of four. *)
Definition strip_pad (s : string) : string :=
  let n := String.length s in
  if n mod 4 =? 0 then
    if String.eqb (drop_s (n - 2) s) "==" then take_s (n - 2) s
    else if String.eqb (drop_s (n - 1) s) "=" then take_s (n - 1) s
    else s
  else s.

(** [atob(s)] *)
Definition atob (s : string) : outcome latin1 :=
  match b64_decode (strip_pad (strip_ws s)) with
  | Some u => Returns (Latin1 u)
  | None => Throws InvalidCharacterError
  end.

(** *** base64url without padding *)

Definition b64url (s : string) : string :=
  replace_all "/" "_" (replace_all "+" "-" (b64_digits s)).

(** ** Lemmas *)

Lemma b64_value_char n : n < 64 → b64_value (b64_char n) = Some n.
Proof.
  intros Hn. assert (forallb (λ n, bool_decide (b64_value (b64_char n) = Some n)) (seq 0 64) = true)
    as H by (vm_compute; reflexivity).
  rewrite forallb_forall in H. apply (bool_decide_eq_true_1 _), H, in_seq. lia.
Qed.

(** The characters of base64 digits. *)
Definition b64_digit (a : ascii) : bool := is_alnum a || Ascii.eqb a "+" || Ascii.eqb a "/".

Lemma b64_char_digit n : n < 64 → b64_digit (b64_char n) = true.
Proof.
  intros Hn. assert (forallb (λ n, b64_digit (b64_char n)) (seq 0 64) = true)
    as H by (vm_compute; reflexivity).
  rewrite forallb_forall in H. apply H, in_seq. lia.
Qed.

(** Induction on a string three characters at a time. *)
Lemma string_ind3 (P : string → Prop) :
  P "" → (∀ a, P (String a "")) → (∀ a b, P (String a (String b ""))) →
  (∀ a b c s, P s → P (String a (String b (String c s)))) → ∀ s, P s.
Proof.
  intros H0 H1 H2 H3. fix IH 1. intros [|a [|b [|c s]]]; [exact H0|exact (H1 a)|exact (H2 a b)|].
  exact (H3 a b c s (IH s)).
Qed.

#[local] Ltac b64_bytes :=
  repeat match goal with
  | a : ascii |- _ =>
      lazymatch goal with
      | _ : code a < 256 |- _ => fail
      | _ => pose proof (code_lt a)
      end
  end.

Lemma b64_decode_group4 a b c s :
  b64_decode (group4 (code a) (code b) (code c) +:+ s) =
  (t ← b64_decode s; Some (String a (String b (String c t)))).
Proof.
  b64_bytes. unfold group4. rewrite !app_cons, app_nil_l. cbn [b64_decode].
  rewrite !b64_value_char by lia. cbn [mbind option_bind].
  destruct (b64_decode s) as [t|]; [|done]. cbn [mbind option_bind].
  do 2 f_equal; [|f_equal; [|f_equal]];
    (etrans; [|apply ascii_code]; f_equal; lia).
Qed.

(** Digits decode to the bytes they encode. *)
Lemma b64_decode_digits s : b64_decode (b64_digits s) = Some s.
Proof.
  induction s as [|a|a b|a b c s IH] using string_ind3; [done| | |].
  - b64_bytes. unfold b64_digits, group2. cbn [b64_decode].
    rewrite !b64_value_char by lia. cbn [mbind option_bind].
    do 2 f_equal. etrans; [|apply ascii_code]. f_equal. lia.
  - b64_bytes. unfold b64_digits, group3. cbn [b64_decode].
    rewrite !b64_value_char by lia. cbn [mbind option_bind].
    do 2 f_equal; [|f_equal]; (etrans; [|apply ascii_code]; f_equal; lia).
  - change (b64_digits _) with (group4 (code a) (code b) (code c) +:+ b64_digits s).
    by rewrite b64_decode_group4, IH.
Qed.

Lemma b64_digits_chars s : forall_chars b64_digit (b64_digits s) = true.
Proof.
  induction s as [|a|a b|a b c s IH] using string_ind3; [done| | |]; b64_bytes.
  - unfold b64_digits, group2. cbn [forall_chars].
    rewrite !b64_char_digit by lia. done.
  - unfold b64_digits, group3. cbn [forall_chars].
    rewrite !b64_char_digit by lia. done.
  - change (b64_digits _) with (group4 (code a) (code b) (code c) +:+ b64_digits s).
    rewrite forall_chars_app, IH. unfold group4. cbn [forall_chars].
    rewrite !b64_char_digit by lia. done.
Qed.

(** The number of digits, which is what [decodeToken] tests. *)
Lemma length_b64_digits s :
  String.length (b64_digits s) mod 4 =
  match String.length s mod 3 with 1 => 2 | 2 => 3 | _ => 0 end.
Proof.
  induction s as [|a|a b|a b c s IH] using string_ind3; [done..|].
  change (b64_digits _) with (group4 (code a) (code b) (code c) +:+ b64_digits s).
  rewrite length_app_s. cbn [String.length group4].
  replace (S (S (S (String.length s)))) with (String.length s + 1 * 3) by lia.
  rewrite Nat.Div0.mod_add, <- IH.
  replace (4 + String.length (b64_digits s)) with (String.length (b64_digits s) + 1 * 4) by lia.
  apply Nat.Div0.mod_add.
Qed.

Lemma length_b64_encode s : String.length (b64_encode s) mod 4 = 0.
Proof.
  unfold b64_encode, b64_padding. rewrite length_app_s.
  pose proof (length_b64_digits s) as H.
  pose proof (Nat.mod_upper_bound (String.length s) 3).
  destruct (String.length s mod 3) as [|[|[|]]]; cbv beta iota in H;
    cbn [String.length]; lia.
Qed.

Lemma strip_ws_id s : forall_chars (λ a, negb (is_ws a)) s = true → strip_ws s = s.
Proof.
  induction s as [|a s IH]; [done|]. simpl.
  intros [Ha%negb_true_iff Hs]%andb_true_iff. by rewrite Ha, IH.
Qed.

Lemma b64_digit_facts a :
  b64_digit a = true → is_ws a = false ∧ Ascii.eqb a "=" = false ∧
  Ascii.eqb a "-" = false ∧ Ascii.eqb a "_" = false ∧ Ascii.eqb a "." = false.
Proof.
  intros Ha.
  assert (implb (b64_digit a) (negb (is_ws a) && negb (Ascii.eqb a "=")
    && negb (Ascii.eqb a "-") && negb (Ascii.eqb a "_") && negb (Ascii.eqb a ".")) = true) as H.
  { apply (all_bytes_spec (λ a, implb (b64_digit a) (negb (is_ws a) && negb (Ascii.eqb a "=")
      && negb (Ascii.eqb a "-") && negb (Ascii.eqb a "_") && negb (Ascii.eqb a ".")))).
    vm_compute. reflexivity. }
  rewrite Ha in H. cbn [implb] in H.
  rewrite !andb_true_iff, !negb_true_iff in H. tauto.
Qed.

Lemma b64_digits_not_occurs c s :
  b64_digit c = false → occurs c (b64_digits s) = false.
Proof. intros H. eapply forall_chars_not_occurs; [done|]. apply b64_digits_chars. Qed.

Lemma drop_b64_digits_no_pad k s t p :
  drop_s k (b64_digits s) = t → occurs "=" t = true → p.
Proof.
  intros <- H. by rewrite occurs_drop_s in H by by apply b64_digits_not_occurs.
Qed.

(** Dropping the padding of an encoding leaves its digits. *)
Lemma strip_pad_encode s : strip_pad (b64_encode s) = b64_digits s.
Proof.
  unfold strip_pad. rewrite length_b64_encode. cbn [Nat.eqb].
  pose proof (length_b64_digits s) as HL.
  pose proof (Nat.mod_upper_bound (String.length s) 3).
  unfold b64_encode, b64_padding. rewrite length_app_s.
  destruct (String.length s mod 3) as [|[|[|]]]; [| | |lia]; cbn [String.length].
  - rewrite Nat.add_0_r, app_nil_r.
    destruct (String.eqb_spec (drop_s (String.length (b64_digits s) - 2) (b64_digits s)) "==")
      as [E|_]; [by eapply drop_b64_digits_no_pad in E|].
    destruct (String.eqb_spec (drop_s (String.length (b64_digits s) - 1) (b64_digits s)) "=")
      as [E|_]; [by eapply drop_b64_digits_no_pad in E|done].
  - rewrite Nat.add_sub, drop_s_app. apply take_s_app.
  - rewrite Nat.add_sub, drop_s_app.
    rewrite drop_s_app_le by lia.
    destruct (String.eqb_spec (drop_s (String.length (b64_digits s) + 1 - 2)
      (b64_digits s) +:+ "=") "==") as [E|_]; [|apply take_s_app].
    destruct (drop_s (String.length (b64_digits s) + 1 - 2) (b64_digits s)) as [|a t] eqn:ED; [done|].
    rewrite app_cons in E. injection E as -> _.
    by eapply drop_b64_digits_no_pad in ED.
Qed.

(** [atob] inverts [btoa] on every binary string. *)
Lemma atob_encode s : atob (b64_encode s) = Returns (Latin1 s).
Proof.
  unfold atob. rewrite strip_ws_id.
  - by rewrite strip_pad_encode, b64_decode_digits.
  - unfold b64_encode. rewrite forall_chars_app. apply andb_true_iff. split.
    + eapply forall_chars_impl; [|apply b64_digits_chars].
      intros a Ha. simpl. by destruct (b64_digit_facts a Ha) as [-> _].
    + unfold b64_padding. by repeat case_match.
Qed.

Lemma replace_all_undo c d s : occurs d s = false → replace_all d c (replace_all c d s) = s.
Proof.
  induction s as [|a s IH]; [done|]. simpl.
  intros [Ha Hs]%orb_false_iff. rewrite IH by done. f_equal.
  destruct (Ascii.eqb_spec c a) as [->|]; [by rewrite Ascii.eqb_refl | by rewrite Ha].
Qed.

Lemma occurs_replace_all e c d s :
  Ascii.eqb e d = false → occurs e s = false → occurs e (replace_all c d s) = false.
Proof.
  intros Hd. induction s as [|a s IH]; [done|]. simpl.
  intros [Ha Hs]%orb_false_iff. rewrite IH by done.
  destruct (Ascii.eqb c a); by rewrite ?Hd, ?Ha.
Qed.

Lemma occurs_replaced c d s : Ascii.eqb c d = false → occurs c (replace_all c d s) = false.
Proof.
  intros Hd. induction s as [|a s IH]; [done|]. simpl. rewrite IH, orb_false_r.
  destruct (Ascii.eqb c a) eqn:E; [done|by rewrite E].
Qed.

Lemma length_b64url s : String.length (b64url s) = String.length (b64_digits s).
Proof. unfold b64url. by rewrite !length_replace_all. Qed.

(** base64url has none of the characters that separate the parts of a token or
    that only the standard alphabet has. *)
Lemma b64url_not_occurs c s :
  b64_digit c = false → Ascii.eqb c "-" = false → Ascii.eqb c "_" = false →
  occurs c (b64url s) = false.
Proof.
  intros H1 H2 H3. unfold b64url.
  apply occurs_replace_all; [done|]. apply occurs_replace_all; [done|].
  by apply b64_digits_not_occurs.
Qed.

Lemma b64url_no_slash s : occurs "/" (b64url s) = false.
Proof. unfold b64url. by apply occurs_replaced. Qed.

(** Mapping the url alphabet back gives the standard digits. *)
Lemma b64url_undo s :
  replace_all "_" "/" (replace_all "-" "+" (b64url s)) = b64_digits s.
Proof.
  unfold b64url.
  assert (∀ t, replace_all "-" "+" (replace_all "/" "_" t) =
               replace_all "/" "_" (replace_all "-" "+" t)) as Hcomm.
  { induction t as [|a t IH]; [done|]. simpl. rewrite IH. f_equal.
    destruct (Ascii.eqb_spec "/" a) as [<-|]; [done|].
    destruct (Ascii.eqb_spec "-" a) as [<-|]; [done|].
    by apply Ascii.eqb_neq in n as ->. }
  rewrite Hcomm, !replace_all_undo; [done|..];
    rewrite ?replace_all_undo; by rewrite ?b64_digits_not_occurs.
Qed.

End Base64.
