(* ===== verification/JsValue.v ===== *)
(** JavaScript values, as far as the sources use them: truthiness, property
    reads, the abstract equality [==], and the conversions to string and number.

    Numbers are the integers and [NaN]: every number the sources compute with
    (dates in milliseconds, seconds of token claims, status codes, intervals) is
    an integer.  [Obj] is an ordinary object as an association list in insertion
    order, each key at most once. *)

From Stdlib Require Import DecimalString DecimalZ.
From S2P Require Import Prelude JsString Uri.
Import JsString Uri.

Set Warnings "-register-all".

Module JsValue.

Inductive jsval :=
  | Undefined
  | Null
  | Bool (b : bool)
  | Num (z : Z)
  | NaN
  | Str (s : string)
  | Arr (l : list jsval)
  | Obj (o : list (string * jsval)).

#[global] Instance jsval_inhabited : Inhabited jsval := populate Undefined.

#[global] Instance jsval_eq_dec : EqDecision jsval.
Proof.
  refine (fix go (v w : jsval) : Decision (v = w) :=
    match v, w with
    | Undefined, Undefined | Null, Null | NaN, NaN => left eq_refl
    | Bool b, Bool b' => cast_if (decide (b = b'))
    | Num z, Num z' => cast_if (decide (z = z'))
    | Str s, Str s' => cast_if (decide (s = s'))
    | Arr l, Arr l' => cast_if (@list_eq_dec _ go l l')
    | Obj o, Obj o' => cast_if (@list_eq_dec _ (@prod_eq_dec _ _ _ go) o o')
    | _, _ => right _
    end); clear go; abstract congruence.
Defined.

(** Induction through the elements of arrays and the values of objects. *)
Lemma jsval_ind' (P : jsval → Prop) :
  P Undefined → P Null → (∀ b, P (Bool b)) → (∀ z, P (Num z)) → P NaN → (∀ s, P (Str s)) →
  (∀ l, Forall P l → P (Arr l)) → (∀ o, Forall (λ kv, P kv.2) o → P (Obj o)) → ∀ v, P v.
Proof.
  intros ?????? HArr HObj. fix IH 1. intros [| | b | z | | s | l | o]; [auto..| |].
  - apply HArr. induction l as [|v l IHl]; constructor; [apply IH | exact IHl].
  - apply HObj. induction o as [|[k v] o IHo]; constructor; [apply IH | exact IHo].
Qed.

(** *** Truthiness: [if (v)], [!v], [v && w], [v || w] *)

Definition truthy (v : jsval) : bool :=
  match v with
  | Undefined | Null | NaN => false
  | Bool b => b
  | Num z => negb (z =? 0)%Z
  | Str s => negb (String.eqb s "")
  | Arr _ | Obj _ => true
  end.

Definition js_or (v w : jsval) : jsval := if truthy v then v else w.

(** [v == null], which also holds of [undefined]. *)
Definition is_nullish (v : jsval) : bool :=
  match v with Undefined | Null => true | _ => false end.

Definition is_undefined (v : jsval) : bool :=
  match v with Undefined => true | _ => false end.

(** *** Objects *)

Fixpoint assoc (k : string) (o : list (string * jsval)) : jsval :=
  match o with
  | [] => Undefined
  | (k', v) :: o' => if String.eqb k k' then v else assoc k o'
  end.

(** [o[k] = v] *)
Fixpoint obj_set (k : string) (v : jsval) (o : list (string * jsval)) : list (string * jsval) :=
  match o with
  | [] => [(k, v)]
  | (k', v') :: o' => if String.eqb k k' then (k, v) :: o' else (k', v') :: obj_set k v o'
  end.

(** [v.k] or [v['k']]: reading a property of [undefined] or [null] throws, and the
    primitive values have none of the properties the sources read, [length] of a
    string or an array apart. *)
Definition getp (v : jsval) (k : string) : outcome jsval :=
  match v with
  | Undefined | Null => Throws TypeError
  | Obj o => Returns (assoc k o)
  | Arr l => Returns (if String.eqb k "length" then Num (Z.of_nat (length l)) else Undefined)
  | Str s => Returns (if String.eqb k "length" then Num (length_s s) else Undefined)
  | Bool _ | Num _ | NaN => Returns Undefined
  end.

(** The names every object inherits. *)
Definition objectPrototype : list string :=
  ["constructor"; "hasOwnProperty"; "isPrototypeOf"; "propertyIsEnumerable"; "toLocaleString";
   "toString"; "valueOf"; "__proto__"; "__defineGetter__"; "__defineSetter__";
   "__lookupGetter__"; "__lookupSetter__"].

(** [v[k]] for a name that comes from outside: where [getp] reads names the sources
    write down, none of which is inherited, a computed one may reach
    [Object.prototype].  What is found there, a method or the prototype itself, is
    an object with none of the properties the sources read. *)
Definition getAt (v : jsval) (k : string) : outcome jsval :=
  match v with
  | Obj o => Returns (if bool_decide (k ∈ o.*1) then assoc k o
                      else if bool_decide (k ∈ objectPrototype) then Obj [] else Undefined)
  | _ => getp v k
  end.

(** [v && v.k], for the optional arguments of the interface. *)
Definition optp (v : jsval) (k : string) : jsval :=
  if truthy v then match getp v k with Returns w => w | Throws _ => Undefined end else v.

(** *** Conversions *)

Definition Z_to_string (z : Z) : string := NilZero.string_of_int (Z.to_int z).

(** [String(v)], which is what [+] does to the operand of a string. *)
Fixpoint to_string (v : jsval) : string :=
  match v with
  | Undefined => "undefined"
  | Null => "null"
  | Bool true => "true"
  | Bool false => "false"
  | Num z => Z_to_string z
  | NaN => "NaN"
  | Str s => s
  | Arr l => join "," ((λ x, if is_nullish x then "" else to_string x) <$> l)
  | Obj _ => "[object Object]"
  end.

(** The numeric value of a string: an optionally signed decimal integer, and 0
    for the empty string; every other string is [NaN]. *)
Definition string_to_number (s : string) : option Z :=
  if String.eqb s "" then Some 0%Z
  else Z.of_int <$> NilEmpty.int_of_string s.

(** [Number(v)]; [None] is [NaN]. *)
Definition to_number (v : jsval) : option Z :=
  match v with
  | Undefined | NaN | Arr _ | Obj _ => None
  | Null => Some 0%Z
  | Bool b => Some (if b then 1 else 0)%Z
  | Num z => Some z
  | Str s => string_to_number s
  end.

Definition of_number (n : option Z) : jsval :=
  match n with Some z => Num z | None => NaN end.

(** *** Equality *)

(** [v === w] on primitive values; two objects built at different places are
    never identical. *)
Definition strict_eq (v w : jsval) : bool :=
  match v, w with
  | Undefined, Undefined | Null, Null => true
  | Bool b, Bool b' => Bool.eqb b b'
  | Num z, Num z' => (z =? z')%Z
  | Str s, Str s' => String.eqb s s'
  | _, _ => false
  end.

Definition num_eq (m n : option Z) : bool :=
  match m, n with Some x, Some y => (x =? y)%Z | _, _ => false end.

(** [v == w] *)
Definition loose_eq (v w : jsval) : bool :=
  match v, w with
  | Undefined, _ | Null, _ => is_nullish w
  | _, Undefined | _, Null => false
  | (Arr _ | Obj _), (Arr _ | Obj _) => false
  | (Arr _ | Obj _), Str s => String.eqb (to_string v) s
  | Str s, (Arr _ | Obj _) => String.eqb s (to_string w)
  | (Arr _ | Obj _), _ => num_eq (string_to_number (to_string v)) (to_number w)
  | _, (Arr _ | Obj _) => num_eq (to_number v) (string_to_number (to_string w))
  | Str s, Str s' => String.eqb s s'
  | _, _ => num_eq (to_number v) (to_number w)
  end.

(** [recv.indexOf(x) >= 0] for an array or a string receiver. *)
Definition includes (recv x : jsval) : outcome bool :=
  match recv with
  | Arr l => Returns (existsb (strict_eq x) l)
  | Str s => Returns (negb (indexOf s (to_string x) =? -1)%Z)
  | _ => Throws TypeError
  end.

(** ** Lemmas *)

Lemma truthy_str s : truthy (Str s) = true ↔ s ≠ "".
Proof. simpl. by destruct (String.eqb_spec s ""); split. Qed.

Lemma is_nullish_not_truthy v : is_nullish v = true → truthy v = false.
Proof. by destruct v. Qed.

Lemma assoc_obj_set k v o : assoc k (obj_set k v o) = v.
Proof.
  induction o as [|[k' v'] o IH]; simpl; [by rewrite String.eqb_refl|].
  destruct (String.eqb k k') eqn:E; simpl; [by rewrite String.eqb_refl | by rewrite E].
Qed.

Lemma assoc_obj_set_ne k k' v o : k ≠ k' → assoc k (obj_set k' v o) = assoc k o.
Proof.
  intros Hk. induction o as [|[k'' v''] o IH]; simpl.
  - by destruct (String.eqb_spec k k').
  - destruct (String.eqb_spec k' k'') as [<-|]; simpl.
    + by destruct (String.eqb_spec k k').
    + by rewrite IH.
Qed.

Lemma assoc_notin k o : k ∉ o.*1 → assoc k o = Undefined.
Proof.
  induction o as [|[k' v] o IH]; [done|]. csimpl. rewrite not_elem_of_cons.
  intros [Hk Ho]. destruct (String.eqb_spec k k'); [done|auto].
Qed.

Lemma getAt_own k o : assoc k o ≠ Undefined → getAt (Obj o) k = Returns (assoc k o).
Proof.
  intros Hk. unfold getAt. case_bool_decide as Hin; [done|]. by rewrite assoc_notin in Hk.
Qed.

Lemma getAt_absent k o :
  assoc k o = Undefined → k ∉ objectPrototype → getAt (Obj o) k = Returns Undefined.
Proof. intros Hk Hp. unfold getAt. rewrite Hk. repeat case_bool_decide; done. Qed.

Lemma getAt_inherited k o :
  k ∉ o.*1 → k ∈ objectPrototype → getAt (Obj o) k = Returns (Obj []).
Proof. intros Hk Hp. unfold getAt. by rewrite bool_decide_eq_false_2, bool_decide_eq_true_2. Qed.

Lemma obj_set_fresh k v o : k ∉ o.*1 → obj_set k v o = o ++ [(k, v)].
Proof.
  induction o as [|[k' v'] o IH]; [done|]. csimpl. rewrite not_elem_of_cons.
  intros [Hk Ho]. destruct (String.eqb_spec k k'); [done|]. by rewrite IH.
Qed.

Lemma obj_set_keys k v o : NoDup o.*1 → NoDup (obj_set k v o).*1.
Proof.
  induction o as [|[k' v'] o IH]; csimpl.
  - intros _. apply NoDup_singleton.
  - intros [Hk Ho]%NoDup_cons. destruct (String.eqb_spec k k') as [->|Hne]; csimpl.
    + by constructor.
    + constructor; [|by apply IH].
      intros Hin. apply Hk. clear -Hin Hne.
      induction o as [|[k'' v''] o IH]; csimpl in *.
      * apply list_elem_of_singleton in Hin. congruence.
      * destruct (String.eqb_spec k k''); csimpl in *; rewrite elem_of_cons in *; naive_solver.
Qed.

(** A string that is no number equals, under [==], only itself. *)
Lemma loose_eq_str v s :
  string_to_number s = None → loose_eq v (Str s) = true →
  to_string v = s ∧ is_nullish v = false.
Proof.
  intros Hs. destruct v; simpl; rewrite ?Hs; simpl; try done;
    try (unfold num_eq; case_match; done).
  - intros ->%String.eqb_eq. done.
  - intros <-%String.eqb_eq. done.
  - intros <-%String.eqb_eq. done.
Qed.

Lemma loose_eq_refl_str s : loose_eq (Str s) (Str s) = true.
Proof. apply String.eqb_refl. Qed.

End JsValue.
