(* ===== verification/Json.v ===== *)
(** [JSON.parse] and [JSON.stringify] (ECMA-404).

    [JSON_parse] throws [SyntaxError] on a malformed text.  Two well-formed texts
    have no representation here and end in [NotModelled]: a number with a fraction
    or an exponent, and a string with an unpaired surrogate escape. *)

From Stdlib Require Import DecimalString DecimalZ DecimalFacts.
From S2P Require Import Prelude JsString Uri JsValue.
Import JsString Uri JsValue.

Module Json.

Definition dquote : ascii := "034"%char.
Definition backslash : ascii := "092"%char.

(** *** Printing *)

Definition hex_lower (n : nat) : ascii :=
  ascii_of_nat (if n <? 10 then 48 + n else 87 + n).

Definition quote_char (a : ascii) : string :=
  let esc c := String backslash (String c "") in
  match code a with
  | 34 => esc dquote
  | 92 => esc backslash
  | 8 => esc "b"%char
  | 9 => esc "t"%char
  | 10 => esc "n"%char
  | 12 => esc "f"%char
  | 13 => esc "r"%char
  | n => if n <? 32
         then esc "u"%char +:+ String "0" (String "0" (String (hex_lower (n / 16)) (String (hex_lower (n mod 16)) "")))
         else String a ""
  end.

Fixpoint quote_body (s : string) : string :=
  match s with
  | "" => ""
  | String a s' => quote_char a +:+ quote_body s'
  end.

Definition quote (s : string) : string :=
  String dquote (quote_body s +:+ String dquote "").

(** [JSON.stringify(v)] of a value other than [undefined]; a property whose value
    is [undefined] is left out, and [NaN] is written as [null]. *)
Fixpoint JSON_stringify (v : jsval) : string :=
  match v with
  | Undefined | Null | NaN => "null"
  | Bool true => "true"
  | Bool false => "false"
  | Num z => Z_to_string z
  | Str s => quote s
  | Arr l => "[" +:+ join "," (JSON_stringify <$> l) +:+ "]"
  | Obj o =>
      "{" +:+ join "," (omap (λ '(k, w),
        match w with
        | Undefined => None
        | _ => Some (quote k +:+ ":" +:+ JSON_stringify w)
        end) o) +:+ "}"
  end.

(** *** Parsing *)

Definition json_ws (a : ascii) : bool :=
  match code a with 9 | 10 | 13 | 32 => true | _ => false end.

Fixpoint skip_ws (s : string) : string :=
  match s with
  | "" => ""
  | String a s' => if json_ws a then skip_ws s' else s
  end.

Definition simple_escape (e : ascii) : option ascii :=
  match code e with
  | 34 => Some dquote
  | 92 => Some backslash
  | 47 => Some "/"%char
  | 98 => Some "008"%char
  | 102 => Some "012"%char
  | 110 => Some "010"%char
  | 114 => Some "013"%char
  | 116 => Some "009"%char
  | _ => None
  end.

Definition hex4 (a b c d : ascii) : option N :=
  w ← hex_value a; x ← hex_value b; y ← hex_value c; z ← hex_value d;
  Some (((N.of_nat w * 16 + N.of_nat x) * 16 + N.of_nat y) * 16 + N.of_nat z)%N.

(** The UTF-8 encoding of a code point that is no surrogate. *)
Definition utf8_encode (n : N) : string :=
  let b := ascii_of_N in
  (if n <? 128 then String (b n) EmptyString
   else if n <? 2048 then
     String (b (192 + n / 64)) (String (b (128 + n mod 64)) EmptyString)
   else if n <? 65536 then
     String (b (224 + n / 4096)) (String (b (128 + n / 64 mod 64))
       (String (b (128 + n mod 64)) EmptyString))
   else
     String (b (240 + n / 262144)) (String (b (128 + n / 4096 mod 64))
       (String (b (128 + n / 64 mod 64)) (String (b (128 + n mod 64)) EmptyString))))%N.

Definition high_surrogate (n : N) : bool := ((55296 <=? n) && (n <=? 56319))%N.
Definition low_surrogate (n : N) : bool := ((56320 <=? n) && (n <=? 57343))%N.

Definition prepend (p : string) (o : outcome (string * string)) : outcome (string * string) :=
  match o with Returns (t, r) => Returns (p +:+ t, r) | Throws e => Throws e end.

(** The rest of a string literal after its opening quote. *)
Fixpoint parse_str (s : string) : outcome (string * string) :=
  match s with
  | "" => Throws SyntaxError
  | String a s1 =>
      if Ascii.eqb a dquote then Returns ("", s1)
      else if Ascii.eqb a backslash then
        match s1 with
        | "" => Throws SyntaxError
        | String e s2 =>
            match simple_escape e with
            | Some c => prepend (String c "") (parse_str s2)
            | None =>
                if Ascii.eqb e "u" then
                  match s2 with
                  | String h1 (String h2 (String h3 (String h4 s3))) =>
                      match hex4 h1 h2 h3 h4 with
                      | None => Throws SyntaxError
                      | Some n =>
                          if high_surrogate n then
                            match s3 with
                            | String b (String u (String l1 (String l2 (String l3 (String l4 s4))))) =>
                                match hex4 l1 l2 l3 l4 with
                                | Some m =>
                                    if Ascii.eqb b backslash && Ascii.eqb u "u" && low_surrogate m
                                    then prepend (utf8_encode (65536 + (n - 55296) * 1024 + (m - 56320))%N)
                                           (parse_str s4)
                                    else Throws NotModelled
                                | None => Throws NotModelled
                                end
                            | _ => Throws NotModelled
                            end
                          else if low_surrogate n then Throws NotModelled
                          else prepend (utf8_encode n) (parse_str s3)
                      end
                  | _ => Throws SyntaxError
                  end
                else Throws SyntaxError
            end
        end
      else if code a <? 32 then Throws SyntaxError
      else prepend (String a "") (parse_str s1)
  end.

Fixpoint span_digits (s : string) : string * string :=
  match s with
  | "" => ("", "")
  | String a s' =>
      if is_digit a then let '(d, r) := span_digits s' in (String a d, r)
      else ("", s)
  end.

Definition no_leading_zero (d : string) : bool :=
  match d with
  | "" => false
  | String a "" => true
  | String a _ => negb (Ascii.eqb a "0")
  end.

Definition frac_or_exp (r : string) : bool :=
  match r with
  | String a _ => Ascii.eqb a "." || Ascii.eqb a "e" || Ascii.eqb a "E"
  | "" => false
  end.

Definition parse_number (s : string) : outcome (jsval * string) :=
  let neg := starts_with "-" s in
  let s1 := if neg then drop_s 1 s else s in
  let '(d, r) := span_digits s1 in
  if no_leading_zero d then
    if frac_or_exp r then Throws NotModelled
    else match NilEmpty.uint_of_string d with
         | Some u => Returns (Num (Z.of_int (if neg then Decimal.Neg u else Decimal.Pos u)), r)
         | None => Throws SyntaxError
         end
  else Throws SyntaxError.

(** [consume p v s]: the literal [p], standing for [v]. *)
Definition consume (p : string) (v : jsval) (s : string) : outcome (jsval * string) :=
  if starts_with p s then Returns (v, drop_s (String.length p) s) else Throws SyntaxError.

Definition of_members (ms : list (string * jsval)) : list (string * jsval) :=
  foldl (λ o '(k, v), obj_set k v o) [] ms.

(** The next significant character. *)
Definition next (s : string) : option (ascii * string) :=
  match skip_ws s with
  | "" => None
  | String a r => Some (a, r)
  end.

(** A member's key and the colon after it. *)
Definition parse_key (s : string) : outcome (string * string) :=
  match next s with
  | None => Throws SyntaxError
  | Some (a, s1) =>
      if Ascii.eqb a dquote then
        '(k, r) ← parse_str s1;
        match next r with
        | None => Throws SyntaxError
        | Some (b, r1) => if Ascii.eqb b ":" then Returns (k, r1) else Throws SyntaxError
        end
      else Throws SyntaxError
  end.

Fixpoint parse_value (fuel : nat) (s : string) {struct fuel} : outcome (jsval * string) :=
  match fuel with
  | 0 => Throws OutOfFuel
  | S n =>
      match next s with
      | None => Throws SyntaxError
      | Some (a, s1) =>
          if Ascii.eqb a dquote then
            '(t, r) ← parse_str s1; Returns (Str t, r)
          else if Ascii.eqb a "{" then
            match next s1 with
            | None => Throws SyntaxError
            | Some (b, r) =>
                if Ascii.eqb b "}" then Returns (Obj [], r)
                else '(ms, r) ← parse_members n s1; Returns (Obj (of_members ms), r)
            end
          else if Ascii.eqb a "[" then
            match next s1 with
            | None => Throws SyntaxError
            | Some (b, r) =>
                if Ascii.eqb b "]" then Returns (Arr [], r)
                else '(vs, r) ← parse_elems n s1; Returns (Arr vs, r)
            end
          else if Ascii.eqb a "t" then consume "true" (Bool true) (String a s1)
          else if Ascii.eqb a "f" then consume "false" (Bool false) (String a s1)
          else if Ascii.eqb a "n" then consume "null" Null (String a s1)
          else parse_number (String a s1)
      end
  end
with parse_elems (fuel : nat) (s : string) {struct fuel} : outcome (list jsval * string) :=
  match fuel with
  | 0 => Throws OutOfFuel
  | S n =>
      '(v, r) ← parse_value n s;
      match next r with
      | None => Throws SyntaxError
      | Some (b, r') =>
          if Ascii.eqb b "]" then Returns ([v], r')
          else if Ascii.eqb b "," then
            '(vs, r'') ← parse_elems n r'; Returns (v :: vs, r'')
          else Throws SyntaxError
      end
  end
with parse_members (fuel : nat) (s : string) {struct fuel} : outcome (list (string * jsval) * string) :=
  match fuel with
  | 0 => Throws OutOfFuel
  | S n =>
      '(k, r1) ← parse_key s;
      '(v, r) ← parse_value n r1;
      match next r with
      | None => Throws SyntaxError
      | Some (b, r') =>
          if Ascii.eqb b "}" then Returns ([(k, v)], r')
          else if Ascii.eqb b "," then
            '(ms, r'') ← parse_members n r'; Returns ((k, v) :: ms, r'')
          else Throws SyntaxError
      end
  end.

(** [JSON.parse(s)]: two units of fuel for each character are enough, see
    [JSON_parse_total]. *)
Definition JSON_parse (s : string) : outcome jsval :=
  '(v, r) ← parse_value (2 * String.length s + 2) s;
  if String.eqb (skip_ws r) "" then Returns v else Throws SyntaxError.

(** ** Termination: the fuel [JSON_parse] provides is enough *)

Lemma length_skip_ws s : String.length (skip_ws s) ≤ String.length s.
Proof. induction s as [|a s IH]; simpl; [done|]. case_match; simpl; lia. Qed.

Lemma length_next s a r : next s = Some (a, r) → String.length r < String.length s.
Proof.
  unfold next. pose proof (length_skip_ws s).
  destruct (skip_ws s) as [|b t]; intros; simplify_eq/=. lia.
Qed.

Lemma prepend_Returns p o t r :
  prepend p o = Returns (t, r) → ∃ t', o = Returns (t', r) ∧ t = p +:+ t'.
Proof. destruct o as [[t' r']|]; simpl; intros; simplify_eq; eauto. Qed.

(** Induction on the length of a string. *)
Lemma string_len_ind (P : string → Prop) :
  (∀ s, (∀ t, String.length t < String.length s → P t) → P s) → ∀ s, P s.
Proof.
  intros H s. induction s as [s IH] using (induction_ltof1 _ String.length). by apply H.
Qed.

Lemma length_parse_str s t r : parse_str s = Returns (t, r) → String.length r < String.length s.
Proof.
  revert t r. induction s as [s IH] using string_len_ind; intros t r.
  destruct s as [|a s1]; [done|]. simpl.
  assert (∀ p u, String.length u ≤ String.length s1 →
    prepend p (parse_str u) = Returns (t, r) → String.length r < S (String.length s1)) as Hp.
  { intros p u Hu (t' & Ht & _)%prepend_Returns. apply IH in Ht; simpl; lia. }
  repeat case_match; intros; simplify_eq/=; try lia;
    (eapply Hp; [|eassumption]; simpl; lia).
Qed.

Lemma length_span_digits s d r :
  span_digits s = (d, r) → String.length s = String.length d + String.length r.
Proof.
  revert d r. induction s as [|a s IH]; intros d r; simpl; [by intros [= <- <-]|].
  destruct (is_digit a); [|by intros [= <- <-]].
  destruct (span_digits s) as [d' r'] eqn:E. intros [= <- <-]. simpl. by rewrite (IH d' r').
Qed.

Lemma length_parse_number s v r :
  parse_number s = Returns (v, r) → String.length r < String.length s.
Proof.
  unfold parse_number. set (s1 := if starts_with "-" s then drop_s 1 s else s).
  assert (String.length s1 ≤ String.length s).
  { unfold s1. case_match; rewrite ?length_drop_s; lia. }
  destruct (span_digits s1) as [d r1] eqn:E. apply length_span_digits in E.
  destruct d; repeat case_match; intros; simplify_eq/=; lia.
Qed.

Lemma length_consume p v s w r :
  p ≠ "" → consume p v s = Returns (w, r) → String.length r < String.length s.
Proof.
  unfold consume. intros Hp. destruct (starts_with p s) eqn:E; [|done].
  intros [= _ <-]. apply starts_with_spec in E as [t ->].
  rewrite drop_s_app, length_app_s. destruct p; simpl; [done|lia].
Qed.

Lemma length_parse_key s k r : parse_key s = Returns (k, r) → String.length r < String.length s.
Proof.
  unfold parse_key. destruct (next s) as [[a s1]|] eqn:E; [|done].
  apply length_next in E. case_match; [|done].
  destruct (parse_str s1) as [[k' r1]|] eqn:Ek; simpl; [|done].
  apply length_parse_str in Ek. destruct (next r1) as [[b r2]|] eqn:En; [|done].
  apply length_next in En. case_match; intros; simplify_eq. lia.
Qed.

(** Every successful parse consumes input. *)
Lemma length_parse n :
  (∀ s v r, parse_value n s = Returns (v, r) → String.length r < String.length s) ∧
  (∀ s v r, parse_elems n s = Returns (v, r) → String.length r < String.length s) ∧
  (∀ s v r, parse_members n s = Returns (v, r) → String.length r < String.length s).
Proof.
  induction n as [|n (IHv & IHe & IHm)]; [done|]. split_and!; intros s v r; simpl.
  - destruct (next s) as [[a s1]|] eqn:E; [|done].
    assert (String.length (String a s1) ≤ String.length s) as Hs1.
    { unfold next in E. pose proof (length_skip_ws s). destruct (skip_ws s); simplify_eq/=. lia. }
    simpl in Hs1.
    repeat (case_match; simplify_eq/=; try done); intros;
      repeat match goal with
      | H : (_ ≫= _) = Returns _ |- _ => unfold mbind, outcome_bind in H
      | H : context [match ?o with Returns _ => _ | Throws _ => _ end] |- _ =>
          destruct o as [[]|] eqn:?; simplify_eq
      | H : parse_str _ = Returns _ |- _ => apply length_parse_str in H
      | H : parse_number _ = Returns _ |- _ => apply length_parse_number in H
      | H : consume _ _ _ = Returns _ |- _ => apply length_consume in H; [|done]
      | H : next _ = Some _ |- _ => apply length_next in H
      | H : parse_members _ _ = Returns _ |- _ => apply IHm in H
      | H : parse_elems _ _ = Returns _ |- _ => apply IHe in H
      end; simplify_eq/=; lia.
  - destruct (parse_value n s) as [[w r1]|] eqn:Ev; simpl; [|done]. apply IHv in Ev.
    destruct (next r1) as [[b r2]|] eqn:En; [|done]. apply length_next in En.
    case_match; [by intros; simplify_eq; lia|]. case_match; [|done].
    destruct (parse_elems n r2) as [[vs r3]|] eqn:Ee; simpl; [|done].
    apply IHe in Ee. intros; simplify_eq. lia.
  - destruct (parse_key s) as [[k r0]|] eqn:Ek; simpl; [|done]. apply length_parse_key in Ek.
    destruct (parse_value n r0) as [[w r1]|] eqn:Ev; simpl; [|done]. apply IHv in Ev.
    destruct (next r1) as [[b r2]|] eqn:En; [|done]. apply length_next in En.
    case_match; [by intros; simplify_eq; lia|]. case_match; [|done].
    destruct (parse_members n r2) as [[vs r3]|] eqn:Ee; simpl; [|done].
    apply IHm in Ee. intros; simplify_eq. lia.
Qed.

Lemma parse_str_fuel s : parse_str s ≠ Throws OutOfFuel.
Proof.
  induction s as [s IH] using string_len_ind. destruct s as [|a s1]; [done|]. simpl.
  assert (∀ p u, String.length u ≤ String.length s1 →
    prepend p (parse_str u) ≠ Throws OutOfFuel) as Hp.
  { intros p u Hu. specialize (IH u). simpl in IH.
    destruct (parse_str u) as [[]|]; simpl in *; [done|]. intros [= ->]. by apply IH; [lia|]. }
  repeat case_match; try done; apply Hp; simpl; lia.
Qed.

Lemma parse_number_fuel s : parse_number s ≠ Throws OutOfFuel.
Proof. unfold parse_number. destruct (span_digits _). by repeat case_match. Qed.

Lemma consume_fuel p v s : consume p v s ≠ Throws OutOfFuel.
Proof. unfold consume. by case_match. Qed.

Lemma parse_key_fuel s : parse_key s ≠ Throws OutOfFuel.
Proof.
  unfold parse_key. destruct (next s) as [[a s1]|]; [|done]. case_match; [|done].
  pose proof (parse_str_fuel s1). destruct (parse_str s1) as [[k r]|]; simpl; [|done].
  by repeat case_match.
Qed.

(** Enough fuel for the length of the input is never used up. *)
Lemma parse_enough_fuel n :
  (∀ s, 2 * String.length s + 2 ≤ n → parse_value n s ≠ Throws OutOfFuel) ∧
  (∀ s, 2 * String.length s + 3 ≤ n → parse_elems n s ≠ Throws OutOfFuel) ∧
  (∀ s, 2 * String.length s + 1 ≤ n → parse_members n s ≠ Throws OutOfFuel).
Proof.
  induction n as [|n (IHv & IHe & IHm)]; [split_and!; intros; lia|].
  split_and!; intros s Hn; simpl.
  - destruct (next s) as [[a s1]|] eqn:E; [|done]. apply length_next in E.
    case_match.
    { pose proof (parse_str_fuel s1). destruct (parse_str s1) as [[]|]; simpl; congruence. }
    case_match.
    { destruct (next s1) as [[b r]|]; [|done]. case_match; [done|].
      specialize (IHm s1 ltac:(lia)). destruct (parse_members n s1) as [[]|]; simpl; congruence. }
    case_match.
    { destruct (next s1) as [[b r]|]; [|done]. case_match; [done|].
      specialize (IHe s1 ltac:(lia)). destruct (parse_elems n s1) as [[]|]; simpl; congruence. }
    repeat case_match; apply consume_fuel || apply parse_number_fuel.
  - specialize (IHv s ltac:(lia)).
    destruct (parse_value n s) as [[v r]|] eqn:Ev; simpl; [|congruence].
    apply length_parse in Ev. destruct (next r) as [[b r']|] eqn:En; [|done].
    apply length_next in En. repeat case_match; try done.
    specialize (IHe r' ltac:(lia)). destruct (parse_elems n r') as [[]|]; simpl; congruence.
  - pose proof (parse_key_fuel s). destruct (parse_key s) as [[k r0]|] eqn:Ek; simpl; [|congruence].
    apply length_parse_key in Ek. specialize (IHv r0 ltac:(lia)).
    destruct (parse_value n r0) as [[v r]|] eqn:Ev; simpl; [|congruence].
    apply length_parse in Ev. destruct (next r) as [[b r']|] eqn:En; [|done].
    apply length_next in En. repeat case_match; try done.
    specialize (IHm r' ltac:(lia)). destruct (parse_members n r') as [[]|]; simpl; congruence.
Qed.

Lemma JSON_parse_total s : JSON_parse s ≠ Throws OutOfFuel.
Proof.
  unfold JSON_parse. pose proof (proj1 (parse_enough_fuel (2 * String.length s + 2)) s) as H.
  destruct (parse_value _ s) as [[v r]|e]; simpl.
  - by case_match.
  - intros [= ->]. by apply H.
Qed.

(** *** More fuel does not change a result *)

Lemma parse_mono n :
  (∀ m s, n ≤ m → parse_value n s ≠ Throws OutOfFuel → parse_value m s = parse_value n s) ∧
  (∀ m s, n ≤ m → parse_elems n s ≠ Throws OutOfFuel → parse_elems m s = parse_elems n s) ∧
  (∀ m s, n ≤ m → parse_members n s ≠ Throws OutOfFuel → parse_members m s = parse_members n s).
Proof.
  induction n as [|n (IHv & IHe & IHm)]; [done|].
  split_and!; intros [|m] s Hm; try lia; simpl.
  - destruct (next s) as [[a s1]|]; [|done]. repeat (case_match; try done); intros Hne.
    + rewrite IHm; [done|lia|]. intros E. by rewrite E in Hne.
    + rewrite IHe; [done|lia|]. intros E. by rewrite E in Hne.
  - intros Hne. rewrite IHv; [|lia|intros E; by rewrite E in Hne].
    destruct (parse_value n s) as [[v r]|]; simpl in *; [|done].
    repeat (case_match; try done). rewrite IHe; [done|lia|intros E; by rewrite E in Hne].
  - destruct (parse_key s) as [[k r0]|]; simpl; [|done]. intros Hne.
    rewrite IHv; [|lia|intros E; by rewrite E in Hne].
    destruct (parse_value n r0) as [[v r]|]; simpl in *; [|done].
    repeat (case_match; try done). rewrite IHm; [done|lia|intros E; by rewrite E in Hne].
Qed.

(** A parse that succeeds with some fuel succeeds with the fuel of [JSON_parse]. *)
Lemma JSON_parse_any_fuel n s v r :
  parse_value n s = Returns (v, r) → skip_ws r = "" → JSON_parse s = Returns v.
Proof.
  intros Hn Hr. unfold JSON_parse. set (m := 2 * String.length s + 2).
  pose proof (proj1 (parse_enough_fuel m) s ltac:(unfold m; lia)) as Hm.
  assert (parse_value m s = Returns (v, r)) as ->.
  { destruct (Nat.le_ge_cases n m).
    - rewrite (proj1 (parse_mono n)); [done..|]. by rewrite Hn.
    - rewrite <- Hn. symmetry. by apply parse_mono. }
  simpl. by rewrite Hr.
Qed.

(** ** Round trip: [JSON.parse] inverts [JSON.stringify] *)

(** The values [JSON.stringify] loses nothing of. *)
Fixpoint json_wf (v : jsval) : bool :=
  match v with
  | Undefined | NaN => false
  | Null | Bool _ | Num _ | Str _ => true
  | Arr l => forallb json_wf l
  | Obj o => forallb (λ '(_, w), json_wf w) o && bool_decide (NoDup o.*1)
  end.

(** What may follow a number without becoming part of it. *)
Definition stops (r : string) : bool :=
  match r with
  | "" => true
  | String a _ => negb (is_digit a) && negb (frac_or_exp r)
  end.

Lemma parse_str_quote_char a t :
  parse_str (quote_char a +:+ t) = prepend (String a "") (parse_str t).
Proof. by destruct a as [[] [] [] [] [] [] [] []]. Qed.

Lemma parse_str_quote s r : parse_str (quote_body s +:+ String dquote r) = Returns (s, r).
Proof.
  induction s as [|a s IH]; [done|]. cbn [quote_body].
  by rewrite app_assoc_s, parse_str_quote_char, IH.
Qed.

Lemma span_digits_uint u r :
  stops r = true →
  span_digits (NilEmpty.string_of_uint u +:+ r) = (NilEmpty.string_of_uint u, r).
Proof.
  intros Hr. induction u as [|u IH|u IH|u IH|u IH|u IH|u IH|u IH|u IH|u IH|u IH];
    cbn [NilEmpty.string_of_uint]; rewrite ?app_nil_l, ?app_cons;
    [|by cbn; rewrite IH..].
  destruct r as [|a r]; [done|]. simpl in *. by destruct (is_digit a).
Qed.

Lemma to_int_norm z : Decimal.norm (Z.to_int z) = Z.to_int z.
Proof. rewrite <- DecimalZ.to_of. by rewrite DecimalZ.of_to. Qed.

Lemma unorm_no_leading_zero u :
  Decimal.unorm u = u → no_leading_zero (NilEmpty.string_of_uint u) = true.
Proof.
  unfold Decimal.unorm. destruct u as [|u|u|u|u|u|u|u|u|u|u]; try done; simpl;
    intros H; try (destruct (NilEmpty.string_of_uint u); done).
  destruct (Decimal.nzhead u) as [|u'|?|?|?|?|?|?|?|?|?] eqn:E; simplify_eq; [done|].
  by apply nzhead_nonzero in E.
Qed.

Lemma nzhead_no_leading_zero u :
  Decimal.nzhead u = u → u ≠ Decimal.Nil → no_leading_zero (NilEmpty.string_of_uint u) = true.
Proof.
  destruct u as [|u|u|u|u|u|u|u|u|u|u]; try done; simpl; intros H _;
    try (destruct (NilEmpty.string_of_uint u); done).
  by apply nzhead_nonzero in H.
Qed.

(** The decimal notation of an integer: a sign and digits without a leading zero. *)
Lemma Z_to_string_shape z :
  ∃ (neg : bool) u, Z_to_string z = (if neg then "-" else "") +:+ NilEmpty.string_of_uint u ∧
    Z.of_int (if neg then Decimal.Neg u else Decimal.Pos u) = z ∧
    no_leading_zero (NilEmpty.string_of_uint u) = true.
Proof.
  pose proof (to_int_norm z) as Hn. pose proof (DecimalZ.of_to z) as Hz.
  unfold Z_to_string. destruct (Z.to_int z) as [u|u]; simpl in Hn.
  - injection Hn as Hu. exists false, u. split_and!; [|done|by apply unorm_no_leading_zero].
    by destruct u.
  - destruct (Decimal.nzhead u) eqn:E; [done|..]; rewrite <- E in Hn; injection Hn as Hu;
      exists true, u; (split_and!; [by destruct u|done|]);
      (apply nzhead_no_leading_zero; [done|by intros ->]).
Qed.

Lemma starts_with_minus_digits u r :
  no_leading_zero (NilEmpty.string_of_uint u) = true →
  starts_with "-" (NilEmpty.string_of_uint u +:+ r) = false.
Proof. by destruct u. Qed.

Lemma parse_number_print z r :
  stops r = true → parse_number (Z_to_string z +:+ r) = Returns (Num z, r).
Proof.
  intros Hr. destruct (Z_to_string_shape z) as (neg & u & -> & Hz & Hu).
  unfold parse_number. rewrite app_assoc_s.
  assert (starts_with "-" ((if neg then "-" else "") +:+ NilEmpty.string_of_uint u +:+ r) = neg) as ->.
  { destruct neg; [done|]. by apply starts_with_minus_digits. }
  replace (if neg then drop_s 1 _ else _) with (NilEmpty.string_of_uint u +:+ r) by by destruct neg.
  rewrite span_digits_uint, Hu by done.
  assert (frac_or_exp r = false) as ->.
  { destruct r as [|a r]; [done|]. cbn [stops] in Hr.
    by apply andb_true_iff in Hr as [_ ?%negb_true_iff]. }
  by rewrite NilEmpty.usu, Hz.
Qed.

(** The first character of a printed value. *)
Definition value_head (a : ascii) : bool :=
  negb (json_ws a) && negb (Ascii.eqb a "]") && negb (Ascii.eqb a "}").

Lemma Z_to_string_head z : ∃ a t, Z_to_string z = String a t ∧ (Ascii.eqb a "-" || is_digit a = true).
Proof.
  destruct (Z_to_string_shape z) as (neg & u & -> & _ & Hu).
  destruct neg; [by eexists _, _|]. destruct u; try done; by eexists _, _.
Qed.

Lemma stringify_head v : ∃ a t, JSON_stringify v = String a t ∧ value_head a = true.
Proof.
  destruct v as [| |[]|z| |s|l|o]; try (by eexists _, _).
  destruct (Z_to_string_head z) as (a & t & Ht & Ha). exists a, t. split; [done|].
  apply orb_true_iff in Ha as [->%Ascii.eqb_eq|Ha]; [done|].
  revert Ha. destruct a as [[] [] [] [] [] [] [] []]; by vm_compute.
Qed.

Lemma next_value_head a t : value_head a = true → next (String a t) = Some (a, t).
Proof.
  unfold value_head, next. simpl. intros [[Ha%negb_true_iff _]%andb_true_iff _]%andb_true_iff.
  by rewrite Ha.
Qed.

Lemma parse_value_more n m s x :
  parse_value n s = Returns x → n ≤ m → parse_value m s = Returns x.
Proof. intros H Hm. rewrite <- H. apply parse_mono; [done|]. by rewrite H. Qed.

Lemma parse_elems_more n m s x :
  parse_elems n s = Returns x → n ≤ m → parse_elems m s = Returns x.
Proof. intros H Hm. rewrite <- H. apply parse_mono; [done|]. by rewrite H. Qed.

Lemma parse_members_more n m s x :
  parse_members n s = Returns x → n ≤ m → parse_members m s = Returns x.
Proof. intros H Hm. rewrite <- H. apply parse_mono; [done|]. by rewrite H. Qed.

(** [v] is read back from its text, with some fuel, whatever follows it. *)
Definition reads_back (v : jsval) : Prop :=
  ∃ n, ∀ r, stops r = true → parse_value n (JSON_stringify v +:+ r) = Returns (v, r).

Lemma parse_elems_print l :
  l ≠ [] → Forall reads_back l →
  ∃ n, ∀ r, parse_elems n (join "," (JSON_stringify <$> l) +:+ String "]" r) = Returns (l, r).
Proof.
  intros Hl HF. induction HF as [|v l [n Hn] HF IH]; [done|].
  destruct l as [|w l].
  - exists (S n). intros r. simpl. rewrite Hn by done. done.
  - destruct IH as [m Hm]; [done|]. exists (S (n + m)). intros r.
    rewrite fmap_cons, join_cons by done. rewrite !app_assoc_s, app_cons, app_nil_l.
    cbn [parse_elems]. erewrite parse_value_more; [|apply Hn; done|lia].
    cbn [mbind outcome_bind]. rewrite next_value_head by done. cbn -[join].
    erewrite parse_elems_more; [|apply Hm|lia]. done.
Qed.

Definition member_text (kv : string * jsval) : string :=
  quote kv.1 +:+ ":" +:+ JSON_stringify kv.2.

Lemma parse_key_quote k r : parse_key (quote k +:+ String ":" r) = Returns (k, r).
Proof.
  unfold parse_key, quote. rewrite app_cons, app_assoc_s, app_cons, app_nil_l.
  by rewrite next_value_head, Ascii.eqb_refl, parse_str_quote.
Qed.

Lemma parse_members_print o :
  o ≠ [] → Forall (λ kv, reads_back kv.2) o →
  ∃ n, ∀ r, parse_members n (join "," (member_text <$> o) +:+ String "}" r) = Returns (o, r).
Proof.
  intros Ho HF. induction HF as [|[k v] o [n Hn] HF IH]; [done|]. simpl in Hn.
  destruct o as [|kv o].
  - exists (S n). intros r. simpl join. unfold member_text. simpl.
    rewrite !app_assoc_s, app_cons, app_nil_l, parse_key_quote. cbn.
    rewrite Hn by done. done.
  - destruct IH as [m Hm]; [done|]. exists (S (n + m)). intros r.
    rewrite fmap_cons, join_cons by done. unfold member_text at 1. cbn [fst snd parse_members].
    rewrite !app_assoc_s, !app_cons, !app_nil_l, parse_key_quote. cbn [mbind outcome_bind].
    erewrite parse_value_more; [|apply Hn; done|lia]. cbn [mbind outcome_bind].
    rewrite next_value_head by done. cbn -[join].
    erewrite parse_members_more; [|apply Hm|lia]. done.
Qed.

Lemma omap_member_text o :
  Forall (λ kv, json_wf kv.2 = true) o →
  omap (λ '(k, w), match w with
                   | Undefined => None
                   | _ => Some (quote k +:+ ":" +:+ JSON_stringify w)
                   end) o = member_text <$> o.
Proof.
  induction 1 as [|[k v] o Hv Ho IH]; [done|]. csimpl. rewrite <- IH. by destruct v.
Qed.

Lemma of_members_nodup o : NoDup o.*1 → of_members o = o.
Proof.
  unfold of_members. change o with ([] ++ o) at 1 3.
  generalize (@nil (string * jsval)) as acc. induction o as [|[k v] o IH]; intros acc HN; csimpl.
  - by rewrite (right_id_L [] (++)).
  - rewrite obj_set_fresh.
    + rewrite IH; [by rewrite <- app_assoc|]. by rewrite <- app_assoc.
    + rewrite fmap_app in HN. csimpl in HN. apply NoDup_app in HN as (_ & HN & _).
      intros Hk. apply (HN k Hk). constructor.
Qed.

Lemma join_head_value a t ws r : ∃ t', join "," (String a t :: ws) +:+ r = String a t'.
Proof. destruct ws; [by eexists|]. rewrite join_cons by done. by eexists. Qed.

Lemma parse_value_number a t :
  Ascii.eqb a "-" || is_digit a = true →
  parse_value 1 (String a t) = parse_number (String a t).
Proof.
  intros Ha.
  pose proof (all_bytes_spec (λ a, implb (Ascii.eqb a "-" || is_digit a)
    (value_head a && negb (Ascii.eqb a dquote || Ascii.eqb a "{" || Ascii.eqb a "["
      || Ascii.eqb a "t" || Ascii.eqb a "f" || Ascii.eqb a "n"))) a ltac:(by vm_compute)) as H.
  cbv beta in H. rewrite Ha in H. cbn [implb] in H.
  apply andb_true_iff in H as [Hh H%negb_true_iff].
  rewrite !orb_false_iff in H. destruct H as [[[[[H1 H2] H3] H4] H5] H6].
  cbn [parse_value]. by rewrite next_value_head, H1, H2, H3, H4, H5, H6.
Qed.

Lemma json_wf_reads_back v : json_wf v = true → reads_back v.
Proof.
  induction v as [| |b|z| |s|l IH|o IH] using jsval_ind'; intros Hwf; try done.
  - exists 1. intros r _. done.
  - exists 1. by intros r _; destruct b.
  - exists 1. intros r Hr. destruct (Z_to_string_head z) as (a & t & Ht & Ha).
    change (JSON_stringify (Num z)) with (Z_to_string z).
    pose proof (parse_number_print z r Hr) as Hp. rewrite Ht, app_cons in *.
    rewrite <- Hp. by apply parse_value_number.
  - exists 1. intros r _. change (JSON_stringify (Str s)) with (quote s). unfold quote. rewrite app_cons, app_assoc_s, app_cons, app_nil_l.
    cbn [parse_value]. by rewrite next_value_head, Ascii.eqb_refl, parse_str_quote.
  - simpl in Hwf. destruct l as [|v l]; [by exists 1|].
    destruct (parse_elems_print (v :: l)) as [n Hn]; [done| |].
    { apply Forall_forall. rewrite forallb_forall in Hwf. rewrite Forall_forall in IH.
      intros w Hw. apply IH; [done|]. by apply Hwf, list_elem_of_In. }
    exists (S n). intros r _. cbn [JSON_stringify].
    rewrite !app_assoc_s, !app_cons, !app_nil_l.
    destruct (stringify_head v) as (a & t & Hv & Ha). specialize (Hn r).
    rewrite fmap_cons, Hv in *.
    destruct (join_head_value a t (JSON_stringify <$> l) (String "]" r)) as [t' Ht'].
    rewrite Ht' in *. cbn [parse_value]. change (next (String "[" ?x)) with (Some ("["%char, x)).
    cbn. rewrite next_value_head by done.
    unfold value_head in Ha. apply andb_true_iff in Ha as [[_ ->%negb_true_iff]%andb_true_iff _].
    by rewrite Hn.
  - simpl in Hwf. apply andb_true_iff in Hwf as [Hwf HN%bool_decide_eq_true_1].
    assert (Forall (λ kv, json_wf kv.2 = true) o) as Hall.
    { apply Forall_forall. rewrite forallb_forall in Hwf.
      intros [k w] Hw. by apply (Hwf (k, w)), list_elem_of_In. }
    destruct o as [|[k v] o]; [by exists 1|].
    destruct (parse_members_print ((k, v) :: o)) as [n Hn]; [done| |].
    { rewrite Forall_forall in *. naive_solver. }
    exists (S n). intros r _. cbn [JSON_stringify]. rewrite omap_member_text by done.
    rewrite !app_assoc_s, !app_cons, !app_nil_l.
    specialize (Hn r). rewrite fmap_cons in *.
    unfold member_text at 1 in Hn. unfold member_text at 1. unfold quote in *.
    cbn [fst snd] in *. rewrite !app_cons in *.
    match goal with |- context [String dquote ?t :: ?ws] =>
      destruct (join_head_value dquote t ws (String "}" r)) as [t' Ht'] end.
    rewrite Ht' in *. cbn [parse_value]. change (next (String "{" ?x)) with (Some ("{"%char, x)).
    cbn -[of_members]. rewrite Hn. cbn -[of_members]. by rewrite of_members_nodup.
Qed.

Lemma JSON_parse_stringify v : json_wf v = true → JSON_parse (JSON_stringify v) = Returns v.
Proof.
  intros [n Hn]%json_wf_reads_back. apply (JSON_parse_any_fuel n _ v EmptyString); [|done].
  rewrite <- (app_nil_r (JSON_stringify v)). by apply Hn.
Qed.

Lemma json_wf_obj_set k v o :
  json_wf (Obj o) = true → json_wf v = true → json_wf (Obj (obj_set k v o)) = true.
Proof.
  simpl. rewrite !andb_true_iff, !bool_decide_eq_true. intros [Ho Hnd] Hv.
  split; [|by apply obj_set_keys]. clear Hnd. induction o as [|[k' v'] o IH]; simpl in *.
  - by rewrite Hv.
  - apply andb_true_iff in Ho as [Hv' Ho]. destruct (String.eqb k k'); simpl.
    + by rewrite Hv.
    + by rewrite Hv', IH.
Qed.

End Json.
