(* ===== verification/JsText.v ===== *)
(** More of the text functions of the language, for the pages of the admin console:
    [trim], [split] with a separator of several characters, [lastIndexOf] and [parseInt].

    White space is that of ASCII. *)

From Stdlib Require Import DecimalString DecimalZ HexadecimalString.
From S2P Require Import Prelude JsString Uri JsValue.
Import JsString Uri JsValue.

Set Warnings "-register-all".

Module JsText.

(** *** [trim] *)

Definition isSpace (a : ascii) : bool := (9 <=? code a) && (code a <=? 13) || (code a =? 32).

Fixpoint trim_start (s : string) : string :=
  match s with
  | "" => ""
  | String a s' => if isSpace a then trim_start s' else s
  end.

Fixpoint trim_end (s : string) : string :=
  match s with
  | "" => ""
  | String a s' =>
      match trim_end s' with
      | "" => if isSpace a then "" else String a ""
      | t => String a t
      end
  end.

Definition trim (s : string) : string := trim_end (trim_start s).

(** *** [split] *)

Definition consHead (a : ascii) (l : list string) : list string :=
  match l with [] => [String a ""] | w :: ws => String a w :: ws end.

(** [s.split(sep)] for a separator that is not empty; [skip] characters of a separator
    are still to be passed over. *)
Fixpoint split_skip (sep : string) (skip : nat) (s : string) : list string :=
  match s with
  | "" => [""]
  | String a s' =>
      match skip with
      | S k => split_skip sep k s'
      | 0 =>
          if starts_with sep s then "" :: split_skip sep (String.length sep - 1) s'
          else consHead a (split_skip sep 0 s')
      end
  end.

Definition split_on (sep s : string) : list string := split_skip sep 0 s.

(** *** [lastIndexOf] of a character *)

Fixpoint find_last (c : ascii) (s : string) : option nat :=
  match s with
  | "" => None
  | String a s' =>
      match find_last c s' with
      | Some n => Some (S n)
      | None => if Ascii.eqb c a then Some 0 else None
      end
  end.

Definition lastIndexOf (s : string) (c : ascii) : Z :=
  match find_last c s with Some n => Z.of_nat n | None => -1 end.

(** *** [parseInt] *)

Definition is_hex (a : ascii) : bool := bool_decide (is_Some (hex_value a)).

Fixpoint prefix_of (p : ascii → bool) (s : string) : string :=
  match s with
  | "" => ""
  | String a s' => if p a then String a (prefix_of p s') else ""
  end.

(** The digits at the start of a text, in base 16 after [0x]; [None] without any. *)
Definition decimal (d : string) : option Z :=
  if String.eqb d "" then None else option_map Z.of_uint (DecimalString.NilEmpty.uint_of_string d).

Definition hexadecimal (d : string) : option Z :=
  if String.eqb d "" then None else option_map Z.of_hex_uint (HexadecimalString.NilEmpty.uint_of_string d).

Definition unsigned (s : string) : option Z :=
  if starts_with "0x" s || starts_with "0X" s then hexadecimal (prefix_of is_hex (drop_s 2 s))
  else decimal (prefix_of is_digit s).

Definition parseInt (v : jsval) : jsval :=
  of_number
    match trim_start (to_string v) with
    | String "-" s => option_map Z.opp (unsigned s)
    | String "+" s => unsigned s
    | s => unsigned s
    end.

(** ** Lemmas *)

Lemma split_skip_whole sep s : find_s sep s = None → split_on sep s = [s].
Proof.
  unfold split_on. induction s as [|a s IH]; intros Hf; [done|].
  cbn [find_s] in Hf. cbn [split_skip]. destruct (starts_with sep (String a s)); [done|].
  destruct (find_s sep s); [done|]. by rewrite IH.
Qed.

Lemma split_skip_drop sep k s : split_skip sep k s = split_on sep (drop_s k s).
Proof. revert k. induction s as [|a s IH]; intros [|k]; simpl; [done..|]. apply IH. Qed.

(** No occurrence starts inside [s], in [s] followed by [t]. *)
Fixpoint clear_of (sep s t : string) : bool :=
  match s with
  | "" => true
  | String a s' => negb (starts_with sep (s +:+ t)) && clear_of sep s' t
  end.

Lemma split_on_app sep s t :
  sep ≠ "" → clear_of sep s (sep +:+ t) = true → split_on sep (s +:+ sep +:+ t) = s :: split_on sep t.
Proof.
  intros Hsep. unfold split_on at 1. induction s as [|a s IH]; intros Hc.
  - rewrite app_nil_l. destruct sep as [|c sep]; [done|]. rewrite app_cons. cbn [split_skip].
    change (String c (sep +:+ t)) with (String c sep +:+ t). rewrite starts_with_app.
    f_equal. rewrite split_skip_drop. f_equal. simpl. by rewrite Nat.sub_0_r, drop_s_app.
  - cbn [clear_of] in Hc. apply andb_true_iff in Hc as [Hs%negb_true_iff Hc].
    rewrite app_cons in *. cbn [split_skip]. rewrite Hs, IH by done. done.
Qed.

Lemma starts_with_prefix p s t :
  starts_with p (s +:+ t) = true → starts_with p s = true ∨ ∃ u, u ≠ "" ∧ p = s +:+ u.
Proof.
  revert p. induction s as [|a s IH]; intros [|b p] Hp; try (by left); [by right; exists (String b p)|].
  rewrite app_cons in Hp. simpl in Hp. apply andb_true_iff in Hp as [Ha Hp].
  apply Ascii.eqb_eq in Ha as ->. destruct (IH _ Hp) as [H|(u & Hu & ->)].
  - left. simpl. by rewrite Ascii.eqb_refl.
  - right. by exists u.
Qed.

(** A text without the separator that ends in a character the separator does not have. *)
Lemma clear_of_end sep c s t :
  occurs c sep = false → find_s sep (s +:+ String c "") = None → clear_of sep (s +:+ String c "") t = true.
Proof.
  intros Hc. induction s as [|a s IH]; intros Hf.
  - simpl in *. rewrite andb_true_r. apply negb_true_iff, not_true_iff_false.
    intros [H|(u & _ & ->)]%(starts_with_prefix sep (String c "") t).
    + by rewrite H in Hf.
    + simpl in Hc. by rewrite Ascii.eqb_refl in Hc.
  - rewrite app_cons in *. cbn [clear_of find_s] in *.
    destruct (starts_with sep (String a (s +:+ String c ""))) eqn:E; [done|].
    destruct (find_s sep (s +:+ String c "")) eqn:E'; [done|]. rewrite IH, andb_true_r by done.
    apply negb_true_iff, not_true_iff_false.
    change (String a (s +:+ String c "") +:+ t) with (String a (s +:+ String c "") +:+ t).
    intros [H|(u & _ & ->)]%(starts_with_prefix sep (String a (s +:+ String c "")) t).
    + by rewrite H in E.
    + rewrite app_cons in Hc. simpl in Hc. rewrite !occurs_app in Hc. simpl in Hc.
      rewrite Ascii.eqb_refl in Hc. by rewrite !orb_true_r in Hc.
Qed.

Lemma split_on_join sep l :
  sep ≠ "" → l ≠ [] → Forall (λ s, find_s sep s = None ∧ ∀ t, clear_of sep s t = true) l →
  split_on sep (join sep l) = l.
Proof.
  intros Hsep Hl HF. induction HF as [|s l [Hf Hs] HF IH]; [done|].
  destruct l as [|s' l]; [by apply split_skip_whole|]. rewrite join_cons by done.
  rewrite split_on_app; [|done|apply Hs]. by rewrite IH.
Qed.

Lemma substring_mid a b c : substring (a +:+ b +:+ c) (length_s a) (length_s a + length_s b) = b.
Proof.
  unfold substring. rewrite !length_s_app.
  unfold length_s.
  replace (Z.to_nat (Z.min _ _)) with (String.length a) by lia.
  replace (Z.to_nat (Z.max _ _)) with (String.length a + String.length b) by lia.
  rewrite drop_s_app. replace (String.length a + String.length b - String.length a) with (String.length b) by lia.
  apply take_s_app.
Qed.

Lemma find_last_snoc c s : find_last c (s +:+ String c "") = Some (String.length s).
Proof. induction s as [|a s IH]; simpl; [by rewrite Ascii.eqb_refl|by rewrite IH]. Qed.

Lemma prefix_of_all p s : forall_chars p s = true → prefix_of p s = s.
Proof. induction s as [|a s IH]; simpl; [done|]. intros [-> Hs]%andb_true_iff. by rewrite IH. Qed.

Lemma string_of_uint_digits d : forall_chars is_digit (DecimalString.NilEmpty.string_of_uint d) = true.
Proof. induction d; simpl; try done. Qed.

Lemma string_of_uint_no_hex d : starts_with "0x" (DecimalString.NilEmpty.string_of_uint d) || starts_with "0X" (DecimalString.NilEmpty.string_of_uint d) = false.
Proof. destruct d as [|d|d|d|d|d|d|d|d|d|d]; [done| |done..]. by destruct d. Qed.

Lemma unsigned_uint d :
  DecimalString.NilEmpty.string_of_uint d ≠ "" → unsigned (DecimalString.NilEmpty.string_of_uint d) = Some (Z.of_uint d).
Proof.
  intros Hne. unfold unsigned. rewrite string_of_uint_no_hex, prefix_of_all by apply string_of_uint_digits.
  unfold decimal. rewrite (proj2 (String.eqb_neq _ _) Hne). by rewrite DecimalString.NilEmpty.usu.
Qed.

(** The text of a number that is not negative is read as that number. *)
Lemma parseInt_Z_to_string z : (0 ≤ z)%Z → parseInt (Str (Z_to_string z)) = Num z.
Proof.
  intros Hz. unfold parseInt. cbn [to_string].
  assert (∃ d, Z_to_string z = DecimalString.NilEmpty.string_of_uint d ∧ d ≠ Decimal.Nil ∧ Z.of_uint d = z) as (d & -> & Hd & <-).
  { pose proof (DecimalZ.of_to z) as Hof. unfold Z_to_string.
    destruct z as [|p|p]; [by exists (Decimal.D0 Decimal.Nil)| |lia].
    simpl in *. unfold DecimalString.NilZero.string_of_uint.
    destruct (Pos.to_uint p) as [|d|d|d|d|d|d|d|d|d|d] eqn:E;
      [by simpl in Hof|eexists; split; [done|]; split; [done|exact Hof]..]. }
  assert (∃ a s, DecimalString.NilEmpty.string_of_uint d = String a s ∧ is_digit a = true) as (a & s & E & Ha)
    by (destruct d; [done|eexists _, _; split; [done|done]..]).
  assert (trim_start (DecimalString.NilEmpty.string_of_uint d) = DecimalString.NilEmpty.string_of_uint d) as ->.
  { rewrite E. simpl. assert (isSpace a = false) as ->; [|done].
    unfold isSpace, is_digit in *. apply andb_true_iff in Ha as [H1%Nat.leb_le H2%Nat.leb_le].
    apply orb_false_iff. split; [|apply Nat.eqb_neq; lia]. apply andb_false_iff. right.
    apply Nat.leb_gt. lia. }
  assert (unsigned (DecimalString.NilEmpty.string_of_uint d) = Some (Z.of_uint d)) as Hu by (apply unsigned_uint; by rewrite E).
  revert Hu. destruct d; cbn; by intros ->.
Qed.

End JsText.
