(* ===== verification/World.v ===== *)
(** The state of one [Keycloak] instance and of the browser it runs in.

    [Kc] is the public object [kc]; [World] adds the variables of the
    constructor's closure ([adapter], [refreshQueue], [callbackStorage],
    [loginIframe], [useNonce], [config]), the promises the library has created
    and what it has left with the browser: requests in flight, timers, microtasks,
    in-app browser windows.  Callbacks are defunctionalised: every function
    literal the sources pass to a promise or a request is a constructor of [cont]
    or [xhr_cont] with the variables it captures. *)

From Stdlib Require Export QArith Qround.
From S2P Require Import Prelude JsString Uri JsValue.
Import JsString Uri JsValue.

#[global] Close Scope Q_scope.
#[global] Open Scope nat_scope.
#[global] Open Scope stdpp_scope.

Module World.

(** *** The public object *)

(** The callbacks an application may assign to [kc]. *)
Inductive hook :=
  | onReady | onAuthSuccess | onAuthError | onAuthRefreshSuccess
  | onAuthRefreshError | onAuthLogout | onTokenExpired.

#[global] Instance hook_eq_dec : EqDecision hook.
Proof. solve_decision. Defined.

(** The two tables of functions [setupOidcEndoints] stores in [kc.endpoints]. *)
Inductive Endpoints :=
  | NoEndpoints
  | KeycloakEndpoints
  | OidcEndpoints (oidcConfiguration : jsval).

Record Kc := mkKc {
  kc_hooks : hook → bool;
  kc_endpoints : Endpoints;
  kc_iframeVersion : jsval;
  kc_authenticated : jsval;
  kc_loginRequired : jsval;
  kc_responseMode : jsval;
  kc_responseType : jsval;
  kc_flow : jsval;
  kc_timeSkew : jsval;
  kc_redirectUri : jsval;
  kc_clientId : jsval;
  kc_clientSecret : jsval;
  kc_authServerUrl : jsval;
  kc_realm : jsval;
  kc_token : jsval;
  kc_tokenParsed : jsval;
  kc_refreshToken : jsval;
  kc_refreshTokenParsed : jsval;
  kc_idToken : jsval;
  kc_idTokenParsed : jsval;
  kc_sessionId : jsval;
  kc_subject : jsval;
  kc_realmAccess : jsval;
  kc_resourceAccess : jsval;
  kc_profile : jsval;
  kc_userInfo : jsval;
  kc_tokenTimeoutHandle : option nat
}.

Definition eta_Kc (r : Kc) : Kc :=
  mkKc (kc_hooks r) (kc_endpoints r) (kc_iframeVersion r) (kc_authenticated r)
    (kc_loginRequired r) (kc_responseMode r) (kc_responseType r) (kc_flow r)
    (kc_timeSkew r) (kc_redirectUri r) (kc_clientId r) (kc_clientSecret r)
    (kc_authServerUrl r) (kc_realm r) (kc_token r) (kc_tokenParsed r) (kc_refreshToken
    r) (kc_refreshTokenParsed r) (kc_idToken r) (kc_idTokenParsed r) (kc_sessionId r)
    (kc_subject r) (kc_realmAccess r) (kc_resourceAccess r) (kc_profile r) (kc_userInfo
    r) (kc_tokenTimeoutHandle r).

#[global] Instance set_kc_hooks : Field kc_hooks := ltac:(mk_field eta_Kc kc_hooks).
#[global] Instance set_kc_endpoints : Field kc_endpoints := ltac:(mk_field eta_Kc kc_endpoints).
#[global] Instance set_kc_iframeVersion : Field kc_iframeVersion := ltac:(mk_field eta_Kc kc_iframeVersion).
#[global] Instance set_kc_authenticated : Field kc_authenticated := ltac:(mk_field eta_Kc kc_authenticated).
#[global] Instance set_kc_loginRequired : Field kc_loginRequired := ltac:(mk_field eta_Kc kc_loginRequired).
#[global] Instance set_kc_responseMode : Field kc_responseMode := ltac:(mk_field eta_Kc kc_responseMode).
#[global] Instance set_kc_responseType : Field kc_responseType := ltac:(mk_field eta_Kc kc_responseType).
#[global] Instance set_kc_flow : Field kc_flow := ltac:(mk_field eta_Kc kc_flow).
#[global] Instance set_kc_timeSkew : Field kc_timeSkew := ltac:(mk_field eta_Kc kc_timeSkew).
#[global] Instance set_kc_redirectUri : Field kc_redirectUri := ltac:(mk_field eta_Kc kc_redirectUri).
#[global] Instance set_kc_clientId : Field kc_clientId := ltac:(mk_field eta_Kc kc_clientId).
#[global] Instance set_kc_clientSecret : Field kc_clientSecret := ltac:(mk_field eta_Kc kc_clientSecret).
#[global] Instance set_kc_authServerUrl : Field kc_authServerUrl := ltac:(mk_field eta_Kc kc_authServerUrl).
#[global] Instance set_kc_realm : Field kc_realm := ltac:(mk_field eta_Kc kc_realm).
#[global] Instance set_kc_token : Field kc_token := ltac:(mk_field eta_Kc kc_token).
#[global] Instance set_kc_tokenParsed : Field kc_tokenParsed := ltac:(mk_field eta_Kc kc_tokenParsed).
#[global] Instance set_kc_refreshToken : Field kc_refreshToken := ltac:(mk_field eta_Kc kc_refreshToken).
#[global] Instance set_kc_refreshTokenParsed : Field kc_refreshTokenParsed := ltac:(mk_field eta_Kc kc_refreshTokenParsed).
#[global] Instance set_kc_idToken : Field kc_idToken := ltac:(mk_field eta_Kc kc_idToken).
#[global] Instance set_kc_idTokenParsed : Field kc_idTokenParsed := ltac:(mk_field eta_Kc kc_idTokenParsed).
#[global] Instance set_kc_sessionId : Field kc_sessionId := ltac:(mk_field eta_Kc kc_sessionId).
#[global] Instance set_kc_subject : Field kc_subject := ltac:(mk_field eta_Kc kc_subject).
#[global] Instance set_kc_realmAccess : Field kc_realmAccess := ltac:(mk_field eta_Kc kc_realmAccess).
#[global] Instance set_kc_resourceAccess : Field kc_resourceAccess := ltac:(mk_field eta_Kc kc_resourceAccess).
#[global] Instance set_kc_profile : Field kc_profile := ltac:(mk_field eta_Kc kc_profile).
#[global] Instance set_kc_userInfo : Field kc_userInfo := ltac:(mk_field eta_Kc kc_userInfo).
#[global] Instance set_kc_tokenTimeoutHandle : Field kc_tokenTimeoutHandle := ltac:(mk_field eta_Kc kc_tokenTimeoutHandle).

(** *** Closure variables *)

(** [loginIframe]: [li_iframe] says whether [loginIframe.iframe] is set, and
    [li_onload] is the promise its [onload] handler settles, once the iframe is
    part of the document. *)
Record LoginIframe := mkLoginIframe {
  li_enable : jsval;
  li_callbackList : list nat;
  li_interval : jsval;
  li_iframe : bool;
  li_iframeOrigin : jsval;
  li_onload : option nat
}.

Definition eta_LoginIframe (r : LoginIframe) : LoginIframe :=
  mkLoginIframe (li_enable r) (li_callbackList r) (li_interval r) (li_iframe r)
    (li_iframeOrigin r) (li_onload r).

#[global] Instance set_li_enable : Field li_enable := ltac:(mk_field eta_LoginIframe li_enable).
#[global] Instance set_li_callbackList : Field li_callbackList := ltac:(mk_field eta_LoginIframe li_callbackList).
#[global] Instance set_li_interval : Field li_interval := ltac:(mk_field eta_LoginIframe li_interval).
#[global] Instance set_li_iframe : Field li_iframe := ltac:(mk_field eta_LoginIframe li_iframe).
#[global] Instance set_li_iframeOrigin : Field li_iframeOrigin := ltac:(mk_field eta_LoginIframe li_iframeOrigin).
#[global] Instance set_li_onload : Field li_onload := ltac:(mk_field eta_LoginIframe li_onload).

(** The variables [adapter] and [callbackStorage] are unset until [kc.init]; an
    application may also pass [null] for the adapter. *)
Inductive AdapterKind :=
  | NoAdapter | DefaultAdapter | CordovaAdapter | CordovaNativeAdapter | CustomAdapter.

Inductive StorageKind := NoStorage | LocalStorage | CookieStorage.

#[global] Instance AdapterKind_eq_dec : EqDecision AdapterKind.
Proof. solve_decision. Defined.

(** *** Callbacks

    A promise is named by its number; [oauth] is the object [parseCallback]
    returns and [initOptions] the argument of [kc.init]. *)

Inductive cont :=
  (* kc.init: initPromise.promise.success(..).error(..) *)
  | KInitSuccess (promise : nat)
  | KInitError (promise : nat)
  (* kc.init: configPromise.success(processInit), configPromise.error(..) *)
  | KProcessInit (initOptions : jsval) (initPromise : nat)
  | KConfigError (promise : nat)
  (* onLoad: kc.login(options).success(..).error(..) *)
  | KLoginSuccess (initPromise : nat)
  | KLoginError (initPromise : nat)
  (* onLoad, check-sso: setupCheckLoginIframe().success(..), then checkLoginIframe() *)
  | KSsoIframeReady (initPromise : nat)
  | KSsoUnchanged (initPromise : nat)
  | KSsoChanged (initPromise : nat)
  (* processInit with a valid callback *)
  | KCallbackIframeReady (oauth : jsval) (initPromise : nat)
  | KCallbackIframeError (initPromise : nat)
  (* processInit with initial tokens *)
  | KTokenIframeReady (initPromise : nat)
  | KTokenUnchanged (initPromise : nat)
  | KTokenChanged (initPromise : nat)
  | KTokenRefreshed (initPromise : nat)
  | KTokenRefreshError (initOptions : jsval) (initPromise : nat)
  (* kc.updateToken: iframePromise.success(exec).error(..) *)
  | KUpdateExec (promise : nat) (minValidity : jsval)
  | KUpdateError (promise : nat)
  (* a callback of the application *)
  | KUser (id : nat).

(** [onreadystatechange] handlers, run when [readyState] is 4. *)
Inductive xhr_cont :=
  | XProfile (promise : nat)
  | XUserInfo (promise : nat)
  | XRefresh (timeLocal : Q)
  | XCode (oauth : jsval) (promise : nat) (timeLocal : Q)
  | XConfig (promise : nat)
  | XOidcConfig (promise : nat).

Record request := mkRequest {
  req_method : string;
  req_url : string;
  req_headers : list (string * string);
  req_withCredentials : bool;
  req_body : option string;
  req_cont : xhr_cont
}.

Inductive timer := TokenExpiredTimer | CheckTimer.

#[global] Instance timer_eq_dec : EqDecision timer.
Proof. solve_decision. Defined.

(** *** Promises *)

Inductive pstate := Pending | Fulfilled (v : jsval) | Rejected (v : jsval).

#[global] Instance pstate_eq_dec : EqDecision pstate.
Proof. solve_decision. Defined.

(** A promise of [createNativePromise] has the state of the ECMAScript promise
    under it and its reactions ([true] for [then], [false] for [catch]) in the
    order of registration; one of [createLegacyPromise] has the fields of its
    object [p]. *)
Inductive promise :=
  | NativePromise (st : pstate) (reactions : list (bool * cont))
  | LegacyPromise (success error : bool) (result : jsval)
      (successCallback errorCallback : option cont).

(** *** In-app browser windows and universal links of the Cordova adapters *)

Inductive window_role :=
  | LoginWindow (promise : nat)
  | LogoutWindow (promise : nat)
  | AccountWindow.

(** [win_flag] is the local [completed] of a login window and [error] of a logout
    window; [win_closed] is [closed] of a login window. *)
Record app_window := mkWindow {
  win_role : window_role;
  win_flag : bool;
  win_closed : bool
}.

Definition eta_app_window (r : app_window) : app_window :=
  mkWindow (win_role r) (win_flag r) (win_closed r).

#[global] Instance set_win_role : Field win_role := ltac:(mk_field eta_app_window win_role).
#[global] Instance set_win_flag : Field win_flag := ltac:(mk_field eta_app_window win_flag).
#[global] Instance set_win_closed : Field win_closed := ltac:(mk_field eta_app_window win_closed).

Inductive link_handler := LinkLogin (promise : nat) | LinkLogout (promise : nat).

(** *** What can be observed from outside *)

Inductive output :=
  | OHook (h : hook) (arg : jsval)
  | OUser (id : nat) (arg : jsval)
  | OSend (r : request)
  | ONavigate (url : string)
  | OReplaceState (url : string)
  | OCreateIframe (src : string)
  | OPostMessage (msg : string) (targetOrigin : jsval)
  | OOpenWindow (inApp : bool) (url target options : string)
  | OCloseWindow (id : nat)
  | OOpenTab (url : string)
  | OCloseTab
  | OClearTimeout (handle : nat).

(** *** The browser *)

(** [b_hasOldCordova] and [b_hasCordova] are [window.Cordova] and
    [window.cordova]; [b_localStorage] is [None] when the browser denies access to
    [localStorage]. *)
Record Browser := mkBrowser {
  b_now : Z;
  b_random : nat → Q;
  b_randomUsed : nat;
  b_href : string;
  b_origin : jsval;
  b_protocol : string;
  b_hostname : string;
  b_port : string;
  b_scripts : list string;
  b_localStorage : option (list (string * string));
  b_cookies : list (string * (string * Z));
  b_hasPromise : bool;
  b_hasOldCordova : bool;
  b_hasCordova : bool;
  b_hasInAppBrowser : bool
}.

Definition eta_Browser (r : Browser) : Browser :=
  mkBrowser (b_now r) (b_random r) (b_randomUsed r) (b_href r) (b_origin r) (b_protocol
    r) (b_hostname r) (b_port r) (b_scripts r) (b_localStorage r) (b_cookies r)
    (b_hasPromise r) (b_hasOldCordova r) (b_hasCordova r) (b_hasInAppBrowser r).

#[global] Instance set_b_now : Field b_now := ltac:(mk_field eta_Browser b_now).
#[global] Instance set_b_random : Field b_random := ltac:(mk_field eta_Browser b_random).
#[global] Instance set_b_randomUsed : Field b_randomUsed := ltac:(mk_field eta_Browser b_randomUsed).
#[global] Instance set_b_href : Field b_href := ltac:(mk_field eta_Browser b_href).
#[global] Instance set_b_origin : Field b_origin := ltac:(mk_field eta_Browser b_origin).
#[global] Instance set_b_protocol : Field b_protocol := ltac:(mk_field eta_Browser b_protocol).
#[global] Instance set_b_hostname : Field b_hostname := ltac:(mk_field eta_Browser b_hostname).
#[global] Instance set_b_port : Field b_port := ltac:(mk_field eta_Browser b_port).
#[global] Instance set_b_scripts : Field b_scripts := ltac:(mk_field eta_Browser b_scripts).
#[global] Instance set_b_localStorage : Field b_localStorage := ltac:(mk_field eta_Browser b_localStorage).
#[global] Instance set_b_cookies : Field b_cookies := ltac:(mk_field eta_Browser b_cookies).
#[global] Instance set_b_hasPromise : Field b_hasPromise := ltac:(mk_field eta_Browser b_hasPromise).
#[global] Instance set_b_hasOldCordova : Field b_hasOldCordova := ltac:(mk_field eta_Browser b_hasOldCordova).
#[global] Instance set_b_hasCordova : Field b_hasCordova := ltac:(mk_field eta_Browser b_hasCordova).
#[global] Instance set_b_hasInAppBrowser : Field b_hasInAppBrowser := ltac:(mk_field eta_Browser b_hasInAppBrowser).

Record World := mkWorld {
  kc : Kc;
  config : jsval;
  adapter : AdapterKind;
  callbackStorage : StorageKind;
  refreshQueue : list nat;
  loginIframe : LoginIframe;
  useNonce : jsval;
  promises : list promise;
  microtasks : list (cont * jsval);
  inflight : list (nat * request);
  nextRequest : nat;
  timers : list (nat * (timer * option Z));
  nextTimer : nat;
  windows : list app_window;
  links : list link_handler;
  messageListener : bool;
  trace : list output;
  br : Browser
}.

Definition eta_World (r : World) : World :=
  mkWorld (kc r) (config r) (adapter r) (callbackStorage r) (refreshQueue r)
    (loginIframe r) (useNonce r) (promises r) (microtasks r) (inflight r) (nextRequest
    r) (timers r) (nextTimer r) (windows r) (links r) (messageListener r) (trace r) (br
    r).

#[global] Instance set_kc : Field kc := ltac:(mk_field eta_World kc).
#[global] Instance set_config : Field config := ltac:(mk_field eta_World config).
#[global] Instance set_adapter : Field adapter := ltac:(mk_field eta_World adapter).
#[global] Instance set_callbackStorage : Field callbackStorage := ltac:(mk_field eta_World callbackStorage).
#[global] Instance set_refreshQueue : Field refreshQueue := ltac:(mk_field eta_World refreshQueue).
#[global] Instance set_loginIframe : Field loginIframe := ltac:(mk_field eta_World loginIframe).
#[global] Instance set_useNonce : Field useNonce := ltac:(mk_field eta_World useNonce).
#[global] Instance set_promises : Field promises := ltac:(mk_field eta_World promises).
#[global] Instance set_microtasks : Field microtasks := ltac:(mk_field eta_World microtasks).
#[global] Instance set_inflight : Field inflight := ltac:(mk_field eta_World inflight).
#[global] Instance set_nextRequest : Field nextRequest := ltac:(mk_field eta_World nextRequest).
#[global] Instance set_timers : Field timers := ltac:(mk_field eta_World timers).
#[global] Instance set_nextTimer : Field nextTimer := ltac:(mk_field eta_World nextTimer).
#[global] Instance set_windows : Field windows := ltac:(mk_field eta_World windows).
#[global] Instance set_links : Field links := ltac:(mk_field eta_World links).
#[global] Instance set_messageListener : Field messageListener := ltac:(mk_field eta_World messageListener).
#[global] Instance set_trace : Field trace := ltac:(mk_field eta_World trace).
#[global] Instance set_br : Field br := ltac:(mk_field eta_World br).

Abbreviation IO := (M World).

(** The parts of the state that the operations on tokens leave alone, as one
    value: two states with the same [rest] differ in [kc], [timers], [nextTimer]
    and [trace] only. *)
Definition rest (w : World) :=
  (config w, adapter w, callbackStorage w, refreshQueue w, loginIframe w, useNonce w,
   (promises w, microtasks w, inflight w, nextRequest w, windows w, links w,
    messageListener w, br w)).

(** *** Elementary effects *)

Definition emit (o : output) : IO unit := modify (λ w, w <| trace ::= cons o |>).

Definition now (w : World) : Z := b_now (br w).

(** [kc.onX && kc.onX(arg)] *)
Definition callHook (h : hook) (arg : jsval) : IO unit :=
  b ← gets (λ w, kc_hooks (kc w) h);
  when b (emit (OHook h arg)).

(** [window.location.href = url] *)
Definition navigate (url : string) : IO unit :=
  modify (λ w, w <| br -> b_href := url |>);; emit (ONavigate url).

(** [Math.random()] *)
Definition random : IO Q :=
  w ← gets id;
  modify (λ w, w <| br -> b_randomUsed ::= S |>);;
  mret (b_random (br w) (b_randomUsed (br w))).

(** [req.send(body)] of a request whose handler is [req_cont]. *)
Definition send (r : request) : IO unit :=
  modify (λ w, w <| inflight ::= (λ l, l ++ [(nextRequest w, r)]) |> <| nextRequest ::= S |>);;
  emit (OSend r).

(** [setTimeout(t, delay)]; a delay that is [NaN] counts as no delay. *)
Definition setTimeout (t : timer) (delay : option Z) : IO nat :=
  n ← gets nextTimer;
  modify (λ w, w <| timers ::= (λ l, l ++ [(n, (t, delay))]) |> <| nextTimer ::= S |>);;
  mret n.

Definition clearTimeout (h : nat) : IO unit :=
  modify (λ w, w <| timers ::= filter (λ x, x.1 ≠ h) |>);; emit (OClearTimeout h).

End World.
