(* ===== verification/Promise.v ===== *)
(** The promises of keycloak.js: [createPromise], [createNativePromise] and
    [createLegacyPromise].

    A native promise hands its callbacks to the microtask queue; a legacy promise
    calls them on the spot, from inside [setSuccess], [setError], [success] or
    [error].  The code that runs a callback is the [call] of the class [Env],
    which the event loop instantiates last. *)

From S2P Require Import Prelude JsString Uri JsValue World.
Import JsValue World.

(** The object an adapter is: [loadAdapter] builds the three of the library, an
    application may pass its own.  The second argument of [redirectUri],
    [encodeHash], is read by none of them. *)
Record AdapterOps := mkAdapterOps {
  a_login : jsval → IO nat;
  a_logout : jsval → IO nat;
  a_register : jsval → IO (option nat);
  a_accountManagement : IO (option nat);
  a_redirectUri : jsval → IO jsval
}.

(** What the library is linked against: the code that runs a callback, and the
    adapter object of the application, if it passed one. *)
Class Env := mkEnv {
  call : cont → jsval → IO unit;
  custom : AdapterOps
}.

Module Promise.
Section promise.
Context {env : Env}.

Definition createNativePromise : IO nat :=
  n ← gets (λ w, length (promises w));
  modify (λ w, w <| promises ::= (λ l, l ++ [NativePromise Pending []]) |>);;
  mret n.

Definition createLegacyPromise : IO nat :=
  n ← gets (λ w, length (promises w));
  modify (λ w, w <| promises ::= (λ l, l ++ [LegacyPromise false false Undefined None None]) |>);;
  mret n.

(** [typeof Promise === "function"] decides. *)
Definition createPromise : IO nat :=
  b ← gets (λ w, b_hasPromise (br w));
  if (b : bool) then createNativePromise else createLegacyPromise.

Definition store (p : nat) (q : promise) : IO unit :=
  modify (λ w, w <| promises ::= (λ l, <[p := q]> l) |>).

(** Queue the reactions of one kind, in the order they were registered. *)
Definition enqueue (kind : bool) (rs : list (bool * cont)) (v : jsval) : IO unit :=
  modify (λ w, w <| microtasks ::= (λ q, q ++ omap
    (λ r, if Bool.eqb r.1 kind then Some (r.2, v) else None) rs) |>).

Definition call_opt (k : option cont) (v : jsval) : IO unit :=
  match k with Some k => call k v | None => mret tt end.

(** [p.setSuccess(v)] *)
Definition setSuccess (p : nat) (v : jsval) : IO unit :=
  ps ← gets promises;
  match ps !! p with
  | Some (NativePromise Pending rs) =>
      store p (NativePromise (Fulfilled v) []);; enqueue true rs v
  | Some (NativePromise _ _) => mret tt
  | Some (LegacyPromise _ e _ sc ec) =>
      store p (LegacyPromise true e v sc ec);; call_opt sc v
  | None => mret tt
  end.

(** [p.setError(v)] *)
Definition setError (p : nat) (v : jsval) : IO unit :=
  ps ← gets promises;
  match ps !! p with
  | Some (NativePromise Pending rs) =>
      store p (NativePromise (Rejected v) []);; enqueue false rs v
  | Some (NativePromise _ _) => mret tt
  | Some (LegacyPromise s _ _ sc ec) =>
      store p (LegacyPromise s true v sc ec);; call_opt ec v
  | None => mret tt
  end.

(** [p.promise.success(k)] *)
Definition success (p : nat) (k : cont) : IO unit :=
  ps ← gets promises;
  match ps !! p with
  | Some (NativePromise Pending rs) => store p (NativePromise Pending (rs ++ [(true, k)]))
  | Some (NativePromise (Fulfilled v) _) => enqueue true [(true, k)] v
  | Some (NativePromise (Rejected _) _) => mret tt
  | Some (LegacyPromise s e v sc ec) =>
      if s then call k v
      else if negb e then store p (LegacyPromise s e v (Some k) ec) else mret tt
  | None => mret tt
  end.

(** [p.promise.error(k)] *)
Definition error (p : nat) (k : cont) : IO unit :=
  ps ← gets promises;
  match ps !! p with
  | Some (NativePromise Pending rs) => store p (NativePromise Pending (rs ++ [(false, k)]))
  | Some (NativePromise (Rejected v) _) => enqueue false [(false, k)] v
  | Some (NativePromise (Fulfilled _) _) => mret tt
  | Some (LegacyPromise s e v sc ec) =>
      if e then call k v
      else if negb s then store p (LegacyPromise s e v sc (Some k)) else mret tt
  | None => mret tt
  end.

(** ** Native promises *)

Definition is_native (q : promise) : bool :=
  match q with NativePromise _ _ => true | LegacyPromise _ _ _ _ _ => false end.

(** The browser has [Promise], so every promise is a native one. *)
Definition native (w : World) : Prop :=
  b_hasPromise (br w) = true ∧ Forall (λ q, is_native q = true) (promises w).

Definition state_of (w : World) (p : nat) : option pstate :=
  match promises w !! p with Some (NativePromise st _) => Some st | _ => None end.

Definition outcome_state (ok : bool) (v : jsval) : pstate :=
  if ok then Fulfilled v else Rejected v.

(** What [resolve] and [reject] do to a native promise. *)
Definition settle (ok : bool) (p : nat) (v : jsval) (w : World) : World :=
  match promises w !! p with
  | Some (NativePromise Pending rs) =>
      w <| promises ::= <[p := NativePromise (outcome_state ok v) []]> |>
        <| microtasks ::= (λ q, q ++ omap
             (λ r, if Bool.eqb r.1 ok then Some (r.2, v) else None) rs) |>
  | _ => w
  end.

(** Everything but the promises and the microtasks. *)
Definition others (w : World) :=
  (kc w, config w, adapter w, callbackStorage w, refreshQueue w, loginIframe w, useNonce w,
   (inflight w, nextRequest w, timers w, nextTimer w, windows w, links w,
    messageListener w, trace w, br w)).

Lemma others_kc w w' : others w' = others w → kc w' = kc w.
Proof. by intros [=]. Qed.

Lemma others_loginIframe w w' : others w' = others w → loginIframe w' = loginIframe w.
Proof. by intros [=]. Qed.

Lemma others_refreshQueue w w' : others w' = others w → refreshQueue w' = refreshQueue w.
Proof. by intros [=]. Qed.

Lemma others_inflight w w' : others w' = others w → inflight w' = inflight w.
Proof. by intros [=]. Qed.

Lemma native_lookup w p q : native w → promises w !! p = Some q → is_native q = true.
Proof. intros [_ H] Hp. by eapply Forall_lookup_1 in H. Qed.

Lemma setSuccess_native w p v : native w → setSuccess p v w = (Returns tt, settle true p v w).
Proof.
  intros H. unfold setSuccess, settle. rewrite bind_gets.
  destruct (promises w !! p) as [[[] rs|]|] eqn:E; try done.
  by apply native_lookup in E.
Qed.

Lemma setError_native w p v : native w → setError p v w = (Returns tt, settle false p v w).
Proof.
  intros H. unfold setError, settle. rewrite bind_gets.
  destruct (promises w !! p) as [[[] rs|]|] eqn:E; try done.
  by apply native_lookup in E.
Qed.

(** The world with one more pending promise. *)
Definition fresh (w : World) : World :=
  w <| promises ::= (λ l, l ++ [NativePromise Pending []]) |>.

Lemma createPromise_native w :
  native w → createPromise w = (Returns (length (promises w)), fresh w).
Proof. intros [Hb _]. unfold createPromise. by rewrite bind_gets, Hb. Qed.

Lemma fresh_native w : native w → native (fresh w).
Proof. intros [Hb Hf]. split; [done|]. simpl. apply Forall_app. by split; [|constructor]. Qed.

Lemma fresh_state w : state_of (fresh w) (length (promises w)) = Some Pending.
Proof. unfold state_of. simpl. by rewrite lookup_app_r, Nat.sub_diag by done. Qed.

Lemma settle_others ok p v w : others (settle ok p v w) = others w.
Proof. unfold settle. by repeat case_match. Qed.

Lemma settle_native ok p v w : native w → native (settle ok p v w).
Proof.
  intros H. unfold settle. destruct (promises w !! p) as [[[] rs|]|] eqn:E; try done.
  destruct H as [Hb Hf]. split; [done|]. simpl. by apply Forall_insert.
Qed.

(** A promise that has settled stays as it is. *)
Lemma settle_state ok p v w q :
  state_of (settle ok p v w) q =
    if decide (q = p ∧ state_of w p = Some Pending) then Some (outcome_state ok v)
    else state_of w q.
Proof.
  assert (state_of w p = match promises w !! p with
                         | Some (NativePromise st _) => Some st | _ => None end) as Hs by done.
  unfold settle. destruct (promises w !! p) as [[[] rs|]|] eqn:E; rewrite Hs;
    try (rewrite decide_False by (by intros []); done).
  unfold state_of. simpl. case_decide as Hd.
  - destruct Hd as [-> _]. by rewrite list_lookup_insert_eq by (by eapply lookup_lt_Some).
  - by rewrite list_lookup_insert_ne by naive_solver.
Qed.

(** Settling a list of promises one after the other. *)
Definition settle_all (ok : bool) (v : jsval) (ps : list nat) (w : World) : World :=
  foldl (λ w p, settle ok p v w) w ps.

Lemma settle_all_frame ok v ps w :
  native w → native (settle_all ok v ps w) ∧ others (settle_all ok v ps w) = others w.
Proof.
  revert w. induction ps as [|p ps IH]; intros w H; [done|]. simpl.
  destruct (IH (settle ok p v w)) as [Hn Ho]; [by apply settle_native|].
  by rewrite settle_others in Ho.
Qed.

Lemma settle_all_state ok v ps w q :
  state_of (settle_all ok v ps w) q =
    if decide (q ∈ ps ∧ state_of w q = Some Pending) then Some (outcome_state ok v)
    else state_of w q.
Proof.
  revert w. induction ps as [|p ps IH]; intros w.
  - rewrite decide_False; [done|]. intros [[]%elem_of_nil _].
  - change (settle_all ok v (p :: ps) w) with (settle_all ok v ps (settle ok p v w)).
    rewrite IH. pose proof (settle_state ok p v w q) as E. clear IH.
    revert E. generalize (state_of (settle ok p v w) q). intros st E.
    assert (outcome_state ok v ≠ Pending) by (by destruct ok).
    repeat case_decide; subst; try done; set_solver.
Qed.

Lemma for_each_setSuccess ps v w :
  native w → for_each (λ p, setSuccess p v) ps w = (Returns tt, settle_all true v ps w).
Proof.
  revert w. induction ps as [|p ps IH]; intros w H; [done|]. simpl.
  unfold mbind, M_bind. rewrite setSuccess_native by done. by apply IH, settle_native.
Qed.

Lemma for_each_setError ps v w :
  native w → for_each (λ p, setError p v) ps w = (Returns tt, settle_all false v ps w).
Proof.
  revert w. induction ps as [|p ps IH]; intros w H; [done|]. simpl.
  unfold mbind, M_bind. rewrite setError_native by done. by apply IH, settle_native.
Qed.

(** Registering a reaction changes no promise's state. *)
Definition registers (m : IO unit) : Prop :=
  ∀ w, native w → ∃ w', m w = (Returns tt, w') ∧ native w' ∧ others w' = others w ∧
    ∀ q, state_of w' q = state_of w q.

Lemma store_reaction w p rs rs' :
  native w → promises w !! p = Some (NativePromise Pending rs) →
  ∃ w', store p (NativePromise Pending rs') w = (Returns tt, w') ∧ native w' ∧
    others w' = others w ∧ ∀ q, state_of w' q = state_of w q.
Proof.
  intros [Hb Hf] Hp. eexists. split_and!; [done| |done|].
  - split; [done|]. simpl. by apply Forall_insert.
  - intros q. unfold state_of. simpl. destruct (decide (q = p)) as [->|].
    + rewrite list_lookup_insert_eq by (by eapply lookup_lt_Some). by rewrite Hp.
    + by rewrite list_lookup_insert_ne.
Qed.

Lemma success_registers p k : registers (success p k).
Proof.
  intros w Hn. unfold success. rewrite bind_gets.
  destruct (promises w !! p) as [[[] rs|]|] eqn:E; try (by eexists).
  - by eapply store_reaction.
  - by apply native_lookup in E.
Qed.

Lemma error_registers p k : registers (error p k).
Proof.
  intros w Hn. unfold error. rewrite bind_gets.
  destruct (promises w !! p) as [[[] rs|]|] eqn:E; try (by eexists).
  - by eapply store_reaction.
  - by apply native_lookup in E.
Qed.

(** Operations on tokens do not touch promises. *)
Lemma rest_native w w' : rest w' = rest w → native w → native w'.
Proof. unfold rest, native. intros [= ? ? ? ? ? ? Hp ? ? ? ? ? ? Hb]. by rewrite Hp, Hb. Qed.

Lemma rest_state w w' q : rest w' = rest w → state_of w' q = state_of w q.
Proof. unfold rest, state_of. intros [= ? ? ? ? ? ? Hp]. by rewrite Hp. Qed.

End promise.
End Promise.
