(* ===== verification/Token.v ===== *)
(** Tokens: [decodeToken], [setToken], [kc.isTokenExpired], [kc.hasRealmRole] and
    [kc.hasResourceRole] of keycloak.js. *)

From S2P Require Import Prelude JsString Uri Base64 JsValue Json World.
Import JsString Uri Base64 JsValue Json World.

Module Token.

(** *** Arithmetic with NaN *)

Definition num2 (f : Z → Z → Z) (a b : option Z) : option Z :=
  x ← a; y ← b; Some (f x y).

(** [a < 0] and [a <= 0]: false of [NaN]. *)
Definition is_neg (a : option Z) : bool :=
  match a with Some x => (x <? 0)%Z | None => false end.
Definition is_nonpos (a : option Z) : bool :=
  match a with Some x => (x <=? 0)%Z | None => false end.

(** [Math.ceil(ms / 1000)] *)
Definition ceil_s (ms : Z) : Z := (- (- ms / 1000))%Z.

(** [Math.floor(t / 1000)] *)
Definition floor_s (t : Q) : Z := Qfloor (t / 1000)%Q.

(** *** [decodeToken] *)

(** The switch on [str.length % 4]. *)
Definition pad4 (str : string) : outcome string :=
  match String.length str mod 4 with
  | 0 => Returns str
  | 2 => Returns (str +:+ "==")
  | 3 => Returns (str +:+ "=")
  | _ => Throws (Thrown "Invalid token")
  end.

(** The part of [decodeToken] after the payload is cut out of the token. *)
Definition decodePayload (str : string) : outcome jsval :=
  let str := replace_first str "/-/g" "+" in
  let str := replace_first str "/_/g" "/" in
  str ← pad4 str;
  let str := slice0 (str +:+ "===") (String.length str + String.length str mod 4) in
  let str := replace_all "_" "/" (replace_all "-" "+" str) in
  bin ← atob str;
  txt ← decodeURIComponent (escape bin);
  JSON_parse txt.

Definition decodeToken (v : jsval) : outcome jsval :=
  match v with
  | Str s =>
      match split "." s !! 1 with
      | Some str => decodePayload str
      | None => Throws TypeError
      end
  | _ => Throws TypeError
  end.

(** *** [setToken] *)

Definition clearTokenTimeout : IO unit :=
  h ← gets (λ w, kc_tokenTimeoutHandle (kc w));
  match h with
  | Some h =>
      clearTimeout h;;
      modify (λ w, w <| kc -> kc_tokenTimeoutHandle := None |>)
  | None => mret tt
  end.

Definition setRefreshToken (refreshToken : jsval) : IO unit :=
  if truthy refreshToken then
    modify (λ w, w <| kc -> kc_refreshToken := refreshToken |>);;
    parsed ← lift (decodeToken refreshToken);
    modify (λ w, w <| kc -> kc_refreshTokenParsed := parsed |>)
  else
    modify (λ w, w <| kc -> kc_refreshToken := Undefined |>
                   <| kc -> kc_refreshTokenParsed := Undefined |>).

Definition setIdToken (idToken : jsval) : IO unit :=
  if truthy idToken then
    modify (λ w, w <| kc -> kc_idToken := idToken |>);;
    parsed ← lift (decodeToken idToken);
    modify (λ w, w <| kc -> kc_idTokenParsed := parsed |>)
  else
    modify (λ w, w <| kc -> kc_idToken := Undefined |>
                   <| kc -> kc_idTokenParsed := Undefined |>).

(** [if (timeLocal) kc.timeSkew = Math.floor(timeLocal / 1000) - kc.tokenParsed.iat] *)
Definition setTimeSkew (parsed : jsval) (timeLocal : option Q) : IO unit :=
  match timeLocal with
  | Some t =>
      when (negb (Qeq_bool t 0))
        (iat ← lift (getp parsed "iat");
         modify (λ w, w <| kc -> kc_timeSkew :=
           of_number (num2 Z.sub (Some (floor_s t)) (to_number iat)) |>))
  | None => mret tt
  end.

(** [(kc.tokenParsed['exp'] - (now / 1000) + kc.timeSkew) * 1000] *)
Definition expiresIn_ms (exp : jsval) (now : Z) (skew : jsval) : option Z :=
  num2 (λ e s, e * 1000 - now + s * 1000)%Z (to_number exp) (to_number skew).

(** The timer for [kc.onTokenExpired]. *)
Definition scheduleExpiry (parsed : jsval) : IO unit :=
  w ← gets id;
  if is_nullish (kc_timeSkew (kc w)) then mret tt
  else when (kc_hooks (kc w) onTokenExpired)
    (exp ← lift (getp parsed "exp");
     let expiresIn := expiresIn_ms exp (now w) (kc_timeSkew (kc w)) in
     if is_nonpos expiresIn then emit (OHook onTokenExpired Undefined)
     else h ← setTimeout TokenExpiredTimer expiresIn;
          modify (λ w, w <| kc -> kc_tokenTimeoutHandle := Some h |>)).

Definition setAccessToken (token : jsval) (timeLocal : option Q) : IO unit :=
  if truthy token then
    modify (λ w, w <| kc -> kc_token := token |>);;
    parsed ← lift (decodeToken token);
    modify (λ w, w <| kc -> kc_tokenParsed := parsed |>);;
    session_state ← lift (getp parsed "session_state");
    sub ← lift (getp parsed "sub");
    realm_access ← lift (getp parsed "realm_access");
    resource_access ← lift (getp parsed "resource_access");
    modify (λ w, w <| kc -> kc_sessionId := session_state |>
                   <| kc -> kc_authenticated := Bool true |>
                   <| kc -> kc_subject := sub |>
                   <| kc -> kc_realmAccess := realm_access |>
                   <| kc -> kc_resourceAccess := resource_access |>);;
    setTimeSkew parsed timeLocal;;
    scheduleExpiry parsed
  else
    modify (λ w, w <| kc -> kc_token := Undefined |>
                   <| kc -> kc_tokenParsed := Undefined |>
                   <| kc -> kc_subject := Undefined |>
                   <| kc -> kc_realmAccess := Undefined |>
                   <| kc -> kc_resourceAccess := Undefined |>
                   <| kc -> kc_authenticated := Bool false |>).

Definition setToken (token refreshToken idToken : jsval) (timeLocal : option Q) : IO unit :=
  clearTokenTimeout;;
  setRefreshToken refreshToken;;
  setIdToken idToken;;
  setAccessToken token timeLocal.

(** *** [kc.isTokenExpired] *)

Definition isTokenExpired (minValidity : jsval) : IO bool :=
  k ← gets kc;
  if negb (truthy (kc_tokenParsed k))
     || (negb (truthy (kc_refreshToken k)) && negb (loose_eq (kc_flow k) (Str "implicit")))
  then throw (Thrown "Not authenticated")
  else if is_nullish (kc_timeSkew k) then mret true
  else
    t ← gets now;
    exp ← lift (getp (kc_tokenParsed k) "exp");
    let expiresIn := num2 Z.add (num2 Z.sub (to_number exp) (Some (ceil_s t)))
                                (to_number (kc_timeSkew k)) in
    let expiresIn := if truthy minValidity
                     then num2 Z.sub expiresIn (to_number minValidity) else expiresIn in
    mret (is_neg expiresIn).

(** *** Roles *)

(** [!!access && access.roles.indexOf(role) >= 0] *)
Definition hasRole (access role : jsval) : outcome bool :=
  if truthy access then roles ← getp access "roles"; includes roles role
  else Returns false.

Definition hasRealmRole (role : jsval) : IO bool :=
  access ← gets (λ w, kc_realmAccess (kc w));
  lift (hasRole access role).

Definition hasResourceRole (role resource : jsval) : IO bool :=
  k ← gets kc;
  if negb (truthy (kc_resourceAccess k)) then mret false
  else access ← lift (getAt (kc_resourceAccess k) (to_string (js_or resource (kc_clientId k))));
       lift (hasRole access role).

(** ** The payload of a token *)

Lemma pad4_length str str' : pad4 str = Returns str' → String.length str' mod 4 = 0.
Proof.
  unfold pad4. destruct (String.length str mod 4) as [|[|[|[|n]]]] eqn:E; intros; simplify_eq;
    [done|..]; rewrite length_app_s; cbn [String.length];
    rewrite Nat.Div0.add_mod, E; done.
Qed.

(** On a payload without a slash, as every base64url text is, the two string
    patterns of [decodeToken] match nothing and the second padding step removes
    what it added. *)
Lemma decodePayload_plain p :
  occurs "/" p = false →
  decodePayload p =
    (str ← pad4 p;
     bin ← atob (replace_all "_" "/" (replace_all "-" "+" str));
     txt ← decodeURIComponent (escape bin);
     JSON_parse txt).
Proof.
  intros Hp. unfold decodePayload.
  rewrite (replace_first_absent "/" "/-/g"), (replace_first_absent "/" "/_/g") by done.
  destruct (pad4 p) as [str|e] eqn:E; [|done]. simpl.
  rewrite (pad4_length _ _ E), Nat.add_0_r. unfold slice0. by rewrite take_s_app.
Qed.

Lemma pad4_b64url b : pad4 (b64url b) = Returns (b64url b +:+ b64_padding b).
Proof.
  unfold pad4, b64_padding. rewrite length_b64url, length_b64_digits.
  pose proof (Nat.mod_upper_bound (String.length b) 3).
  destruct (String.length b mod 3) as [|[|[|]]]; [by rewrite app_nil_r|done..|lia].
Qed.

Lemma decodePayload_b64url b :
  decodePayload (b64url b) = if utf8_valid b then JSON_parse b else Throws URIError.
Proof.
  rewrite decodePayload_plain by apply b64url_no_slash.
  rewrite pad4_b64url. cbn [mbind outcome_bind].
  rewrite !replace_all_app, b64url_undo.
  assert (replace_all "_" "/" (replace_all "-" "+" (b64_padding b)) = b64_padding b) as ->.
  { unfold b64_padding. by repeat case_match. }
  change (b64_digits b +:+ b64_padding b) with (b64_encode b).
  rewrite atob_encode. cbn [mbind outcome_bind]. rewrite decode_escape.
  by destruct (utf8_valid b).
Qed.

Lemma decodeToken_parts h p sig :
  occurs "." h = false → occurs "." p = false →
  decodeToken (Str (h +:+ "." +:+ p +:+ "." +:+ sig)) = decodePayload p.
Proof.
  intros Hh Hp. unfold decodeToken.
  rewrite !app_cons, !app_nil_l, !split_app by done. done.
Qed.

(** ** [setToken] *)

(** How the fields of [kc] that [setToken] writes are tied to each other. *)
Definition parsed_of (tok parsed : jsval) : Prop :=
  if truthy tok then decodeToken tok = Returns parsed else tok = Undefined ∧ parsed = Undefined.

Definition claim (parsed : jsval) (k : string) : jsval :=
  match getp parsed k with Returns v => v | Throws _ => Undefined end.

Definition coherent (k : Kc) : Prop :=
  parsed_of (kc_token k) (kc_tokenParsed k) ∧
  parsed_of (kc_refreshToken k) (kc_refreshTokenParsed k) ∧
  parsed_of (kc_idToken k) (kc_idTokenParsed k) ∧
  kc_authenticated k = Bool (truthy (kc_token k)) ∧
  kc_subject k = claim (kc_tokenParsed k) "sub" ∧
  kc_realmAccess k = claim (kc_tokenParsed k) "realm_access" ∧
  kc_resourceAccess k = claim (kc_tokenParsed k) "resource_access".

Lemma clearTokenTimeout_spec w :
  ∃ w', clearTokenTimeout w = (Returns tt, w') ∧
    kc w' = (kc w) <| kc_tokenTimeoutHandle := None |> ∧ rest w' = rest w.
Proof.
  unfold clearTokenTimeout. rewrite bind_gets.
  destruct (kc_tokenTimeoutHandle (kc w)) as [h|] eqn:E; [by eexists|].
  exists w. split_and!; [done| |done]. destruct (kc w). simpl in E. by subst.
Qed.

Lemma setRefreshToken_spec t w :
  setRefreshToken t w =
  if truthy t then
    match decodeToken t with
    | Returns p => (Returns tt, w <| kc -> kc_refreshToken := t |> <| kc -> kc_refreshTokenParsed := p |>)
    | Throws e => (Throws e, w <| kc -> kc_refreshToken := t |>)
    end
  else (Returns tt, w <| kc -> kc_refreshToken := Undefined |> <| kc -> kc_refreshTokenParsed := Undefined |>).
Proof.
  unfold setRefreshToken. destruct (truthy t); [|done].
  unfold mbind, M_bind, lift. simpl. by destruct (decodeToken t).
Qed.

Lemma setIdToken_spec t w :
  setIdToken t w =
  if truthy t then
    match decodeToken t with
    | Returns p => (Returns tt, w <| kc -> kc_idToken := t |> <| kc -> kc_idTokenParsed := p |>)
    | Throws e => (Throws e, w <| kc -> kc_idToken := t |>)
    end
  else (Returns tt, w <| kc -> kc_idToken := Undefined |> <| kc -> kc_idTokenParsed := Undefined |>).
Proof.
  unfold setIdToken. destruct (truthy t); [|done].
  unfold mbind, M_bind, lift. simpl. by destruct (decodeToken t).
Qed.

Lemma setTimeSkew_frame parsed tl w :
  ∃ s, kc (setTimeSkew parsed tl w).2 = (kc w) <| kc_timeSkew := s |>.
Proof.
  assert (∃ s, kc w = (kc w) <| kc_timeSkew := s |>) as Hid.
  { exists (kc_timeSkew (kc w)). by destruct (kc w). }
  unfold setTimeSkew. destruct tl as [t|]; [|done]. run_io.
  destruct (Qeq_bool t 0); [done|]. simpl. destruct (getp parsed "iat"); [by eexists|done].
Qed.

Lemma scheduleExpiry_frame parsed w :
  ∃ h, kc (scheduleExpiry parsed w).2 = (kc w) <| kc_tokenTimeoutHandle := h |>.
Proof.
  assert (∃ h, kc w = (kc w) <| kc_tokenTimeoutHandle := h |>) as Hid.
  { exists (kc_tokenTimeoutHandle (kc w)). by destruct (kc w). }
  unfold scheduleExpiry. run_io.
  destruct (is_nullish _); [done|]. destruct (kc_hooks _ _); [|done].
  destruct (getp parsed "exp"); [|done]. simpl.
  destruct (is_nonpos _); [done|]. by eexists.
Qed.

(** What an access token writes: everything but the time skew and the timer is
    determined by the token. *)
Lemma setAccessToken_returns token tl w w' :
  setAccessToken token tl w = (Returns tt, w') →
  if truthy token then
    ∃ parsed s h, decodeToken token = Returns parsed ∧ is_nullish parsed = false ∧
      kc w' = (kc w) <| kc_token := token |> <| kc_tokenParsed := parsed |>
        <| kc_sessionId := claim parsed "session_state" |>
        <| kc_authenticated := Bool true |>
        <| kc_subject := claim parsed "sub" |>
        <| kc_realmAccess := claim parsed "realm_access" |>
        <| kc_resourceAccess := claim parsed "resource_access" |>
        <| kc_timeSkew := s |> <| kc_tokenTimeoutHandle := h |>
  else
    kc w' = (kc w) <| kc_token := Undefined |> <| kc_tokenParsed := Undefined |>
      <| kc_subject := Undefined |> <| kc_realmAccess := Undefined |>
      <| kc_resourceAccess := Undefined |> <| kc_authenticated := Bool false |>.
Proof.
  unfold setAccessToken. destruct (truthy token); [|by intros [= <-]].
  intros H. rewrite bind_modify in H.
  destruct (decodeToken token) as [parsed|e]; [|by rewrite bind_lift_throws in H].
  destruct (is_nullish parsed) eqn:Hn; [by destruct parsed|].
  assert (∀ k, getp parsed k = Returns (claim parsed k)) as Hc
    by (intros k; unfold claim; by destruct parsed).
  rewrite bind_lift, bind_modify, !Hc, !bind_lift, bind_modify in H.
  apply bind_returns in H as ([] & w1 & Hskew & H).
  edestruct (setTimeSkew_frame parsed tl) as [s Hs]. rewrite Hskew in Hs.
  edestruct (scheduleExpiry_frame parsed) as [h Hh]. rewrite H in Hh.
  exists parsed, s, h. split_and!; [done|done|]. cbn [snd] in *. rewrite Hh, Hs. reflexivity.
Qed.

Lemma setToken_coherent t r i tl w w' :
  setToken t r i tl w = (Returns tt, w') → coherent (kc w').
Proof.
  unfold setToken. intros H. apply bind_returns in H as ([] & w1 & _ & H).
  apply bind_returns in H as ([] & w2 & H2 & H). rewrite setRefreshToken_spec in H2.
  apply bind_returns in H as ([] & w3 & H3 & H). rewrite setIdToken_spec in H3.
  apply setAccessToken_returns in H.
  assert (parsed_of (kc_refreshToken (kc w2)) (kc_refreshTokenParsed (kc w2))) as Hr.
  { unfold parsed_of. destruct (truthy r) eqn:Er; [|by injection H2 as <-].
    destruct (decodeToken r) as [p|] eqn:Ed; [|done]. injection H2 as <-. simpl. by rewrite Er. }
  assert (parsed_of (kc_idToken (kc w3)) (kc_idTokenParsed (kc w3)) ∧
          kc_refreshToken (kc w3) = kc_refreshToken (kc w2) ∧
          kc_refreshTokenParsed (kc w3) = kc_refreshTokenParsed (kc w2)) as (Hi & E1 & E2).
  { unfold parsed_of. destruct (truthy i) eqn:Ei; [|by injection H3 as <-].
    destruct (decodeToken i) as [p|] eqn:Ed; [|done]. injection H3 as <-. simpl. by rewrite Ei. }
  rewrite <- E1, <- E2 in Hr. clear H2 H3 E1 E2. unfold coherent.
  destruct (truthy t) eqn:Et.
  - destruct H as (parsed & s & h & Hd & Hn & ->). simpl.
    split_and!; try done; [|by rewrite Et]. unfold parsed_of. by rewrite Et.
  - rewrite H. simpl. by split_and!.
Qed.

(** [setToken] after the timer of the previous token is gone. *)
Lemma setToken_unfold t r i tl w :
  ∃ w1, kc w1 = (kc w) <| kc_tokenTimeoutHandle := None |> ∧ rest w1 = rest w ∧
    setToken t r i tl w =
      (setRefreshToken r ≫= λ _, setIdToken i ≫= λ _, setAccessToken t tl) w1.
Proof.
  destruct (clearTokenTimeout_spec w) as (w1 & Hc & Hk & Hr). exists w1.
  split_and!; [done..|]. unfold setToken. unfold mbind at 1, M_bind at 1. by rewrite Hc.
Qed.

(** The tokens that [setToken] was given, [undefined] in place of a falsy one. *)
Definition kept (tok : jsval) : jsval := if truthy tok then tok else Undefined.

Lemma setToken_fields t r i tl w w' :
  setToken t r i tl w = (Returns tt, w') →
  kc_token (kc w') = kept t ∧ kc_refreshToken (kc w') = kept r ∧ kc_idToken (kc w') = kept i ∧
  kc_hooks (kc w') = kc_hooks (kc w).
Proof.
  intros H. destruct (setToken_unfold t r i tl w) as (w1 & Hk & _ & E). rewrite E in H. clear E.
  apply bind_returns in H as ([] & w2 & H2 & H). rewrite setRefreshToken_spec in H2.
  apply bind_returns in H as ([] & w3 & H3 & H). rewrite setIdToken_spec in H3.
  apply setAccessToken_returns in H. unfold kept.
  destruct (truthy r); [destruct (decodeToken r); [|done]|]; injection H2 as <-;
  (destruct (truthy i); [destruct (decodeToken i); [|done]|]; injection H3 as <-);
  (destruct (truthy t); [destruct H as (? & ? & ? & _ & _ & H)|]; rewrite H; cbn; by rewrite Hk).
Qed.

(** [kc] after [setToken(null, null, null)]: [kc.sessionId] and [kc.timeSkew] are
    the two fields a token had set that stay. *)
Definition forget_tokens (k : Kc) : Kc :=
  k <| kc_tokenTimeoutHandle := None |>
    <| kc_refreshToken := Undefined |> <| kc_refreshTokenParsed := Undefined |>
    <| kc_idToken := Undefined |> <| kc_idTokenParsed := Undefined |>
    <| kc_token := Undefined |> <| kc_tokenParsed := Undefined |>
    <| kc_subject := Undefined |> <| kc_realmAccess := Undefined |>
    <| kc_resourceAccess := Undefined |> <| kc_authenticated := Bool false |>.

Lemma setToken_null w :
  ∃ w', setToken Null Null Null None w = (Returns tt, w') ∧
    kc w' = forget_tokens (kc w) ∧ rest w' = rest w.
Proof.
  destruct (setToken_unfold Null Null Null None w) as (w1 & Hk & Hr & ->).
  unfold setRefreshToken, setIdToken, setAccessToken. cbn [truthy].
  rewrite !bind_modify. eexists. split_and!; [done| |].
  - simpl. by rewrite Hk.
  - by rewrite <- Hr.
Qed.

(** [setToken] touches the tokens, their timer and nothing else. *)
Lemma setToken_rest r t rt it tl : preserves (λ w, rest w = r) (setToken t rt it tl).
Proof.
  unfold setToken, clearTokenTimeout, setRefreshToken, setIdToken, setAccessToken,
    setTimeSkew, scheduleExpiry, clearTimeout, setTimeout, emit.
  preserve ltac:(by intros).
Qed.

Lemma setToken_rest_eq t rt it tl w o w' : setToken t rt it tl w = (o, w') → rest w' = rest w.
Proof. intros H. pose proof (setToken_rest (rest w) t rt it tl w eq_refl) as Hr. by rewrite H in Hr. Qed.

(** Tokens whose payloads are JSON objects are accepted. *)
Definition accepted (tok : jsval) : Prop :=
  truthy tok = true → ∃ o, decodeToken tok = Returns (Obj o).

Lemma setTimeSkew_obj o tl w : ∃ w', setTimeSkew (Obj o) tl w = (Returns tt, w').
Proof.
  unfold setTimeSkew, when. destruct tl as [t|]; [|by eexists].
  destruct (Qeq_bool t 0); by eexists.
Qed.

Lemma scheduleExpiry_obj o w : ∃ w', scheduleExpiry (Obj o) w = (Returns tt, w').
Proof.
  unfold scheduleExpiry, when. rewrite bind_gets. destruct (is_nullish _); [by eexists|].
  destruct (kc_hooks _ _); [|by eexists]. cbn [getp]. rewrite bind_lift.
  destruct (is_nonpos _); by eexists.
Qed.

Lemma setToken_accepted t r i tl w :
  accepted t → accepted r → accepted i → ∃ w', setToken t r i tl w = (Returns tt, w').
Proof.
  intros Ht Hr Hi. unfold setToken.
  destruct (clearTokenTimeout_spec w) as (w1 & H1 & _).
  assert (∃ w2, setRefreshToken r w1 = (Returns tt, w2)) as [w2 H2].
  { rewrite setRefreshToken_spec. unfold accepted in Hr.
    destruct (truthy r); [destruct Hr as [o ->]; [done|]|]; by eexists. }
  assert (∃ w3, setIdToken i w2 = (Returns tt, w3)) as [w3 H3].
  { rewrite setIdToken_spec. unfold accepted in Hi.
    destruct (truthy i); [destruct Hi as [o ->]; [done|]|]; by eexists. }
  unfold mbind, M_bind. rewrite H1, H2, H3. unfold setAccessToken. unfold accepted in Ht.
  destruct (truthy t); [|by eexists]. destruct Ht as [o Hd]; [done|].
  rewrite bind_modify, Hd, bind_lift, bind_modify. cbn [getp].
  rewrite !bind_lift, bind_modify.
  edestruct (setTimeSkew_obj o tl) as [w4 H4]. unfold mbind, M_bind. rewrite H4.
  apply scheduleExpiry_obj.
Qed.

(** A token that does not decode leaves [kc] with the new token next to the
    claims of the old one: nothing is rolled back. *)
Lemma setToken_undecodable token tl e w :
  truthy token = true → decodeToken token = Throws e →
  ∃ w', setToken token Undefined Undefined tl w = (Throws e, w') ∧
    kc_token (kc w') = token ∧ kc_tokenParsed (kc w') = kc_tokenParsed (kc w) ∧
    kc_authenticated (kc w') = kc_authenticated (kc w).
Proof.
  intros Ht Hd. destruct (setToken_unfold token Undefined Undefined tl w) as (w1 & Hk & Hr & ->).
  unfold setRefreshToken, setIdToken, setAccessToken. rewrite Ht. cbn [truthy].
  rewrite !bind_modify, Hd, bind_lift_throws. eexists. split; [done|]. simpl. by rewrite Hk.
Qed.

(** [kc.isTokenExpired] reads the public object and the clock, and writes nothing. *)
Lemma isTokenExpired_pure m w w' :
  kc w' = kc w → now w' = now w →
  (isTokenExpired m w').1 = (isTokenExpired m w).1 ∧ (isTokenExpired m w').2 = w'.
Proof.
  intros Hk Ht. unfold isTokenExpired. rewrite !bind_gets, Hk.
  destruct (_ || _); [done|]. destruct (is_nullish _); [done|]. rewrite !bind_gets, Ht.
  destruct (getp _ _); by rewrite ?bind_lift, ?bind_lift_throws.
Qed.

(** The skew that a token sets: the local time, in whole seconds, less the time at
    which the server issued the token. *)
Lemma setToken_skew t r i q w w' o iat :
  setToken t r i (Some q) w = (Returns tt, w') → truthy t = true → decodeToken t = Returns (Obj o) →
  assoc "iat" o = Num iat → Qeq_bool q 0 = false →
  kc_timeSkew (kc w') = Num (floor_s q - iat) ∧ kc_tokenParsed (kc w') = Obj o.
Proof.
  intros H Ht Hd Hi Hq. unfold setToken in H. do 3 apply bind_returns in H as ([] & ? & _ & H).
  unfold setAccessToken in H. rewrite Ht, bind_modify, Hd, bind_lift, bind_modify in H. cbn [getp] in H.
  rewrite !bind_lift, bind_modify in H. apply bind_returns in H as ([] & w1 & Hs & H).
  unfold setTimeSkew, when in Hs. rewrite Hq in Hs. cbn [negb getp] in Hs. rewrite bind_lift, Hi in Hs.
  injection Hs as <-. edestruct scheduleExpiry_frame as [h Hh]. rewrite H in Hh. cbn [snd] in Hh.
  by rewrite Hh.
Qed.

(** ** Clocks *)

Lemma floor_s_bounds t :
  (inject_Z (floor_s t) * 1000 <= t)%Q ∧ (t < (inject_Z (floor_s t) + 1) * 1000)%Q.
Proof.
  unfold floor_s. pose proof (Qfloor_le (t / 1000)) as H1.
  pose proof (Qlt_floor (t / 1000)) as H2. rewrite inject_Z_plus in H2.
  change (inject_Z 1) with 1%Q in H2.
  assert (t == t / 1000 * 1000)%Q as E by (field; done).
  split.
  - rewrite E at 2. apply Qmult_le_compat_r; [done|by vm_compute].
  - rewrite E at 1. apply Qmult_lt_compat_r; [by vm_compute|done].
Qed.

(** The midpoint of two local times, floored to seconds, in integers. *)
Lemma floor_s_midpoint t0 t1 :
  let s := floor_s ((inject_Z t0 + inject_Z t1) / 2)%Q in
  (2000 * s ≤ t0 + t1 < 2000 * s + 2000)%Z.
Proof.
  intros s. destruct (floor_s_bounds ((inject_Z t0 + inject_Z t1) / 2)%Q) as [H1 H2].
  fold s in H1, H2.
  assert (((inject_Z t0 + inject_Z t1) / 2) == inject_Z (t0 + t1) * (1 # 2))%Q as E
    by (rewrite inject_Z_plus; field).
  rewrite E in H1, H2. clear E.
  unfold Qle, Qlt in *. simpl in *. lia.
Qed.

Lemma ceil_s_bounds n : (n ≤ 1000 * ceil_s n < n + 1000)%Z.
Proof.
  unfold ceil_s. pose proof (Z.div_mod (- n) 1000 ltac:(lia)).
  pose proof (Z.mod_pos_bound (- n) 1000 ltac:(lia)). lia.
Qed.

(** The error of the estimate of [kc.timeSkew], in milliseconds: the browser's
    clock is ahead of the server's by [delta], and the server stamped the token
    at some local time between sending the request and receiving the answer. *)
Lemma timeSkew_error t0 t1 t delta iat :
  (t0 ≤ t ≤ t1)%Z → iat = ((t - delta) / 1000)%Z →
  let skew := (floor_s ((inject_Z t0 + inject_Z t1) / 2) - iat)%Z in
  (2 * Z.abs (1000 * skew - delta) < 2000 + (t1 - t0))%Z.
Proof.
  intros Ht Hiat skew. pose proof (floor_s_midpoint t0 t1) as H. cbv zeta in H.
  pose proof (Z.div_mod (t - delta) 1000 ltac:(lia)).
  pose proof (Z.mod_pos_bound (t - delta) 1000 ltac:(lia)). subst iat skew. lia.
Qed.

(** ** Properties *)

(** C7: A token whose payload is the base64url form of a JSON text decodes to the
    value of that text, whatever its header and signature. *)
Theorem decodeToken_roundtrip h v sig :
  occurs "." h = false → json_wf v = true → utf8_valid (JSON_stringify v) = true →
  decodeToken (Str (h +:+ "." +:+ b64url (JSON_stringify v) +:+ "." +:+ sig)) = Returns v.
Proof.
  intros Hh Hv Hu. rewrite decodeToken_parts; [|done|by apply b64url_not_occurs].
  rewrite decodePayload_b64url, Hu. by apply JSON_parse_stringify.
Qed.

(** C8: [setToken] with tokens whose payloads are JSON objects never throws, and
    leaves the public object coherent: each parsed token is the payload of the token
    next to it, [authenticated] says whether there is an access token, and subject
    and access rights are those of its payload.  Nothing outside the tokens and
    their timer changes. *)
Theorem setToken_invariant t r i tl w :
  accepted t → accepted r → accepted i →
  ∃ w', setToken t r i tl w = (Returns tt, w') ∧ coherent (kc w') ∧ rest w' = rest w.
Proof.
  intros Ht Hr Hi. destruct (setToken_accepted t r i tl w Ht Hr Hi) as [w' H].
  exists w'. split_and!; [done|by eapply setToken_coherent|by eapply setToken_rest_eq].
Qed.

(** A token that does not decode is stored all the same, next to the claims
    of the token before it: [setToken] throws without undoing the assignment. *)
Theorem setToken_not_atomic token tl e w :
  truthy token = true → decodeToken token = Throws e →
  ∃ w', setToken token Undefined Undefined tl w = (Throws e, w') ∧
    kc_token (kc w') = token ∧ kc_tokenParsed (kc w') = kc_tokenParsed (kc w) ∧
    kc_authenticated (kc w') = kc_authenticated (kc w).
Proof. apply setToken_undecodable. Qed.

(** The answer of [isTokenExpired] for numeric claims. *)
Lemma isTokenExpired_numeric m w o exp skew :
  kc_tokenParsed (kc w) = Obj o → assoc "exp" o = Num exp → kc_timeSkew (kc w) = Num skew →
  truthy (kc_refreshToken (kc w)) = true →
  isTokenExpired (Num m) w = (Returns (exp - ceil_s (now w) + skew - m <? 0)%Z, w).
Proof.
  intros Hp He Hs Hr. unfold isTokenExpired. rewrite bind_gets, Hp, Hr, Hs.
  cbn [truthy negb orb andb is_nullish]. rewrite bind_gets. cbn [getp]. rewrite He, bind_lift.
  cbn. destruct (Z.eqb_spec m 0) as [->|]; cbn; [by rewrite Z.sub_0_r|done].
Qed.

(** *** Roles *)

Lemma existsb_elem_of role l :
  existsb (strict_eq (Str role)) l = bool_decide (Str role ∈ l).
Proof.
  apply Bool.eq_iff_eq_true. rewrite existsb_exists, bool_decide_eq_true. split.
  - intros (x & Hx & He). apply list_elem_of_In in Hx. destruct x; try done.
    simpl in He. by apply String.eqb_eq in He as ->.
  - intros Hin. exists (Str role). rewrite <- list_elem_of_In. split; [done|].
    apply String.eqb_refl.
Qed.

Lemma hasRole_list acc l role :
  assoc "roles" acc = Arr l → hasRole (Obj acc) (Str role) = Returns (bool_decide (Str role ∈ l)).
Proof. intros Hl. unfold hasRole. simpl. rewrite Hl. simpl. by rewrite existsb_elem_of. Qed.

(** C23: After a token was set, the role tests answer from its payload: a realm
    role is one listed in [realm_access.roles], a role of a resource one listed in
    the resource's entry of [resource_access], and a resource without an entry gives
    no role, unless it has the name of a method that every object inherits: asking
    for a role of such a resource throws. *)
Theorem roles_of_token t r i tl w w' p role :
  setToken t r i tl w = (Returns tt, w') → truthy t = true → decodeToken t = Returns (Obj p) →
  (∀ acc l, assoc "realm_access" p = Obj acc → assoc "roles" acc = Arr l →
     hasRealmRole (Str role) w' = (Returns (bool_decide (Str role ∈ l)), w')) ∧
  (∀ ra resource acc l, assoc "resource_access" p = Obj ra → resource ≠ "" →
     assoc resource ra = Obj acc → assoc "roles" acc = Arr l →
     hasResourceRole (Str role) (Str resource) w' = (Returns (bool_decide (Str role ∈ l)), w')) ∧
  (∀ ra resource, assoc "resource_access" p = Obj ra → resource ≠ "" → resource ∉ ra.*1 →
     hasResourceRole (Str role) (Str resource) w' =
       (if bool_decide (resource ∈ objectPrototype) then Throws TypeError else Returns false, w')).
Proof.
  intros Hset Ht Hd. assert (kc_realmAccess (kc w') = assoc "realm_access" p ∧
    kc_resourceAccess (kc w') = assoc "resource_access" p) as [Hra Hre].
  { unfold setToken in Hset. do 3 apply bind_returns in Hset as ([] & ? & _ & Hset).
    apply setAccessToken_returns in Hset. rewrite Ht in Hset.
    destruct Hset as (parsed & s & h & Hd' & _ & ->). rewrite Hd in Hd'. by simplify_eq/=. }
  unfold hasRealmRole, hasResourceRole, js_or. split_and!.
  - intros acc l E Hl. rewrite bind_gets, Hra, E. by rewrite (hasRole_list acc l).
  - intros ra resource acc l E Hne Hacc Hl. rewrite bind_gets, Hre, E.
    rewrite (proj2 (truthy_str resource) Hne). cbn [truthy negb to_string].
    rewrite getAt_own by (by rewrite Hacc). by rewrite Hacc, bind_lift, (hasRole_list acc l).
  - intros ra resource E Hne Hacc. rewrite bind_gets, Hre, E.
    rewrite (proj2 (truthy_str resource) Hne). cbn [truthy negb to_string].
    case_bool_decide as Hp.
    + by rewrite getAt_inherited, bind_lift by done.
    + rewrite getAt_absent by (done || by apply assoc_notin). by rewrite bind_lift.
Qed.

End Token.
