(* ===== verification/Uuid.v ===== *)
(** [createUUID] of keycloak.js: the identifiers used as [state] and [nonce]. *)

From S2P Require Import Prelude JsString Uri JsValue World.
Import JsString Uri JsValue World.

Module Uuid.

Definition hexDigits : string := "0123456789abcdef".

(** [hexDigits.substr(n, 1)] *)
Definition hexAt (n : Z) : string := charAt hexDigits n.

(** [Math.floor(Math.random() * 0x10)] *)
Definition randomDigit : IO string :=
  q ← random; mret (hexAt (Qfloor (q * 16)%Q)).

(** [for (var i = 0; i < n; i++) s[i] = ...] *)
Fixpoint randomDigits (n : nat) : IO (list string) :=
  match n with
  | 0 => mret []
  | S n' => d ← randomDigit; ds ← randomDigits n'; mret (d :: ds)
  end.

(** [hexDigits.substr((d & 0x3) | 0x8, 1)]: a digit [a] to [f] is no number, and
    [NaN & 3] is 0. *)
Definition variantDigit (d : string) : string :=
  hexAt (Z.lor (Z.land (default 0%Z (string_to_number d)) 3) 8).

(** The assignments after the loop, and the join. *)
Definition formatUUID (s : list string) : string :=
  let s := <[14 := "4"]> s in
  let s := <[19 := variantDigit (s !!! 19)]> s in
  let s := <[23 := "-"]> s in
  let s := <[18 := "-"]> s in
  let s := <[13 := "-"]> s in
  let s := <[8 := "-"]> s in
  join "" s.

Definition createUUID : IO string :=
  s ← randomDigits 36; mret (formatUUID s).

(** ** Format *)

(** The digits of a UUID are lower-case hexadecimal. *)
Definition is_hex (a : ascii) : bool := occurs a hexDigits.

Fixpoint matches (p : list (ascii → bool)) (s : string) : bool :=
  match p, s with
  | [], "" => true
  | f :: p', String a s' => f a && matches p' s'
  | _, _ => false
  end.

Definition dash : list (ascii → bool) := [λ a, Ascii.eqb a "-"].
Definition hexes (n : nat) : list (ascii → bool) := replicate n is_hex.

(** A version 4, variant 1 UUID of RFC 4122. *)
Definition uuid_v4 (s : string) : bool :=
  matches (hexes 8 ++ dash ++ hexes 4 ++ dash ++ [λ a, Ascii.eqb a "4"] ++ hexes 3 ++ dash
           ++ [λ a, occurs a "89ab"] ++ hexes 3 ++ dash ++ hexes 12) s.

(** One hexadecimal digit. *)
Definition hex_string (s : string) : Prop := ∃ a, s = String a "" ∧ is_hex a = true.

Lemma hexAt_hex n : (0 ≤ n < 16)%Z → hex_string (hexAt n).
Proof.
  intros Hn. assert (n ∈ seqZ 0 16) as Hin by (apply elem_of_seqZ; lia).
  vm_compute in Hin. repeat (apply elem_of_cons in Hin as [->|Hin]; [by eexists|]).
  by apply elem_of_nil in Hin.
Qed.

Lemma variantDigit_spec d :
  hex_string d → ∃ a, variantDigit d = String a "" ∧ occurs a "89ab" = true.
Proof.
  intros (a & -> & Ha). unfold is_hex in Ha. cbn [occurs hexDigits] in Ha.
  rewrite !orb_true_iff in Ha. repeat destruct Ha as [Ha|Ha]; try done;
    apply Ascii.eqb_eq in Ha as ->; vm_compute; by eexists.
Qed.

(** The numbers [Math.random] returns are in [0, 1). *)
Definition fair (b : Browser) : Prop := ∀ n, (0 <= b_random b n < 1)%Q.

(** The state after some numbers were drawn. *)
Definition drawn (n : nat) (w : World) : World := w <| br -> b_randomUsed := n |>.

Lemma randomDigit_spec w :
  fair (br w) →
  ∃ d n, randomDigit w = (Returns d, drawn n w) ∧ hex_string d.
Proof.
  intros Hr. unfold randomDigit, random.
  rewrite bind_bind, bind_gets, bind_bind, bind_modify, bind_ret.
  eexists _, _. split; [done|].
  apply hexAt_hex. destruct (Hr (b_randomUsed (br w))) as [H0 H1].
  set (q := b_random (br w) (b_randomUsed (br w))) in *. cbn [id].
  fold q. split.
  - change 0%Z with (Qfloor (inject_Z 0)). apply Qfloor_resp_le.
    change (inject_Z 0) with 0%Q. apply Qmult_le_0_compat; [done|by vm_compute].
  - rewrite Zlt_Qlt. eapply Qle_lt_trans; [apply Qfloor_le|].
    change (inject_Z 16) with (1 * 16)%Q. apply Qmult_lt_compat_r; [by vm_compute|done].
Qed.

Lemma randomDigits_spec n w :
  fair (br w) →
  ∃ ds m, randomDigits n w = (Returns ds, drawn m w) ∧ length ds = n ∧ Forall hex_string ds.
Proof.
  intros Hr. assert (∀ m, ∃ ds m', randomDigits n (drawn m w) = (Returns ds, drawn m' w) ∧
    length ds = n ∧ Forall hex_string ds) as H.
  { induction n as [|n IH]; intros m; [by eexists [], m|]. simpl.
    destruct (randomDigit_spec (drawn m w) Hr) as (d & m1 & Hd & Hh).
    destruct (IH m1) as (ds & m2 & Hds & Hl & HF).
    exists (d :: ds), m2. split_and!; [|simpl; by rewrite Hl|by constructor].
    unfold mbind, M_bind. rewrite Hd. change (drawn m1 (drawn m w)) with (drawn m1 w).
    by rewrite Hds. }
  destruct (H (b_randomUsed (br w))) as (ds & m' & Hd). exists ds, m'.
  replace (drawn (b_randomUsed (br w)) w) with w in Hd; [done|].
  unfold drawn. destruct w as [????????????????? []]. reflexivity.
Qed.

Lemma formatUUID_v4 ds :
  length ds = 36 → Forall hex_string ds → uuid_v4 (formatUUID ds) = true.
Proof.
  intros Hl HF.
  do 36 (destruct ds as [|? ds]; [done|]; apply Forall_cons in HF as [(? & -> & ?) HF]).
  destruct ds; [|done]. unfold formatUUID.
  cbn [insert list_insert lookup_total list_lookup_total].
  match goal with |- context [variantDigit ?d] =>
    destruct (variantDigit_spec d) as (v & -> & Hv); [by eexists|] end.
  unfold uuid_v4, hexes, dash.
  cbv [join String.append]. cbn -[is_hex occurs Ascii.eqb].
  repeat match goal with H : is_hex _ = true |- _ => rewrite H; clear H end.
  by rewrite Hv.
Qed.

Lemma createUUID_spec w :
  fair (br w) → ∃ u n, createUUID w = (Returns u, drawn n w) ∧ uuid_v4 u = true.
Proof.
  intros Hr. destruct (randomDigits_spec 36 w Hr) as (ds & n & Hd & Hl & HF).
  exists (formatUUID ds), n. split; [|by apply formatUUID_v4].
  unfold createUUID, mbind, M_bind. by rewrite Hd.
Qed.

(** With numbers of [Math.random] in [0, 1), [createUUID] makes a version 4
    UUID of RFC 4122, in lower case, with the digits of version and variant at their
    places, and touches nothing but the random number generator. *)
Theorem createUUID_v4 w :
  fair (br w) → ∃ u n, createUUID w = (Returns u, drawn n w) ∧ uuid_v4 u = true.
Proof. apply createUUID_spec. Qed.

(** ** Characters *)

Lemma matches_chars (q : ascii → bool) ps s :
  matches ps s = true → Forall (λ p : ascii → bool, ∀ a, p a = true → q a = true) ps →
  forall_chars q s = true.
Proof.
  revert s. induction ps as [|p ps IH]; intros [|a s] Hm HF; try done.
  simpl in *. apply andb_true_iff in Hm as [Ha Hm]. apply Forall_cons in HF as [Hp HF].
  apply andb_true_iff. split; [by apply Hp|by apply IH].
Qed.

Lemma uuid_chars u : uuid_v4 u = true → forall_chars uri_unreserved u = true.
Proof.
  intros H. eapply matches_chars; [exact H|].
  assert (∀ p : ascii → bool, all_bytes (λ a, negb (p a) || uri_unreserved a) = true →
            ∀ a, p a = true → uri_unreserved a = true) as Hp.
  { intros p Hall a Ha. apply (all_bytes_spec _ a) in Hall. simpl in Hall. by rewrite Ha in Hall. }
  unfold hexes, dash.
  repeat first [apply Forall_app; split | apply Forall_replicate | apply Forall_singleton];
    apply Hp; by vm_compute.
Qed.

Lemma uuid_no_delim c u : uuid_v4 u = true → uri_unreserved c = false → occurs c u = false.
Proof. intros Hu Hc. apply (forall_chars_not_occurs uri_unreserved); [done|by apply uuid_chars]. Qed.

Lemma uuid_nonempty u : uuid_v4 u = true → u ≠ "".
Proof. by intros H ->. Qed.

Lemma uuid_encode u : uuid_v4 u = true → encodeURIComponent u = u.
Proof. intros Hu. by apply encodeURIComponent_fixed, uuid_chars. Qed.

End Uuid.
