(* ===== verification/Storage.v ===== *)
(** The callback storage of keycloak.js: [LocalStorage], [CookieStorage] and
    [createCallbackStorage].  It keeps, under [kc-callback-<state>], what
    [createLoginUrl] remembers until the server redirects back.

    [localStorage] is the list of its items, [key(i)] being the key of the i-th;
    [document.cookie] is the jar [b_cookies] of names, values and expiry times. *)

From S2P Require Import Prelude JsString Uri JsValue Json World Token.
Import JsString Uri JsValue Json World.

Module Storage.

Abbreviation items := (list (string * string)).

(** *** The browser's storage *)

Fixpoint getItem (k : string) (ls : items) : option string :=
  match ls with
  | [] => None
  | (k', v) :: ls' => if String.eqb k k' then Some v else getItem k ls'
  end.

Fixpoint setItem (k v : string) (ls : items) : items :=
  match ls with
  | [] => [(k, v)]
  | (k', v') :: ls' => if String.eqb k k' then (k, v) :: ls' else (k', v') :: setItem k v ls'
  end.

Definition removeItem (k : string) (ls : items) : items :=
  filter (λ kv, kv.1 ≠ k) ls.

Definition withLocalStorage (f : items → items) : IO unit :=
  ls ← gets (λ w, b_localStorage (br w));
  match ls with
  | Some l => modify (λ w, w <| br -> b_localStorage := Some (f l) |>)
  | None => throw SecurityError
  end.

Definition readLocalStorage : IO items :=
  ls ← gets (λ w, b_localStorage (br w));
  match ls with
  | Some l => mret l
  | None => throw SecurityError
  end.

(** *** [LocalStorage] *)

Definition prefix : string := "kc-callback-".

(** The [try] block of [clearExpired] on one value: whether the item goes. *)
Definition entryExpired (time : Z) (value : string) : outcome bool :=
  match JSON_parse value with
  | Throws NotModelled => Throws NotModelled
  | Throws _ => Returns true
  | Returns v =>
      match getp v "expires" with
      | Throws _ => Returns true
      | Returns e =>
          Returns (negb (truthy e)
                   || Token.is_neg (Token.num2 Z.sub (to_number e) (Some time)))
      end
  end.

(** The body of the loop of [clearExpired] at index [i]. *)
Definition clearEntry (time : Z) (i : nat) (ls : items) : outcome items :=
  match ls !! i with
  | Some (key, value) =>
      if starts_with prefix key && negb (String.eqb value "") then
        gone ← entryExpired time value;
        Returns (if gone : bool then removeItem key ls else ls)
      else Returns ls
  | None => Returns ls
  end.

(** [for (var i = 0; i < localStorage.length; i++)]: the index advances over an
    item even when the item before it was removed. *)
Fixpoint clearLoop (fuel : nat) (time : Z) (i : nat) (ls : items) : outcome items :=
  match fuel with
  | 0 => Returns ls
  | S n =>
      if i <? length ls then ls' ← clearEntry time i ls; clearLoop n time (S i) ls'
      else Returns ls
  end.

Definition clearExpired : IO unit :=
  time ← gets now;
  ls ← readLocalStorage;
  ls' ← lift (clearLoop (length ls) time 0 ls);
  withLocalStorage (λ _, ls').

Definition local_get (state : jsval) : IO jsval :=
  if negb (truthy state) then mret Undefined
  else
    let key := prefix +:+ to_string state in
    ls ← readLocalStorage;
    value ← match getItem key ls with
            | Some value =>
                if String.eqb value "" then mret (Str "")
                else withLocalStorage (removeItem key);; lift (JSON_parse value)
            | None => mret Null
            end;
    clearExpired;;
    mret value.

Definition local_add (state : list (string * jsval)) : IO unit :=
  clearExpired;;
  let key := prefix +:+ to_string (assoc "state" state) in
  t ← gets now;
  let state := obj_set "expires" (Num (t + 60 * 60 * 1000)) state in
  withLocalStorage (setItem key (JSON_stringify (Obj state))).

(** The two calls with which the constructor probes [localStorage]. *)
Definition newLocalStorage : IO StorageKind :=
  withLocalStorage (setItem "kc-test" "test");;
  withLocalStorage (removeItem "kc-test");;
  mret LocalStorage.

(** *** [CookieStorage] *)

(** [exp.setTime(exp.getTime() + minutes * 60 * 1000)], and [toUTCString], which
    drops the milliseconds. *)
Definition cookieExpiration (now minutes : Z) : Z :=
  ((now + minutes * 60 * 1000) / 1000 * 1000)%Z.

(** [document.cookie], the live cookies as one string. *)
Definition document_cookie (w : World) : string :=
  join "; " ((λ c, c.1 +:+ "=" +:+ c.2.1) <$> filter (λ c, (now w < c.2.2)%Z) (b_cookies (br w))).

(** What the browser does with [document.cookie = pair + '; expires=...; ']: the
    pair ends at its first semicolon and is cut at its first equals sign. *)
Definition assignCookie (pair : string) (expires : Z) : IO unit :=
  let pair := hd "" (split ";" pair) in
  match split "=" pair with
  | name :: ((_ :: _) as rest) =>
      modify (λ w, w <| br -> b_cookies ::= (λ jar,
        filter (λ c, c.1 ≠ name) jar ++
        (if (now w <? expires)%Z then [(name, (join "=" rest, expires))] else [])) |>)
  | _ => mret tt
  end.

Definition setCookie (key value : string) (expirationDate : Z) : IO unit :=
  assignCookie (key +:+ "=" +:+ value) expirationDate.

(** The loop of [getCookie] over the pieces of [document.cookie]. *)
Fixpoint findCookie (name : string) (ca : list string) : string :=
  match ca with
  | [] => ""
  | c :: ca' =>
      let c := trim_left c in
      if starts_with name c then substring c (length_s name) (length_s c)
      else findCookie name ca'
  end.

Definition getCookie (key : string) : IO string :=
  s ← gets document_cookie;
  mret (findCookie (key +:+ "=") (split ";" s)).

Definition cookie_get (state : jsval) : IO jsval :=
  if negb (truthy state) then mret Undefined
  else
    value ← getCookie (prefix +:+ to_string state);
    t ← gets now;
    setCookie (prefix +:+ to_string state) "" (cookieExpiration t (-100));;
    if String.eqb value "" then mret Undefined else lift (JSON_parse value).

Definition cookie_add (state : list (string * jsval)) : IO unit :=
  t ← gets now;
  setCookie (prefix +:+ to_string (assoc "state" state)) (JSON_stringify (Obj state))
    (cookieExpiration t 60).

Definition cookie_removeItem (key : string) : IO unit :=
  t ← gets now;
  setCookie key "" (cookieExpiration t (-100)).

(** *** The storage [kc.init] chooses, and its two operations *)

Definition createCallbackStorage : IO StorageKind :=
  try_catch newLocalStorage (λ _, mret CookieStorage).

Definition storage_get (state : jsval) : IO jsval :=
  k ← gets callbackStorage;
  match k with
  | NoStorage => throw TypeError
  | LocalStorage => local_get state
  | CookieStorage => cookie_get state
  end.

Definition storage_add (state : list (string * jsval)) : IO unit :=
  k ← gets callbackStorage;
  match k with
  | NoStorage => throw TypeError
  | LocalStorage => local_add state
  | CookieStorage => cookie_add state
  end.

(** ** Items *)

Lemma getItem_elem k v ls : NoDup ls.*1 → getItem k ls = Some v ↔ (k, v) ∈ ls.
Proof.
  induction ls as [|[k' v'] ls IH]; csimpl; [set_solver|].
  intros [Hk Hls]%NoDup_cons. destruct (String.eqb_spec k k') as [<-|Hne].
  - split; [intros [= ->]; by left|]. intros [[= ->]|Hin]%elem_of_cons; [done|].
    exfalso. apply Hk. apply list_elem_of_fmap. by exists (k, v).
  - rewrite IH, elem_of_cons by done. naive_solver.
Qed.

Lemma getItem_None k ls : k ∉ ls.*1 → getItem k ls = None.
Proof.
  induction ls as [|[k' v'] ls IH]; csimpl; [done|].
  intros [Hk Hls]%not_elem_of_cons. destruct (String.eqb_spec k k'); [done|auto].
Qed.

Lemma setItem_keys k v ls k' : k' ∈ (setItem k v ls).*1 → k' = k ∨ k' ∈ ls.*1.
Proof.
  induction ls as [|[k'' v''] ls IH]; csimpl; [set_solver|].
  destruct (String.eqb_spec k k''); csimpl; set_solver.
Qed.

Lemma setItem_NoDup k v ls : NoDup ls.*1 → NoDup (setItem k v ls).*1.
Proof.
  induction ls as [|[k' v'] ls IH]; csimpl; [intros; apply NoDup_singleton|].
  intros [Hk Hls]%NoDup_cons. destruct (String.eqb_spec k k') as [->|Hne]; csimpl.
  - by constructor.
  - constructor; [|by apply IH]. intros [->|Hin]%setItem_keys; done.
Qed.

Lemma setItem_elem k v ls kv : kv ∈ setItem k v ls → kv = (k, v) ∨ kv ∈ ls.
Proof.
  induction ls as [|[k' v'] ls IH]; simpl; [set_solver|].
  destruct (String.eqb_spec k k'); rewrite !elem_of_cons; naive_solver.
Qed.

Lemma getItem_setItem k v ls : getItem k (setItem k v ls) = Some v.
Proof.
  induction ls as [|[k' v'] ls IH]; simpl; [by rewrite String.eqb_refl|].
  destruct (String.eqb k k') eqn:E; simpl; [by rewrite String.eqb_refl|by rewrite E].
Qed.

Lemma setItem_keeps k v ls kv : kv ∈ ls → kv.1 ≠ k → kv ∈ setItem k v ls.
Proof.
  induction ls as [|[k' v'] ls IH]; simpl; [set_solver|]. intros Hin Hne.
  destruct (String.eqb_spec k k') as [->|]; rewrite elem_of_cons in *;
    [destruct Hin as [->|?]; [done|by right]|]. naive_solver.
Qed.

Lemma removeItem_elem k ls kv : kv ∈ removeItem k ls ↔ kv.1 ≠ k ∧ kv ∈ ls.
Proof. unfold removeItem. by rewrite list_elem_of_filter. Qed.

Lemma removeItem_NoDup k ls : NoDup ls.*1 → NoDup (removeItem k ls).*1.
Proof.
  unfold removeItem. induction ls as [|[k' v'] ls IH]; csimpl; [done|].
  intros [Hk Hls]%NoDup_cons. rewrite filter_cons. case_decide; csimpl; [|by auto].
  constructor; [|by auto]. intros (x & Hx & Hin)%list_elem_of_fmap.
  apply Hk, list_elem_of_fmap. exists x. apply list_elem_of_filter in Hin. naive_solver.
Qed.

(** ** [clearExpired] *)

(** A storage whose values are JSON within the model's numbers, or no JSON. *)
Definition clearable (ls : items) : Prop :=
  ∀ kv, kv ∈ ls → JSON_parse kv.2 ≠ Throws NotModelled.

(** A state of the storage as the browser keeps it. *)
Definition storage_wf (ls : items) : Prop := NoDup ls.*1 ∧ clearable ls.

(** What [clearExpired] removes at time [time]. *)
Definition removable (time : Z) (kv : string * string) : Prop :=
  starts_with prefix kv.1 = true ∧ entryExpired time kv.2 = Returns true.

Lemma entryExpired_total time v :
  JSON_parse v ≠ Throws NotModelled → ∃ b, entryExpired time v = Returns b.
Proof.
  intros Hv. unfold entryExpired. destruct (JSON_parse v) as [x|e].
  - destruct (getp x "expires"); by eexists.
  - exists true. by destruct e.
Qed.

Lemma removeItem_wf k ls : storage_wf ls → storage_wf (removeItem k ls).
Proof.
  intros [Hnd Hc]. split; [by apply removeItem_NoDup|].
  intros kv [_ Hkv]%removeItem_elem. by apply Hc.
Qed.

Lemma setItem_wf k v ls :
  storage_wf ls → JSON_parse v ≠ Throws NotModelled → storage_wf (setItem k v ls).
Proof.
  intros Hwf Hv. split; [by apply setItem_NoDup, Hwf|].
  intros kv [->|Hkv]%setItem_elem; [done|by apply Hwf].
Qed.

(** The state with a storage in place of the one it has. *)
Definition with_items (ls : items) (w : World) : World := w <| br -> b_localStorage := Some ls |>.

Lemma withLocalStorage_spec f w ls :
  b_localStorage (br w) = Some ls → withLocalStorage f w = (Returns tt, with_items (f ls) w).
Proof. intros H. unfold withLocalStorage. by rewrite bind_gets, H. Qed.

Lemma readLocalStorage_spec w ls :
  b_localStorage (br w) = Some ls → readLocalStorage w = (Returns ls, w).
Proof. intros H. unfold readLocalStorage. by rewrite bind_gets, H. Qed.

(** *** What the loop does, exactly *)

(** The test of the loop body on one item. *)
Definition goes (time : Z) (kv : string * string) : bool :=
  starts_with prefix kv.1 && negb (String.eqb kv.2 "") &&
  match entryExpired time kv.2 with Returns b => b | Throws _ => false end.

(** One pass over the items that does not look at the item after one it drops. *)
Fixpoint sweep (time : Z) (ls : items) : items :=
  match ls with
  | [] => []
  | kv :: l =>
      if goes time kv then match l with [] => [] | kv' :: l' => kv' :: sweep time l' end
      else kv :: sweep time l
  end.

Lemma clearEntry_goes time i ls kv :
  clearable ls → ls !! i = Some kv →
  clearEntry time i ls = Returns (if goes time kv then removeItem kv.1 ls else ls).
Proof.
  intros Hc Hi. unfold clearEntry, goes. rewrite Hi. destruct kv as [k v]. cbn [fst snd].
  destruct (starts_with prefix k && negb (String.eqb v "")); [|done].
  destruct (entryExpired_total time v) as [b Hb]; [|by rewrite Hb].
  apply (Hc (k, v)). by eapply list_elem_of_lookup_2.
Qed.

Lemma removeItem_middle l1 kv l2 : NoDup (l1 ++ kv :: l2).*1 → removeItem kv.1 (l1 ++ kv :: l2) = l1 ++ l2.
Proof.
  rewrite fmap_app. csimpl. intros (H1 & H12 & [Hk H2]%NoDup_cons)%NoDup_app. unfold removeItem.
  assert (∀ l : items, kv.1 ∉ l.*1 → filter (λ x, x.1 ≠ kv.1) l = l) as Hid.
  { intros l. induction l as [|x l IHl]; csimpl; [done|]. intros [Hx Hl]%not_elem_of_cons.
    rewrite filter_cons, decide_True by congruence. by rewrite IHl. }
  rewrite filter_app, filter_cons, decide_False by naive_solver.
  rewrite !Hid; [done|done|]. intros Hin. apply (H12 kv.1 Hin). by left.
Qed.

Lemma clearLoop_sweep n time l1 l2 :
  storage_wf (l1 ++ l2) → length l2 ≤ n →
  clearLoop n time (length l1) (l1 ++ l2) = Returns (l1 ++ sweep time l2).
Proof.
  revert l1 l2. induction n as [|n IH]; intros l1 l2 Hwf Hn.
  { destruct l2; [done|simpl in Hn; lia]. }
  cbn [clearLoop]. rewrite length_app. destruct l2 as [|kv l2].
  { rewrite Nat.add_0_r, Nat.ltb_irrefl. done. }
  rewrite (proj2 (Nat.ltb_lt _ _)) by (simpl; lia). simpl in Hn.
  rewrite (clearEntry_goes _ _ _ kv) by (try apply Hwf; by rewrite list_lookup_middle).
  cbn [mbind outcome_bind sweep]. destruct (goes time kv).
  - rewrite removeItem_middle by apply Hwf. assert (storage_wf (l1 ++ l2)) as Hwf2.
    { rewrite <- (removeItem_middle l1 kv l2) by apply Hwf. by apply removeItem_wf. }
    destruct l2 as [|kv' l2].
    + destruct n; [done|]. cbn [clearLoop]. rewrite length_app, Nat.add_0_r.
      by rewrite (proj2 (Nat.ltb_ge _ _)) by lia.
    + pose proof (IH (l1 ++ [kv']) l2) as H. rewrite length_app, Nat.add_1_r, <- !(assoc_L (++)) in H.
      apply H; [done|simpl in Hn; lia].
  - pose proof (IH (l1 ++ [kv]) l2) as H. rewrite length_app, Nat.add_1_r, <- !(assoc_L (++)) in H.
    apply H; [done|lia].
Qed.

(** Induction that also reaches the list after the next element. *)
Lemma list_skip_ind {A} (P : list A → Prop) :
  P [] → (∀ x, P [x]) → (∀ x y l, P l → P (y :: l) → P (x :: y :: l)) → ∀ l, P l.
Proof.
  intros H0 H1 H2 l. enough (P l ∧ ∀ x, P (x :: l)) as [? _] by done.
  induction l as [|y l [IH1 IH2]]; [done|]. split; [apply IH2|]. intros x. apply H2; [done|apply IH2].
Qed.

Lemma sweep_sublist time ls : sweep time ls `sublist_of` ls.
Proof.
  induction ls as [|x|x y l IH IH'] using list_skip_ind; [done|cbn [sweep]; destruct (goes time x)|].
  - apply sublist_nil_l.
  - done.
  - change (sweep time (x :: y :: l)) with
      (if goes time x then y :: sweep time l else x :: sweep time (y :: l)).
    destruct (goes time x); [by apply sublist_cons, sublist_skip|by apply sublist_skip].
Qed.

Lemma sweep_cons2 time x y l :
  sweep time (x :: y :: l) = if goes time x then y :: sweep time l else x :: sweep time (y :: l).
Proof. done. Qed.

Lemma sweep_keeps time ls kv : kv ∈ ls → goes time kv = false → kv ∈ sweep time ls.
Proof.
  intros Hin Hg. induction ls as [|x|x y l IH IH'] using list_skip_ind; [done| |].
  - apply list_elem_of_singleton in Hin as <-. cbn [sweep]. rewrite Hg. by left.
  - rewrite sweep_cons2. apply elem_of_cons in Hin as [<-|Hin].
    + rewrite Hg. by left.
    + destruct (goes time x); [|right; by apply IH']. apply elem_of_cons in Hin as [->|Hin]; [by left|].
      right. by apply IH.
Qed.

(** The loop looks at an item unless it dropped the one before it. *)
Lemma sweep_drops time ls i kv :
  NoDup ls → ls !! i = Some kv → goes time kv = true →
  (∀ prev, ls !! pred i = Some prev → i = 0 ∨ prev ∈ sweep time ls) →
  kv ∉ sweep time ls.
Proof.
  revert i. induction ls as [|x|x y l IH IH'] using list_skip_ind; intros i Hnd Hi Hg Hp Hin; [done| |].
  - destruct i; [|done]. simplify_eq/=. rewrite Hg in Hin. by apply elem_of_nil in Hin.
  - apply NoDup_cons in Hnd as [Hx Hnd]. rewrite sweep_cons2 in *.
    assert (∀ z, z ∈ y :: l → z ≠ x) as Hne by set_solver.
    destruct (goes time x) eqn:Hgx.
    + apply NoDup_cons in Hnd as [Hy Hnd].
      assert (∀ z, z ∈ sweep time l → z ∈ l) as Hsub by (intros z Hz; by eapply elem_of_sublist, sweep_sublist).
      destruct i as [|[|i]]; simplify_eq/=; [set_solver|destruct (Hp x eq_refl); set_solver|].
      pose proof (list_elem_of_lookup_2 _ _ _ Hi) as Hkv.
      apply elem_of_cons in Hin as [->|Hin]; [done|]. apply (IH i); [done..| |done].
      intros prev Hprev. destruct i as [|i]; [by left|]. right. simpl in Hprev.
      pose proof (list_elem_of_lookup_2 _ _ _ Hprev). destruct (Hp prev Hprev); set_solver.
    + destruct i as [|i]; [injection Hi as ->; congruence|]. cbn [lookup list_lookup pred] in Hi, Hp.
      pose proof (list_elem_of_lookup_2 (y :: l) i kv Hi) as Hkv.
      apply elem_of_cons in Hin as [->|Hin]; [by eapply Hne|]. apply (IH' i); [done..| |done].
      intros prev Hprev. destruct i as [|i]; [by left|]. right. simpl in Hprev.
      pose proof (list_elem_of_lookup_2 (y :: l) i prev Hprev). destruct (Hp prev Hprev); set_solver.
Qed.

Lemma clearExpired_sweep w ls :
  b_localStorage (br w) = Some ls → storage_wf ls →
  clearExpired w = (Returns tt, with_items (sweep (now w) ls) w).
Proof.
  intros Hls Hwf. unfold clearExpired. rewrite bind_gets. unfold mbind, M_bind.
  rewrite (readLocalStorage_spec w ls Hls). unfold lift.
  pose proof (clearLoop_sweep (length ls) (now w) [] ls Hwf ltac:(done)) as Hl.
  cbn [length app] in Hl. rewrite Hl.
  exact (withLocalStorage_spec (λ _, sweep (now w) ls) w ls Hls).
Qed.

Lemma clearExpired_spec w ls :
  b_localStorage (br w) = Some ls → storage_wf ls →
  ∃ ls', clearExpired w = (Returns tt, with_items ls' w) ∧ storage_wf ls' ∧
    (∀ kv, kv ∈ ls' → kv ∈ ls) ∧ (∀ kv, kv ∈ ls → ¬ removable (now w) kv → kv ∈ ls').
Proof.
  intros Hls Hwf. exists (sweep (now w) ls). split; [by apply clearExpired_sweep|].
  assert (∀ kv, kv ∈ sweep (now w) ls → kv ∈ ls) as Hsub
    by (intros kv Hkv; by eapply elem_of_sublist, sweep_sublist).
  split_and!; [split| |].
  - eapply sublist_NoDup, fmap_sublist, sweep_sublist. apply Hwf.
  - intros kv Hkv. by apply Hwf, Hsub.
  - done.
  - intros kv Hkv Hr. apply sweep_keeps; [done|]. unfold goes, removable in *.
    destruct (starts_with prefix kv.1), (entryExpired (now w) kv.2) as [[]|]; try done;
      rewrite ?andb_false_r; naive_solver.
Qed.

(** *** The items of the application and of other tabs *)

(** When a stored login attempt ends: the number [expires] of its record. *)
Definition endsAt (value : string) (e : Z) : Prop :=
  ∃ o, JSON_parse value = Returns (Obj o) ∧ assoc "expires" o = Num e.

(** A login attempt that is over at a time, or cannot be read. *)
Definition stale (time : Z) (kv : string * string) : Prop :=
  starts_with prefix kv.1 = true ∧ kv.2 ≠ "" ∧
  ((∃ e, endsAt kv.2 e ∧ (e < time)%Z) ∨ JSON_parse kv.2 = Throws SyntaxError).

Lemma entryExpired_endsAt time v e :
  endsAt v e → entryExpired time v = Returns ((e =? 0)%Z || (e <? time)%Z).
Proof.
  intros (o & Hj & He). unfold entryExpired. rewrite Hj. cbn [getp]. rewrite He. cbn.
  rewrite negb_involutive. do 2 f_equal. destruct (Z.ltb_spec e time), (Z.ltb_spec (e - time) 0); lia || done.
Qed.

Lemma stale_goes time kv : stale time kv → goes time kv = true.
Proof.
  intros (Hp & Hv & H). unfold goes. rewrite Hp, (proj2 (String.eqb_neq _ _) Hv). cbn.
  destruct H as [(e & He & Ht)|Hj].
  - rewrite (entryExpired_endsAt _ _ _ He), (proj2 (Z.ltb_lt _ _) Ht). by rewrite orb_true_r.
  - unfold entryExpired. by rewrite Hj.
Qed.

(** C21: Clearing the storage never fails and adds nothing.  It keeps the items of
    the application, and of the login attempts those whose time [expires], a number
    other than 0, is not over, such as the ones other tabs have under way; an attempt
    that is over, or is a text that is no JSON, goes, unless the item before it went in
    the same pass, which the loop then skips. *)
Theorem clearExpired_keeps w ls :
  b_localStorage (br w) = Some ls → storage_wf ls →
  ∃ ls', clearExpired w = (Returns tt, with_items ls' w) ∧ ls' `sublist_of` ls ∧
    (∀ kv, kv ∈ ls → starts_with prefix kv.1 = false → kv ∈ ls') ∧
    (∀ kv e, kv ∈ ls → endsAt kv.2 e → (now w ≤ e)%Z → e ≠ 0%Z → kv ∈ ls') ∧
    (∀ i kv, ls !! i = Some kv → stale (now w) kv →
       (∀ prev, ls !! pred i = Some prev → i = 0 ∨ prev ∈ ls') → kv ∉ ls').
Proof.
  intros Hls Hwf. exists (sweep (now w) ls). split; [by apply clearExpired_sweep|].
  split_and!; [apply sweep_sublist| | |].
  - intros kv Hin Hp. apply sweep_keeps; [done|]. unfold goes. by rewrite Hp.
  - intros kv e Hin He Ht Hz. apply sweep_keeps; [done|]. unfold goes.
    rewrite (entryExpired_endsAt _ _ _ He), (proj2 (Z.eqb_neq _ _) Hz), (proj2 (Z.ltb_ge _ _) Ht).
    apply andb_false_r.
  - intros i kv Hi Hs Hp. apply (sweep_drops _ _ i); [|done|by apply stale_goes|done].
    by eapply NoDup_fmap_1, Hwf.
Qed.

(** The loop skips the item after one it removes: of two expired login
    attempts in a row, the second stays. *)
Theorem clearExpired_skips w k1 v1 k2 v2 :
  b_localStorage (br w) = Some [(k1, v1); (k2, v2)] → k1 ≠ k2 → v1 ≠ "" →
  removable (now w) (k1, v1) → removable (now w) (k2, v2) →
  clearExpired w = (Returns tt, with_items [(k2, v2)] w).
Proof.
  intros Hls Hne Hv [Hp1 He1] [_ _]. unfold clearExpired. rewrite bind_gets.
  unfold mbind, M_bind. rewrite (readLocalStorage_spec _ _ Hls).
  assert (clearLoop 2 (now w) 0 [(k1, v1); (k2, v2)] = Returns [(k2, v2)]) as Hl.
  { simpl in *. unfold clearEntry. simpl. rewrite Hp1, He1.
    rewrite (proj2 (String.eqb_neq _ _) Hv). simpl. unfold removeItem.
    rewrite !filter_cons, filter_nil. simpl. by rewrite decide_False, decide_True by naive_solver. }
  unfold lift. change (length [(k1, v1); (k2, v2)]) with 2. rewrite Hl.
  exact (withLocalStorage_spec (λ _, [(k2, v2)]) _ _ Hls).
Qed.

(** ** Adding and getting *)

Definition key_of (s : string) : string := prefix +:+ s.

Lemma key_of_prefix s : starts_with prefix (key_of s) = true.
Proof. apply starts_with_app. Qed.

Lemma stringify_obj_nonempty o : JSON_stringify (Obj o) ≠ "".
Proof. done. Qed.

Lemma local_add_spec w ls st s :
  b_localStorage (br w) = Some ls → storage_wf ls → assoc "state" st = Str s →
  ∃ ls', storage_wf ls' ∧ (∀ kv, kv ∈ ls' → kv ∈ ls) ∧
    (∀ kv, kv ∈ ls → ¬ removable (now w) kv → kv ∈ ls') ∧
    local_add st w = (Returns tt, with_items (setItem (key_of s)
      (JSON_stringify (Obj (obj_set "expires" (Num (now w + 60 * 60 * 1000)) st))) ls') w).
Proof.
  intros Hls Hwf Hs. destruct (clearExpired_spec w ls Hls Hwf) as (ls' & Hc & Hwf' & Hin & Hk).
  exists ls'. split_and!; [done|done|done|]. unfold local_add. unfold mbind at 1, M_bind at 1.
  rewrite Hc, bind_gets, Hs. by rewrite (withLocalStorage_spec _ _ ls').
Qed.

Lemma local_get_present w ls s value v :
  b_localStorage (br w) = Some ls → storage_wf ls → s ≠ "" →
  getItem (key_of s) ls = Some value → value ≠ "" → JSON_parse value = Returns v →
  ∃ ls', local_get (Str s) w = (Returns v, with_items ls' w) ∧ storage_wf ls' ∧
    (∀ kv, kv ∈ ls' → kv.1 ≠ key_of s ∧ kv ∈ ls) ∧
    (∀ kv, kv ∈ ls → kv.1 ≠ key_of s → ¬ removable (now w) kv → kv ∈ ls').
Proof.
  intros Hls Hwf Hs Hg Hv Hj.
  destruct (clearExpired_spec (with_items (removeItem (key_of s) ls) w)
              (removeItem (key_of s) ls)) as (ls' & Hc & Hwf' & Hin & Hkeep); [done|by apply removeItem_wf|].
  exists ls'. split_and!; [|done| |].
  - unfold local_get. rewrite (proj2 (truthy_str s) Hs). cbn [negb to_string].
    unfold mbind at 1, M_bind at 1. rewrite (readLocalStorage_spec w ls Hls).
    change (prefix +:+ s) with (key_of s). rewrite Hg, (proj2 (String.eqb_neq _ _) Hv).
    rewrite bind_bind. unfold mbind at 1, M_bind at 1.
    rewrite (withLocalStorage_spec _ w ls Hls), Hj, bind_lift.
    unfold mbind, M_bind. rewrite Hc. done.
  - intros kv Hkv. by apply Hin, removeItem_elem in Hkv.
  - intros kv Hkv Hne Hr. apply Hkeep; [by apply removeItem_elem|done].
Qed.

Lemma local_get_absent w ls s :
  b_localStorage (br w) = Some ls → storage_wf ls → s ≠ "" → key_of s ∉ ls.*1 →
  ∃ ls', local_get (Str s) w = (Returns Null, with_items ls' w) ∧ storage_wf ls' ∧
    (∀ kv, kv ∈ ls' → kv ∈ ls) ∧ (∀ kv, kv ∈ ls → ¬ removable (now w) kv → kv ∈ ls').
Proof.
  intros Hls Hwf Hs Hk. destruct (clearExpired_spec w ls Hls Hwf) as (ls' & Hc & Hin).
  exists ls'. split; [|done]. unfold local_get. rewrite (proj2 (truthy_str s) Hs). cbn [negb to_string].
  unfold mbind at 1, M_bind at 1. rewrite (readLocalStorage_spec w ls Hls).
  change (prefix +:+ s) with (key_of s). rewrite (getItem_None _ _ Hk), bind_ret.
  unfold mbind, M_bind. by rewrite Hc.
Qed.

(** The record [local_add] stores. *)
Definition stored (st : list (string * jsval)) (t : Z) : list (string * jsval) :=
  obj_set "expires" (Num (t + 60 * 60 * 1000)) st.

(** What [add] stores, [get] returns, at whatever later time and whatever else
    the storage holds, and only once: a second [get] of the same state finds
    nothing, so that a redirect cannot be replayed. *)
Theorem local_add_get w ls st s t :
  b_localStorage (br w) = Some ls → storage_wf ls → json_wf (Obj st) = true →
  assoc "state" st = Str s → s ≠ "" →
  ∃ w1 w2 w3, local_add st w = (Returns tt, w1) ∧
    local_get (Str s) (w1 <| br -> b_now := t |>) = (Returns (Obj (stored st (now w))), w2) ∧
    local_get (Str s) w2 = (Returns Null, w3).
Proof.
  intros Hls Hwf Hj Hst Hs.
  destruct (local_add_spec w ls st s Hls Hwf Hst) as (ls1 & Hwf1 & _ & _ & Hadd).
  pose proof (json_wf_obj_set "expires" (Num (now w + 60 * 60 * 1000)) st Hj eq_refl) as Hj'.
  apply JSON_parse_stringify in Hj'. set (txt := JSON_stringify _) in *.
  set (w1 := with_items (setItem (key_of s) txt ls1) w) in *.
  destruct (local_get_present (w1 <| br -> b_now := t |>) (setItem (key_of s) txt ls1) s txt
              (Obj (stored st (now w)))) as (ls2 & Hget & Hwf2 & Hin & _); [done| |done|..].
  { apply setItem_wf; [done|]. by rewrite Hj'. }
  { apply getItem_setItem. } { done. } { done. }
  destruct (local_get_absent (with_items ls2 (w1 <| br -> b_now := t |>)) ls2 s) as (ls3 & Hget2 & _);
    [done|done|done| |by eexists _, _, _].
  intros (kv & Hk & Hkv)%list_elem_of_fmap. by apply Hin in Hkv as [? _].
Qed.

End Storage.
