(* ===== verification/CallbackStore.v ===== *)
(** The callback storage as an interface.

    What keycloak.js relies on is small: an attempt that was added can be taken once,
    by its state, until it expires.  [CallbackStore] states that of a storage, the two
    storages of the library are its instances, and [store_refines] proves a sequence
    of operations against it: the code refines a map of attempts with deadlines. *)

From stdpp Require Import gmap.
From S2P Require Import Prelude JsString Uri JsValue Json World Token Storage.
Import JsString Uri JsValue Json World Token Storage.

Module CallbackStore.

Abbreviation object := (list (string * jsval)).

(** ** The interface *)

(** Time passes. *)
Definition tick (d : nat) (w : World) : World := w <| br -> b_now ::= (λ t, t + Z.of_nat d)%Z |>.

(** A [state] parameter, which both storages make part of a key. *)
Definition nameable (s : string) : Prop := s ≠ "" ∧ occurs "=" s = false ∧ occurs ";" s = false.

(** [inv] holds of the states a storage works in; [present w s r d] says that an
    attempt [s] with record [r] can be taken, and stays at least until [d]. *)
Class CallbackStore := {
  inv : World → Prop;
  present : World → string → object → Z → Prop;
  absent : World → string → Prop;
  (** what is stored of an attempt at a time, and until when *)
  record : object → Z → object;
  deadline : Z → Z;
  storable : string → object → Prop;
  evolves (w w' : World) (s : string) : Prop :=
    (∀ r d, present w s r d → present w' s r d ∨ absent w' s ∧ (d < now w')%Z) ∧
    (absent w s → absent w' s);
  add_law w s st :
    inv w → storable s st →
    ∃ w', storage_add st w = (Returns tt, w') ∧ now w' = now w ∧ inv w' ∧
      present w' s (record st (now w)) (deadline (now w)) ∧
      ∀ s', s' ≠ s → evolves w w' s';
  get_present w s r d :
    inv w → nameable s → present w s r d →
    ∃ w', storage_get (Str s) w = (Returns (Obj r), w') ∧ now w' = now w ∧ inv w' ∧ absent w' s ∧
      ∀ s', s' ≠ s → evolves w w' s';
  get_absent w s :
    inv w → nameable s → absent w s →
    ∃ v w', storage_get (Str s) w = (Returns v, w') ∧ truthy v = false ∧ now w' = now w ∧ inv w' ∧
      ∀ s', evolves w w' s';
  tick_law w n : inv w → inv (tick n w) ∧ ∀ s, evolves w (tick n w) s
}.

(** ** The specification *)

Inductive op :=
  | Add (s : string) (st : object)
  | Take (s : string)
  | Tick (n : nat).

(** The attempts under way, with their records and deadlines, and the clock. *)
Record spec := mkSpec { attempts : gmap string (object * Z); clock : Z }.

Section specification.
Context {store : CallbackStore}.

(** A take before the deadline returns the record; after it, the record or nothing;
    an attempt that was never added, or was taken before, is nothing. *)
Inductive spec_step (a : spec) : op → option object → spec → Prop :=
  | spec_add s st :
      spec_step a (Add s st) None
        (mkSpec (<[s := (record st (clock a), deadline (clock a))]> (attempts a)) (clock a))
  | spec_take s r d :
      attempts a !! s = Some (r, d) →
      spec_step a (Take s) (Some r) (mkSpec (delete s (attempts a)) (clock a))
  | spec_expired s r d :
      attempts a !! s = Some (r, d) → (d < clock a)%Z →
      spec_step a (Take s) None (mkSpec (delete s (attempts a)) (clock a))
  | spec_unknown s :
      attempts a !! s = None → spec_step a (Take s) None a
  | spec_tick n : spec_step a (Tick n) None (mkSpec (attempts a) (clock a + Z.of_nat n)).

Inductive spec_run : spec → list op → list (option object) → spec → Prop :=
  | spec_done a : spec_run a [] [] a
  | spec_more a b c o os r rs :
      spec_step a o r b → spec_run b os rs c → spec_run a (o :: os) (r :: rs) c.

(** The operations whose arguments the storage can keep. *)
Definition valid (o : op) : Prop :=
  match o with
  | Add s st => storable s st
  | Take s => nameable s
  | Tick _ => True
  end.

(** *** The operations of the library *)

(** What a caller of [get] sees: it tests the result for truth. *)
Definition seen (v : jsval) : option object :=
  match v with Obj o => Some o | _ => None end.

Definition perform (o : op) : IO (option object) :=
  match o with
  | Add _ st => storage_add st;; mret None
  | Take s => v ← storage_get (Str s); mret (seen v)
  | Tick n => modify (tick n);; mret None
  end.

Fixpoint performAll (os : list op) : IO (list (option object)) :=
  match os with
  | [] => mret []
  | o :: os => r ← perform o; rs ← performAll os; mret (r :: rs)
  end.

(** ** Refinement *)

Definition refines (w : World) (a : spec) : Prop :=
  inv w ∧ now w = clock a ∧
  ∀ s, match attempts a !! s with
       | None => absent w s
       | Some (r, d) => present w s r d ∨ absent w s ∧ (d < now w)%Z
       end.

Lemma evolves_entry w w' s e :
  evolves w w' s → (now w ≤ now w')%Z →
  match e with None => absent w s | Some (r, d) => present w s r d ∨ absent w s ∧ (d < now w)%Z end →
  match e with None => absent w' s | Some (r, d) => present w' s r d ∨ absent w' s ∧ (d < now w')%Z end.
Proof.
  intros [Hp Ha] Ht. destruct e as [[r d]|]; [|exact Ha].
  intros [H|[H Hd]]; [by apply Hp|]. right. split; [by apply Ha|lia].
Qed.

Lemma perform_refines o w a :
  refines w a → valid o →
  ∃ w' r b, perform o w = (Returns r, w') ∧ spec_step a o r b ∧ refines w' b.
Proof.
  intros (Hi & Hc & He) Hv. destruct o as [s st|s|n]; simpl in *.
  - destruct (add_law w s st Hi Hv) as (w' & Hadd & Hn & Hi' & Hp & Hev).
    exists w', None, (mkSpec (<[s := (record st (clock a), deadline (clock a))]> (attempts a)) (clock a)).
    split; [unfold mbind, M_bind; by rewrite Hadd|]. split; [constructor|].
    split_and!; [done|simpl; by rewrite Hn|]. simpl. intros s'. destruct (decide (s' = s)) as [->|Hne].
    + rewrite lookup_insert_eq. left. by rewrite <- Hc.
    + rewrite lookup_insert_ne by done. apply (evolves_entry w); [by apply Hev|lia|apply He].
  - specialize (He s) as Hs.
    assert (∀ w', now w' = now w → inv w' → absent w' s → (∀ s', s' ≠ s → evolves w w' s') →
              refines w' (mkSpec (delete s (attempts a)) (clock a))) as Hdel.
    { intros w' Hn Hi' Hab Hev. split_and!; [done|simpl; by rewrite Hn|]. simpl. intros s'.
      destruct (decide (s' = s)) as [->|Hne]; [by rewrite lookup_delete_eq|].
      rewrite lookup_delete_ne by done. apply (evolves_entry w); [by apply Hev|lia|apply He]. }
    unfold mbind, M_bind. destruct (attempts a !! s) as [[r d]|] eqn:E; [destruct Hs as [Hp|[Ha Hd]]|].
    + destruct (get_present w s r d Hi Hv Hp) as (w' & -> & Hn & Hi' & Hab & Hev).
      exists w', (Some r), (mkSpec (delete s (attempts a)) (clock a)).
      split; [done|]. split; [by econstructor|]. by apply Hdel.
    + destruct (get_absent w s Hi Hv Ha) as (v & w' & -> & Hf & Hn & Hi' & Hev).
      exists w', None, (mkSpec (delete s (attempts a)) (clock a)). split; [by destruct v|].
      split; [eapply spec_expired; [done|lia]|]. apply Hdel; try done. by apply Hev.
    + destruct (get_absent w s Hi Hv Hs) as (v & w' & -> & Hf & Hn & Hi' & Hev).
      exists w', None, a. split; [by destruct v|]. split; [by constructor|].
      split_and!; [done|by rewrite Hn|]. intros s'. apply (evolves_entry w); [apply Hev|lia|apply He].
  - destruct (tick_law w n Hi) as [Hi' Hev]. eexists _, None, _.
    split; [done|]. split; [constructor|]. split_and!; [done|simpl; unfold now in *; simpl; lia|].
    simpl. intros s. apply (evolves_entry w); [by apply Hev|unfold now; simpl; lia|apply He].
Qed.

Lemma performAll_refines os w a :
  refines w a → Forall valid os →
  ∃ w' rs b, performAll os w = (Returns rs, w') ∧ spec_run a os rs b ∧ refines w' b.
Proof.
  intros Hr Hv. revert w a Hr. induction Hv as [|o os Ho _ IH]; intros w a Hr.
  - exists w, [], a. split_and!; [done|constructor|apply Hr..].
  - destruct (perform_refines o w a Hr Ho) as (w1 & r & b & H1 & Hs & Hr1).
    destruct (IH w1 b Hr1) as (w2 & rs & c & H2 & Hs2 & Hr2).
    exists w2, (r :: rs), c. split; [|split; [by econstructor|done]].
    cbn [performAll]. unfold mbind, M_bind. rewrite H1, H2. done.
Qed.

End specification.

(** ** [LocalStorage] *)

Lemma key_of_inj s s' : key_of s = key_of s' → s = s'.
Proof. unfold key_of, prefix. intros H. by repeat injection H as H. Qed.

(** An entry of the local storage, with its expiry time. *)
Definition local_entry (ls : items) (s : string) (r : object) (d : Z) : Prop :=
  (key_of s, JSON_stringify (Obj r)) ∈ ls ∧ json_wf (Obj r) = true ∧ assoc "expires" r = Num d ∧ (0 < d)%Z.

Lemma local_entry_removable t ls s r d :
  local_entry ls s r d → removable t (key_of s, JSON_stringify (Obj r)) → (d < t)%Z.
Proof.
  intros (_ & Hj & He & Hd) [_ Hr]. cbn [snd] in Hr. unfold entryExpired in Hr.
  rewrite (JSON_parse_stringify _ Hj) in Hr. cbn [getp] in Hr. rewrite He in Hr. cbn in Hr.
  rewrite (proj2 (Z.eqb_neq d 0)) in Hr by lia. cbn in Hr. injection Hr as Hr.
  apply Z.ltb_lt in Hr. lia.
Qed.

(** A storage that dropped nothing of an attempt but what had expired. *)
Definition shrinks (t : Z) (s : string) (ls ls' : items) : Prop :=
  (∀ kv, kv ∈ ls' → kv.1 = key_of s → kv ∈ ls) ∧
  (∀ kv, kv ∈ ls → kv.1 = key_of s → ¬ removable t kv → kv ∈ ls').

Lemma shrinks_absent t s ls ls' : shrinks t s ls ls' → key_of s ∉ ls.*1 → key_of s ∉ ls'.*1.
Proof.
  intros [Hin _] Hk ([k v] & Hkey & Hkv)%list_elem_of_fmap. cbn in Hkey. subst.
  apply Hk, list_elem_of_fmap. exists (key_of s, v). split; [done|]. by apply Hin.
Qed.

Lemma shrinks_entry t s ls ls' r d :
  NoDup ls.*1 → shrinks t s ls ls' → local_entry ls s r d →
  local_entry ls' s r d ∨ (key_of s ∉ ls'.*1) ∧ (d < t)%Z.
Proof.
  intros Hnd [Hin Hkeep] He. destruct (decide (key_of s ∈ ls'.*1)) as [Hk|Hk].
  - left. destruct He as (Hls & He). split; [|done].
    apply list_elem_of_fmap in Hk as ([k v] & Hkey & Hkv). cbn in Hkey. subst.
    pose proof (Hin _ Hkv eq_refl) as Hv. apply (getItem_elem _ _ _ Hnd) in Hls, Hv.
    by simplify_eq.
  - right. split; [done|]. destruct (decide (d < t)%Z) as [|Hd]; [done|]. exfalso. apply Hk.
    apply list_elem_of_fmap. eexists. split; [|apply Hkeep; [apply He|done|]]; [done|].
    intros Hr. by apply (local_entry_removable _ _ _ _ _ He) in Hr.
Qed.

Definition local_inv (w : World) : Prop :=
  callbackStorage w = LocalStorage ∧ (0 ≤ now w)%Z ∧
  ∃ ls, b_localStorage (br w) = Some ls ∧ storage_wf ls.

Definition local_present (w : World) (s : string) (r : object) (d : Z) : Prop :=
  ∃ ls, b_localStorage (br w) = Some ls ∧ local_entry ls s r d.

Definition local_absent (w : World) (s : string) : Prop :=
  ∃ ls, b_localStorage (br w) = Some ls ∧ key_of s ∉ ls.*1.

Definition local_evolves (w w' : World) (s : string) : Prop :=
  (∀ r d, local_present w s r d → local_present w' s r d ∨ local_absent w' s ∧ (d < now w')%Z) ∧
  (local_absent w s → local_absent w' s).

Lemma local_shrinks w ls ls' s :
  b_localStorage (br w) = Some ls → NoDup ls.*1 → shrinks (now w) s ls ls' →
  local_evolves w (with_items ls' w) s.
Proof.
  intros Hls Hnd Hsh. split.
  - intros r d (ls0 & H & He). rewrite Hls in H. injection H as <-.
    destruct (shrinks_entry _ _ _ _ _ _ Hnd Hsh He) as [|[]]; [left|right]; [by exists ls'|].
    split; [by exists ls'|done].
  - intros (ls0 & H & Hk). rewrite Hls in H. injection H as <-.
    exists ls'. split; [done|]. by eapply shrinks_absent.
Qed.

Lemma local_add_law w s st :
  local_inv w → nameable s ∧ assoc "state" st = Str s ∧ json_wf (Obj st) = true →
  ∃ w', storage_add st w = (Returns tt, w') ∧ now w' = now w ∧ local_inv w' ∧
    local_present w' s (stored st (now w)) (now w + 60 * 60 * 1000) ∧
    ∀ s', s' ≠ s → local_evolves w w' s'.
Proof.
  intros (Hk & Ht & ls & Hls & Hwf) (Hs & Hst & Hj).
  destruct (local_add_spec w ls st s Hls Hwf Hst) as (ls' & Hwf' & Hsub & Hkeep & Hadd).
  pose proof (json_wf_obj_set "expires" (Num (now w + 60 * 60 * 1000)) st Hj eq_refl) as Hj'.
  set (txt := JSON_stringify _) in Hadd. eexists. split; [|split; [|split; [|split]]].
  - unfold storage_add. rewrite bind_gets, Hk. exact Hadd.
  - done.
  - split_and!; [done|done|]. eexists. split; [done|]. apply setItem_wf; [done|].
    unfold txt. by rewrite JSON_parse_stringify by done.
  - eexists. split; [done|]. split_and!; [|done|apply assoc_obj_set|lia].
    apply getItem_elem; [by apply setItem_NoDup, Hwf'|]. apply getItem_setItem.
  - intros s' Hne. apply (local_shrinks w ls); [done|apply Hwf|]. split.
    + intros kv [->|Hkv]%setItem_elem He; [by apply key_of_inj in He|by apply Hsub].
    + intros kv Hkv He Hr. apply setItem_keeps; [by apply Hkeep|]. rewrite He. intros E.
      by apply key_of_inj in E.
Qed.
Lemma local_get_present_law w s r d :
  local_inv w → nameable s → local_present w s r d →
  ∃ w', storage_get (Str s) w = (Returns (Obj r), w') ∧ now w' = now w ∧ local_inv w' ∧
    local_absent w' s ∧ ∀ s', s' ≠ s → local_evolves w w' s'.
Proof.
  intros (Hk & Ht & ls & Hls & Hwf) (Hs & _) (ls0 & H & He & Hj & _). rewrite Hls in H.
  injection H as <-. apply (getItem_elem _ _ _ (proj1 Hwf)) in He.
  destruct (local_get_present w ls s _ _ Hls Hwf Hs He (stringify_obj_nonempty _)
              (JSON_parse_stringify _ Hj)) as (ls' & Hg & Hwf' & Hin & Hkeep).
  exists (with_items ls' w). split_and!; [|done|split_and!; [done|done|by exists ls']| |].
  - unfold storage_get. by rewrite bind_gets, Hk.
  - exists ls'. split; [done|]. intros (kv & E & Hkv)%list_elem_of_fmap. by apply Hin in Hkv as [? _].
  - intros s' Hne. apply (local_shrinks w ls); [done|apply Hwf|]. split.
    + intros kv Hkv _. by apply Hin.
    + intros kv Hkv E Hr. apply Hkeep; [done| |done]. rewrite E. intros E'. by apply key_of_inj in E'.
Qed.

Lemma local_get_absent_law w s :
  local_inv w → nameable s → local_absent w s →
  ∃ v w', storage_get (Str s) w = (Returns v, w') ∧ truthy v = false ∧ now w' = now w ∧
    local_inv w' ∧ ∀ s', local_evolves w w' s'.
Proof.
  intros (Hk & Ht & ls & Hls & Hwf) (Hs & _) (ls0 & H & He). rewrite Hls in H. injection H as <-.
  destruct (local_get_absent w ls s Hls Hwf Hs He) as (ls' & Hg & Hwf' & Hin & Hkeep).
  exists Null, (with_items ls' w). split_and!; [|done|done|split_and!; [done|done|by exists ls']|].
  - unfold storage_get. by rewrite bind_gets, Hk.
  - intros s'. apply (local_shrinks w ls); [done|apply Hwf|]. split; intros kv Hkv _.
    + by apply Hin.
    + by apply Hkeep.
Qed.

Lemma local_tick_law w n : local_inv w → local_inv (tick n w) ∧ ∀ s, local_evolves w (tick n w) s.
Proof.
  intros (Hk & Ht & Hls). split; [|by intros s; split; [left|]].
  split_and!; [done| |done]. unfold now in *. simpl. lia.
Qed.

#[global] Instance local_store : CallbackStore := {|
  inv := local_inv;
  present := local_present;
  absent := local_absent;
  record := stored;
  deadline t := (t + 60 * 60 * 1000)%Z;
  storable s st := nameable s ∧ assoc "state" st = Str s ∧ json_wf (Obj st) = true;
  add_law := local_add_law;
  get_present := local_get_present_law;
  get_absent := local_get_absent_law;
  tick_law := local_tick_law
|}.

(** ** [CookieStorage] *)

Abbreviation cookie := (string * (string * Z))%type.

Definition printCookie (c : cookie) : string := c.1 +:+ "=" +:+ c.2.1.

(** A cookie as browsers keep it. *)
Definition cookie_ok (c : cookie) : Prop :=
  occurs "=" c.1 = false ∧ occurs ";" c.1 = false ∧ occurs ";" c.2.1 = false ∧
  starts_with " " c.1 = false.

Definition jar_ok (jar : list cookie) : Prop := NoDup jar.*1 ∧ Forall cookie_ok jar.

Lemma split_cookies x xs :
  Forall (λ p, occurs ";" p = false) (x :: xs) →
  split ";" (join "; " (x :: xs)) = x :: ((λ p, " " +:+ p) <$> xs).
Proof.
  revert x. induction xs as [|y ys IH]; intros x [Hx Hxs]%Forall_cons.
  - by apply split_no_sep.
  - rewrite join_cons by done. pose proof (IH y Hxs) as H. set (t := join "; " (y :: ys)) in *.
    change ("; " +:+ t) with (String ";" (String " " t)). rewrite split_app by done. f_equal.
    simpl. by rewrite H.
Qed.

(** [getCookie] skips the space the browser writes after a semicolon. *)
Lemma findCookie_spaces name ps :
  findCookie name ((λ p, " " +:+ p) <$> ps) = findCookie name ps.
Proof. induction ps as [|p ps IH]; [done|]. csimpl. by rewrite IH. Qed.

Lemma starts_with_pair k n v :
  occurs "=" k = false → occurs "=" n = false →
  starts_with (k +:+ "=") (n +:+ "=" +:+ v) = bool_decide (n = k).
Proof.
  intros Hk Hn. case_bool_decide as E.
  - subst. change ("=" +:+ v) with ("=" +:+ v). rewrite <- app_assoc_s. apply starts_with_app.
  - destruct (starts_with _ _) eqn:S; [|done]. apply starts_with_spec in S as [t Ht].
    rewrite app_assoc_s in Ht. apply (f_equal (split "=")) in Ht.
    change ("=" +:+ v) with (String "=" v) in Ht. change ("=" +:+ t) with (String "=" t) in Ht.
    rewrite !split_app in Ht by done. by injection Ht.
Qed.

Lemma trim_printCookie c : cookie_ok c → trim_left (printCookie c) = printCookie c.
Proof.
  intros (_ & _ & _ & H). unfold printCookie. destruct c as [[|a n] [v e]]; [done|]. simpl in *.
  rewrite andb_true_r in H. destruct (Ascii.eqb_spec " " a) as [<-|Hne]; [done|].
  destruct a as [[] [] [] [] [] [] [] []]; done.
Qed.

(** [getCookie] finds the value of the first live cookie of a name. *)
Lemma findCookie_spec k cs :
  occurs "=" k = false → Forall cookie_ok cs →
  findCookie (k +:+ "=") (split ";" (join "; " (printCookie <$> cs))) =
  match list_find (λ c, c.1 = k) cs with Some (_, c) => c.2.1 | None => "" end.
Proof.
  intros Hk HF. assert (∀ cs, Forall cookie_ok cs → findCookie (k +:+ "=") (printCookie <$> cs) =
    match list_find (λ c, c.1 = k) cs with Some (_, c) => c.2.1 | None => "" end) as Hfind.
  { clear cs HF. intros cs HF. induction HF as [|c cs Hc HF IH]; [done|]. csimpl.
    rewrite trim_printCookie by done. unfold printCookie at 1.
    rewrite starts_with_pair by (done || apply Hc). case_bool_decide as E.
    - rewrite decide_True by done. unfold printCookie. subst.
      rewrite <- app_assoc_s. apply substring_from_app.
    - rewrite decide_False by done. rewrite IH. by destruct (list_find _ cs) as [[]|]. }
  rewrite <- (Hfind cs HF). destruct cs as [|c cs]; [by destruct k|]. rewrite fmap_cons, split_cookies.
  - cbn [findCookie]. by rewrite findCookie_spaces.
  - rewrite <- fmap_cons. apply Forall_fmap. eapply Forall_impl; [done|].
    intros c' (_ & H1 & H2 & _). unfold compose, printCookie. by rewrite !occurs_app, H1, H2.
Qed.

Definition jarOf (w : World) : list cookie := b_cookies (br w).

Definition cookie_inv (w : World) : Prop := callbackStorage w = CookieStorage ∧ jar_ok (jarOf w).

Definition cookie_present (w : World) (s : string) (r : object) (d : Z) : Prop :=
  (key_of s, (JSON_stringify (Obj r), d + 1)%Z) ∈ jarOf w ∧ (now w ≤ d)%Z ∧ json_wf (Obj r) = true.

Definition cookie_absent (w : World) (s : string) : Prop :=
  ∀ v e, (key_of s, (v, e)) ∈ jarOf w → (e ≤ now w)%Z.

Definition cookie_evolves (w w' : World) (s : string) : Prop :=
  (∀ r d, cookie_present w s r d → cookie_present w' s r d ∨ cookie_absent w' s ∧ (d < now w')%Z) ∧
  (cookie_absent w s → cookie_absent w' s).

(** The state with a jar in place of the one it has. *)
Definition with_jar (jar : list cookie) (w : World) : World := w <| br -> b_cookies := jar |>.

(** What [setCookie] does to the jar. *)
Definition replaced (now : Z) (c : cookie) (jar : list cookie) : list cookie :=
  filter (λ c', c'.1 ≠ c.1) jar ++ (if (now <? c.2.2)%Z then [c] else []).

Lemma setCookie_spec k v e w :
  occurs "=" k = false → occurs ";" k = false → occurs ";" v = false →
  setCookie k v e w = (Returns tt, with_jar (replaced (now w) (k, (v, e)) (jarOf w)) w).
Proof.
  intros H1 H2 H3. unfold setCookie, assignCookie.
  rewrite (split_no_sep ";") by (by rewrite !occurs_app, H2, H3). cbn [hd].
  change ("=" +:+ v) with (String "=" v). rewrite split_app by done.
  destruct (split "=" v) as [|x xs] eqn:E; [by apply split_nonempty in E|].
  rewrite <- E, join_split. by destruct w as [? ? ? ? ? ? ? ? ? ? ? ? ? ? ? ? ? []].
Qed.

Lemma key_of_plain s : nameable s → occurs "=" (key_of s) = false ∧ occurs ";" (key_of s) = false.
Proof. intros (_ & H1 & H2). unfold key_of. by rewrite !occurs_app, H1, H2. Qed.

Lemma replaced_ok t c jar : jar_ok jar → cookie_ok c → jar_ok (replaced t c jar).
Proof.
  intros [Hnd HF] Hc. unfold replaced. split.
  - rewrite fmap_app. apply NoDup_app. split_and!.
    + eapply sublist_NoDup; [exact Hnd|]. apply fmap_sublist, sublist_filter.
    + intros k (c' & -> & [Hne _]%list_elem_of_filter)%list_elem_of_fmap.
      destruct (_ <? _)%Z; csimpl; set_solver.
    + destruct (_ <? _)%Z; csimpl; repeat constructor; set_solver.
  - apply Forall_app. split.
    + apply Forall_forall. intros c' [_ Hc']%list_elem_of_filter. by eapply Forall_forall in HF.
    + destruct (_ <? _)%Z; [by constructor|constructor].
Qed.

Lemma replaced_elem t c jar c' :
  c'.1 ≠ c.1 → c' ∈ replaced t c jar ↔ c' ∈ jar.
Proof.
  intros Hne. unfold replaced. rewrite elem_of_app, list_elem_of_filter.
  destruct (_ <? _)%Z; set_solver.
Qed.

Lemma replaced_evolves c w s :
  c.1 ≠ key_of s → cookie_evolves w (with_jar (replaced (now w) c (jarOf w)) w) s.
Proof.
  intros Hne. split.
  - intros r d (Hin & Hp). left. split; [|done]. by apply replaced_elem.
  - intros Ha v e Hin. apply (Ha v). by apply replaced_elem in Hin.
Qed.

(** A jar has one cookie of a name. *)
Lemma jar_unique (jar : list cookie) k x y : NoDup jar.*1 → (k, x) ∈ jar → (k, y) ∈ jar → x = y.
Proof.
  intros Hnd. induction jar as [|c jar IH]; [set_solver|]. csimpl.
  apply NoDup_cons in Hnd as [Hk Hnd].
  assert (∀ z, (c.1, z) ∈ jar → False) as Hc.
  { intros z Hz. apply Hk, list_elem_of_fmap. by exists (c.1, z). }
  intros [Hx|Hx]%elem_of_cons [Hy|Hy]%elem_of_cons; subst; simpl in *; naive_solver.
Qed.

(** The value [getCookie] reads. *)
Lemma getCookie_spec k w :
  jar_ok (jarOf w) → occurs "=" k = false →
  ∃ v, getCookie k w = (Returns v, w) ∧
    (∀ x e, (k, (x, e)) ∈ jarOf w → (now w < e)%Z → v = x) ∧
    ((∀ x e, (k, (x, e)) ∈ jarOf w → (e ≤ now w)%Z) → v = "").
Proof.
  intros [Hnd HF] Hk. unfold getCookie. rewrite bind_gets. eexists. split; [done|].
  unfold document_cookie. change (λ c, c.1 +:+ "=" +:+ c.2.1) with printCookie.
  set (live := filter _ _). assert (Forall cookie_ok live) as Hlive.
  { apply Forall_forall. intros c [_ Hc]%list_elem_of_filter. by eapply Forall_forall in HF. }
  rewrite findCookie_spec by done. split.
  - intros x e Hin He. destruct (list_find _ live) as [[i c]|] eqn:E.
    + apply list_find_Some in E as (Hi & Hc & _). apply list_elem_of_lookup_2 in Hi.
      apply list_elem_of_filter in Hi as [_ Hi]. destruct c as [k' y]. simpl in *. subst.
      by rewrite (jar_unique _ _ _ _ Hnd Hi Hin).
    + apply list_find_None in E. rewrite Forall_forall in E. exfalso. apply (E (k, (x, e))); [|done].
      by apply list_elem_of_filter.
  - intros Ha. destruct (list_find _ live) as [[i c]|] eqn:E; [|done].
    apply list_find_Some in E as (Hi & Hc & _). apply list_elem_of_lookup_2 in Hi.
    apply list_elem_of_filter in Hi as [He Hi]. destruct c as [k' [y e]]. simpl in *. subst.
    apply Ha in Hi. lia.
Qed.

Lemma cookie_add_law w s st :
  cookie_inv w →
  nameable s ∧ assoc "state" st = Str s ∧ json_wf (Obj st) = true ∧
    occurs ";" (JSON_stringify (Obj st)) = false →
  ∃ w', storage_add st w = (Returns tt, w') ∧ now w' = now w ∧ cookie_inv w' ∧
    cookie_present w' s st (cookieExpiration (now w) 60 - 1) ∧
    ∀ s', s' ≠ s → cookie_evolves w w' s'.
Proof.
  intros (Hk & Hjar) (Hs & Hst & Hj & Htxt). destruct (key_of_plain s Hs) as [H1 H2].
  set (c := (key_of s, (JSON_stringify (Obj st), cookieExpiration (now w) 60)) : cookie).
  exists (with_jar (replaced (now w) c (jarOf w)) w). split_and!.
  - unfold storage_add, cookie_add. rewrite bind_gets, Hk, bind_gets, Hst. by apply setCookie_spec.
  - done.
  - split; [done|]. by apply replaced_ok.
  - assert (now w < cookieExpiration (now w) 60)%Z as He.
    { unfold cookieExpiration. pose proof (Z.div_mod (now w + 60 * 60 * 1000) 1000 ltac:(lia)).
      pose proof (Z.mod_pos_bound (now w + 60 * 60 * 1000) 1000 ltac:(lia)). lia. }
    split_and!; [|change (now (with_jar _ w)) with (now w); lia|done].
    change (jarOf (with_jar ?j w)) with j. unfold replaced. cbn [c snd].
    rewrite (proj2 (Z.ltb_lt _ _) He), Z.sub_add. apply elem_of_app. right. by left.
  - intros s' Hne. apply replaced_evolves. cbn. intros E. by apply key_of_inj in E.
Qed.

(** [get] removes the cookie it read. *)
Lemma cookie_get_run w s :
  cookie_inv w → nameable s →
  ∃ v w', getCookie (key_of s) w = (Returns v, w) ∧
    storage_get (Str s) w =
      (if String.eqb v "" then mret Undefined else lift (JSON_parse v)) w' ∧
    now w' = now w ∧ cookie_inv w' ∧ cookie_absent w' s ∧ ∀ s', s' ≠ s → cookie_evolves w w' s'.
Proof.
  intros (Hk & Hjar) Hs. destruct (key_of_plain s Hs) as [H1 H2].
  destruct (getCookie_spec (key_of s) w Hjar H1) as (v & Hg & _).
  set (c := (key_of s, ("", cookieExpiration (now w) (-100))) : cookie).
  exists v, (with_jar (replaced (now w) c (jarOf w)) w). split_and!; [done| |done|..].
  - unfold storage_get, cookie_get. rewrite bind_gets, Hk, (proj2 (truthy_str s) (proj1 Hs)).
    cbn [negb to_string]. unfold mbind at 1, M_bind at 1. change (prefix +:+ s) with (key_of s).
    rewrite Hg, bind_gets. unfold mbind at 1, M_bind at 1. by rewrite setCookie_spec.
  - split; [done|]. by apply replaced_ok.
  - intros x e Hin. change (jarOf (with_jar ?j w)) with j in Hin. unfold replaced in Hin.
    rewrite (proj2 (Z.ltb_ge _ _)) in Hin.
    + rewrite (right_id_L [] (++)) in Hin. by apply list_elem_of_filter in Hin as [? _].
    + cbn. unfold cookieExpiration.
      pose proof (Z.div_mod (now w + -100 * 60 * 1000) 1000 ltac:(lia)).
      pose proof (Z.mod_pos_bound (now w + -100 * 60 * 1000) 1000 ltac:(lia)). lia.
  - intros s' Hne. apply replaced_evolves. cbn. intros E. by apply key_of_inj in E.
Qed.

Lemma cookie_get_present_law w s r d :
  cookie_inv w → nameable s → cookie_present w s r d →
  ∃ w', storage_get (Str s) w = (Returns (Obj r), w') ∧ now w' = now w ∧ cookie_inv w' ∧
    cookie_absent w' s ∧ ∀ s', s' ≠ s → cookie_evolves w w' s'.
Proof.
  intros Hi Hs (Hin & Hd & Hj). destruct (cookie_get_run w s Hi Hs) as (v & w' & Hg & Hr & Hw).
  destruct (getCookie_spec (key_of s) w) as (v' & Hg' & Hv & _); [apply Hi|exact (proj1 (key_of_plain s Hs))|].
  rewrite Hg in Hg'. injection Hg' as <-. rewrite (Hv _ _ Hin) in Hr by lia.
  exists w'. split; [|done]. rewrite Hr, (proj2 (String.eqb_neq _ _) (stringify_obj_nonempty r)).
  by rewrite JSON_parse_stringify.
Qed.

Lemma cookie_get_absent_law w s :
  cookie_inv w → nameable s → cookie_absent w s →
  ∃ v w', storage_get (Str s) w = (Returns v, w') ∧ truthy v = false ∧ now w' = now w ∧
    cookie_inv w' ∧ ∀ s', cookie_evolves w w' s'.
Proof.
  intros Hi Hs Ha. destruct (cookie_get_run w s Hi Hs) as (v & w' & Hg & Hr & Hn & Hi' & Ha' & Hev).
  destruct (getCookie_spec (key_of s) w) as (v' & Hg' & _ & Hv); [apply Hi|exact (proj1 (key_of_plain s Hs))|].
  rewrite Hg in Hg'. injection Hg' as <-. rewrite (Hv Ha) in Hr.
  exists Undefined, w'. split_and!; [done..|]. intros s'. destruct (decide (s' = s)) as [->|Hne].
  - split; [|done]. intros r d (Hin & Hd & _). apply Ha in Hin. lia.
  - by apply Hev.
Qed.

Lemma cookie_tick_law w n : cookie_inv w → cookie_inv (tick n w) ∧ ∀ s, cookie_evolves w (tick n w) s.
Proof.
  intros (Hk & Hjar). split; [done|]. intros s.
  assert (now w ≤ now (tick n w))%Z as Hle by (unfold now; simpl; lia). split.
  - intros r d (Hin & Hd & Hj). destruct (decide (now (tick n w) ≤ d)%Z) as [H|H]; [left; by split_and!|].
    right. split; [|lia]. intros v e Hin'.
    pose proof (jar_unique _ _ _ _ (proj1 Hjar) Hin Hin'). simplify_eq. lia.
  - intros Ha v e Hin. apply Ha in Hin. lia.
Qed.

#[global] Instance cookie_store : CallbackStore := {|
  inv := cookie_inv;
  present := cookie_present;
  absent := cookie_absent;
  record st _ := st;
  deadline t := (cookieExpiration t 60 - 1)%Z;
  storable s st := nameable s ∧ assoc "state" st = Str s ∧ json_wf (Obj st) = true ∧
    occurs ";" (JSON_stringify (Obj st)) = false;
  add_law := cookie_add_law;
  get_present := cookie_get_present_law;
  get_absent := cookie_get_absent_law;
  tick_law := cookie_tick_law
|}.

(** ** The storages of the library *)

(** The storage [kc.init] chose. *)
Definition storeOf (w : World) : option CallbackStore :=
  match callbackStorage w with
  | LocalStorage => Some local_store
  | CookieStorage => Some cookie_store
  | NoStorage => None
  end.

(** C13: Both callback storages of the library, the one over [localStorage] and the one
    over cookies, refine the same specification: whatever sequence of attempts is
    added and taken while time passes, no operation throws, a take before the
    deadline returns the record of its attempt, and an attempt that was taken, or
    never added, is not found. *)
Theorem storages_refine w k a os :
  storeOf w = Some k → refines (store := k) w a → Forall (valid (store := k)) os →
  ∃ w' rs b, performAll os w = (Returns rs, w') ∧ spec_run (store := k) a os rs b ∧
    refines (store := k) w' b ∧ storeOf w' = Some k.
Proof.
  intros Hk Hr Hv. destruct (performAll_refines os w a Hr Hv) as (w' & rs & b & H & Hs & Hr').
  exists w', rs, b. split_and!; [done..|]. unfold storeOf in *. destruct Hr' as [Hi _].
  destruct (callbackStorage w); simplify_eq; destruct Hi as [-> _]; done.
Qed.

End CallbackStore.
