(* ===== verification/Urls.v ===== *)
(** URLs of keycloak.js: [getRealmUrl], [getOrigin], the endpoint tables of
    [setupOidcEndoints], the adapters' [redirectUri], and the functions that build
    the login, logout, registration and account URLs. *)

From S2P Require Import Prelude JsString Uri JsValue Json World Promise Uuid Storage.
Import JsString Uri JsValue Json World Uuid Storage.

Module Urls.

(** [encodeURIComponent(v)], which converts its argument to a string. *)
Definition encode (v : jsval) : string := encodeURIComponent (to_string v).

(** *** Realm, origin, endpoints *)

Definition getRealmUrl (k : Kc) : outcome jsval :=
  match kc_authServerUrl k with
  | Undefined => Returns Undefined
  | Str url =>
      Returns (Str (if String.eqb (charAt url (length_s url - 1)) "/"
                    then url +:+ "realms/" +:+ encode (kc_realm k)
                    else url +:+ "/realms/" +:+ encode (kc_realm k)))
  | _ => Throws TypeError
  end.

Definition getOrigin (b : Browser) : jsval :=
  if truthy (b_origin b) then b_origin b
  else Str (b_protocol b +:+ "//" +:+ b_hostname b +:+
            (if String.eqb (b_port b) "" then "" else ":" +:+ b_port b)).

(** [getRealmUrl() + path] *)
Definition realmPath (k : Kc) (path : string) : outcome jsval :=
  u ← getRealmUrl k; Returns (Str (to_string u +:+ path)).

(** [if (!c.f) throw "Not supported by the OIDC server"; return c.f] *)
Definition oidcSupported (c : jsval) (f : string) : outcome jsval :=
  v ← getp c f;
  if truthy v then Returns v else Throws (Thrown "Not supported by the OIDC server").

Definition ep_authorize (k : Kc) : outcome jsval :=
  match kc_endpoints k with
  | NoEndpoints => Throws TypeError
  | KeycloakEndpoints => realmPath k "/protocol/openid-connect/auth"
  | OidcEndpoints c => getp c "authorization_endpoint"
  end.

Definition ep_token (k : Kc) : outcome jsval :=
  match kc_endpoints k with
  | NoEndpoints => Throws TypeError
  | KeycloakEndpoints => realmPath k "/protocol/openid-connect/token"
  | OidcEndpoints c => getp c "token_endpoint"
  end.

Definition ep_logout (k : Kc) : outcome jsval :=
  match kc_endpoints k with
  | NoEndpoints => Throws TypeError
  | KeycloakEndpoints => realmPath k "/protocol/openid-connect/logout"
  | OidcEndpoints c => oidcSupported c "end_session_endpoint"
  end.

Definition ep_checkSessionIframe (k : Kc) : outcome jsval :=
  match kc_endpoints k with
  | NoEndpoints => Throws TypeError
  | KeycloakEndpoints =>
      src ← realmPath k "/protocol/openid-connect/login-status-iframe.html";
      Returns (if truthy (kc_iframeVersion k)
               then Str (to_string src +:+ "?version=" +:+ to_string (kc_iframeVersion k))
               else src)
  | OidcEndpoints c => oidcSupported c "check_session_iframe"
  end.

Definition registerUnsupported : exn :=
  Thrown ("Redirection to " +:+ String "034" "Register user" +:+ String "034" ""
          +:+ " page not supported in standard OIDC mode").

Definition ep_register (k : Kc) : outcome jsval :=
  match kc_endpoints k with
  | NoEndpoints => Throws TypeError
  | KeycloakEndpoints => realmPath k "/protocol/openid-connect/registrations"
  | OidcEndpoints c => Throws registerUnsupported
  end.

Definition ep_userinfo (k : Kc) : outcome jsval :=
  match kc_endpoints k with
  | NoEndpoints => Throws TypeError
  | KeycloakEndpoints => realmPath k "/protocol/openid-connect/userinfo"
  | OidcEndpoints c => oidcSupported c "userinfo_endpoint"
  end.

Section urls.
Context {env : Env}.

(** *** [adapter.redirectUri(options)] *)

Definition default_redirectUri (options : jsval) : IO jsval :=
  w ← gets id;
  mret (if truthy (optp options "redirectUri") then optp options "redirectUri"
        else if truthy (kc_redirectUri (kc w)) then kc_redirectUri (kc w)
        else Str (b_href (br w))).

Definition cordova_redirectUri (options : jsval) : IO jsval :=
  mret (Str "http://localhost").

Definition cordovaNative_redirectUri (options : jsval) : IO jsval :=
  w ← gets id;
  mret (if truthy (optp options "redirectUri") then optp options "redirectUri"
        else if truthy (kc_redirectUri (kc w)) then kc_redirectUri (kc w)
        else Str "http://localhost").

Definition adapter_redirectUri (options : jsval) : IO jsval :=
  a ← gets adapter;
  match a with
  | NoAdapter => throw TypeError
  | DefaultAdapter => default_redirectUri options
  | CordovaAdapter => cordova_redirectUri options
  | CordovaNativeAdapter => cordovaNative_redirectUri options
  | CustomAdapter => a_redirectUri custom options
  end.

(** *** [kc.createLoginUrl] *)

(** The value of the [scope] parameter. *)
Definition loginScope (options : jsval) : outcome string :=
  let scope := optp options "scope" in
  if truthy scope then
    b ← includes scope (Str "openid");
    Returns (if b : bool then to_string scope else "openid " +:+ to_string scope)
  else Returns "openid".

(** ['&' + name + '=' + encodeURIComponent(v)] *)
Definition param (name : string) (v : jsval) : string :=
  "&" +:+ name +:+ "=" +:+ encode v.

(** [if (options && options.f) url += ...] *)
Definition optParam (options : jsval) (f name : string) : string :=
  let v := optp options f in if truthy v then param name v else "".

(** The query string [createLoginUrl] appends to [baseUrl]. *)
Definition loginQuery (k : Kc) (nonceUsed : jsval) (redirectUri : jsval)
    (state nonce scope : string) (options : jsval) : string :=
  "?client_id=" +:+ encode (kc_clientId k)
  +:+ param "redirect_uri" redirectUri
  +:+ param "state" (Str state)
  +:+ param "response_mode" (kc_responseMode k)
  +:+ param "response_type" (kc_responseType k)
  +:+ param "scope" (Str scope)
  +:+ (if truthy nonceUsed then param "nonce" (Str nonce) else "")
  +:+ optParam options "prompt" "prompt"
  +:+ optParam options "maxAge" "max_age"
  +:+ optParam options "loginHint" "login_hint"
  +:+ optParam options "idpHint" "kc_idp_hint"
  +:+ optParam options "locale" "ui_locales"
  +:+ optParam options "kcLocale" "kc_locale".

(** The object handed to the callback storage. *)
Definition callbackState (state nonce : string) (redirectUri options : jsval) : list (string * jsval) :=
  let st := [("state", Str state); ("nonce", Str nonce); ("redirectUri", Str (encode redirectUri))] in
  let prompt := optp options "prompt" in
  if truthy prompt then obj_set "prompt" prompt st else st.

Definition createLoginUrl (options : jsval) : IO string :=
  state ← createUUID;
  nonce ← createUUID;
  redirectUri ← adapter_redirectUri options;
  storage_add (callbackState state nonce redirectUri options);;
  k ← gets kc;
  baseUrl ← lift (if loose_eq (optp options "action") (Str "register")
                  then ep_register k else ep_authorize k);
  scope ← lift (loginScope options);
  n ← gets useNonce;
  mret (to_string baseUrl +:+ loginQuery k n redirectUri state nonce scope options).

(** *** The other URLs *)

Definition createLogoutUrl (options : jsval) : IO string :=
  k ← gets kc;
  url ← lift (ep_logout k);
  redirectUri ← adapter_redirectUri options;
  mret (to_string url +:+ "?redirect_uri=" +:+ encode redirectUri).

Definition createRegisterUrl (options : jsval) : IO string :=
  let options := if truthy options then options else Obj [] in
  createLoginUrl (match options with
                  | Obj o => Obj (obj_set "action" (Str "register") o)
                  | v => v
                  end).

Definition createAccountUrl (options : jsval) : IO jsval :=
  k ← gets kc;
  realm ← lift (getRealmUrl k);
  if is_undefined realm then mret Undefined
  else
    redirectUri ← adapter_redirectUri options;
    mret (Str (to_string realm +:+ "/account"
               +:+ "?referrer=" +:+ encode (kc_clientId k)
               +:+ "&referrer_uri=" +:+ encode redirectUri)).

(** ** The query of the login URL *)

(** The parameters, before they are encoded. *)
Definition optional (options : jsval) (f name : string) : list (string * string) :=
  let v := optp options f in if truthy v then [(name, to_string v)] else [].

Definition loginParams (k : Kc) (nonceUsed redirectUri : jsval)
    (state nonce scope : string) (options : jsval) : list (string * string) :=
  [("client_id", to_string (kc_clientId k)); ("redirect_uri", to_string redirectUri);
   ("state", state); ("response_mode", to_string (kc_responseMode k));
   ("response_type", to_string (kc_responseType k)); ("scope", scope)]
  ++ (if truthy nonceUsed then [("nonce", nonce)] else [])
  ++ optional options "prompt" "prompt" ++ optional options "maxAge" "max_age"
  ++ optional options "loginHint" "login_hint" ++ optional options "idpHint" "kc_idp_hint"
  ++ optional options "locale" "ui_locales" ++ optional options "kcLocale" "kc_locale".

(** Query strings as a server reads them (application/x-www-form-urlencoded,
    without the plus sign, which [encodeURIComponent] escapes). *)
Definition pair_text (p : string * string) : string := p.1 +:+ "=" +:+ encodeURIComponent p.2.

Definition parsePair (p : string) : string * outcome string :=
  match split "=" p with
  | n :: v => (n, decodeURIComponent (join "=" v))
  | [] => ("", Returns "")
  end.

Definition parseQuery (q : string) : list (string * outcome string) := parsePair <$> split "&" q.

(** Every further parameter is ['&'] and its text. *)
Definition more (l : list (string * string)) : string := join "" ((λ p, "&" +:+ pair_text p) <$> l).

Lemma more_app l1 l2 : more (l1 ++ l2) = more l1 +:+ more l2.
Proof.
  unfold more. rewrite fmap_app. induction ((λ p, "&" +:+ pair_text p) <$> l1) as [|x xs IH]; [done|].
  assert (∀ y ys, join "" (y :: ys) = y +:+ join "" ys) as Hj.
  { intros y [|z zs]; simpl; [by rewrite app_nil_r|done]. }
  simpl ((x :: xs) ++ _). rewrite !Hj, IH. by rewrite app_assoc_s.
Qed.

Lemma more_cons p l : more (p :: l) = "&" +:+ pair_text p +:+ more l.
Proof. change (p :: l) with ([p] ++ l). rewrite more_app. by cbn. Qed.

Lemma more_optional options f name : more (optional options f name) = optParam options f name.
Proof. unfold optional, optParam. cbv zeta. by destruct (truthy _). Qed.

Lemma join_more p l : join "&" (pair_text <$> p :: l) = pair_text p +:+ more l.
Proof.
  revert p. induction l as [|p' l IH]; intros p; [by rewrite app_nil_r|].
  rewrite fmap_cons, join_cons by done. rewrite IH.
  change (p' :: l) with ([p'] ++ l). by rewrite more_app.
Qed.

Lemma loginQuery_join k n redirectUri state nonce scope options :
  loginQuery k n redirectUri state nonce scope options =
  "?" +:+ join "&" (pair_text <$> loginParams k n redirectUri state nonce scope options).
Proof.
  unfold loginParams. rewrite <- app_comm_cons, join_more. rewrite !more_app, !more_optional.
  rewrite !more_cons. unfold loginQuery, param, encode, pair_text. cbn [fst snd].
  destruct (truthy n); rewrite ?more_cons; unfold pair_text; cbn [fst snd];
    rewrite !app_assoc_s; reflexivity.
Qed.

Definition plain_name (n : string) : Prop := occurs "&" n = false ∧ occurs "=" n = false.

Lemma parsePair_text p :
  occurs "=" p.1 = false → utf8_valid p.2 = true → parsePair (pair_text p) = (p.1, Returns p.2).
Proof.
  intros Hn Hv. unfold parsePair, pair_text. rewrite app_cons, app_nil_l, split_app by done.
  rewrite split_no_sep by (by apply encodeURIComponent_no_delim).
  simpl. by rewrite decode_encode.
Qed.

Lemma parseQuery_join l :
  l ≠ [] → Forall (λ p, plain_name p.1 ∧ utf8_valid p.2 = true) l →
  parseQuery (join "&" (pair_text <$> l)) = (λ p, (p.1, Returns p.2)) <$> l.
Proof.
  intros Hl HF. unfold parseQuery. rewrite split_join.
  - clear Hl. induction HF as [|p l [[_ Hp] Hv] HF IH]; [done|].
    rewrite !fmap_cons, IH. by rewrite parsePair_text.
  - by destruct l.
  - apply Forall_fmap. eapply Forall_impl; [exact HF|]. intros p [[Hp _] _].
    unfold compose, pair_text. rewrite !occurs_app, Hp. simpl.
    by apply encodeURIComponent_no_delim.
Qed.

(** ** [createLoginUrl] *)

(** The redirect URI of the default adapter. *)
Definition redirectOf (options : jsval) (w : World) : jsval :=
  if truthy (optp options "redirectUri") then optp options "redirectUri"
  else if truthy (kc_redirectUri (kc w)) then kc_redirectUri (kc w)
  else Str (b_href (br w)).

(** A state in which the default adapter can start a login. *)
Record ready (options : jsval) (w : World) (ls : items) (base : jsval) (scope : string) : Prop := {
  ready_fair : fair (br w);
  ready_adapter : adapter w = DefaultAdapter;
  ready_storage : callbackStorage w = LocalStorage;
  ready_items : b_localStorage (br w) = Some ls;
  ready_wf : storage_wf ls;
  ready_base : (if loose_eq (optp options "action") (Str "register")
                then ep_register (kc w) else ep_authorize (kc w)) = Returns base;
  ready_scope : loginScope options = Returns scope
}.

(** What a login needs of the state besides a storage. *)
Record starting (options : jsval) (w : World) (base : jsval) (scope : string) : Prop := {
  starting_fair : fair (br w);
  starting_adapter : adapter w = DefaultAdapter;
  starting_base : (if loose_eq (optp options "action") (Str "register")
                   then ep_register (kc w) else ep_authorize (kc w)) = Returns base;
  starting_scope : loginScope options = Returns scope
}.

Lemma ready_starting options w ls base scope : ready options w ls base scope → starting options w base scope.
Proof. by intros []. Qed.

Lemma storage_add_frame k n st :
  preserves (λ w, kc w = k ∧ useNonce w = n) (storage_add st).
Proof.
  unfold storage_add, local_add, cookie_add, clearExpired, readLocalStorage, withLocalStorage,
    setCookie, assignCookie.
  preserve ltac:(by intros).
Qed.

Lemma callbackState_state state nonce ru options :
  assoc "state" (callbackState state nonce ru options) = Str state.
Proof. unfold callbackState. cbv zeta. destruct (truthy _); [|done]. by rewrite assoc_obj_set_ne. Qed.

(** [createLoginUrl] over any storage that takes the attempt. *)
Lemma createLoginUrl_run options w base scope :
  starting options w base scope →
  ∃ state nonce n, uuid_v4 state = true ∧ uuid_v4 nonce = true ∧
    ∀ w', storage_add (callbackState state nonce (redirectOf options w) options) (drawn n w)
            = (Returns tt, w') →
      createLoginUrl options w =
        (Returns (to_string base +:+
           loginQuery (kc w) (useNonce w) (redirectOf options w) state nonce scope options), w').
Proof.
  intros [Hf Ha Hb Hs].
  destruct (createUUID_spec w Hf) as (state & n1 & H1 & Hv1).
  destruct (createUUID_spec (drawn n1 w) Hf) as (nonce & n & H2 & Hv2).
  set (ru := redirectOf options w). exists state, nonce, n. split_and!; [done..|]. intros w' Hadd.
  pose proof (storage_add_frame (kc w) (useNonce w) (callbackState state nonce ru options)
    (drawn n w) (conj eq_refl eq_refl)) as Hfr. rewrite Hadd in Hfr. destruct Hfr as [Hk Hn].
  unfold createLoginUrl. unfold mbind at 1, M_bind at 1. rewrite H1.
  unfold mbind at 1, M_bind at 1. rewrite H2.
  change (drawn n (drawn n1 w)) with (drawn n w).
  assert (adapter_redirectUri options (drawn n w) = (Returns ru, drawn n w)) as Hru.
  { unfold adapter_redirectUri. rewrite bind_gets. change (adapter (drawn n w)) with (adapter w).
    by rewrite Ha. }
  unfold mbind at 1, M_bind at 1. rewrite Hru. unfold mbind at 1, M_bind at 1.
  rewrite Hadd, bind_gets. cbn [snd] in Hk, Hn.
  by rewrite Hk, Hb, bind_lift, Hs, bind_lift, bind_gets, Hn.
Qed.

Lemma createLoginUrl_spec options w ls base scope :
  ready options w ls base scope →
  ∃ state nonce n ls', uuid_v4 state = true ∧ uuid_v4 nonce = true ∧ storage_wf ls' ∧
    createLoginUrl options w =
      (Returns (to_string base +:+
         loginQuery (kc w) (useNonce w) (redirectOf options w) state nonce scope options),
       with_items (setItem (key_of state) (JSON_stringify (Obj
         (stored (callbackState state nonce (redirectOf options w) options) (now w)))) ls')
         (drawn n w)).
Proof.
  intros Hr. destruct (createLoginUrl_run options w base scope (ready_starting _ _ _ _ _ Hr))
    as (state & nonce & n & Hv1 & Hv2 & Hrun). destruct Hr as [_ _ Hst Hls Hwf _ _].
  destruct (local_add_spec (drawn n w) ls (callbackState state nonce (redirectOf options w) options)
    state Hls Hwf) as (ls' & Hwf' & _ & _ & Hadd); [apply callbackState_state|].
  exists state, nonce, n, ls'. split_and!; [done..|]. apply Hrun.
  unfold storage_add. rewrite bind_gets. change (callbackStorage (drawn n w)) with (callbackStorage w).
  by rewrite Hst.
Qed.

(** C17: The query of the login URL parses, by the rules of form encoding, to
    exactly the parameters the code names, with the values the options, the
    configuration and the two fresh UUIDs give them: no value, however chosen, adds,
    changes or hides a parameter. *)
Theorem createLoginUrl_parameters options w ls base scope :
  ready options w ls base scope →
  ∃ state nonce w' query,
    createLoginUrl options w = (Returns (to_string base +:+ "?" +:+ query), w') ∧
    uuid_v4 state = true ∧ uuid_v4 nonce = true ∧
    let params := loginParams (kc w) (useNonce w) (redirectOf options w) state nonce scope options in
    (Forall (λ p, utf8_valid p.2 = true) params →
     parseQuery query = (λ p, (p.1, Returns p.2)) <$> params).
Proof.
  intros Hr. destruct (createLoginUrl_spec options w ls base scope Hr)
    as (state & nonce & n & ls' & Hs & Hn & _ & Hurl).
  eexists state, nonce, _, _. split_and!; [rewrite Hurl, loginQuery_join; reflexivity|done|done|].
  cbv zeta. intros HF. apply parseQuery_join; [done|].
  rewrite Forall_forall in *. intros p Hp. split; [|by apply HF]. clear HF Hurl.
  unfold loginParams, optional in Hp. unfold plain_name.
  repeat (rewrite elem_of_app in Hp || rewrite elem_of_cons in Hp).
  destruct_or!; subst; try done; try (by apply elem_of_nil in Hp);
    repeat case_match; rewrite ?elem_of_cons, ?elem_of_nil in Hp; by destruct_or?; subst.
Qed.

End urls.
End Urls.
