(* ===== verification/Adapter.v ===== *)
(** The adapters of [loadAdapter] in keycloak.js, [kc.login] and its companions,
    and [kc.clearToken].

    The listeners an adapter registers on an in-app browser window or a universal
    link belong to the window or link here; the event loop runs them. *)

From S2P Require Import Prelude JsString Uri JsValue World Promise Token Uuid Storage Urls.
Import JsString Uri JsValue World Promise Token Uuid Storage Urls.

Module Adapter.

(** *** The option string of an in-app browser window *)

(** [Object.keys(userOptions.cordovaOptions).reduce(..., {})]: a copy. *)
Definition shallowCloneCordovaOptions (userOptions : jsval) : list (string * jsval) :=
  let o := optp userOptions "cordovaOptions" in
  if truthy o then
    match o with
    | Obj l => foldl (λ acc '(k, v), obj_set k v acc) [] l
    | _ => []
    end
  else [].

Definition formatCordovaOptions (cordovaOptions : list (string * jsval)) : string :=
  join "," ((λ '(k, v), k +:+ "=" +:+ to_string v) <$> cordovaOptions).

Definition createCordovaOptions (userOptions : jsval) : string :=
  let o := shallowCloneCordovaOptions userOptions in
  let o := obj_set "location" (Str "no") o in
  let o := if loose_eq (optp userOptions "prompt") (Str "none")
           then obj_set "hidden" (Str "yes") o else o in
  formatCordovaOptions o.

Section adapter.
Context {env : Env}.

(** *** The default adapter: the page navigates away and the promise it returns
    never settles *)

Definition default_login (options : jsval) : IO nat :=
  url ← createLoginUrl options; navigate url;; createPromise.

Definition default_logout (options : jsval) : IO nat :=
  url ← createLogoutUrl options; navigate url;; createPromise.

Definition default_register (options : jsval) : IO (option nat) :=
  url ← createRegisterUrl options; navigate url;; p ← createPromise; mret (Some p).

Definition default_accountManagement : IO (option nat) :=
  accountUrl ← createAccountUrl Undefined;
  if is_undefined accountUrl then throw (Thrown "Not supported by the OIDC server")
  else navigate (to_string accountUrl);; p ← createPromise; mret (Some p).

(** *** The Cordova adapter *)

Definition cordovaOpenWindowWrapper (url target options : string) (role : window_role) : IO unit :=
  b ← gets (λ w, b_hasCordova (br w) && b_hasInAppBrowser (br w));
  emit (OOpenWindow b url target options);;
  modify (λ w, w <| windows ::= (λ l, l ++ [mkWindow role false false]) |>).

Definition cordova_login (options : jsval) : IO nat :=
  p ← createPromise;
  let cordovaOptions := createCordovaOptions options in
  loginUrl ← createLoginUrl options;
  cordovaOpenWindowWrapper loginUrl "_blank" cordovaOptions (LoginWindow p);;
  mret p.

Definition cordova_logout (options : jsval) : IO nat :=
  p ← createPromise;
  logoutUrl ← createLogoutUrl options;
  cordovaOpenWindowWrapper logoutUrl "_blank" "location=no,hidden=yes" (LogoutWindow p);;
  mret p.

(** [register : function()] reads a variable [options] it does not declare. *)
Definition cordova_register (options : jsval) : IO (option nat) :=
  registerUrl ← createRegisterUrl Undefined;
  throw ReferenceError.

Definition cordova_accountManagement : IO (option nat) :=
  accountUrl ← createAccountUrl Undefined;
  if is_undefined accountUrl then throw (Thrown "Not supported by the OIDC server")
  else cordovaOpenWindowWrapper (to_string accountUrl) "_blank" "location=no" AccountWindow;;
       mret None.

(** *** The native Cordova adapter *)

Definition subscribe (h : link_handler) : IO unit :=
  modify (λ w, w <| links ::= (λ l, l ++ [h]) |>).

Definition cordovaNative_login (options : jsval) : IO nat :=
  p ← createPromise;
  loginUrl ← createLoginUrl options;
  subscribe (LinkLogin p);;
  emit (OOpenTab loginUrl);;
  mret p.

Definition cordovaNative_logout (options : jsval) : IO nat :=
  p ← createPromise;
  logoutUrl ← createLogoutUrl options;
  subscribe (LinkLogout p);;
  emit (OOpenTab logoutUrl);;
  mret p.

Definition cordovaNative_register (options : jsval) : IO (option nat) :=
  p ← createPromise;
  registerUrl ← createRegisterUrl options;
  subscribe (LinkLogin p);;
  emit (OOpenTab registerUrl);;
  mret (Some p).

Definition cordovaNative_accountManagement : IO (option nat) :=
  accountUrl ← createAccountUrl Undefined;
  if is_undefined accountUrl then throw (Thrown "Not supported by the OIDC server")
  else emit (OOpenTab (to_string accountUrl));; mret None.

(** *** [loadAdapter]: the table of one adapter, and the iframe it turns off *)

Definition adapterOps (a : AdapterKind) : AdapterOps :=
  match a with
  | NoAdapter =>
      mkAdapterOps (λ _, throw TypeError) (λ _, throw TypeError) (λ _, throw TypeError)
        (throw TypeError) (λ _, throw TypeError)
  | DefaultAdapter =>
      mkAdapterOps default_login default_logout default_register
        default_accountManagement default_redirectUri
  | CordovaAdapter =>
      mkAdapterOps cordova_login cordova_logout cordova_register
        cordova_accountManagement cordova_redirectUri
  | CordovaNativeAdapter =>
      mkAdapterOps cordovaNative_login cordovaNative_logout cordovaNative_register
        cordovaNative_accountManagement cordovaNative_redirectUri
  | CustomAdapter => custom
  end.

Definition disableIframe : IO unit :=
  modify (λ w, w <| loginIframe -> li_enable := Bool false |>).

Definition loadAdapter (type : jsval) : IO AdapterKind :=
  if negb (truthy type) || loose_eq type (Str "default") then mret DefaultAdapter
  else if loose_eq type (Str "cordova") then disableIframe;; mret CordovaAdapter
  else if loose_eq type (Str "cordova-native") then disableIframe;; mret CordovaNativeAdapter
  else throw (Thrown ("invalid adapter type: " +:+ to_string type)).

(** *** [kc.login], [kc.logout], [kc.register], [kc.accountManagement] *)

Definition login (options : jsval) : IO nat :=
  a ← gets adapter; a_login (adapterOps a) options.

Definition logout (options : jsval) : IO nat :=
  a ← gets adapter; a_logout (adapterOps a) options.

Definition register (options : jsval) : IO (option nat) :=
  a ← gets adapter; a_register (adapterOps a) options.

Definition accountManagement : IO (option nat) :=
  a ← gets adapter; a_accountManagement (adapterOps a).

(** *** [kc.clearToken] *)

Definition clearToken : IO unit :=
  t ← gets (λ w, kc_token (kc w));
  if truthy t then
    setToken Null Null Null None;;
    callHook onAuthLogout Undefined;;
    r ← gets (λ w, kc_loginRequired (kc w));
    if truthy r then _ ← login Undefined; mret tt else mret tt
  else mret tt.

(** ** [kc.clearToken] *)

Lemma callHook_spec h v w :
  ∃ w', callHook h v w = (Returns tt, w') ∧ kc w' = kc w ∧ rest w' = rest w.
Proof. unfold callHook. rewrite bind_gets. destruct (kc_hooks (kc w) h); by eexists. Qed.

(** *** Where a login is required *)

(** The state of the storage in which an attempt can be added. *)
Definition storageWorks (w : World) : Prop :=
  match callbackStorage w with
  | LocalStorage => ∃ ls, b_localStorage (br w) = Some ls ∧ storage_wf ls
  | CookieStorage => True
  | NoStorage => False
  end.

Lemma storage_add_works st s w :
  storageWorks w → assoc "state" st = Str s → ∃ w', storage_add st w = (Returns tt, w').
Proof.
  unfold storageWorks, storage_add. rewrite bind_gets. intros Hw Hs.
  destruct (callbackStorage w); [done| |].
  - destruct Hw as (ls & Hls & Hwf). destruct (local_add_spec w ls st s Hls Hwf Hs) as (ls' & _ & _ & _ & H).
    by eexists.
  - unfold cookie_add, setCookie, assignCookie. rewrite bind_gets.
    destruct (split "=" _) as [|? [|? ?]]; by eexists.
Qed.

(** An instance of the default adapter that can send its user to the login page. *)
Record canLogin (w : World) : Prop := {
  cl_fair : fair (br w);
  cl_adapter : adapter w = DefaultAdapter;
  cl_storage : storageWorks w;
  cl_base : ∃ base, ep_authorize (kc w) = Returns base
}.

(** What [clearToken] leaves alone, in whatever way it ends. *)
Definition aside (w : World) :=
  (config w, adapter w, callbackStorage w, refreshQueue w, loginIframe w, useNonce w,
   (microtasks w, inflight w, nextRequest w, windows w, links w, messageListener w, now w)).

Lemma rest_aside w w' : rest w' = rest w → aside w' = aside w.
Proof. destruct w, w'. unfold rest, aside, now. cbn. intros [=]. by subst. Qed.

Lemma storage_add_aside k a ps b st :
  preserves (λ w, kc w = k ∧ aside w = a ∧ promises w = ps ∧ b_hasPromise (br w) = b) (storage_add st).
Proof.
  unfold storage_add, local_add, cookie_add, clearExpired, readLocalStorage, withLocalStorage,
    setCookie, assignCookie.
  preserve ltac:(by intros).
Qed.

Lemma login_redirects w :
  native w → canLogin w →
  ∃ url w1 p w', createLoginUrl Undefined w = (Returns url, w1) ∧ login Undefined w = (Returns p, w') ∧
    kc w' = kc w ∧ native w' ∧ aside w' = aside w ∧ b_href (br w') = url ∧
    ∀ q st, state_of w q = Some st → state_of w' q = Some st.
Proof.
  intros Hn [Hf Ha Hst [base Hb]].
  destruct (createLoginUrl_run Undefined w base "openid") as (state & nonce & n & _ & _ & Hrun); [done|].
  destruct (storage_add_works (callbackState state nonce (redirectOf Undefined w) Undefined) state (drawn n w))
    as [w1 Hadd]; [done|apply callbackState_state|].
  pose proof (storage_add_aside _ _ _ _ (callbackState state nonce (redirectOf Undefined w) Undefined)
    (drawn n w) (conj eq_refl (conj eq_refl (conj eq_refl eq_refl)))) as Hfr.
  rewrite Hadd in Hfr. destruct Hfr as (Hk & Has & Hps & Hbp). cbn [snd] in *.
  specialize (Hrun w1 Hadd). set (url := _ +:+ _) in Hrun.
  set (w2 := w1 <| br -> b_href := url |> <| trace ::= cons (ONavigate url) |>).
  exists url, w1.
  assert (native w2) as Hn2.
  { destruct Hn as [Hn1 Hn2]. split; cbn; [by rewrite Hbp|by rewrite Hps]. }
  exists (length (promises w2)), (fresh w2). split; [done|]. split.
  { unfold login. rewrite bind_gets, Ha. cbn [adapterOps a_login]. unfold default_login.
    unfold mbind at 1, M_bind at 1. rewrite Hrun. unfold navigate, emit.
    rewrite bind_bind, !bind_modify. exact (createPromise_native w2 Hn2). }
  split_and!; [done|by apply fresh_native|done|done|].
  intros q st Hq. unfold state_of in *. cbn. rewrite Hps. cbn.
  destruct (promises w !! q) as [x|] eqn:E; [|done]. by erewrite lookup_app_l_Some.
Qed.

(** After [clearToken]: an access token takes every token with it, and where a login
    is required the page goes to the login URL. *)
Record cleared (w w' : World) : Prop := {
  cd_kc : kc w' = if truthy (kc_token (kc w)) then forget_tokens (kc w) else kc w;
  cd_native : native w';
  cd_aside : aside w' = aside w;
  cd_state : ∀ p st, state_of w p = Some st → state_of w' p = Some st;
  cd_login :
    if truthy (kc_token (kc w)) && truthy (kc_loginRequired (kc w)) then
      ∃ w1 url w2, kc w1 = forget_tokens (kc w) ∧ createLoginUrl Undefined w1 = (Returns url, w2) ∧
        b_href (br w') = url
    else b_href (br w') = b_href (br w)
}.

Lemma clearToken_run w :
  native w → (truthy (kc_loginRequired (kc w)) = true → canLogin w) →
  ∃ w', clearToken w = (Returns tt, w') ∧ cleared w w'.
Proof.
  intros Hn Hcan. unfold clearToken. rewrite bind_gets.
  destruct (truthy (kc_token (kc w))) eqn:Ht.
  2: { exists w. split; [done|]. constructor; rewrite ?Ht; done. }
  destruct (setToken_null w) as (w1 & H1 & Hk1 & Hr1).
  destruct (callHook_spec onAuthLogout Undefined w1) as (w2 & H2 & Hk2 & Hr2).
  rewrite Hr1 in Hr2. pose proof (rest_native _ _ Hr2 Hn) as Hn2.
  assert (kc w2 = forget_tokens (kc w)) as Hk by congruence.
  assert (∀ p, state_of w2 p = state_of w p) as Hs2 by (intros p; by apply rest_state).
  assert (br w2 = br w ∧ adapter w2 = adapter w ∧ callbackStorage w2 = callbackStorage w)
    as (Hb2 & Ha2 & Hc2) by (unfold rest in Hr2; by injection Hr2).
  unfold mbind at 1, M_bind at 1. rewrite H1. unfold mbind at 1, M_bind at 1. rewrite H2.
  rewrite bind_gets, Hk.
  change (kc_loginRequired (forget_tokens (kc w))) with (kc_loginRequired (kc w)).
  destruct (truthy (kc_loginRequired (kc w))) eqn:Hl.
  - destruct (Hcan eq_refl) as [Cf Ca Cs Cb]. destruct (login_redirects w2 Hn2)
      as (url & w3 & p & w' & Hurl & Hlog & Hk' & Hn' & Has & Hh & Hst).
    { constructor; [by rewrite Hb2|by rewrite Ha2| |by rewrite Hk].
      unfold storageWorks in *. by rewrite Hc2, Hb2. }
    exists w'. unfold mbind, M_bind. rewrite Hlog. split; [done|].
    constructor; rewrite ?Ht, ?Hl; cbn [andb]; [congruence|done| | |by eexists _, _, _].
    + rewrite Has. by apply rest_aside.
    + intros q st Hq. apply Hst. by rewrite Hs2.
  - exists w2. split; [done|]. constructor; rewrite ?Ht, ?Hl; cbn [andb]; [done|done|by apply rest_aside| |].
    + intros q st Hq. by rewrite Hs2.
    + by rewrite Hb2.
Qed.

End adapter.
End Adapter.
