(* ===== verification/Callback.v ===== *)
(** The redirect back from the server: [parseCallback], [parseCallbackUrl],
    [parseCallbackParams] and [processCallback] of keycloak.js. *)

From S2P Require Import Prelude JsString Uri Base64 JsValue Json World Promise Token Uuid Storage Urls Adapter.
Import JsString Uri Base64 JsValue Json World Promise Token Uuid Storage Urls Adapter.

Module Callback.

(** *** [parseCallbackParams] *)

Record parsed_params := mkParams {
  pp_paramsString : string;
  pp_oauthParams : list (string * jsval)
}.

(** The body of the loop over [paramsString.split('&')]. *)
Definition paramStep (supported : list string) (result : parsed_params) (p : string) : parsed_params :=
  let t := split "=" p in
  let t0 := hd "" t in
  if bool_decide (t0 ∈ supported) then
    mkParams (pp_paramsString result)
      (obj_set t0 (match t !! 1 with Some v => Str v | None => Undefined end) (pp_oauthParams result))
  else
    mkParams ((if String.eqb (pp_paramsString result) "" then "" else pp_paramsString result +:+ "&") +:+ p)
      (pp_oauthParams result).

Definition parseCallbackParams (paramsString : string) (supportedParams : list string) : parsed_params :=
  foldl (paramStep supportedParams) (mkParams "" []) (split "&" paramsString).

(** *** [parseCallbackUrl] *)

(** The parameters of a flow; another value of [kc.flow] leaves the variable
    [undefined], and the calls of [push] throw. *)
Definition supportedParams (flow : jsval) : outcome (list string) :=
  ps ← match flow with
       | Str "standard" => Returns ["code"; "state"; "session_state"]
       | Str "implicit" => Returns ["access_token"; "id_token"; "state"; "session_state"]
       | Str "hybrid" => Returns ["access_token"; "id_token"; "code"; "state"; "session_state"]
       | _ => Throws TypeError
       end;
  Returns (ps ++ ["error"; "error_description"; "error_uri"]).

(** [newUrl] and [parsed], when the response mode finds its part of the URL. *)
Definition splitCallbackUrl (responseMode : jsval) (url : string) (supported : list string)
    : option (string * parsed_params) :=
  let queryIndex := indexOf url "?" in
  let fragmentIndex := indexOf url "#" in
  if strict_eq responseMode (Str "query") && negb (queryIndex =? -1)%Z then
    let newUrl := substring url 0 queryIndex in
    let parsed := parseCallbackParams
      (substring url (queryIndex + 1)
         (if (fragmentIndex =? -1)%Z then length_s url else fragmentIndex)) supported in
    let newUrl := if String.eqb (pp_paramsString parsed) "" then newUrl
                  else newUrl +:+ "?" +:+ pp_paramsString parsed in
    let newUrl := if (fragmentIndex =? -1)%Z then newUrl
                  else newUrl +:+ substring_from url fragmentIndex in
    Some (newUrl, parsed)
  else if strict_eq responseMode (Str "fragment") && negb (fragmentIndex =? -1)%Z then
    let newUrl := substring url 0 fragmentIndex in
    let parsed := parseCallbackParams (substring_from url (fragmentIndex + 1)) supported in
    let newUrl := if String.eqb (pp_paramsString parsed) "" then newUrl
                  else newUrl +:+ "#" +:+ pp_paramsString parsed in
    Some (newUrl, parsed)
  else None.

(** Whether the parameters make a response of the flow. *)
Definition isResponse (flow : jsval) (o : list (string * jsval)) : bool :=
  let has k := truthy (assoc k o) in
  if strict_eq flow (Str "standard") || strict_eq flow (Str "hybrid") then
    (has "code" || has "error") && has "state"
  else if strict_eq flow (Str "implicit") then
    (has "access_token" || has "error") && has "state"
  else false.

Definition parseCallbackUrl (k : Kc) (url : string) : outcome jsval :=
  supported ← supportedParams (kc_flow k);
  Returns (match splitCallbackUrl (kc_responseMode k) url supported with
           | Some (newUrl, parsed) =>
               if isResponse (kc_flow k) (pp_oauthParams parsed)
               then Obj (obj_set "newUrl" (Str newUrl) (pp_oauthParams parsed))
               else Undefined
           | None => Undefined
           end).

(** *** [parseCallback] *)

(** [oauth.valid = true; oauth.redirectUri = ...; ...] *)
Definition mergeState (oauth : list (string * jsval)) (oauthState : jsval) : outcome jsval :=
  redirectUri ← getp oauthState "redirectUri";
  nonce ← getp oauthState "nonce";
  prompt ← getp oauthState "prompt";
  Returns (Obj (obj_set "prompt" prompt (obj_set "storedNonce" nonce
    (obj_set "redirectUri" redirectUri (obj_set "valid" (Bool true) oauth))))).

Definition parseCallback (url : string) : IO jsval :=
  k ← gets kc;
  oauth ← lift (parseCallbackUrl k url);
  match oauth with
  | Obj o =>
      oauthState ← storage_get (assoc "state" o);
      if truthy oauthState then lift (mergeState o oauthState) else mret (Obj o)
  | _ => mret Undefined
  end.

Section callback.
Context {env : Env}.

(** *** [authSuccess], the inner function of [processCallback] *)

(** [parsed && parsed.nonce != oauth.storedNonce] *)
Definition nonceMismatch (parsed stored : jsval) : bool :=
  truthy parsed && negb (loose_eq (claim parsed "nonce") stored).

Definition invalidNonce (k : Kc) (stored : jsval) : bool :=
  nonceMismatch (kc_tokenParsed k) stored
  || nonceMismatch (kc_refreshTokenParsed k) stored
  || nonceMismatch (kc_idTokenParsed k) stored.

(** Returns the new value of the variable [timeLocal] it shares with
    [processCallback]. *)
Definition authSuccess (oauth : jsval) (promise : nat) (timeLocal : Q)
    (accessToken refreshToken idToken : jsval) (fulfillPromise : bool) : IO Q :=
  t ← gets now;
  let timeLocal := ((timeLocal + inject_Z t) / 2)%Q in
  setToken accessToken refreshToken idToken (Some timeLocal);;
  w ← gets id;
  (if truthy (useNonce w) && invalidNonce (kc w) (claim oauth "storedNonce") then
     clearToken;;
     setError promise Undefined
   else
     when fulfillPromise
       (callHook onAuthSuccess Undefined;; setSuccess promise Undefined));;
  mret timeLocal.

(** *** [processCallback] *)

(** The headers and the client part of the body of a token request. *)
Definition clientAuth (k : Kc) : outcome (list (string * string) * string) :=
  if truthy (kc_clientId k) && truthy (kc_clientSecret k) then
    b ← btoa (to_string (kc_clientId k) +:+ ":" +:+ to_string (kc_clientSecret k));
    Returns ([("Authorization", "Basic " +:+ b)], "")
  else Returns ([], "&client_id=" +:+ encode (kc_clientId k)).

Definition contentType : string * string :=
  ("Content-type", "application/x-www-form-urlencoded").

Definition codeRequest (oauth : jsval) (promise : nat) (timeLocal : Q) (k : Kc) : outcome request :=
  url ← ep_token k;
  '(hs, client) ← clientAuth k;
  Returns (mkRequest "POST" (to_string url) (contentType :: hs) true
    (Some ("code=" +:+ to_string (claim oauth "code") +:+ "&grant_type=authorization_code"
           +:+ client +:+ "&redirect_uri=" +:+ to_string (claim oauth "redirectUri")))
    (XCode oauth promise timeLocal)).

Definition errorData (oauth : jsval) : jsval :=
  Obj [("error", claim oauth "error"); ("error_description", claim oauth "error_description")].

Definition processCallback (oauth : jsval) (promise : nat) : IO unit :=
  code ← lift (getp oauth "code");
  error ← lift (getp oauth "error");
  prompt ← lift (getp oauth "prompt");
  timeLocal ← gets (λ w, inject_Z (now w));
  if truthy error then
    if loose_eq prompt (Str "none") then setSuccess promise Undefined
    else callHook onAuthError (errorData oauth);; setError promise (errorData oauth)
  else
    k ← gets kc;
    timeLocal ←
      (if negb (loose_eq (kc_flow k) (Str "standard"))
          && (truthy (claim oauth "access_token") || truthy (claim oauth "id_token"))
       then authSuccess oauth promise timeLocal
              (claim oauth "access_token") Null (claim oauth "id_token") true
       else mret timeLocal);
    k ← gets kc;
    if negb (loose_eq (kc_flow k) (Str "implicit")) && truthy code then
      r ← lift (codeRequest oauth promise timeLocal k);
      send r
    else mret tt.

(** The [onreadystatechange] handler of the code exchange. *)
Definition onCodeResponse (oauth : jsval) (promise : nat) (timeLocal : Q)
    (status : Z) (responseText : string) : IO unit :=
  if (status =? 200)%Z then
    tokenResponse ← lift (JSON_parse responseText);
    access_token ← lift (getp tokenResponse "access_token");
    refresh_token ← lift (getp tokenResponse "refresh_token");
    id_token ← lift (getp tokenResponse "id_token");
    k ← gets kc;
    _ ← authSuccess oauth promise timeLocal access_token refresh_token id_token
          (strict_eq (kc_flow k) (Str "standard"));
    mret tt
  else
    callHook onAuthError Undefined;;
    setError promise Undefined.

(** ** [parseCallbackParams] against its specification *)

Definition nameOf (p : string) : string := hd "" (split "=" p).
Definition valueOf (p : string) : jsval :=
  match split "=" p !! 1 with Some v => Str v | None => Undefined end.

Fixpoint dropEmpty (l : list string) : list string :=
  match l with "" :: l' => dropEmpty l' | _ => l end.

(** The value of the last parameter with a name. *)
Definition lastValue (k : string) (ps : list string) : jsval :=
  match last (filter (λ p, nameOf p = k) ps) with Some p => valueOf p | None => Undefined end.

Definition joinAcc (acc p : string) : string :=
  (if String.eqb acc "" then "" else acc +:+ "&") +:+ p.

Lemma paramStep_spec sup acc o p :
  paramStep sup (mkParams acc o) p =
  if decide (nameOf p ∈ sup) then mkParams acc (obj_set (nameOf p) (valueOf p) o)
  else mkParams (joinAcc acc p) o.
Proof.
  unfold paramStep. cbv zeta. fold (nameOf p). case_bool_decide as H;
    [by rewrite decide_True | by rewrite decide_False].
Qed.

Lemma foldl_paramStep sup ps acc o :
  let r := foldl (paramStep sup) (mkParams acc o) ps in
  pp_paramsString r = foldl joinAcc acc (filter (λ p, nameOf p ∉ sup) ps) ∧
  pp_oauthParams r = foldl (λ o p, obj_set (nameOf p) (valueOf p) o) o
                       (filter (λ p, nameOf p ∈ sup) ps).
Proof.
  revert acc o. induction ps as [|p ps IH]; intros acc o; [done|].
  cbn [foldl]. rewrite paramStep_spec, !filter_cons.
  destruct (decide (nameOf p ∈ sup)) as [Hin|Hin].
  - rewrite decide_False by naive_solver. apply IH.
  - rewrite decide_True by naive_solver. apply IH.
Qed.

Lemma foldl_joinAcc acc l :
  acc ≠ "" → foldl joinAcc acc l = join "&" (acc :: l).
Proof.
  revert acc. induction l as [|p l IH]; intros acc Ha; [done|]. cbn [foldl].
  unfold joinAcc at 2. rewrite (proj2 (String.eqb_neq _ _) Ha), IH.
  - rewrite (join_cons _ acc) by done. destruct l as [|q l].
    + cbn [join]. by rewrite app_assoc_s.
    + rewrite !(join_cons _ _ (q :: l)) by done. by rewrite !app_assoc_s.
  - intros E. apply (f_equal String.length) in E. rewrite !length_app_s in E. simpl in E. lia.
Qed.

Lemma foldl_joinAcc_nil l : foldl joinAcc "" l = join "&" (dropEmpty l).
Proof.
  induction l as [|p l IH]; [done|]. destruct p as [|a p]; [exact IH|].
  cbn [foldl dropEmpty]. by rewrite foldl_joinAcc.
Qed.

Lemma foldl_obj_set k ps o :
  assoc k (foldl (λ o p, obj_set (nameOf p) (valueOf p) o) o ps) =
  match last (filter (λ p, nameOf p = k) ps) with Some p => valueOf p | None => assoc k o end.
Proof.
  induction ps as [|p ps IH] using rev_ind; [done|].
  rewrite foldl_app, filter_app, filter_cons, filter_nil. cbn [foldl].
  case_decide as Hp.
  - subst. by rewrite assoc_obj_set, last_snoc.
  - by rewrite assoc_obj_set_ne, List.app_nil_r.
Qed.

Lemma parseCallbackParams_parts s sup :
  pp_paramsString (parseCallbackParams s sup) =
    join "&" (dropEmpty (filter (λ p, nameOf p ∉ sup) (split "&" s))) ∧
  ∀ k, assoc k (pp_oauthParams (parseCallbackParams s sup)) =
    if decide (k ∈ sup) then lastValue k (split "&" s) else Undefined.
Proof.
  unfold parseCallbackParams, lastValue.
  destruct (foldl_paramStep sup (split "&" s) "" []) as [-> ->]. split; [apply foldl_joinAcc_nil|].
  intros k. rewrite foldl_obj_set. rewrite list_filter_filter.
  case_decide as Hk.
  - erewrite list_filter_iff; [done|]. naive_solver.
  - assert (filter (λ p, nameOf p = k ∧ nameOf p ∈ sup) (split "&" s) = []) as ->; [|done].
    induction (split "&" s) as [|p ps IH]; [done|]. rewrite filter_cons.
    by rewrite decide_False by naive_solver.
Qed.

(** C20: [parseCallbackParams] splits the parameters of a redirect: the ones the
    flow knows become the properties of the result, the last one of a name winning,
    and the text it returns is the other parameters, in their order and unchanged. *)
Theorem parseCallbackParams_spec s sup :
  pp_paramsString (parseCallbackParams s sup) =
    join "&" (dropEmpty (filter (λ p, nameOf p ∉ sup) (split "&" s))) ∧
  ∀ k, assoc k (pp_oauthParams (parseCallbackParams s sup)) =
    if decide (k ∈ sup) then lastValue k (split "&" s) else Undefined.
Proof. apply parseCallbackParams_parts. Qed.

(** ** The redirect *)

(** A redirect of the server: the page, and the parameters of the answer in its
    query or in its fragment. *)
Definition pairOf (p : string * string) : string := p.1 +:+ "=" +:+ p.2.

Definition redirectUrl (mode page : string) (params : list (string * string)) : string :=
  page +:+ (if String.eqb mode "query" then "?" else "#") +:+ join "&" (pairOf <$> params).

(** The value of a parameter; the last one counts. *)
Definition given (k : string) (params : list (string * string)) : jsval :=
  match last (filter (λ p, p.1 = k) params) with Some p => Str p.2 | None => Undefined end.

(** The parameters with which a server answers in a flow of OpenID Connect; what else
    is in the URL belongs to the page. *)
Definition responseParam (flow k : string) : bool :=
  bool_decide (k ∈ ["state"; "session_state"; "error"; "error_description"; "error_uri"])
  || (bool_decide (k = "code") && negb (String.eqb flow "implicit"))
  || (bool_decide (k ∈ ["access_token"; "id_token"]) && negb (String.eqb flow "standard")).

(** The URL of the page without the answer. *)
Definition restored (flow mode page : string) (params : list (string * string)) : string :=
  match filter (λ p, responseParam flow p.1 = false) params with
  | [] => page
  | own => redirectUrl mode page own
  end.

Definition plain (s : string) : Prop := occurs "&" s = false ∧ occurs "=" s = false.

(** What a flow asks the server for. *)
Definition answerKey (flow : string) : string :=
  if String.eqb flow "implicit" then "access_token" else "code".

(** An answer to a login of a flow: it names the state, and has what the flow asks
    for or an error; names and values are percent-encoded where they have to be. *)
Record redirected (flow mode page state : string) (params : list (string * string)) : Prop := {
  rd_flow : flow ∈ ["standard"; "implicit"; "hybrid"];
  rd_mode : mode ∈ ["fragment"; "query"];
  rd_page : occurs (if String.eqb mode "query" then "?" else "#")%char page = false;
  rd_hash : mode = "query" → occurs "#" page = false ∧ occurs "#" (join "&" (pairOf <$> params)) = false;
  rd_plain : Forall (λ p, plain p.1 ∧ plain p.2) params;
  rd_state : given "state" params = Str state;
  rd_nonempty : state ≠ "";
  rd_answer : ∃ k v, k ∈ ["error"; answerKey flow] ∧ given k params = Str v ∧ v ≠ ""
}.

Lemma parse_pair p :
  plain p.1 → plain p.2 → nameOf (pairOf p) = p.1 ∧ valueOf (pairOf p) = Str p.2.
Proof.
  intros [_ Hn] [_ Hv]. unfold nameOf, valueOf, pairOf.
  rewrite app_cons, app_nil_l, split_app, (split_no_sep "=" p.2) by done. done.
Qed.

Lemma filter_names (P : string → Prop) `{∀ x, Decision (P x)} params :
  Forall (λ p, plain p.1 ∧ plain p.2) params →
  filter (λ s, P (nameOf s)) (pairOf <$> params) = pairOf <$> filter (λ p, P p.1) params.
Proof.
  intros HF. induction HF as [|p ps [H1 H2] HF IH]; [done|].
  rewrite fmap_cons, !filter_cons, IH. destruct (parse_pair p H1 H2) as [-> _].
  by case_decide.
Qed.

Lemma lastValue_given k params :
  Forall (λ p, plain p.1 ∧ plain p.2) params → lastValue k (pairOf <$> params) = given k params.
Proof.
  intros HF. unfold lastValue, given.
  assert (filter (λ s, nameOf s = k) (pairOf <$> params) = pairOf <$> filter (λ p, p.1 = k) params) as ->
    by exact (filter_names (λ n, n = k) params HF).
  rewrite fmap_last. destruct (last (filter _ params)) as [p|] eqn:E; [|done]. cbn.
  apply last_Some_elem_of, list_elem_of_filter in E as [_ Hin].
  rewrite Forall_forall in HF. destruct (HF p Hin) as [H1 H2]. apply (parse_pair p H1 H2).
Qed.

Lemma supportedParams_spec flow :
  flow ∈ ["standard"; "implicit"; "hybrid"] →
  ∃ sup, supportedParams (Str flow) = Returns sup ∧ ∀ k, k ∈ sup ↔ responseParam flow k = true.
Proof.
  intros Hf. rewrite !elem_of_cons, elem_of_nil in Hf.
  destruct Hf as [->|[->|[->|[]]]]; (eexists; split; [done|]); intros k;
    unfold responseParam; rewrite !orb_true_iff, !andb_true_iff, !bool_decide_eq_true; cbn;
    rewrite !elem_of_cons, !elem_of_nil; naive_solver.
Qed.

(** What [parseCallbackParams] makes of the parameters of a redirect. *)
Lemma parseCallbackParams_redirect flow sup params :
  params ≠ [] → Forall (λ p, plain p.1 ∧ plain p.2) params →
  (∀ k, k ∈ sup ↔ responseParam flow k = true) →
  let r := parseCallbackParams (join "&" (pairOf <$> params)) sup in
  pp_paramsString r = join "&" (pairOf <$> filter (λ p, responseParam flow p.1 = false) params) ∧
  ∀ k, assoc k (pp_oauthParams r) = if responseParam flow k then given k params else Undefined.
Proof.
  intros Hne HF Hsup r. destruct (parseCallbackParams_parts (join "&" (pairOf <$> params)) sup) as [H1 H2].
  fold r in H1, H2. rewrite split_join in H1, H2.
  2,4: by destruct params.
  2,3: apply Forall_fmap; eapply Forall_impl; [exact HF|]; intros p [[Hn _] [Hv _]];
       unfold compose, pairOf; by rewrite !occurs_app, Hn, Hv.
  split.
  - rewrite H1.
    assert (filter (λ s, nameOf s ∉ sup) (pairOf <$> params) = pairOf <$> filter (λ p, p.1 ∉ sup) params) as ->
      by exact (filter_names (λ n, n ∉ sup) params HF).
    f_equal.
    rewrite (list_filter_iff _ (λ p, responseParam flow p.1 = false));
      [|intros p; by rewrite Hsup, not_true_iff_false].
    generalize (filter (λ p, responseParam flow p.1 = false) params). intros l.
    destruct l as [|[[|a n] v] l]; done.
  - intros k. rewrite H2, lastValue_given by done. specialize (Hsup k).
    destruct (responseParam flow k); case_decide; naive_solver.
Qed.

Lemma splitCallbackUrl_redirect flow mode page state params sup :
  redirected flow mode page state params →
  (∀ k, k ∈ sup ↔ responseParam flow k = true) →
  ∃ o, splitCallbackUrl (Str mode) (redirectUrl mode page params) sup =
      Some (restored flow mode page params, o) ∧
    ∀ k, assoc k (pp_oauthParams o) = if responseParam flow k then given k params else Undefined.
Proof.
  intros [_ Hmode Hpage Hhash HF Hs _ _] Hsup.
  assert (params ≠ []) as Hne by (by destruct params).
  destruct (parseCallbackParams_redirect flow sup params Hne HF Hsup) as [H1 H2]. cbv zeta in H1, H2.
  unfold splitCallbackUrl, redirectUrl, restored.
  set (tail := join "&" (pairOf <$> params)) in *.
  set (own := filter _ params) in *.
  assert (∀ c : ascii, occurs c page = false →
    substring_from (page +:+ String c tail) (length_s page + 1) = tail) as Hsub.
  { intros c _. change (String c tail) with (String c "" +:+ tail). rewrite <- app_assoc_s.
    change (length_s page + 1)%Z with (length_s page + length_s (String c ""))%Z.
    rewrite <- length_s_app. apply substring_from_app. }
  assert ((length_s page =? -1) = false)%Z as Hlen
    by (apply Z.eqb_neq; pose proof (length_s_nonneg page); lia).
  assert (String.eqb (join "&" (pairOf <$> own)) "" = match own with [] => true | _ => false end) as Hown.
  { destruct own as [|[[|? ?] ?] [|? ?]]; done. }
  rewrite !elem_of_cons, elem_of_nil in Hmode. destruct Hmode as [->|[->|[]]].
  - change (String.eqb "fragment" "query") with false in *.
    change (strict_eq (Str "fragment") (Str "query")) with false.
    change (strict_eq (Str "fragment") (Str "fragment")) with true. cbn iota in *.
    change (page +:+ "#" +:+ tail) with (page +:+ String "#" tail).
    rewrite indexOf_first by done. rewrite Hlen. cbn [andb negb].
    rewrite substring_prefix, Hsub by done. eexists. split; [|exact H2]. rewrite H1, Hown.
    by destruct own.
  - change (String.eqb "query" "query") with true in *.
    change (strict_eq (Str "query") (Str "query")) with true. cbn iota in *.
    destruct (Hhash eq_refl) as [Hp2 Ht2].
    change (page +:+ "?" +:+ tail) with (page +:+ String "?" tail).
    rewrite indexOf_first by done. rewrite Hlen. cbn [andb negb].
    rewrite (indexOf_absent "#") by (rewrite occurs_app; cbn; by rewrite Hp2, Ht2).
    change (-1 =? -1)%Z with true. cbn iota.
    change (substring ?s ?i (length_s ?s)) with (substring_from s i).
    rewrite substring_prefix, Hsub by done. eexists. split; [|exact H2]. rewrite H1, Hown.
    by destruct own.
Qed.

Lemma isResponse_flow flow o :
  flow ∈ ["standard"; "implicit"; "hybrid"] →
  isResponse (Str flow) o =
    (truthy (assoc (answerKey flow) o) || truthy (assoc "error" o)) && truthy (assoc "state" o).
Proof. rewrite !elem_of_cons, elem_of_nil. by intros [->|[->|[->|[]]]]. Qed.

Lemma responseParam_answer flow :
  flow ∈ ["standard"; "implicit"; "hybrid"] →
  responseParam flow (answerKey flow) = true ∧ responseParam flow "error" = true ∧
  responseParam flow "state" = true.
Proof. rewrite !elem_of_cons, elem_of_nil. by intros [->|[->|[->|[]]]]. Qed.

(** The parameters of a redirect, as [parseCallbackUrl] returns them. *)
Definition parsedAs (flow mode page : string) (params : list (string * string))
    (o : list (string * jsval)) : Prop :=
  assoc "newUrl" o = Str (restored flow mode page params) ∧
  ∀ k, k ≠ "newUrl" → assoc k o = if responseParam flow k then given k params else Undefined.

Lemma parseCallbackUrl_redirect k flow mode page state params :
  kc_flow k = Str flow → kc_responseMode k = Str mode → redirected flow mode page state params →
  ∃ o, parseCallbackUrl k (redirectUrl mode page params) = Returns (Obj o) ∧
    parsedAs flow mode page params o ∧ assoc "state" o = Str state.
Proof.
  intros Hf Hm Hr. destruct (supportedParams_spec flow (rd_flow _ _ _ _ _ Hr)) as (sup & Hsup & Hin).
  destruct (splitCallbackUrl_redirect flow mode page state params sup Hr Hin) as (r & Hsplit & Hget).
  unfold parseCallbackUrl. rewrite Hf, Hm, Hsup. cbn [mbind outcome_bind]. rewrite Hsplit.
  rewrite (isResponse_flow flow) by apply Hr. rewrite !Hget.
  destruct (responseParam_answer flow (rd_flow _ _ _ _ _ Hr)) as (E1 & E2 & E3). rewrite E1, E2, E3.
  assert ((truthy (given (answerKey flow) params) || truthy (given "error" params))
          && truthy (given "state" params) = true) as ->.
  { destruct Hr as [_ _ _ _ _ Hs Hsn (n & v & Hn & Hv & Hvn)]. apply truthy_str in Hvn, Hsn.
    rewrite Hs, Hsn, andb_true_r, orb_true_iff. rewrite !elem_of_cons, elem_of_nil in Hn.
    destruct Hn as [->|[->|[]]]; rewrite Hv; auto. }
  eexists. split; [done|]. split; [split|].
  - apply assoc_obj_set.
  - intros n Hn. rewrite assoc_obj_set_ne by done. apply Hget.
  - rewrite assoc_obj_set_ne, Hget, E3 by done. apply Hr.
Qed.

Lemma uuid_plain u : uuid_v4 u = true → plain u.
Proof. intros Hu. split; by apply uuid_no_delim. Qed.

(** What [parseCallback] adds from the record of the attempt. *)
Definition merged (o st : list (string * jsval)) : list (string * jsval) :=
  obj_set "prompt" (assoc "prompt" st) (obj_set "storedNonce" (assoc "nonce" st)
    (obj_set "redirectUri" (assoc "redirectUri" st) (obj_set "valid" (Bool true) o))).

Lemma merged_get o st k :
  k ∉ ["prompt"; "storedNonce"; "redirectUri"; "valid"] → assoc k (merged o st) = assoc k o.
Proof. rewrite !not_elem_of_cons. intros (? & ? & ? & ? & _). unfold merged. by rewrite !assoc_obj_set_ne. Qed.

Lemma merged_new o st :
  assoc "valid" (merged o st) = Bool true ∧ assoc "redirectUri" (merged o st) = assoc "redirectUri" st ∧
  assoc "storedNonce" (merged o st) = assoc "nonce" st ∧ assoc "prompt" (merged o st) = assoc "prompt" st.
Proof. unfold merged. split_and!; rewrite ?assoc_obj_set_ne by done; apply assoc_obj_set. Qed.

Lemma parseCallback_found w url o state st w' :
  parseCallbackUrl (kc w) url = Returns (Obj o) → assoc "state" o = Str state →
  storage_get (Str state) w = (Returns (Obj st), w') →
  parseCallback url w = (Returns (Obj (merged o st)), w').
Proof.
  intros Hu Hs Hg. unfold parseCallback. rewrite bind_gets, Hu, bind_lift, Hs.
  unfold mbind, M_bind. by rewrite Hg.
Qed.

Lemma parseCallback_unknown w url o state v w' :
  parseCallbackUrl (kc w) url = Returns (Obj o) → assoc "state" o = Str state →
  storage_get (Str state) w = (Returns v, w') → truthy v = false →
  parseCallback url w = (Returns (Obj o), w').
Proof.
  intros Hu Hs Hg Hv. unfold parseCallback. rewrite bind_gets, Hu, bind_lift, Hs.
  unfold mbind, M_bind. by rewrite Hg, Hv.
Qed.

(** ** [processCallback] *)

(** C19: A redirect that reports an error requests no token: for a silent check
    ([prompt=none]) it means that nobody is logged in, and the promise is fulfilled;
    otherwise the application's [onAuthError] gets the error and the promise is
    rejected with it. *)
Theorem processCallback_error o p w :
  native w → truthy (assoc "error" o) = true →
  let failed := negb (loose_eq (assoc "prompt" o) (Str "none")) in
  ∃ w', processCallback (Obj o) p w = (Returns tt, w') ∧ kc w' = kc w ∧ inflight w' = inflight w ∧
    (state_of w p = Some Pending →
     state_of w' p = Some (if failed then Rejected (errorData (Obj o)) else Fulfilled Undefined)) ∧
    trace w' = if failed && kc_hooks (kc w) onAuthError
               then OHook onAuthError (errorData (Obj o)) :: trace w else trace w.
Proof.
  intros Hn He failed. unfold processCallback. cbn [getp]. rewrite !bind_lift, bind_gets, He.
  unfold failed. destruct (loose_eq _ _); cbn [negb andb].
  - rewrite setSuccess_native by done. eexists. split; [done|].
    pose proof (settle_others true p Undefined w) as Ho.
    rewrite (others_kc _ _ Ho), (others_inflight _ _ Ho). split_and!; [done|done| |].
    + intros Hp. by rewrite settle_state, decide_True.
    + unfold others in Ho. by injection Ho.
  - set (e := errorData (Obj o)).
    assert (∃ w1, callHook onAuthError e w = (Returns tt, w1) ∧ kc w1 = kc w ∧ rest w1 = rest w ∧
      trace w1 = if kc_hooks (kc w) onAuthError then OHook onAuthError e :: trace w else trace w)
      as (w1 & H1 & Hk & Hr & Ht).
    { unfold callHook. rewrite bind_gets. destruct (kc_hooks (kc w) onAuthError); by eexists. }
    unfold mbind, M_bind. rewrite H1. pose proof (rest_native _ _ Hr Hn) as Hn1.
    rewrite setError_native by done. eexists. split; [done|].
    pose proof (settle_others false p e w1) as Ho.
    rewrite (others_kc _ _ Ho), (others_inflight _ _ Ho). split_and!; [done| | |].
    + unfold rest in Hr. by injection Hr.
    + intros Hp. rewrite settle_state, decide_True; [done|]. by rewrite (rest_state _ _ _ Hr).
    + unfold others in Ho. injection Ho as _ _ _ _ _ _ _ _ _ _ _ _ _ _ -> _. done.
Qed.

Lemma processCallback_code_spec o p w url code :
  kc_flow (kc w) = Str "standard" → kc_endpoints (kc w) = KeycloakEndpoints →
  kc_authServerUrl (kc w) = Str url → truthy (kc_clientSecret (kc w)) = false →
  truthy (assoc "error" o) = false → assoc "code" o = Str code → code ≠ "" →
  ∃ r, processCallback (Obj o) p w = (Returns tt, (send r w).2) ∧
    req_method r = "POST" ∧ req_withCredentials r = true ∧
    req_url r = url +:+ (if String.eqb (charAt url (length_s url - 1)) "/" then "" else "/")
                +:+ "realms/" +:+ encode (kc_realm (kc w)) +:+ "/protocol/openid-connect/token" ∧
    req_body r = Some ("code=" +:+ code +:+ "&grant_type=authorization_code"
      +:+ "&client_id=" +:+ encode (kc_clientId (kc w)) +:+ "&redirect_uri=" +:+ to_string (assoc "redirectUri" o)) ∧
    req_cont r = XCode (Obj o) p (inject_Z (now w)).
Proof.
  intros Hf He Hu Hsec Herr Hc Hcn.
  assert (∃ r, codeRequest (Obj o) p (inject_Z (now w)) (kc w) = Returns r ∧
    req_method r = "POST" ∧ req_withCredentials r = true ∧
    req_url r = url +:+ (if String.eqb (charAt url (length_s url - 1)) "/" then "" else "/")
                +:+ "realms/" +:+ encode (kc_realm (kc w)) +:+ "/protocol/openid-connect/token" ∧
    req_body r = Some ("code=" +:+ code +:+ "&grant_type=authorization_code"
      +:+ "&client_id=" +:+ encode (kc_clientId (kc w)) +:+ "&redirect_uri=" +:+ to_string (assoc "redirectUri" o)) ∧
    req_cont r = XCode (Obj o) p (inject_Z (now w))) as (r & Hr & Hrest).
  { unfold codeRequest, ep_token, realmPath, getRealmUrl, clientAuth. rewrite He, Hu, Hsec.
    rewrite andb_false_r. cbn [mbind outcome_bind]. unfold claim. cbn [getp]. rewrite Hc.
    eexists. split; [done|]. split_and!; try done. cbn [req_url to_string].
    destruct (String.eqb _ "/"); cbn [to_string]; by rewrite !app_assoc_s. }
  exists r. split; [|done].
  unfold processCallback. cbn [getp]. rewrite !bind_lift, bind_gets, Herr, bind_gets, Hf.
  change (loose_eq (Str "standard") (Str "standard")) with true. cbn [negb andb].
  rewrite bind_ret, bind_gets, Hf, Hc.
  change (loose_eq (Str "standard") (Str "implicit")) with false. cbn [negb andb].
  rewrite (proj2 (truthy_str _) Hcn), Hr, bind_lift. by unfold send.
Qed.

(** C18: The standard flow exchanges the code: one POST to the token endpoint of
    the realm, with credentials, that carries the code, the client and the redirect
    URI of the login.  The promise stays pending until the answer comes. *)
Theorem processCallback_code o p w url code redirectUri :
  kc_flow (kc w) = Str "standard" → kc_endpoints (kc w) = KeycloakEndpoints →
  kc_authServerUrl (kc w) = Str url → truthy (kc_clientSecret (kc w)) = false →
  truthy (assoc "error" o) = false → assoc "code" o = Str code → code ≠ "" →
  assoc "redirectUri" o = Str redirectUri →
  ∃ r, processCallback (Obj o) p w = (Returns tt, (send r w).2) ∧
    req_method r = "POST" ∧ req_withCredentials r = true ∧
    req_url r = url +:+ (if String.eqb (charAt url (length_s url - 1)) "/" then "" else "/")
                +:+ "realms/" +:+ encode (kc_realm (kc w)) +:+ "/protocol/openid-connect/token" ∧
    req_body r = Some ("code=" +:+ code +:+ "&grant_type=authorization_code"
      +:+ "&client_id=" +:+ encode (kc_clientId (kc w)) +:+ "&redirect_uri=" +:+ redirectUri) ∧
    req_cont r = XCode (Obj o) p (inject_Z (now w)).
Proof.
  intros Hf He Hu Hsec Herr Hc Hcn Hru.
  destruct (processCallback_code_spec o p w url code Hf He Hu Hsec Herr Hc Hcn) as (r & Hr).
  exists r. by rewrite Hru in Hr.
Qed.

(** ** The nonce *)

(** [authSuccess] after the tokens are set. *)
Definition midpoint (t0 : Q) (w : World) : Q := ((t0 + inject_Z (now w)) / 2)%Q.

Lemma authSuccess_unfold oauth p t0 a r i f w w1 :
  setToken a r i (Some (midpoint t0 w)) w = (Returns tt, w1) →
  authSuccess oauth p t0 a r i f w =
    ((if truthy (useNonce w) && invalidNonce (kc w1) (claim oauth "storedNonce") then
        clearToken ≫= λ _, setError p Undefined
      else when f (callHook onAuthSuccess Undefined ≫= λ _, setSuccess p Undefined)) ≫= λ _,
     mret (midpoint t0 w)) w1.
Proof.
  intros H. pose proof (setToken_rest_eq _ _ _ _ _ _ _ H) as Hr.
  assert (useNonce w1 = useNonce w) as Hu by (unfold rest in Hr; by injection Hr).
  unfold authSuccess. rewrite bind_gets. fold (midpoint t0 w).
  unfold mbind at 1, M_bind at 1. rewrite H, bind_gets. cbn [id]. by rewrite Hu.
Qed.

(** A nonce that does not match ends in [clearToken] and a rejected promise. *)
Lemma authSuccess_invalid oauth p t0 a r i f w w1 :
  native w → (truthy (kc_loginRequired (kc w1)) = true → canLogin w1) →
  setToken a r i (Some (midpoint t0 w)) w = (Returns tt, w1) →
  truthy (useNonce w) = true → invalidNonce (kc w1) (claim oauth "storedNonce") = true →
  ∃ w', authSuccess oauth p t0 a r i f w = (Returns (midpoint t0 w), w') ∧ native w' ∧
    kc w' = (if truthy (kc_token (kc w1)) then forget_tokens (kc w1) else kc w1) ∧
    inflight w' = inflight w ∧ nextRequest w' = nextRequest w ∧ now w' = now w ∧
    (state_of w p = Some Pending → state_of w' p = Some (Rejected Undefined)).
Proof.
  intros Hn Hl H Hu Hinv. rewrite (authSuccess_unfold _ _ _ _ _ _ _ _ _ H), Hu, Hinv. cbn [andb].
  pose proof (setToken_rest_eq _ _ _ _ _ _ _ H) as Hr. pose proof (rest_native _ _ Hr Hn) as Hn1.
  destruct (clearToken_run w1 Hn1 Hl) as (w2 & H2 & [Hk Hn2 Ha Hst _]).
  rewrite (rest_aside _ _ Hr) in Ha. unfold aside in Ha. injection Ha as _ _ _ _ _ _ _ Hi Hnr _ _ _ Hnow.
  rewrite bind_bind. unfold mbind, M_bind. rewrite H2, setError_native by done.
  eexists. split; [done|]. pose proof (settle_others false p Undefined w2) as Ho.
  rewrite (others_kc _ _ Ho), (others_inflight _ _ Ho).
  split_and!; [by apply settle_native|done|done| | |].
  - unfold others in Ho. by injection Ho as _ _ _ _ _ _ _ _ -> _ _ _ _ _ _ _.
  - unfold now in *. unfold others in Ho. by injection Ho as _ _ _ _ _ _ _ _ _ _ _ _ _ _ _ ->.
  - intros Hp. rewrite settle_state, decide_True; [done|]. split; [done|]. apply Hst.
    by rewrite (rest_state _ _ _ Hr).
Qed.

(** A token whose payload has no nonce, or another one than the login. *)
Definition otherNonce (n : string) (tok : jsval) : Prop :=
  truthy tok = true ∧ ∃ c, decodeToken tok = Returns (Obj c) ∧
    (assoc "nonce" c = Undefined ∨ ∃ m, assoc "nonce" c = Str m ∧ m ≠ n).

Lemma otherNonce_mismatch n tok parsed :
  otherNonce n tok → parsed_of (kept tok) parsed → nonceMismatch parsed (Str n) = true.
Proof.
  intros (Ht & c & Hd & Hn). unfold parsed_of, kept. rewrite !Ht, Hd. intros [= <-].
  unfold nonceMismatch, claim. cbn [getp truthy andb].
  destruct Hn as [->|(m & -> & Hm)]; [done|]. cbn. by rewrite (proj2 (String.eqb_neq _ _) Hm).
Qed.

Lemma otherNonce_invalid n a r i tl w w1 :
  setToken a r i tl w = (Returns tt, w1) → (∃ tok, tok ∈ [a; r; i] ∧ otherNonce n tok) →
  invalidNonce (kc w1) (Str n) = true.
Proof.
  intros H (tok & Hin & Ho). destruct (setToken_fields _ _ _ _ _ _ H) as (Ft & Fr & Fi & _).
  destruct (setToken_coherent _ _ _ _ _ _ H) as (C1 & C2 & C3 & _). rewrite Ft in C1.
  rewrite Fr in C2. rewrite Fi in C3. unfold invalidNonce. rewrite !elem_of_cons, elem_of_nil in Hin.
  rewrite !orb_true_iff. destruct Hin as [->|[->|[->|[]]]];
    [left; left|left; right|right]; by eapply otherNonce_mismatch.
Qed.

(** What the tokens do not touch. *)
Definition settings (k : Kc) :=
  (kc_hooks k, kc_endpoints k, kc_loginRequired k, kc_flow k, kc_clientId k, kc_authServerUrl k, kc_realm k).

Lemma setToken_settings k t r i tl : preserves (λ w, settings (kc w) = k) (setToken t r i tl).
Proof.
  unfold setToken, clearTokenTimeout, setRefreshToken, setIdToken, setAccessToken,
    setTimeSkew, scheduleExpiry, clearTimeout, setTimeout, emit.
  preserve ltac:(by intros).
Qed.

Lemma canLogin_settings w w' :
  rest w' = rest w → settings (kc w') = settings (kc w) → canLogin w → canLogin w'.
Proof.
  intros Hr Hs [Cf Ca Cs [base Cb]].
  assert (br w' = br w ∧ adapter w' = adapter w ∧ callbackStorage w' = callbackStorage w)
    as (Eb & Ea & Ec) by (unfold rest in Hr; by injection Hr).
  constructor; [by rewrite Eb|by rewrite Ea| |].
  - unfold storageWorks in *. by rewrite Ec, Eb.
  - exists base. unfold settings in Hs. injection Hs as _ He _ _ _ Hu Hre.
    unfold ep_authorize, realmPath, getRealmUrl in *. by rewrite He, Hu, Hre.
Qed.

(** C5: Tokens with payloads that can be read, of which one has another text as nonce
    than the login, or none, are refused while nonces are used: the promise, a native
    one, is rejected, and with an access token among them nothing of them is kept: the
    access, refresh and ID tokens, their payloads, the subject and the roles are gone.
    (Without an access token the others stay, although the promise is rejected.)  Where
    a login is required, the instance is one that can send its user to the login page:
    the default adapter, a storage that works. *)
Theorem nonce_mismatch_rejected oauth p t0 a r i f w n :
  native w → (truthy (kc_loginRequired (kc w)) = true → canLogin w) →
  accepted a → accepted r → accepted i → truthy (useNonce w) = true →
  claim oauth "storedNonce" = Str n → (∃ tok, tok ∈ [a; r; i] ∧ otherNonce n tok) →
  ∃ w', authSuccess oauth p t0 a r i f w = (Returns (midpoint t0 w), w') ∧
    (state_of w p = Some Pending → state_of w' p = Some (Rejected Undefined)) ∧
    kc_authenticated (kc w') = Bool false ∧ coherent (kc w') ∧ kc_token (kc w') = Undefined ∧
    (kc_refreshToken (kc w'), kc_idToken (kc w')) =
      if truthy a then (Undefined, Undefined) else (kept r, kept i).
Proof.
  intros Hn Hl Ha Hr Hi Hu Hst Ho.
  destruct (setToken_accepted a r i (Some (midpoint t0 w)) w Ha Hr Hi) as [w1 H].
  pose proof (otherNonce_invalid n a r i _ w w1 H Ho) as Hinv. rewrite <- Hst in Hinv.
  pose proof (setToken_settings _ a r i (Some (midpoint t0 w)) w eq_refl) as Hs. rewrite H in Hs. cbn [snd] in Hs.
  destruct (authSuccess_invalid oauth p t0 a r i f w w1 Hn) as (w' & Hauth & _ & Hk & _ & _ & _ & Hp);
    [|done..|].
  { intros Hreq. apply (canLogin_settings w); [by eapply setToken_rest_eq|done|]. apply Hl.
    unfold settings in Hs. by injection Hs as _ _ <-. }
  exists w'. split_and!; [done|done|..];
    destruct (setToken_fields _ _ _ _ _ _ H) as (Ft & Fr & Fi & _);
    pose proof (setToken_coherent _ _ _ _ _ _ H) as Hco; rewrite Hk, Ft; unfold kept;
    destruct (truthy a) eqn:Ea; rewrite ?Ea; try done.
  - cbn [truthy]. destruct Hco as (_ & _ & _ & -> & _). rewrite Ft. unfold kept. by rewrite Ea.
  - cbn [truthy]. rewrite Ft. unfold kept. by rewrite Ea.
  - cbn [truthy]. by rewrite Fr, Fi.
Qed.

(** Without an access token there is nothing [clearToken] acts on: an ID
    token with a wrong nonce stays in [kc], although the promise is rejected. *)
Theorem id_token_survives_nonce_failure oauth p t0 i f w w1 :
  native w → truthy (kc_loginRequired (kc w1)) = false →
  setToken Undefined Null i (Some (midpoint t0 w)) w = (Returns tt, w1) → truthy i = true →
  truthy (useNonce w) = true → invalidNonce (kc w1) (claim oauth "storedNonce") = true →
  state_of w p = Some Pending →
  ∃ w', authSuccess oauth p t0 Undefined Null i f w = (Returns (midpoint t0 w), w') ∧
    kc_idToken (kc w') = i ∧ state_of w' p = Some (Rejected Undefined).
Proof.
  intros Hn Hl H Hi Hu Hinv Hp.
  destruct (authSuccess_invalid oauth p t0 Undefined Null i f w w1 Hn ltac:(by rewrite Hl) H Hu Hinv)
    as (w' & Ha & _ & Hk & _ & _ & _ & Hs).
  exists w'. split_and!; [done| |by apply Hs].
  assert (kc_token (kc w1) = Undefined ∧ kc_idToken (kc w1) = i) as [Ht Hid].
  { destruct (setToken_unfold Undefined Null i (Some (midpoint t0 w)) w) as (w0 & _ & _ & E).
    rewrite E in H. unfold setRefreshToken in H. cbn [truthy] in H. rewrite bind_modify in H.
    apply bind_returns in H as ([] & w2 & H2 & H). rewrite setIdToken_spec, Hi in H2.
    unfold setAccessToken in H. cbn [truthy] in H. destruct (decodeToken i); [|done].
    injection H2 as <-. injection H as <-. done. }
  by rewrite Ht in Hk; cbn [truthy] in Hk; rewrite Hk.
Qed.

(** In the hybrid flow a front-channel nonce that does not match rejects the
    promise, but the code is exchanged all the same, and the answer is processed for
    the promise that is already settled. *)
Theorem hybrid_exchange_after_nonce_failure o p w w1 r :
  native w → kc_flow (kc w) = Str "hybrid" → truthy (kc_loginRequired (kc w1)) = false →
  truthy (assoc "error" o) = false → truthy (assoc "access_token" o) = true →
  truthy (assoc "code" o) = true →
  setToken (assoc "access_token" o) Null (assoc "id_token" o)
    (Some (midpoint (inject_Z (now w)) w)) w = (Returns tt, w1) →
  kc_token (kc w1) = assoc "access_token" o → kc_flow (kc w1) = Str "hybrid" →
  truthy (useNonce w) = true → invalidNonce (kc w1) (assoc "storedNonce" o) = true →
  codeRequest (Obj o) p (midpoint (inject_Z (now w)) w) (forget_tokens (kc w1)) = Returns r →
  state_of w p = Some Pending →
  ∃ w', processCallback (Obj o) p w = (Returns tt, w') ∧
    state_of w' p = Some (Rejected Undefined) ∧ inflight w' = inflight w ++ [(nextRequest w, r)].
Proof.
  intros Hn Hf Hl He Ha Hc Hset Htok Hf1 Hu Hinv Hr Hp.
  destruct (authSuccess_invalid (Obj o) p (inject_Z (now w)) _ Null _ true w w1 Hn ltac:(by rewrite Hl) Hset Hu Hinv)
    as (w' & Hauth & _ & Hk & Hi & Hnr & _ & Hs).
  rewrite Htok, Ha in Hk. unfold processCallback. cbn [getp].
  rewrite !bind_lift, bind_gets, He, bind_gets, Hf. unfold claim at 1 2. cbn [getp]. rewrite Ha.
  change (loose_eq (Str "hybrid") (Str "standard")) with false. cbn [negb andb orb].
  change (claim (Obj o) "access_token") with (assoc "access_token" o).
  change (claim (Obj o) "id_token") with (assoc "id_token" o).
  unfold mbind at 1, M_bind at 1. rewrite Hauth, bind_gets, Hk.
  change (kc_flow (forget_tokens (kc w1))) with (kc_flow (kc w1)). rewrite Hf1.
  change (loose_eq (Str "hybrid") (Str "implicit")) with false. cbn [negb andb].
  rewrite Hc, Hr, bind_lift. eexists. split; [done|]. split; [by apply Hs|].
  simpl. by rewrite Hi, Hnr.
Qed.

End callback.
End Callback.
