(* ===== verification/Redirect.v ===== *)
(** From the login URL to the redirect back, over either callback storage: what
    [createLoginUrl] remembers of an attempt is what [parseCallback] finds, once. *)

From S2P Require Import Prelude JsString Uri JsValue Json World Promise Token Uuid Storage CallbackStore Urls Adapter Callback.
Import JsString Uri JsValue Json World Promise Token Uuid Storage CallbackStore Urls Adapter Callback.

Module Redirect.

(** ** What a cookie can hold *)

Lemma quote_char_semicolon a : occurs ";" (quote_char a) = Ascii.eqb ";" a.
Proof. by destruct a as [[] [] [] [] [] [] [] []]. Qed.

Lemma quote_semicolon s : occurs ";" (quote s) = occurs ";" s.
Proof.
  unfold quote. cbn [occurs]. rewrite occurs_app. change (Ascii.eqb ";" dquote) with false.
  change (occurs ";" (String dquote "")) with false. rewrite orb_false_r. cbn [orb].
  induction s as [|a s IH]; [done|]. cbn [quote_body occurs]. by rewrite occurs_app, quote_char_semicolon, IH.
Qed.

(** The option [prompt] as applications give it: none, or a text that a cookie can hold. *)
Definition promptText (options : jsval) : Prop :=
  truthy (optp options "prompt") = false ∨
  ∃ s, optp options "prompt" = Str s ∧ occurs ";" s = false.

Lemma callbackState_text state nonce ru options :
  uuid_v4 state = true → uuid_v4 nonce = true → promptText options →
  json_wf (Obj (callbackState state nonce ru options)) = true ∧
  occurs ";" (JSON_stringify (Obj (callbackState state nonce ru options))) = false.
Proof.
  intros Hs Hn Hp. pose proof (uuid_no_delim ";" state Hs eq_refl) as Hs'.
  pose proof (uuid_no_delim ";" nonce Hn eq_refl) as Hn'.
  assert (occurs ";" (encode ru) = false) as Hr by (by apply encodeURIComponent_no_delim).
  unfold callbackState. cbv zeta. destruct Hp as [Hp|(s & -> & Hc)].
  - rewrite Hp. split; [done|]. cbn -[quote occurs].
    by rewrite !occurs_app, !quote_semicolon, Hs', Hn', Hr.
  - rewrite obj_set_fresh by (apply (bool_decide_unpack _); by vm_compute).
    destruct (truthy (Str s)); (split; [done|]); cbn -[quote occurs];
      by rewrite !occurs_app, !quote_semicolon, ?Hs', ?Hn', ?Hr, ?Hc.
Qed.

Lemma uuid_nameable u : uuid_v4 u = true → nameable u.
Proof. intros Hu. split_and!; [by apply uuid_nonempty|by apply uuid_no_delim|by apply uuid_no_delim]. Qed.

(** ** The two storages *)

(** What the library relies on beyond the interface: the fields of a record, what can
    be stored, and that an attempt lives for an hour, to the second. *)
Lemma store_records w k :
  storeOf w = Some k →
  (∀ st t n, n ≠ "expires" → assoc n (record (CallbackStore := k) st t) = assoc n st) ∧
  (∀ s st, nameable s → assoc "state" st = Str s → json_wf (Obj st) = true →
     occurs ";" (JSON_stringify (Obj st)) = false → storable (CallbackStore := k) s st) ∧
  ∀ t, (t + 3599000 ≤ deadline (CallbackStore := k) t)%Z.
Proof.
  unfold storeOf. destruct (callbackStorage w); [done|intros [= <-]..]; (split_and!; [|by intros; split_and!|]).
  - intros st t n Hn. cbn. unfold stored. by apply assoc_obj_set_ne.
  - intros t. cbn. lia.
  - done.
  - intros t. cbn. unfold cookieExpiration. pose proof (Z.div_mod (t + 60 * 60 * 1000) 1000 ltac:(lia)).
    pose proof (Z.mod_pos_bound (t + 60 * 60 * 1000) 1000 ltac:(lia)). lia.
Qed.

Lemma inv_drawn w k n : storeOf w = Some k → inv (CallbackStore := k) w → inv (CallbackStore := k) (drawn n w).
Proof. unfold storeOf. destruct (callbackStorage w); [done|intros [= <-]; by cbn..]. Qed.

Lemma callbackState_fields state nonce ru options :
  assoc "nonce" (callbackState state nonce ru options) = Str nonce ∧
  assoc "redirectUri" (callbackState state nonce ru options) = Str (encode ru).
Proof. unfold callbackState. cbv zeta. by destruct (truthy _); rewrite ?assoc_obj_set_ne. Qed.

Lemma storage_get_kc k s : preserves (λ w, kc w = k) (storage_get s).
Proof.
  unfold storage_get, local_get, cookie_get, clearExpired, readLocalStorage, withLocalStorage,
    getCookie, setCookie, assignCookie.
  preserve ltac:(by intros).
Qed.

Section roundtrip.
Context {env : Env}.

(** An attempt that was stored is found within the hour, and then no more. *)
Lemma attempt_found k w s st w1 d :
  storeOf w = Some k → nameable s → storage_add st w = (Returns tt, w1) →
  inv (CallbackStore := k) w → storable (CallbackStore := k) s st → (Z.of_nat d ≤ 3599000)%Z →
  ∃ w2 v w3, storage_get (Str s) (tick d w1) = (Returns (Obj (record (CallbackStore := k) st (now w))), w2) ∧
    kc w2 = kc w1 ∧ storage_get (Str s) w2 = (Returns v, w3) ∧ truthy v = false.
Proof.
  intros Hk Hs Hadd Hi Hst Hd. destruct (store_records w k Hk) as (_ & _ & Hdl).
  destruct (add_law (CallbackStore := k) w s st Hi Hst) as (w1' & Hadd' & Hnow & Hi1 & Hp & _).
  rewrite Hadd in Hadd'. injection Hadd' as <-.
  destruct (tick_law (CallbackStore := k) w1 d Hi1) as [Hi2 Hev]. destruct (Hev s) as [Hev' _].
  destruct (Hev' _ _ Hp) as [Hp2|[_ Hlate]].
  2: { specialize (Hdl (now w)). unfold now, tick in *. cbn in Hlate. lia. }
  destruct (get_present (CallbackStore := k) _ _ _ _ Hi2 Hs Hp2) as (w2 & Hg & _ & Hi3 & Ha & _).
  destruct (get_absent (CallbackStore := k) _ _ Hi3 Hs Ha) as (v & w3 & Hg2 & Hv & _).
  pose proof (storage_get_kc (kc w1) (Str s) (tick d w1) eq_refl) as Hkc. rewrite Hg in Hkc.
  exists w2, v, w3. by split_and!.
Qed.

(** C2: From [createLoginUrl] to [parseCallback], with the default adapter and either
    storage, in each flow and response mode.  When the server redirects back with the
    [state] of a login URL, within the hour and with whatever other parameters besides
    the code, the token or the error of the flow, to a page whose URL has no fragment of
    its own (no query in the response mode [query]), the redirect is recognised as
    valid, with the parameters of the answer, the nonce and the redirect URI of that
    login; the URL without the answer is restored, with the parameters that are the
    page's own; a second redirect with the same state is not valid any more.  The
    option [prompt] is missing or a text without semicolon, and names and values of
    parameters are percent-encoded where they have to be. *)
Theorem login_redirect_roundtrip options w k base scope flow mode :
  starting options w base scope → storeOf w = Some k → inv (CallbackStore := k) w →
  kc_flow (kc w) = Str flow → kc_responseMode (kc w) = Str mode → promptText options →
  ∃ state nonce w1, uuid_v4 state = true ∧
    createLoginUrl options w =
      (Returns (to_string base +:+
         loginQuery (kc w) (useNonce w) (redirectOf options w) state nonce scope options), w1) ∧
    ∀ page params d, redirected flow mode page state params → (Z.of_nat d ≤ 3599000)%Z →
    ∃ oauth w2 oauth' w3,
      parseCallback (redirectUrl mode page params) (tick d w1) = (Returns (Obj oauth), w2) ∧
      assoc "valid" oauth = Bool true ∧ assoc "storedNonce" oauth = Str nonce ∧
      assoc "redirectUri" oauth = Str (encode (redirectOf options w)) ∧
      assoc "newUrl" oauth = Str (restored flow mode page params) ∧
      (∀ n, responseParam flow n = true → assoc n oauth = given n params) ∧
      parseCallback (redirectUrl mode page params) w2 = (Returns (Obj oauth'), w3) ∧
      assoc "valid" oauth' = Undefined.
Proof.
  intros Hst Hk Hi Hf Hm Hp.
  destruct (createLoginUrl_run options w base scope Hst) as (state & nonce & n & Hs & Hn & Hrun).
  set (st := callbackState state nonce (redirectOf options w) options) in *.
  destruct (callbackState_text state nonce (redirectOf options w) options Hs Hn Hp) as [Hwf Htxt].
  pose proof (uuid_nameable state Hs) as Hname.
  destruct (store_records w k Hk) as (Hrec & Hstor & _).
  assert (storable (CallbackStore := k) state st) as Hable.
  { apply Hstor; [done| |done|done]. apply callbackState_state. }
  assert (storeOf (drawn n w) = Some k) as Hk' by exact Hk.
  pose proof (inv_drawn w k n Hk Hi) as Hi'.
  destruct (add_law (CallbackStore := k) (drawn n w) state st Hi' Hable) as (w1 & Hadd & _).
  pose proof (storage_add_frame (kc w) (useNonce w) st (drawn n w) (conj eq_refl eq_refl)) as [Hkc _].
  rewrite Hadd in Hkc. cbn [snd] in Hkc. exists state, nonce, w1. split; [done|]. split; [by apply Hrun|].
  intros page params d Hr Hd.
  destruct (attempt_found k (drawn n w) state st w1 d Hk' Hname Hadd Hi' Hable Hd)
    as (w2 & v & w3 & Hg1 & Hk2 & Hg2 & Hv).
  destruct (parseCallbackUrl_redirect (kc w) flow mode page state params Hf Hm Hr)
    as (o & Hurl & [Hnew Hget] & Hso).
  set (rec := record (CallbackStore := k) st (now (drawn n w))) in *.
  destruct (merged_new o rec) as (Mv & Mr & Mn & _).
  exists (merged o rec), w2, o, w3. split_and!.
  - apply (parseCallback_found _ _ _ state); [|done|done]. by change (kc (tick d w1)) with (kc w1); rewrite Hkc.
  - done.
  - rewrite Mn. unfold rec. rewrite Hrec by done. apply callbackState_fields.
  - rewrite Mr. unfold rec. rewrite Hrec by done. apply callbackState_fields.
  - rewrite merged_get; [done|]. apply (bool_decide_unpack _). by vm_compute.
  - intros p Hpar. rewrite merged_get, Hget, Hpar; [done|by intros ->|].
    rewrite !not_elem_of_cons. split_and!; try (by intros ->); by apply not_elem_of_nil.
  - apply (parseCallback_unknown _ _ _ state v); [|done|done|done]. by rewrite Hk2, Hkc.
  - by rewrite Hget.
Qed.

End roundtrip.
End Redirect.
