(* ===== verification/Iframe.v ===== *)
(** The session check of keycloak.js: [setupCheckLoginIframe], the handlers it
    installs, and [checkLoginIframe].

    The library asks the status iframe whether the session changed by posting one
    message for all the promises waiting in [loginIframe.callbackList]; the answer
    settles every one of them. *)

From S2P Require Import Prelude JsString Uri JsValue World Promise Token Storage Urls Adapter.
Import JsString Uri JsValue World Promise Token Urls Adapter.

Module Iframe.
Section iframe.
Context {env : Env}.

(** [loginIframe.interval * 1000] *)
Definition checkDelay (w : World) : option Z :=
  (λ z, z * 1000)%Z <$> to_number (li_interval (loginIframe w)).

Definition checkLoginIframe : IO nat :=
  promise ← createPromise;
  w ← gets id;
  let li := loginIframe w in
  (if li_iframe li && truthy (li_iframeOrigin li) then
     let msg := to_string (kc_clientId (kc w)) +:+ " " +:+ to_string (kc_sessionId (kc w)) in
     modify (λ w, w <| loginIframe -> li_callbackList ::= (λ l, l ++ [promise]) |>);;
     n ← gets (λ w, length (li_callbackList (loginIframe w)));
     when (n =? 1) (emit (OPostMessage msg (li_iframeOrigin li)))
   else setSuccess promise Undefined);;
  mret promise.

Definition setupCheckLoginIframe : IO nat :=
  promise ← createPromise;
  li ← gets loginIframe;
  (if negb (truthy (li_enable li)) then setSuccess promise Undefined
   else if li_iframe li then setSuccess promise Undefined
   else
     modify (λ w, w <| loginIframe -> li_iframe := true |>);;
     src ← gets (λ w, ep_checkSessionIframe (kc w)) ≫= lift;
     emit (OCreateIframe (to_string src));;
     modify (λ w, w <| loginIframe -> li_onload := Some promise |>
                    <| messageListener := true |>));;
  mret promise.

(** The origin [iframe.onload] derives from the authorization endpoint. *)
Definition iframeOriginOf (authUrl : jsval) (b : Browser) : outcome jsval :=
  match authUrl with
  | Str u =>
      Returns (if String.eqb (charAt u 0) "/" then getOrigin b
               else Str (substring u 0 (indexOf_from u "/" 8)))
  | _ => Throws TypeError
  end.

(** [iframe.onload] *)
Definition onIframeLoad (promise : nat) : IO unit :=
  authUrl ← gets (λ w, ep_authorize (kc w)) ≫= lift;
  origin ← gets (λ w, iframeOriginOf authUrl (br w)) ≫= lift;
  modify (λ w, w <| loginIframe -> li_iframeOrigin := origin |>);;
  setSuccess promise Undefined;;
  delay ← gets checkDelay;
  _ ← setTimeout CheckTimer delay;
  mret tt.

(** [check], the function the timer runs *)
Definition check : IO unit :=
  _ ← checkLoginIframe;
  w ← gets id;
  if truthy (kc_token (kc w)) then
    _ ← setTimeout CheckTimer (checkDelay w); mret tt
  else mret tt.

(** The messages of the status iframe. *)
Definition statusMessage (data : jsval) : bool :=
  loose_eq data (Str "unchanged") || loose_eq data (Str "changed") || loose_eq data (Str "error").

(** The test with which [messageCallback] starts: [fromIframe] is
    [loginIframe.iframe.contentWindow === event.source]. *)
Definition trusted (li : LoginIframe) (origin : string) (fromIframe : bool) : bool :=
  strict_eq (Str origin) (li_iframeOrigin li) && fromIframe.

(** [loginIframe.callbackList.splice(0, length)] *)
Definition takeCallbacks : IO (list nat) :=
  l ← gets (λ w, li_callbackList (loginIframe w));
  modify (λ w, w <| loginIframe -> li_callbackList := [] |>);;
  mret l.

Definition messageCallback (origin : string) (fromIframe : bool) (data : jsval) : IO unit :=
  li ← gets loginIframe;
  if negb (trusted li origin fromIframe) then mret tt
  else if negb (statusMessage data) then mret tt
  else
    (if loose_eq data (Str "unchanged") then mret tt else clearToken);;
    callbacks ← takeCallbacks;
    for_each (λ promise,
      if loose_eq data (Str "unchanged") then setSuccess promise Undefined
      else setError promise Undefined) (reverse callbacks).

(** ** Messages *)

Lemma takeCallbacks_spec w :
  takeCallbacks w = (Returns (li_callbackList (loginIframe w)),
                     w <| loginIframe -> li_callbackList := [] |>).
Proof. done. Qed.

(** What settling the callbacks taken from the list leaves. *)
Lemma settle_callbacks ok v w :
  native w →
  let w' := settle_all ok v (reverse (li_callbackList (loginIframe w)))
              (w <| loginIframe -> li_callbackList := [] |>) in
  kc w' = kc w ∧ li_callbackList (loginIframe w') = [] ∧
  ∀ p, p ∈ li_callbackList (loginIframe w) → state_of w p = Some Pending →
       state_of w' p = Some (outcome_state ok v).
Proof.
  intros Hn w'. assert (native (w <| loginIframe -> li_callbackList := [] |>)) as Hn' by exact Hn.
  destruct (settle_all_frame ok v (reverse (li_callbackList (loginIframe w))) _ Hn') as [_ Hf].
  subst w'.
  rewrite (others_kc _ _ Hf), (others_loginIframe _ _ Hf). split_and!; [done|done|]. intros p Hp Hpend.
  rewrite settle_all_state, decide_True; [done|]. by rewrite elem_of_reverse.
Qed.


(** C9: A message that does not come from the status iframe at the authorization
    server's origin, or is none of the three the protocol has, changes nothing:
    neither the session nor a waiting promise. *)
Theorem messageCallback_foreign origin fromIframe data w :
  Str origin ≠ li_iframeOrigin (loginIframe w) ∨ fromIframe = false ∨
    to_string data ∉ ["unchanged"; "changed"; "error"] →
  messageCallback origin fromIframe data w = (Returns tt, w).
Proof.
  intros H. unfold messageCallback. rewrite bind_gets.
  destruct (trusted _ _ _) eqn:Ht; [|done].
  unfold trusted in Ht. apply andb_true_iff in Ht as [Ho ->].
  destruct H as [H|[H|H]]; [|done|].
  - destruct (li_iframeOrigin (loginIframe w)); try done. simpl in Ho.
    by apply String.eqb_eq in Ho as ->.
  - destruct (statusMessage data) eqn:Hs; [exfalso|done].
    unfold statusMessage in Hs. rewrite !orb_true_iff in Hs.
    destruct Hs as [[Hs|Hs]|Hs]; apply loose_eq_str in Hs as [Hs _]; try done;
      rewrite Hs in H; set_solver.
Qed.

(** The iframe answers that the session is unchanged: every promise waiting
    for a check is fulfilled, nobody is left waiting, and the tokens stay. *)
Theorem messageCallback_unchanged origin w :
  native w → Str origin = li_iframeOrigin (loginIframe w) →
  ∃ w', messageCallback origin true (Str "unchanged") w = (Returns tt, w') ∧
    kc w' = kc w ∧ li_callbackList (loginIframe w') = [] ∧
    ∀ p, p ∈ li_callbackList (loginIframe w) → state_of w p = Some Pending →
         state_of w' p = Some (Fulfilled Undefined).
Proof.
  intros Hn Ho. unfold messageCallback. rewrite bind_gets. unfold trusted.
  rewrite <- Ho. simpl. rewrite String.eqb_refl. cbn [andb negb].
  cbn -[takeCallbacks for_each]. rewrite bind_ret.
  unfold mbind, M_bind. rewrite takeCallbacks_spec.
  rewrite for_each_setSuccess by done. eexists. split; [done|].
  by apply settle_callbacks.
Qed.


(** The state with one more promise waiting for the iframe. *)
Definition waiting (p : nat) (w : World) : World :=
  w <| loginIframe -> li_callbackList ::= (λ l, l ++ [p]) |>.

(** C16: [checkLoginIframe] with native promises puts its promise in the list and posts
    one message, with the client and the session, for all the checks that wait at the
    same time; before the iframe has loaded there is nothing to ask, and the promise is
    fulfilled at once. *)
Theorem checkLoginIframe_spec w :
  native w →
  let li := loginIframe w in
  let p := length (promises w) in
  ∃ w', checkLoginIframe w = (Returns p, w') ∧ kc w' = kc w ∧
    if li_iframe li && truthy (li_iframeOrigin li) then
      state_of w' p = Some Pending ∧
      li_callbackList (loginIframe w') = li_callbackList li ++ [p] ∧
      trace w' = match li_callbackList li with
                 | [] => OPostMessage (to_string (kc_clientId (kc w)) +:+ " "
                           +:+ to_string (kc_sessionId (kc w))) (li_iframeOrigin li) :: trace w
                 | _ :: _ => trace w
                 end
    else
      state_of w' p = Some (Fulfilled Undefined) ∧ loginIframe w' = li ∧ trace w' = trace w.
Proof.
  intros Hn li p. unfold checkLoginIframe. unfold mbind at 1, M_bind at 1.
  rewrite createPromise_native by done. fold p. rewrite bind_gets. cbn [id].
  change (loginIframe (fresh w)) with li. change (kc (fresh w)) with (kc w). cbv zeta.
  destruct (li_iframe li && truthy (li_iframeOrigin li)).
  - rewrite bind_bind, bind_modify, bind_bind, bind_gets.
    change (upd loginIframe _ (fresh w)) with (waiting p (fresh w)).
    assert (li_callbackList (loginIframe (waiting p (fresh w))) = li_callbackList li ++ [p]) as Hl by done.
    rewrite Hl, length_app.
    assert (state_of (waiting p (fresh w)) p = Some Pending) as Hs by apply (fresh_state w).
    destruct (li_callbackList li) as [|q qs] eqn:El.
    + eexists. split; [done|]. split_and!; [done|exact Hs| |done]. by rewrite <- Hl.
    + simpl (_ + _). rewrite (proj2 (Nat.eqb_neq (S _) 1)) by lia.
      eexists. split; [done|]. split_and!; [done|exact Hs| |done]. by rewrite <- Hl.
  - unfold mbind, M_bind. rewrite setSuccess_native by (by apply fresh_native).
    eexists. split; [done|]. pose proof (settle_others true p Undefined (fresh w)) as Ho.
    rewrite (others_kc _ _ Ho), (others_loginIframe _ _ Ho). split_and!; [done| |done|].
    + rewrite settle_state, decide_True; [done|]. split; [done|apply fresh_state].
    + unfold others in Ho. injection Ho as _ _ _ _ _ _ _ _ _ _ _ _ _ _ -> _. done.
Qed.

End iframe.
End Iframe.
