(* ===== verification/Refresh.v ===== *)
(** [kc.updateToken], [kc.loadUserProfile] and [kc.loadUserInfo] of keycloak.js,
    with the handlers of their requests.

    The calls of [updateToken] that find the token expired share one request: each
    puts its promise in [refreshQueue], and the first one sends. *)

From S2P Require Import Prelude JsString Uri Base64 JsValue Json World Promise Token Storage Urls Adapter Callback Iframe.
Import JsString Uri Base64 JsValue Json World Promise Token Storage Urls Adapter Callback Iframe.

Module Refresh.
Section refresh.
Context {env : Env}.

(** The test at the start of [exec]. *)
Definition needsRefresh (minValidity : jsval) : IO bool :=
  if loose_eq minValidity (Num (-1)) then mret true
  else
    parsed ← gets (λ w, kc_tokenParsed (kc w));
    if negb (truthy parsed) then mret true else isTokenExpired minValidity.

Definition refreshRequest (url : jsval) (refreshToken : jsval) (timeLocal : Z) (k : Kc) : outcome request :=
  '(hs, client) ← clientAuth k;
  Returns (mkRequest "POST" (to_string url) (contentType :: hs) true
    (Some ("grant_type=refresh_token&" +:+ "refresh_token=" +:+ to_string refreshToken +:+ client))
    (XRefresh (inject_Z timeLocal))).

(** [exec], the inner function of [updateToken] *)
Definition updateExec (promise : nat) (minValidity : jsval) : IO unit :=
  refresh ← needsRefresh minValidity;
  if negb (refresh : bool) then setSuccess promise (Bool false)
  else
    k ← gets kc;
    url ← lift (ep_token k);
    modify (λ w, w <| refreshQueue ::= (λ q, q ++ [promise]) |>);;
    w ← gets id;
    when (length (refreshQueue w) =? 1)
      (r ← lift (refreshRequest url (kc_refreshToken k) (now w) k); send r).

Definition updateToken (minValidity : jsval) : IO nat :=
  promise ← createPromise;
  w ← gets id;
  (if negb (truthy (kc_refreshToken (kc w))) then setError promise Undefined
   else
     let minValidity := js_or minValidity (Num 5) in
     if truthy (li_enable (loginIframe w)) then
       iframePromise ← checkLoginIframe;
       success iframePromise (KUpdateExec promise minValidity);;
       error iframePromise (KUpdateError promise)
     else updateExec promise minValidity);;
  mret promise.

(** [for (var p = refreshQueue.pop(); p != null; p = refreshQueue.pop()) f(p)]:
    the fuel is the length of the queue, which a callback of a legacy promise may
    lengthen again. *)
Fixpoint popQueue (fuel : nat) (f : nat → IO unit) : IO unit :=
  q ← gets refreshQueue;
  match reverse q with
  | [] => mret tt
  | p :: q' =>
      match fuel with
      | 0 => throw OutOfFuel
      | S n =>
          modify (λ w, w <| refreshQueue := reverse q' |>);;
          f p;;
          popQueue n f
      end
  end.

Definition popAll (f : nat → IO unit) : IO unit :=
  n ← gets (λ w, length (refreshQueue w)); popQueue n f.

Definition onRefreshResponse (timeLocal : Q) (status : Z) (responseText : string) : IO unit :=
  if (status =? 200)%Z then
    t ← gets now;
    let timeLocal := ((timeLocal + inject_Z t) / 2)%Q in
    tokenResponse ← lift (JSON_parse responseText);
    access_token ← lift (getp tokenResponse "access_token");
    refresh_token ← lift (getp tokenResponse "refresh_token");
    id_token ← lift (getp tokenResponse "id_token");
    setToken access_token refresh_token id_token (Some timeLocal);;
    callHook onAuthRefreshSuccess Undefined;;
    popAll (λ p, setSuccess p (Bool true))
  else
    (if (status =? 400)%Z then clearToken else mret tt);;
    callHook onAuthRefreshError Undefined;;
    popAll (λ p, setError p (Bool true)).

(** *** The user's profile *)

Definition bearerRequest (url : string) (k : Kc) (handler : xhr_cont) : request :=
  mkRequest "GET" url [("Accept", "application/json");
    ("Authorization", "bearer " +:+ to_string (kc_token k))] false None handler.

Definition loadUserProfile : IO nat :=
  k ← gets kc;
  realm ← lift (getRealmUrl k);
  promise ← createPromise;
  send (bearerRequest (to_string realm +:+ "/account") k (XProfile promise));;
  mret promise.

Definition onProfileResponse (promise : nat) (status : Z) (responseText : string) : IO unit :=
  if (status =? 200)%Z then
    v ← lift (JSON_parse responseText);
    modify (λ w, w <| kc -> kc_profile := v |>);;
    setSuccess promise v
  else setError promise Undefined.

Definition loadUserInfo : IO nat :=
  k ← gets kc;
  url ← lift (ep_userinfo k);
  promise ← createPromise;
  send (bearerRequest (to_string url) k (XUserInfo promise));;
  mret promise.

Definition onUserInfoResponse (promise : nat) (status : Z) (responseText : string) : IO unit :=
  if (status =? 200)%Z then
    v ← lift (JSON_parse responseText);
    modify (λ w, w <| kc -> kc_userInfo := v |>);;
    setSuccess promise v
  else setError promise Undefined.

(** ** Draining the queue *)

Definition settleWith (ok : bool) (v : jsval) (p : nat) : IO unit :=
  if ok then setSuccess p v else setError p v.

Lemma settleWith_native ok v p w : native w → settleWith ok v p w = (Returns tt, settle ok p v w).
Proof. intros Hn. destruct ok; [by apply setSuccess_native | by apply setError_native]. Qed.

(** The state after the loop: the fuel is enough, and each promise of the queue
    that was pending has the outcome. *)
Definition drained (ok : bool) (v : jsval) (w w' : World) : Prop :=
  native w' ∧ refreshQueue w' = [] ∧ kc w' = kc w ∧ inflight w' = inflight w ∧
  loginIframe w' = loginIframe w ∧ br w' = br w ∧
  ∀ p, state_of w' p =
    if decide (p ∈ refreshQueue w ∧ state_of w p = Some Pending)
    then Some (outcome_state ok v) else state_of w p.

Lemma drained_step ok v p q' w w' :
  native w → reverse (refreshQueue w) = p :: q' →
  drained ok v (settle ok p v (w <| refreshQueue := reverse q' |>)) w' →
  drained ok v w w'.
Proof.
  intros Hn Hq (Hn' & Hq' & Hk & Hi & Hl & Hb & Hs).
  assert (refreshQueue w = reverse q' ++ [p]) as Hrq.
  { by rewrite <- (reverse_involutive (refreshQueue w)), Hq, reverse_cons. }
  pose proof (settle_others ok p v (w <| refreshQueue := reverse q' |>)) as Ho.
  rewrite (others_kc _ _ Ho) in Hk. rewrite (others_loginIframe _ _ Ho) in Hl.
  rewrite (others_inflight _ _ Ho) in Hi.
  assert (br w' = br w) by (rewrite Hb; unfold others in Ho; by injection Ho).
  split_and!; [done..|]. intros q. rewrite Hs. clear Hs. rewrite (others_refreshQueue _ _ Ho).
  pose proof (settle_state ok p v (w <| refreshQueue := reverse q' |>) q) as E.
  revert E. generalize (state_of (settle ok p v (w <| refreshQueue := reverse q' |>)) q).
  intros st E. change (state_of (w <| refreshQueue := reverse q' |>)) with (state_of w) in E.
  simpl. rewrite Hrq. assert (outcome_state ok v ≠ Pending) by (by destruct ok).
  repeat case_decide; subst; try done; set_solver.
Qed.

Lemma popQueue_native ok v n w :
  native w → length (refreshQueue w) ≤ n →
  ∃ w', popQueue n (settleWith ok v) w = (Returns tt, w') ∧ drained ok v w w'.
Proof.
  revert w. induction n as [|n IH]; intros w Hn Hl; simpl; rewrite bind_gets.
  - destruct (refreshQueue w) as [|p q] eqn:Hq; [|simpl in Hl; lia]. exists w.
    split; [done|]. split_and!; try done. intros p. rewrite decide_False; [done|].
    rewrite Hq. set_solver.
  - destruct (reverse (refreshQueue w)) as [|p q'] eqn:Hq.
    + apply (f_equal reverse) in Hq. rewrite reverse_involutive in Hq. exists w.
      split; [done|]. split_and!; try done. intros p. rewrite decide_False; [done|].
      rewrite Hq. set_solver.
    + rewrite bind_modify. unfold mbind, M_bind.
      assert (native (w <| refreshQueue := reverse q' |>)) as Hn1 by exact Hn.
      rewrite settleWith_native by done.
      destruct (IH (settle ok p v (w <| refreshQueue := reverse q' |>))) as (w' & Hp & Hd).
      { by apply settle_native. }
      { rewrite (others_refreshQueue _ _ (settle_others ok p v _)). simpl.
        apply (f_equal length) in Hq. rewrite length_reverse in *. simpl in Hq. lia. }
      exists w'. split; [done|]. by eapply drained_step.
Qed.

Lemma popAll_native ok v w :
  native w → ∃ w', popAll (settleWith ok v) w = (Returns tt, w') ∧ drained ok v w w'.
Proof. intros Hn. unfold popAll. rewrite bind_gets. by apply popQueue_native. Qed.

Lemma callHook_popAll ok v h w :
  native w →
  ∃ w', (callHook h Undefined ≫= λ _, popAll (settleWith ok v)) w = (Returns tt, w') ∧
        drained ok v w w'.
Proof.
  intros Hn. destruct (callHook_spec h Undefined w) as (w1 & H1 & Hk & Hr).
  destruct (popAll_native ok v w1) as (w' & H2 & Hd); [by apply (rest_native w)|].
  exists w'. split; [unfold mbind, M_bind; by rewrite H1|].
  destruct Hd as (? & ? & Hk' & Hi' & Hl' & Hb' & Hs). unfold drained.
  pose proof Hr as Hr'. unfold rest in Hr'. injection Hr' as ? ? ? Hq Hl ? Hp ? Hi ? ? ? ? ?.
  split_and!; try congruence. intros p. rewrite Hs, Hq.
  by rewrite (rest_state _ _ p Hr).
Qed.

(** ** The response *)

(** The three tokens of a token response. *)
Definition tokensOf (r : jsval) : jsval * jsval * jsval :=
  (claim r "access_token", claim r "refresh_token", claim r "id_token").

Lemma getp_claim v k : is_nullish v = false → getp v k = Returns (claim v k).
Proof. unfold claim. by destruct v. Qed.

(** C4: A refresh that succeeds: the tokens of the response are set, with the
    local time taken as the midpoint of request and response, every call of
    [updateToken] that was waiting is fulfilled with [true], and the queue is
    empty, so that the next call sends a request of its own. *)
Theorem onRefreshResponse_success t0 text r a rt i w :
  native w → JSON_parse text = Returns r → is_nullish r = false →
  tokensOf r = (a, rt, i) → accepted a → accepted rt → accepted i →
  ∃ w1 w', setToken a rt i (Some ((t0 + inject_Z (now w)) / 2)%Q) w = (Returns tt, w1) ∧
    onRefreshResponse t0 200 text w = (Returns tt, w') ∧
    kc w' = kc w1 ∧ coherent (kc w') ∧ refreshQueue w' = [] ∧ inflight w' = inflight w ∧
    ∀ p, p ∈ refreshQueue w → state_of w p = Some Pending →
         state_of w' p = Some (Fulfilled (Bool true)).
Proof.
  intros Hn Hj Hr Htk Ha Hrt Hi. unfold tokensOf in Htk. injection Htk as <- <- <-.
  destruct (setToken_accepted _ _ _ (Some ((t0 + inject_Z (now w)) / 2)%Q) w Ha Hrt Hi) as [w1 H1].
  pose proof (setToken_rest_eq _ _ _ _ _ _ _ H1) as Hrest.
  destruct (callHook_popAll true (Bool true) onAuthRefreshSuccess w1) as (w' & H2 & Hd).
  { by apply (rest_native w). }
  exists w1, w'. split; [done|].
  split.
  { unfold onRefreshResponse. rewrite Z.eqb_refl, bind_gets.
    rewrite Hj, bind_lift, !getp_claim, !bind_lift by done.
    unfold mbind at 1, M_bind at 1. rewrite H1. exact H2. }
  destruct Hd as (_ & Hq' & Hk & Hin & _ & _ & Hs). apply setToken_coherent in H1.
  pose proof (λ q, rest_state _ _ q Hrest) as Hst.
  unfold rest in Hrest. injection Hrest as ? ? ? Hq ? ? ? ? Hin' ? ? ? ? ?.
  split_and!; try congruence. intros p Hp Hpend. rewrite Hs, decide_True; [done|].
  rewrite Hq. by rewrite Hst.
Qed.

(** C15: A refresh that fails rejects every waiting call and empties the queue, with
    native promises.  Only status 400, which says that the refresh token is no longer
    good, ends the session of an instance with an access token: the tokens are gone,
    and where a login is required the page goes to the login URL (of the default
    adapter, with a storage that works).  Any other failure leaves the tokens and the
    page, whether or not a login is required. *)
Theorem onRefreshResponse_failure t0 status text w :
  native w → status ≠ 200%Z →
  (status = 400%Z → truthy (kc_loginRequired (kc w)) = true → canLogin w) →
  let ended := bool_decide (status = 400%Z) && truthy (kc_token (kc w)) in
  ∃ w', onRefreshResponse t0 status text w = (Returns tt, w') ∧
    kc w' = (if ended then forget_tokens (kc w) else kc w) ∧
    refreshQueue w' = [] ∧ inflight w' = inflight w ∧
    (∀ p, p ∈ refreshQueue w → state_of w p = Some Pending →
          state_of w' p = Some (Rejected (Bool true))) ∧
    if ended && truthy (kc_loginRequired (kc w)) then
      ∃ w1 url w2, kc w1 = forget_tokens (kc w) ∧ createLoginUrl Undefined w1 = (Returns url, w2) ∧
        b_href (br w') = url
    else b_href (br w') = b_href (br w).
Proof.
  intros Hn Hst Hl ended. unfold onRefreshResponse. rewrite (proj2 (Z.eqb_neq _ _) Hst).
  assert (∃ w1, (if (status =? 400)%Z then clearToken else mret tt) w = (Returns tt, w1) ∧
    native w1 ∧ kc w1 = (if ended then forget_tokens (kc w) else kc w) ∧ aside w1 = aside w ∧
    (∀ p st, state_of w p = Some st → state_of w1 p = Some st) ∧
    if ended && truthy (kc_loginRequired (kc w)) then
      ∃ w1' url w2, kc w1' = forget_tokens (kc w) ∧ createLoginUrl Undefined w1' = (Returns url, w2) ∧
        b_href (br w1) = url
    else b_href (br w1) = b_href (br w)) as (w1 & H1 & Hn1 & Hk1 & Ha & Hs1 & Hh).
  { unfold ended. destruct (Z.eqb_spec status 400) as [->|Hne].
    - destruct (clearToken_run w Hn (Hl eq_refl)) as (w1 & H1 & []). rewrite bool_decide_eq_true_2 by done.
      by exists w1.
    - rewrite bool_decide_eq_false_2 by done. by exists w. }
  destruct (callHook_popAll false (Bool true) onAuthRefreshError w1 Hn1) as (w' & H2 & Hd).
  exists w'. split; [unfold mbind at 1, M_bind at 1; rewrite H1; exact H2|].
  destruct Hd as (_ & Hq' & Hk & Hin & _ & Hb & Hs).
  assert (refreshQueue w1 = refreshQueue w ∧ inflight w1 = inflight w) as [Hq1 Hi1]
    by (unfold aside in Ha; by injection Ha).
  split_and!; [congruence|done|congruence| |by rewrite Hb]. intros p Hp Hpend.
  rewrite Hs, decide_True; [done|]. rewrite Hq1. split; [done|by apply Hs1].
Qed.

(** ** The request *)

Lemma needsRefresh_pure m w w' :
  kc w' = kc w → now w' = now w →
  needsRefresh m w' = ((needsRefresh m w).1, w').
Proof.
  intros Hk Ht. unfold needsRefresh. destruct (loose_eq _ _); [done|].
  rewrite !bind_gets, Hk. destruct (negb _); [done|].
  destruct (isTokenExpired_pure m w w' Hk Ht) as [<- E].
  rewrite <- E at 3. by destruct (isTokenExpired m w').
Qed.

(** The request a refresh sends now. *)
Definition refreshOf (w : World) : outcome request :=
  url ← ep_token (kc w); refreshRequest url (kc_refreshToken (kc w)) (now w) (kc w).

Definition enqueued (p : nat) (w : World) : World := w <| refreshQueue ::= (λ q, q ++ [p]) |>.

Lemma enqueued_length p w :
  length (refreshQueue (enqueued p w)) = S (length (refreshQueue w)).
Proof. simpl. rewrite length_app. simpl. lia. Qed.

Lemma updateExec_valid p m w :
  native w → (needsRefresh m w).1 = Returns false →
  updateExec p m w = (Returns tt, settle true p (Bool false) w).
Proof.
  intros Hn Hb. unfold updateExec. unfold mbind at 1, M_bind at 1.
  rewrite (needsRefresh_pure m w w), Hb by done. by apply setSuccess_native.
Qed.

Lemma updateExec_refresh p m w r :
  (needsRefresh m w).1 = Returns true → refreshOf w = Returns r →
  updateExec p m w =
    (Returns tt, if decide (refreshQueue w = []) then (send r (enqueued p w)).2 else enqueued p w).
Proof.
  intros Hb Hr. unfold updateExec. unfold mbind at 1, M_bind at 1.
  rewrite (needsRefresh_pure m w w), Hb by done. cbn [negb]. rewrite bind_gets.
  unfold refreshOf in Hr. destruct (ep_token (kc w)) as [url|]; [|done].
  rewrite bind_lift, bind_modify, bind_gets. cbn [id]. simpl in Hr.
  change (upd refreshQueue _ w) with (enqueued p w). rewrite enqueued_length.
  change (now (enqueued p w)) with (now w). rewrite Hr.
  destruct (refreshQueue w) as [|q qs] eqn:Eq.
  - rewrite decide_True by done. done.
  - rewrite decide_False by done. done.
Qed.

(** A promise joins a refresh that is under way without a request of its own. *)
Lemma updateExec_inflight p m w :
  native w → refreshQueue w ≠ [] →
  ∃ o w', updateExec p m w = (o, w') ∧ inflight w' = inflight w ∧
    (refreshQueue w' = refreshQueue w ∨ refreshQueue w' = refreshQueue w ++ [p]).
Proof.
  intros Hn Hq. unfold updateExec. unfold mbind at 1, M_bind at 1.
  rewrite (needsRefresh_pure m w w) by done. destruct (needsRefresh m w).1 as [[]|].
  - cbn [negb]. rewrite bind_gets.
    destruct (ep_token (kc w)); [|rewrite bind_lift_throws; eexists _, _; by split_and!; [..|left]].
    rewrite bind_lift, bind_modify, bind_gets. cbn [id].
    change (upd refreshQueue _ w) with (enqueued p w). rewrite enqueued_length.
    destruct (refreshQueue w) as [|q qs] eqn:Eq; [done|]. eexists _, _.
    split_and!; [done|done|]. simpl. rewrite Eq. by right.
  - cbn [negb]. rewrite setSuccess_native by done. eexists _, _. split; [done|].
    rewrite (others_inflight _ _ (settle_others _ _ _ _)),
      (others_refreshQueue _ _ (settle_others _ _ _ _)). by auto.
  - eexists _, _. by split_and!; [..|left].
Qed.

(** C14: [updateToken] when the session is not checked with an iframe: it returns a
    new promise, which is fulfilled with [false] at once and without a request when
    the token is valid long enough, and otherwise waits in the queue; a request is
    sent only by the call that finds the queue empty. *)
Theorem updateToken_spec m w b r :
  native w → truthy (li_enable (loginIframe w)) = false →
  truthy (kc_refreshToken (kc w)) = true →
  (needsRefresh (js_or m (Num 5)) w).1 = Returns b → refreshOf w = Returns r →
  let p := length (promises w) in
  ∃ w', updateToken m w = (Returns p, w') ∧ kc w' = kc w ∧
    if b then
      state_of w' p = Some Pending ∧ refreshQueue w' = refreshQueue w ++ [p] ∧
      inflight w' = inflight w ++ (if decide (refreshQueue w = []) then [(nextRequest w, r)] else [])
    else
      state_of w' p = Some (Fulfilled (Bool false)) ∧ refreshQueue w' = refreshQueue w ∧
      inflight w' = inflight w.
Proof.
  intros Hn Hl Hrt Hb Hr p. unfold updateToken. unfold mbind at 1, M_bind at 1.
  rewrite createPromise_native by done. fold p.
  rewrite bind_gets. cbn [id].
  change (kc (fresh w)) with (kc w). change (loginIframe (fresh w)) with (loginIframe w).
  rewrite Hrt, Hl. cbn [negb].
  pose proof (needsRefresh_pure (js_or m (Num 5)) w (fresh w) eq_refl eq_refl) as Hb'.
  apply (f_equal fst) in Hb'. cbn [fst] in Hb'. rewrite Hb in Hb'.
  unfold mbind, M_bind. destruct b.
  - rewrite (updateExec_refresh p _ (fresh w) r) by done. eexists. split; [done|].
    change (refreshQueue (fresh w)) with (refreshQueue w).
    destruct (decide (refreshQueue w = [])); (split_and!; [done| |done|]);
      simpl; try (by rewrite List.app_nil_r); try done;
      apply (fresh_state w).
  - rewrite updateExec_valid by (try apply fresh_native; done). eexists. split; [done|].
    pose proof (settle_others true p (Bool false) (fresh w)) as Ho.
    rewrite (others_kc _ _ Ho), (others_refreshQueue _ _ Ho), (others_inflight _ _ Ho).
    split_and!; try done. rewrite settle_state, decide_True; [done|].
    split; [done|apply fresh_state].
Qed.

(** A response with status 200 that is no JSON text leaves the promises in the
    queue, so that no later call of [updateToken] sends a request: the waiting
    calls and all later ones that need a refresh never settle. *)
Theorem refresh_stuck t0 text e w :
  native w → JSON_parse text = Throws e → refreshQueue w ≠ [] →
  onRefreshResponse t0 200 text w = (Throws e, w) ∧
  ∀ p m w', native w' → refreshQueue w' = refreshQueue w →
    inflight (updateExec p m w').2 = inflight w' ∧ refreshQueue (updateExec p m w').2 ≠ [].
Proof.
  intros Hn Hj Hq. split.
  - unfold onRefreshResponse. by rewrite Z.eqb_refl, bind_gets, Hj, bind_lift_throws.
  - intros p m w' Hn' Hq'. destruct (updateExec_inflight p m w') as (o & w2 & -> & Hi & Hr); [done|by rewrite Hq'|].
    split; [done|]. simpl. destruct Hr as [->| ->]; rewrite Hq'; [done|]. by destruct (refreshQueue w).
Qed.

(** C22: [clearToken] logs an instance out that has an access token, whatever else it
    holds and whether or not a login is required (which then is one of the default
    adapter, with a storage that works): no role is granted any more, asking for expiry
    is an error, and [updateToken] rejects, with native promises, without a request.
    Without an access token [clearToken] does nothing, even if there is a refresh
    token. *)
Theorem clearToken_logs_out w m role resource :
  native w → (truthy (kc_loginRequired (kc w)) = true → canLogin w) →
  ∃ w', clearToken w = (Returns tt, w') ∧
    if truthy (kc_token (kc w)) then
      kc_authenticated (kc w') = Bool false ∧
      hasRealmRole role w' = (Returns false, w') ∧
      hasResourceRole role resource w' = (Returns false, w') ∧
      isTokenExpired m w' = (Throws (Thrown "Not authenticated"), w') ∧
      ∃ w'', updateToken m w' = (Returns (length (promises w')), w'') ∧
        state_of w'' (length (promises w')) = Some (Rejected Undefined) ∧ inflight w'' = inflight w
    else w' = w.
Proof.
  intros Hn Hl. destruct (truthy (kc_token (kc w))) eqn:Ht.
  2: { exists w. split; [|done]. unfold clearToken. by rewrite bind_gets, Ht. }
  destruct (clearToken_run w Hn Hl) as (w' & Hc & [Hk Hn' Ha _ _]). rewrite Ht in Hk.
  assert (inflight w' = inflight w) as Hi by (unfold aside in Ha; by injection Ha).
  exists w'. split_and!; [done|by rewrite Hk| | | |].
  - unfold hasRealmRole. by rewrite bind_gets, Hk.
  - unfold hasResourceRole. by rewrite bind_gets, Hk.
  - unfold isTokenExpired. by rewrite bind_gets, Hk.
  - eexists. unfold updateToken. unfold mbind at 1, M_bind at 1.
    rewrite createPromise_native by done. rewrite bind_gets. cbn [id].
    change (kc (fresh w')) with (kc w'). rewrite Hk.
    change (truthy (kc_refreshToken (forget_tokens (kc w)))) with false. cbn [negb].
    unfold mbind, M_bind. rewrite setError_native by (by apply fresh_native). split; [done|].
    rewrite (others_inflight _ _ (settle_others _ _ _ _)), settle_state, decide_True; [done|].
    split; [done|apply fresh_state].
Qed.

(** ** How well the clock of the server is known *)

(** The answer to a refresh or to the exchange of a code, for a request of time [t0]. *)
Definition answerSets (t0 : Z) (text : string) (w w1 : World) : Prop :=
  onRefreshResponse (inject_Z t0) 200 text w = (Returns tt, w1) ∨
  ∃ oauth p, onCodeResponse oauth p (inject_Z t0) 200 text w = (Returns tt, w1).

Lemma authSuccess_kept oauth p t0 a r i f w v w1 :
  native w → (truthy (kc_loginRequired (kc w)) = true → canLogin w) →
  authSuccess oauth p t0 a r i f w = (Returns v, w1) → truthy (kc_token (kc w1)) = true →
  ∃ w', setToken a r i (Some (midpoint t0 w)) w = (Returns tt, w') ∧ kc w1 = kc w'.
Proof.
  intros Hn Hl H Ht.
  destruct (setToken a r i (Some (midpoint t0 w)) w) as [[[]|e] w'] eqn:E.
  2: { unfold authSuccess in H. rewrite bind_gets in H. unfold mbind at 1, M_bind at 1 in H.
       unfold midpoint in E. by rewrite E in H. }
  exists w'. split; [done|]. pose proof (setToken_rest_eq _ _ _ _ _ _ _ E) as Hr.
  pose proof (setToken_settings _ a r i (Some (midpoint t0 w)) w eq_refl) as Hs. rewrite E in Hs.
  destruct (truthy (useNonce w) && invalidNonce (kc w') (claim oauth "storedNonce")) eqn:Hinv.
  - apply andb_true_iff in Hinv as [Hu Hinv].
    destruct (authSuccess_invalid oauth p t0 a r i f w w' Hn) as (w2 & H2 & _ & Hk & _); [|done..|].
    { intros Hreq. apply (canLogin_settings w); [done|done|]. apply Hl. unfold settings in Hs.
      by injection Hs as _ _ <-. }
    rewrite H in H2. injection H2 as _ <-. rewrite Hk in Ht. destruct (truthy (kc_token (kc w'))) eqn:E2; [done|].
    congruence.
  - rewrite (authSuccess_unfold _ _ _ _ _ _ _ _ _ E), Hinv in H. destruct f; simpl in H; [|by injection H as _ <-].
    rewrite bind_bind in H. destruct (callHook_spec onAuthSuccess Undefined w') as (w2 & H2 & Hk2 & Hr2).
    unfold mbind, M_bind in H. rewrite H2, setSuccess_native in H
      by (by apply (rest_native _ _ Hr2), (rest_native _ _ Hr)).
    injection H as _ <-. by rewrite (others_kc _ _ (settle_others _ _ _ _)).
Qed.

(** Either answer sets its tokens with the midpoint between request and answer. *)
Lemma answerSets_token t0 text r w w1 :
  native w → (truthy (kc_loginRequired (kc w)) = true → canLogin w) →
  answerSets t0 text w w1 → JSON_parse text = Returns r → truthy (kc_token (kc w1)) = true →
  ∃ w', setToken (claim r "access_token") (claim r "refresh_token") (claim r "id_token")
          (Some (midpoint (inject_Z t0) w)) w = (Returns tt, w') ∧ kc w1 = kc w'.
Proof.
  intros Hn Hl Ha Hj Ht. destruct (is_nullish r) eqn:Hr.
  { destruct Ha as [H|(oauth & p & H)].
    - unfold onRefreshResponse in H. rewrite Z.eqb_refl, bind_gets, Hj, bind_lift in H. by destruct r.
    - unfold onCodeResponse in H. rewrite Z.eqb_refl, Hj, bind_lift in H. by destruct r. }
  destruct Ha as [H|(oauth & p & H)].
  - unfold onRefreshResponse in H. rewrite Z.eqb_refl, bind_gets, Hj, bind_lift in H.
    rewrite !getp_claim, !bind_lift in H by done. apply bind_returns in H as ([] & w' & Hset & H).
    exists w'. split; [done|].
    destruct (callHook_popAll true (Bool true) onAuthRefreshSuccess w') as (w2 & H2 & _ & _ & Hk & _).
    { by eapply rest_native, Hn; eapply setToken_rest_eq. }
    change (λ p, setSuccess p (Bool true)) with (settleWith true (Bool true)) in H.
    rewrite H2 in H. by injection H as <-.
  - unfold onCodeResponse in H. rewrite Z.eqb_refl, Hj, bind_lift in H.
    rewrite !getp_claim, !bind_lift, bind_gets in H by done. apply bind_returns in H as (v & w2 & H & H').
    injection H' as <-. by eapply authSuccess_kept.
Qed.

(** C6: How far [isTokenExpired] can be off.  The local clock is ahead of the
    server's by an unknown [delta]; a token was requested at local time [t0], by a
    refresh or the exchange of a code, stamped by the server at [t], and its answer
    handled at [now w], which sets the skew.  At any later time until the tokens
    change, with an access token of the answer that was kept, with its [exp] and [iat],
    and a refresh token beside it, a token reported as valid for [m] more seconds is
    accepted by the server for at least that long, less one second and half the round
    trip; one reported as expired has at most that much more left.  Promises are
    native, and where a login is required the instance can send its user there. *)
Theorem isTokenExpired_accuracy m t0 t delta text r tok o exp w w1 w2 :
  native w → (truthy (kc_loginRequired (kc w)) = true → canLogin w) →
  answerSets t0 text w w1 → JSON_parse text = Returns r → claim r "access_token" = Str tok →
  decodeToken (Str tok) = Returns (Obj o) →
  assoc "exp" o = Num exp → assoc "iat" o = Num ((t - delta) / 1000) →
  (0 < t0)%Z → (t0 ≤ t ≤ now w)%Z →
  truthy (kc_token (kc w1)) = true → truthy (kc_refreshToken (kc w1)) = true → kc w2 = kc w1 →
  let left := (1000 * exp - (now w2 - delta))%Z in
  let trip := (now w - t0)%Z in
  ∃ b, isTokenExpired (Num m) w2 = (Returns b, w2) ∧
    if b then (2 * left < 2 * (1000 * m) + 2000 + trip)%Z
    else (2 * left > 2 * (1000 * m) - 2000 - trip)%Z.
Proof.
  intros Hn Hl Ha Hj Htok Hd He Hi Ht0 Ht Hkt Hkr Hk left trip.
  destruct (answerSets_token t0 text r w w1 Hn Hl Ha Hj Hkt) as (w' & Hset & Hk'). rewrite Htok in Hset.
  assert (truthy (Str tok) = true) as Htt.
  { destruct (setToken_fields _ _ _ _ _ _ Hset) as (Ft & _). rewrite Hk', Ft in Hkt.
    unfold kept in Hkt. by destruct (truthy (Str tok)). }
  assert (Qeq_bool (midpoint (inject_Z t0) w) 0 = false) as Hq.
  { destruct (Qeq_bool _ 0) eqn:E; [|done]. apply Qeq_bool_iff in E. unfold midpoint, Qeq in E. simpl in E. lia. }
  destruct (setToken_skew _ _ _ _ _ _ _ _ Hset Htt Hd Hi Hq) as [Hs Hp].
  rewrite <- Hk', <- Hk in Hs, Hp. rewrite <- Hk in Hkr.
  eexists. split; [exact (isTokenExpired_numeric m w2 o exp _ Hp He Hs Hkr)|].
  pose proof (timeSkew_error t0 (now w) t delta _ Ht eq_refl) as Herr. cbv zeta in Herr.
  fold (midpoint (inject_Z t0) w) in Herr. pose proof (ceil_s_bounds (now w2)).
  set (skew := (floor_s _ - _)%Z) in *. unfold left, trip.
  destruct (Z.ltb_spec (exp - ceil_s (now w2) + skew - m) 0); lia.
Qed.

End refresh.
End Refresh.
