(* ===== verification/Init.v ===== *)
(** The constructor of keycloak.js, [loadConfig] and [kc.init]. *)

From S2P Require Import Prelude JsString Uri JsValue Json World Promise Token Storage Urls Adapter Callback Iframe Refresh.
Import JsString Uri JsValue Json World Promise Token Storage Urls Adapter Callback Iframe Refresh.

Module Init.

(** *** The constructor *)

Definition includes_s (s p : string) : bool := negb (indexOf s p =? -1)%Z.

(** The body of the loop over the script elements of the page. *)
Definition scanScript (version : jsval) (src : string) : jsval :=
  if (includes_s src "keycloak.js" || includes_s src "keycloak.min.js") && includes_s src "version="
  then Str (hd "" (split "&" (substring_from src (indexOf src "version=" + 8))))
  else version.

Definition iframeVersionOf (scripts : list string) : jsval := foldl scanScript Undefined scripts.

Definition newLoginIframe : LoginIframe :=
  mkLoginIframe (Bool true) [] (Num 5) false Undefined None.

(** The object [new Keycloak(config)] returns: every property unset. *)
Definition newKc (hooks : hook → bool) (b : Browser) : Kc :=
  mkKc hooks NoEndpoints (iframeVersionOf (b_scripts b))
    Undefined Undefined Undefined Undefined Undefined Undefined Undefined Undefined
    Undefined Undefined Undefined Undefined Undefined Undefined Undefined Undefined
    Undefined Undefined Undefined Undefined Undefined Undefined Undefined None.

Definition newKeycloak (config : jsval) (hooks : hook → bool) (b : Browser) : World :=
  mkWorld (newKc hooks b) config NoAdapter NoStorage [] newLoginIframe (Bool true)
    [] [] [] 0 [] 0 [] [] false [] b.

Section init.
Context {env : Env}.

(** *** [loadConfig] *)

Definition setupOidcEndoints (oidcConfiguration : jsval) : IO unit :=
  modify (λ w, w <| kc -> kc_endpoints :=
    if truthy oidcConfiguration then OidcEndpoints oidcConfiguration else KeycloakEndpoints |>).

(** [(v.credentials || {}).secret] *)
Definition secretOf (v : jsval) : outcome jsval :=
  credentials ← getp v "credentials";
  getp (js_or credentials (Obj [])) "secret".

Definition configRequest (url : string) (handler : xhr_cont) : request :=
  mkRequest "GET" url [("Accept", "application/json")] false None handler.

Definition fileLoaded (status : Z) (responseText responseURL : string) : bool :=
  (status =? 0)%Z && negb (String.eqb responseText "") && starts_with "file:" responseURL.

(** The loop that takes [config.url] from the script element of keycloak.js. *)
Fixpoint scriptUrl (scripts : list string) : option string :=
  match scripts with
  | [] => None
  | src :: scripts' =>
      if includes_s src "keycloak.js"
      then Some (take_s (Z.to_nat (indexOf src "/js/keycloak.js")) src)
      else scriptUrl scripts'
  end.

(** [config.url = ...], when the configuration has no URL. *)
Definition defaultUrl (config : jsval) (scripts : list string) : jsval :=
  match config with
  | Obj o =>
      if truthy (assoc "url" o) then config
      else match scriptUrl scripts with
           | Some u => Obj (obj_set "url" (Str u) o)
           | None => config
           end
  | v => v
  end.

Definition oidcConfigUrl (oidcProvider : string) : string :=
  if String.eqb (charAt oidcProvider (length_s oidcProvider - 1)) "/"
  then oidcProvider +:+ ".well-known/openid-configuration"
  else oidcProvider +:+ "/.well-known/openid-configuration".

(** The branch for a configuration object. *)
Definition loadConfigObject (promise : nat) : IO unit :=
  conf ← gets config;
  clientId ← lift (getp conf "clientId");
  if negb (truthy clientId) then throw (Thrown "clientId missing")
  else
    modify (λ w, w <| kc -> kc_clientId := clientId |>);;
    secret ← lift (secretOf conf);
    modify (λ w, w <| kc -> kc_clientSecret := secret |>);;
    oidcProvider ← lift (getp conf "oidcProvider");
    if negb (truthy oidcProvider) then
      modify (λ w, w <| config := defaultUrl conf (b_scripts (br w)) |>);;
      conf ← gets config;
      realm ← lift (getp conf "realm");
      if negb (truthy realm) then throw (Thrown "realm missing")
      else
        url ← lift (getp conf "url");
        modify (λ w, w <| kc -> kc_authServerUrl := url |> <| kc -> kc_realm := realm |>);;
        setupOidcEndoints Null;;
        setSuccess promise Undefined
    else
      match oidcProvider with
      | Str s => send (configRequest (oidcConfigUrl s) (XOidcConfig promise))
      | _ => setupOidcEndoints oidcProvider;; setSuccess promise Undefined
      end.

Definition loadConfig : IO nat :=
  promise ← createPromise;
  conf ← gets config;
  (if negb (truthy conf) then send (configRequest "keycloak.json" (XConfig promise))
   else match conf with
        | Str s => send (configRequest s (XConfig promise))
        | _ => loadConfigObject promise
        end);;
  mret promise.

Definition onConfigResponse (promise : nat) (status : Z) (responseText responseURL : string) : IO unit :=
  if (status =? 200)%Z || fileLoaded status responseText responseURL then
    conf ← lift (JSON_parse responseText);
    url ← lift (getp conf "auth-server-url");
    realm ← lift (getp conf "realm");
    clientId ← lift (getp conf "resource");
    secret ← lift (secretOf conf);
    modify (λ w, w <| kc -> kc_authServerUrl := url |> <| kc -> kc_realm := realm |>
                   <| kc -> kc_clientId := clientId |> <| kc -> kc_clientSecret := secret |>);;
    setupOidcEndoints Null;;
    setSuccess promise Undefined
  else setError promise Undefined.

Definition onOidcConfigResponse (promise : nat) (status : Z) (responseText responseURL : string) : IO unit :=
  if (status =? 200)%Z || fileLoaded status responseText responseURL then
    conf ← lift (JSON_parse responseText);
    setupOidcEndoints conf;;
    setSuccess promise Undefined
  else setError promise Undefined.

(** *** [onLoad] and [doLogin] *)

Definition doLogin (prompt : bool) (initPromise : nat) : IO unit :=
  p ← login (if prompt then Obj [] else Obj [("prompt", Str "none")]);
  success p (KLoginSuccess initPromise);;
  error p (KLoginError initPromise).

Definition onLoad (initOptions : jsval) (initPromise : nat) : IO unit :=
  mode ← lift (getp initOptions "onLoad");
  if strict_eq mode (Str "check-sso") then
    li ← gets loginIframe;
    if truthy (li_enable li) then
      p ← setupCheckLoginIframe; success p (KSsoIframeReady initPromise)
    else doLogin false initPromise
  else if strict_eq mode (Str "login-required") then doLogin true initPromise
  else throw (Thrown "Invalid value for onLoad").

(** [checkLoginIframe().success(k1).error(k2)] *)
Definition checkThen (k1 k2 : cont) : IO unit :=
  p ← checkLoginIframe; success p k1;; error p k2.

(** *** [processInit] *)

(** [window.history.replaceState({}, null, callback.newUrl)] *)
Definition replaceState (url : jsval) : IO unit :=
  modify (λ w, w <| br -> b_href := to_string url |>);;
  emit (OReplaceState (to_string url)).

(** The branch for tokens given to [kc.init]. *)
Definition initWithTokens (initOptions : jsval) (initPromise : nat) : IO unit :=
  setToken (optp initOptions "token") (optp initOptions "refreshToken")
    (optp initOptions "idToken") None;;
  li ← gets loginIframe;
  if truthy (li_enable li) then
    p ← setupCheckLoginIframe; success p (KTokenIframeReady initPromise)
  else
    p ← updateToken (Num (-1));
    success p (KTokenRefreshed initPromise);;
    error p (KTokenRefreshError initOptions initPromise).

Definition processInit (initOptions : jsval) (initPromise : nat) : IO unit :=
  url ← gets (λ w, b_href (br w));
  callback ← parseCallback url;
  (if truthy callback then replaceState (claim callback "newUrl") else mret tt);;
  if truthy callback && truthy (claim callback "valid") then
    p ← setupCheckLoginIframe;
    success p (KCallbackIframeReady callback initPromise);;
    error p (KCallbackIframeError initPromise)
  else if truthy initOptions then
    if truthy (optp initOptions "token") && truthy (optp initOptions "refreshToken") then
      initWithTokens initOptions initPromise
    else if truthy (optp initOptions "onLoad") then onLoad initOptions initPromise
    else setSuccess initPromise Undefined
  else setSuccess initPromise Undefined.

(** *** [kc.init] *)

Definition builtinAdapter (v : jsval) : bool :=
  existsb (strict_eq v) [Str "default"; Str "cordova"; Str "cordova-native"].

(** [typeof v === "object"], which holds of [null] too. *)
Definition is_object (v : jsval) : bool :=
  match v with Null | Arr _ | Obj _ => true | _ => false end.

Definition chooseAdapter (initOptions : jsval) : IO AdapterKind :=
  let a := optp initOptions "adapter" in
  if truthy initOptions && builtinAdapter a then loadAdapter a
  else if truthy initOptions && is_object a then
    mret (if is_nullish a then NoAdapter else CustomAdapter)
  else
    b ← gets (λ w, b_hasOldCordova (br w) || b_hasCordova (br w));
    loadAdapter (if b : bool then Str "cordova" else Undefined).

(** [kc.responseType] for a flow *)
Definition responseTypeOf (flow : jsval) : outcome jsval :=
  match flow with
  | Str "standard" => Returns (Str "code")
  | Str "implicit" => Returns (Str "id_token token")
  | Str "hybrid" => Returns (Str "code id_token token")
  | _ => Throws (Thrown "Invalid value for flow")
  end.

(** The statements under [if (initOptions)]. *)
Definition readOptions (initOptions : jsval) : IO unit :=
  let o := optp initOptions in
  when (negb (is_undefined (o "useNonce")))
    (modify (λ w, w <| useNonce := o "useNonce" |>));;
  when (negb (is_undefined (o "checkLoginIframe")))
    (modify (λ w, w <| loginIframe -> li_enable := o "checkLoginIframe" |>));;
  when (truthy (o "checkLoginIframeInterval"))
    (modify (λ w, w <| loginIframe -> li_interval := o "checkLoginIframeInterval" |>));;
  when (strict_eq (o "onLoad") (Str "login-required"))
    (modify (λ w, w <| kc -> kc_loginRequired := Bool true |>));;
  when (truthy (o "responseMode"))
    (if strict_eq (o "responseMode") (Str "query") || strict_eq (o "responseMode") (Str "fragment")
     then modify (λ w, w <| kc -> kc_responseMode := o "responseMode" |>)
     else throw (Thrown "Invalid value for responseMode"));;
  when (truthy (o "flow"))
    (t ← lift (responseTypeOf (o "flow"));
     modify (λ w, w <| kc -> kc_responseType := t |> <| kc -> kc_flow := o "flow" |>));;
  when (negb (is_nullish (o "timeSkew")))
    (modify (λ w, w <| kc -> kc_timeSkew := o "timeSkew" |>));;
  when (truthy (o "redirectUri"))
    (modify (λ w, w <| kc -> kc_redirectUri := o "redirectUri" |>)).

(** The defaults after it. *)
Definition defaultOptions (k : Kc) : Kc :=
  let k := if truthy (kc_responseMode k) then k else k <| kc_responseMode := Str "fragment" |> in
  if truthy (kc_responseType k) then k
  else k <| kc_responseType := Str "code" |> <| kc_flow := Str "standard" |>.

Definition init (initOptions : jsval) : IO nat :=
  modify (λ w, w <| kc -> kc_authenticated := Bool false |>);;
  st ← createCallbackStorage;
  modify (λ w, w <| callbackStorage := st |>);;
  a ← chooseAdapter initOptions;
  modify (λ w, w <| adapter := a |>);;
  when (truthy initOptions) (readOptions initOptions);;
  modify (λ w, w <| kc ::= defaultOptions |>);;
  promise ← createPromise;
  initPromise ← createPromise;
  success initPromise (KInitSuccess promise);;
  error initPromise (KInitError promise);;
  configPromise ← loadConfig;
  success configPromise (KProcessInit initOptions initPromise);;
  error configPromise (KConfigError promise);;
  mret promise.

(** ** The configuration *)

(** What a configuration object does to the public object. *)
Definition configured (c : list (string * jsval)) (secret : jsval) (k : Kc) : Kc :=
  k <| kc_clientId := assoc "clientId" c |> <| kc_clientSecret := secret |>
    <| kc_authServerUrl := assoc "url" c |> <| kc_realm := assoc "realm" c |>
    <| kc_endpoints := KeycloakEndpoints |>.

Lemma secretOf_obj c : ∃ secret, secretOf (Obj c) = Returns secret.
Proof.
  unfold secretOf, js_or. cbn [getp mbind outcome_bind].
  destruct (truthy (assoc "credentials" c)) eqn:E; [|by eexists].
  exists (claim (assoc "credentials" c) "secret"). apply getp_claim.
  by destruct (assoc "credentials" c).
Qed.

Lemma configOf_set w c : config (w <| config := c |>) = c.
Proof. done. Qed.

(** Everything but the public object, the promises and the microtasks. *)
Definition surroundings (w : World) :=
  (adapter w, callbackStorage w, refreshQueue w, loginIframe w, useNonce w,
   (inflight w, nextRequest w, trace w, br w)).

Lemma loadConfig_run w c secret :
  native w → config w = Obj c → truthy (assoc "clientId" c) = true →
  truthy (assoc "oidcProvider" c) = false → truthy (assoc "url" c) = true →
  truthy (assoc "realm" c) = true → secretOf (Obj c) = Returns secret →
  ∃ w', loadConfig w = (Returns (length (promises w)), w') ∧
    kc w' = configured c secret (kc w) ∧ surroundings w' = surroundings w ∧
    promises w' = promises w ++ [NativePromise (Fulfilled Undefined) []] ∧
    microtasks w' = microtasks w.
Proof.
  intros Hn Hc Hid Hoidc Hurl Hrealm Hs.
  unfold loadConfig. unfold mbind at 1, M_bind at 1. rewrite createPromise_native by done.
  rewrite bind_gets. change (config (fresh w)) with (config w). rewrite Hc. cbn [truthy negb].
  unfold loadConfigObject. rewrite !bind_bind, bind_gets.
  change (config (fresh w)) with (config w).
  rewrite Hc. cbn [getp]. rewrite !bind_bind, bind_lift, Hid. cbn [negb].
  rewrite !bind_bind, bind_modify, !bind_bind, Hs, bind_lift, !bind_bind, bind_modify, !bind_bind, bind_lift, Hoidc.
  cbn [negb]. unfold defaultUrl.
  rewrite Hurl, !bind_bind, bind_modify, !bind_bind, bind_gets.
  rewrite (configOf_set _ (Obj c)). cbn [getp]. rewrite !bind_bind, bind_lift, Hrealm. cbn [negb].
  rewrite !bind_bind, bind_lift, !bind_bind, bind_modify. unfold setupOidcEndoints.
  rewrite !bind_bind, bind_modify. cbn [truthy].
  unfold mbind, M_bind. rewrite setSuccess_native by (by apply fresh_native).
  eexists. split; [done|].
  set (w0 := upd kc _ _). assert (promises w0 = promises w ++ [NativePromise Pending []]) as Hp by done.
  unfold settle. rewrite Hp, lookup_app_r, Nat.sub_diag by done. simpl.
  split_and!; [done|done| |by rewrite (right_id_L [] (++))].
  rewrite insert_app_r_alt, Nat.sub_diag by done. done.
Qed.

(** A configuration object with a client, a realm and a URL configures the
    instance without a request: the fields are those of the object and the endpoints
    those of the realm. *)
Theorem loadConfig_object w c :
  native w → config w = Obj c → truthy (assoc "clientId" c) = true →
  truthy (assoc "oidcProvider" c) = false → truthy (assoc "url" c) = true →
  truthy (assoc "realm" c) = true →
  ∃ w' secret, loadConfig w = (Returns (length (promises w)), w') ∧
    secretOf (Obj c) = Returns secret ∧ kc w' = configured c secret (kc w) ∧
    state_of w' (length (promises w)) = Some (Fulfilled Undefined) ∧ inflight w' = inflight w.
Proof.
  intros Hn Hc Hid Hoidc Hurl Hrealm. destruct (secretOf_obj c) as [secret Hs].
  destruct (loadConfig_run w c secret) as (w' & H & Hk & Hr & Hp & _); [done..|].
  exists w', secret. split_and!; [done|done|done| |by injection Hr].
  unfold state_of. by rewrite Hp, lookup_app_r, Nat.sub_diag.
Qed.

(** The answer to the request for a configuration file: status 200, or a file
    loaded without a status, configures the instance from the keys of keycloak.json;
    anything else rejects the promise, and [kc.init] with it. *)
Theorem onConfigResponse_spec w p status text url c :
  native w → state_of w p = Some Pending →
  (status = 200%Z ∨ fileLoaded status text url = true →
   JSON_parse text = Returns (Obj c) →
   ∃ w' secret, onConfigResponse p status text url w = (Returns tt, w') ∧
     secretOf (Obj c) = Returns secret ∧
     kc w' = (kc w) <| kc_authServerUrl := assoc "auth-server-url" c |>
               <| kc_realm := assoc "realm" c |> <| kc_clientId := assoc "resource" c |>
               <| kc_clientSecret := secret |> <| kc_endpoints := KeycloakEndpoints |> ∧
     state_of w' p = Some (Fulfilled Undefined)) ∧
  (status ≠ 200%Z ∧ fileLoaded status text url = false →
   ∃ w', onConfigResponse p status text url w = (Returns tt, w') ∧ kc w' = kc w ∧
     state_of w' p = Some (Rejected Undefined)).
Proof.
  intros Hn Hp. unfold onConfigResponse. split.
  - intros Hok Hj. assert ((status =? 200)%Z || fileLoaded status text url = true) as ->
      by (destruct Hok as [->| ->]; [done|apply orb_true_r]).
    destruct (secretOf_obj c) as [secret Hs]. rewrite Hj, bind_lift. cbn [getp].
    rewrite !bind_lift, Hs, bind_lift, bind_modify. unfold setupOidcEndoints. rewrite bind_modify.
    rewrite setSuccess_native by done. eexists _, secret. split_and!; [done|done| |].
    + by rewrite (others_kc _ _ (settle_others _ _ _ _)).
    + by rewrite settle_state, decide_True.
  - intros [Hne ->]. rewrite (proj2 (Z.eqb_neq _ _) Hne). cbn [orb].
    rewrite setError_native by done. eexists. split_and!; [done| |].
    + by rewrite (others_kc _ _ (settle_others _ _ _ _)).
    + by rewrite settle_state, decide_True.
Qed.

(** ** [kc.init] *)

Lemma parseCallback_none w url :
  kc_flow (kc w) = Str "standard" → kc_responseMode (kc w) = Str "fragment" →
  occurs "#" url = false → parseCallback url w = (Returns Undefined, w).
Proof.
  intros Hf Hm Hu. unfold parseCallback. rewrite bind_gets. unfold parseCallbackUrl.
  rewrite Hf, Hm. cbn [supportedParams mbind outcome_bind]. unfold splitCallbackUrl.
  rewrite (indexOf_absent "#" url Hu). cbn [strict_eq].
  change (String.eqb "fragment" "query") with false. cbn [andb].
  change (negb (-1 =? -1)%Z) with false. rewrite andb_false_r. done.
Qed.

(** [processInit] reports a value of [onLoad] it does not know by an exception
    and by nothing else: the state is as before, so that the promise of [kc.init] is
    left as it was, pending. *)
Theorem processInit_invalid_onLoad w o ip :
  kc_flow (kc w) = Str "standard" → kc_responseMode (kc w) = Str "fragment" →
  occurs "#" (b_href (br w)) = false → truthy (assoc "token" o) = false →
  truthy (assoc "onLoad" o) = true →
  assoc "onLoad" o ≠ Str "check-sso" → assoc "onLoad" o ≠ Str "login-required" →
  processInit (Obj o) ip w = (Throws (Thrown "Invalid value for onLoad"), w).
Proof.
  intros Hf Hm Hu Ht Hl H1 H2. unfold processInit. rewrite bind_gets.
  unfold mbind at 1, M_bind at 1. rewrite parseCallback_none by done.
  cbn [truthy andb]. rewrite bind_ret. unfold optp. cbn [truthy getp]. rewrite Ht, Hl. cbn [andb].
  unfold onLoad. cbn [getp]. rewrite bind_lift.
  assert (∀ s, assoc "onLoad" o ≠ Str s → strict_eq (assoc "onLoad" o) (Str s) = false) as Hse.
  { intros s Hs. destruct (assoc "onLoad" o); try done. simpl.
    apply String.eqb_neq. congruence. }
  by rewrite !Hse.
Qed.

End init.
End Init.
