(* ===== verification/EventLoop.v ===== *)
(** The browser's event loop around one [Keycloak] instance.

    [dispatch] is the code of every callback the library registers; [callFuel] ties
    the knot for legacy promises, which call back from inside the library.  An
    [event] is a call of the application, a microtask, a response, a timer, a
    message, or an event of an iframe, an in-app browser window or a universal
    link; [handle] is the code the library runs for it.  An exception that leaves a
    handler is reported by the browser and the state it left stays. *)

From S2P Require Import Prelude JsString Uri JsValue World Promise Token Storage Urls Adapter Callback Iframe Refresh Init.
Import JsString Uri JsValue World Promise Token Storage Urls Adapter Callback Iframe Refresh Init.

Module EventLoop.

Section dispatch.
Context {env : Env}.

Definition dispatch (k : cont) (v : jsval) : IO unit :=
  match k with
  | KInitSuccess promise =>
      a ← gets (λ w, kc_authenticated (kc w));
      callHook onReady a;;
      setSuccess promise a
  | KInitError promise => setError promise v
  | KProcessInit initOptions initPromise => processInit initOptions initPromise
  | KConfigError promise => setError promise Undefined
  | KLoginSuccess initPromise => setSuccess initPromise Undefined
  | KLoginError initPromise => setError initPromise Undefined
  | KSsoIframeReady initPromise => checkThen (KSsoUnchanged initPromise) (KSsoChanged initPromise)
  | KSsoUnchanged initPromise => doLogin false initPromise
  | KSsoChanged initPromise => setSuccess initPromise Undefined
  | KCallbackIframeReady oauth initPromise => processCallback oauth initPromise
  | KCallbackIframeError initPromise => setError initPromise Undefined
  | KTokenIframeReady initPromise => checkThen (KTokenUnchanged initPromise) (KTokenChanged initPromise)
  | KTokenUnchanged initPromise | KTokenRefreshed initPromise =>
      callHook onAuthSuccess Undefined;; setSuccess initPromise Undefined
  | KTokenChanged initPromise =>
      setToken Null Null Null None;; setSuccess initPromise Undefined
  | KTokenRefreshError initOptions initPromise =>
      callHook onAuthError Undefined;;
      if truthy (optp initOptions "onLoad") then onLoad initOptions initPromise
      else setError initPromise Undefined
  | KUpdateExec promise minValidity => updateExec promise minValidity
  | KUpdateError promise => setError promise Undefined
  | KUser id => emit (OUser id v)
  end.

(** *** Events *)

Inductive api :=
  | ApiInit (initOptions : jsval)
  | ApiLogin (options : jsval)
  | ApiLogout (options : jsval)
  | ApiRegister (options : jsval)
  | ApiAccountManagement
  | ApiUpdateToken (minValidity : jsval)
  | ApiClearToken
  | ApiLoadUserProfile
  | ApiLoadUserInfo
  | ApiCreateLoginUrl (options : jsval)
  | ApiCreateRegisterUrl (options : jsval)
  | ApiCreateLogoutUrl (options : jsval)
  | ApiCreateAccountUrl (options : jsval)
  | ApiSuccess (promise id : nat)
  | ApiError (promise id : nat).

Inductive window_event :=
  | LoadStart (url : string)
  | LoadError (url : string)
  | Exit.

Inductive event :=
  | EvApi (a : api)
  | EvMicrotask
  | EvResponse (id : nat) (status : Z) (responseText responseURL : string)
  | EvTimer (handle : nat)
  | EvMessage (origin : string) (fromIframe : bool) (data : jsval)
  | EvIframeLoad
  | EvWindow (id : nat) (e : window_event)
  | EvLink (i : nat) (url : string)
  | EvClock (elapsed : nat).

Definition handleApi (a : api) : IO unit :=
  match a with
  | ApiInit o => _ ← init o; mret tt
  | ApiLogin o => _ ← login o; mret tt
  | ApiLogout o => _ ← logout o; mret tt
  | ApiRegister o => _ ← register o; mret tt
  | ApiAccountManagement => _ ← accountManagement; mret tt
  | ApiUpdateToken m => _ ← updateToken m; mret tt
  | ApiClearToken => clearToken
  | ApiLoadUserProfile => _ ← loadUserProfile; mret tt
  | ApiLoadUserInfo => _ ← loadUserInfo; mret tt
  | ApiCreateLoginUrl o => _ ← createLoginUrl o; mret tt
  | ApiCreateRegisterUrl o => _ ← createRegisterUrl o; mret tt
  | ApiCreateLogoutUrl o => _ ← createLogoutUrl o; mret tt
  | ApiCreateAccountUrl o => _ ← createAccountUrl o; mret tt
  | ApiSuccess p id => success p (KUser id)
  | ApiError p id => error p (KUser id)
  end.

Definition handleResponse (k : xhr_cont) (status : Z) (responseText responseURL : string) : IO unit :=
  match k with
  | XProfile p => onProfileResponse p status responseText
  | XUserInfo p => onUserInfoResponse p status responseText
  | XRefresh t => onRefreshResponse t status responseText
  | XCode oauth p t => onCodeResponse oauth p t status responseText
  | XConfig p => onConfigResponse p status responseText responseURL
  | XOidcConfig p => onOidcConfigResponse p status responseText responseURL
  end.

Definition handleTimer (t : timer) : IO unit :=
  match t with
  | TokenExpiredTimer => callHook onTokenExpired Undefined
  | CheckTimer => check
  end.

(** *** The listeners of the Cordova adapters *)

Definition setWindow (i : nat) (f : app_window → app_window) : IO unit :=
  modify (λ w, w <| windows ::= (λ l, alter f i l) |>).

(** [closeBrowser] of a login window *)
Definition closeBrowser (i : nat) : IO unit :=
  setWindow i (λ x, x <| win_closed := true |>);; emit (OCloseWindow i).

(** [event.url.indexOf('http://localhost') == 0] *)
Definition isLocalhost (url : string) : bool := (indexOf url "http://localhost" =? 0)%Z.

(** The statements both listeners of a login window run for the redirect. *)
Definition finishLogin (i promise : nat) (url : string) : IO unit :=
  callback ← parseCallback url;
  processCallback callback promise;;
  closeBrowser i;;
  setWindow i (λ x, x <| win_flag := true |>).

Definition handleWindow (i : nat) (win : app_window) (e : window_event) : IO unit :=
  match win_role win, e with
  | LoginWindow p, LoadStart url => when (isLocalhost url) (finishLogin i p url)
  | LoginWindow p, LoadError url =>
      when (negb (win_flag win))
        (if isLocalhost url then finishLogin i p url
         else setError p Undefined;; closeBrowser i)
  | LoginWindow p, Exit =>
      when (negb (win_closed win)) (setError p (Obj [("reason", Str "closed_by_user")]))
  | LogoutWindow p, LoadStart url => when (isLocalhost url) (emit (OCloseWindow i))
  | LogoutWindow p, LoadError url =>
      (if isLocalhost url then mret tt else setWindow i (λ x, x <| win_flag := true |>));;
      emit (OCloseWindow i)
  | LogoutWindow p, Exit =>
      if win_flag win then setError p Undefined
      else clearToken;; setSuccess p Undefined
  | AccountWindow, LoadStart url => when (isLocalhost url) (emit (OCloseWindow i))
  | AccountWindow, _ => mret tt
  end.

Definition handleLink (h : link_handler) (url : string) : IO unit :=
  modify (λ w, w <| links := [] |>);;
  emit OCloseTab;;
  match h with
  | LinkLogin p => oauth ← parseCallback url; processCallback oauth p
  | LinkLogout p => clearToken;; setSuccess p Undefined
  end.

(** *** One turn of the loop *)

Definition handle (e : event) : IO unit :=
  w ← gets id;
  match e with
  | EvApi a => handleApi a
  | EvMicrotask =>
      match microtasks w with
      | (k, v) :: q => modify (λ w, w <| microtasks := q |>);; dispatch k v
      | [] => mret tt
      end
  | EvResponse i status text url =>
      match list_find (λ x, x.1 = i) (inflight w) with
      | Some (n, (_, r)) =>
          modify (λ w, w <| inflight ::= delete n |>);;
          handleResponse (req_cont r) status text url
      | None => mret tt
      end
  | EvTimer h =>
      match list_find (λ x, x.1 = h) (timers w) with
      | Some (n, (_, (t, _))) => modify (λ w, w <| timers ::= delete n |>);; handleTimer t
      | None => mret tt
      end
  | EvMessage origin fromIframe data =>
      when (messageListener w) (messageCallback origin fromIframe data)
  | EvIframeLoad =>
      match li_onload (loginIframe w) with Some p => onIframeLoad p | None => mret tt end
  | EvWindow i ev =>
      match windows w !! i with Some win => handleWindow i win ev | None => mret tt end
  | EvLink i url =>
      match links w !! i with Some h => handleLink h url | None => mret tt end
  | EvClock d => modify (λ w, w <| br -> b_now ::= (λ t, t + Z.of_nat d)%Z |>)
  end.

(** Microtasks run before any other event of the browser; the application may be
    called back, and call the library, from a microtask. *)
Definition enabled (w : World) (e : event) : Prop :=
  match e with
  | EvApi _ | EvMicrotask => True
  | _ => microtasks w = []
  end.

Inductive step (w : World) : World → Prop :=
  | step_handle e : enabled w e → step w (handle e w).2.

End dispatch.

(** *** Tying the knot *)

(** The depth to which callbacks of legacy promises may nest. *)
Definition callDepth : nat := 64.

Fixpoint callFuel (a : AdapterOps) (fuel : nat) (k : cont) (v : jsval) : IO unit :=
  match fuel with
  | 0 => throw OutOfFuel
  | S n => @dispatch (mkEnv (callFuel a n) a) k v
  end.

Definition browserEnv (a : AdapterOps) : Env := mkEnv (callFuel a callDepth) a.

(** Run a list of events. *)
Definition run (a : AdapterOps) (es : list event) (w : World) : World :=
  foldl (λ w e, (@handle (browserEnv a) e w).2) w es.

End EventLoop.
