(* ===== verification/Invariants.v ===== *)
(** Invariants of the event loop.

    [Admissible P] is what a state predicate has to promise so that every handler
    of the library preserves it: that it reads the promises, the queues and the
    requests in flight only, and that the few operations that write those preserve
    it.  [handle_preserves] is proved against this interface once; the two
    invariants of the file are its instances. *)

From S2P Require Import Prelude JsString Uri JsValue World Promise Token Uuid Storage Urls Adapter Callback Iframe Refresh Init EventLoop.
Import JsString Uri JsValue World Promise Token Uuid Storage Urls Adapter Callback Iframe Refresh Init EventLoop.

Module Invariants.

(** The part of the state the invariants are about. *)
Definition core (w : World) :=
  (promises w, microtasks w, refreshQueue w, inflight w, nextRequest w, b_hasPromise (br w)).

Definition is_refresh (r : request) : bool :=
  match req_cont r with XRefresh _ => true | _ => false end.

(** An adapter of the application keeps [P]. *)
Class AdapterKeeps (P : World → Prop) (a : AdapterOps) : Prop := {
  keeps_login o : preserves P (a_login a o);
  keeps_logout o : preserves P (a_logout a o);
  keeps_register o : preserves P (a_register a o);
  keeps_accountManagement : preserves P (a_accountManagement a);
  keeps_redirectUri o : preserves P (a_redirectUri a o)
}.

(** [P] reads the core only, and survives new promises. *)
Class KeepsCore (env : Env) (P : World → Prop) : Prop := {
  adm_core w w' : core w' = core w → P w → P w';
  adm_createPromise : preserves P createPromise;
  adm_custom :: AdapterKeeps P custom
}.

(** [P] also survives settling, and requests that are not refreshes. *)
Class Settles (env : Env) (P : World → Prop) : Prop := {
  adm_keepsCore :: KeepsCore env P;
  adm_setSuccess p v : preserves P (setSuccess p v);
  adm_setError p v : preserves P (setError p v);
  adm_send r : is_refresh r = false → preserves P (send r)
}.

(** [P] also survives new reactions. *)
Class Keeps (env : Env) (P : World → Prop) : Prop := {
  adm_settles :: Settles env P;
  adm_success p k : preserves P (success p k);
  adm_error p k : preserves P (error p k)
}.

(** [P] also survives the operations on the queues and the requests. *)
Class Admissible (env : Env) (P : World → Prop) : Prop := {
  adm_updateExec p m : preserves P (updateExec p m);
  adm_microtask w t q : microtasks w = t :: q → P w → P (w <| microtasks := q |>);
  adm_deliver w n i r :
    inflight w !! n = Some (i, r) → is_refresh r = false → P w → P (w <| inflight ::= delete n |>);
  adm_refreshed w n i r t status text :
    inflight w !! n = Some (i, r) → req_cont r = XRefresh t → P w →
    P (onRefreshResponse t status text (w <| inflight ::= delete n |>)).2
}.

Section keeps_core.
Context {env : Env} (P : World → Prop) {kp : KeepsCore env P}.

Lemma keeps_core f : (∀ w, core (f w) = core w) → preserves P (modify f).
Proof. intros Hf. apply preserves_modify. intros w. by apply adm_core. Qed.

Lemma keeps_rest {A} (m : IO A) : (∀ r, preserves (λ w, rest w = r) m) → preserves P m.
Proof.
  intros Hm w HP. specialize (Hm (rest w) w eq_refl).
  eapply adm_core; [|exact HP]. unfold rest in Hm. injection Hm as ? ? ? Hq ? ? Hp Hm Hi Hr ? ? ? Hb.
  unfold core. congruence.
Qed.

#[local] Ltac same_core := by intros; eapply adm_core; [|eassumption].
#[local] Ltac keep := preserve same_core.

Lemma keeps_emit o : preserves P (emit o).
Proof. unfold emit. keep. Qed.

Lemma keeps_callHook h v : preserves P (callHook h v).
Proof. unfold callHook, emit. keep. Qed.

Lemma keeps_navigate u : preserves P (navigate u).
Proof. unfold navigate, emit. keep. Qed.

Lemma keeps_setTimeout t d : preserves P (setTimeout t d).
Proof. unfold setTimeout. keep. Qed.

Lemma keeps_setToken t r i tl : preserves P (setToken t r i tl).
Proof. apply keeps_rest. intros. apply setToken_rest. Qed.

#[local] Hint Resolve keeps_emit keeps_callHook keeps_navigate keeps_setTimeout keeps_setToken
  adm_createPromise
  keeps_login keeps_logout keeps_register keeps_accountManagement keeps_redirectUri adm_custom : kc.

(** *** Storage and URLs *)

Lemma keeps_withLocalStorage f : preserves P (withLocalStorage f).
Proof. unfold withLocalStorage. keep. Qed.

Lemma keeps_readLocalStorage : preserves P readLocalStorage.
Proof. unfold readLocalStorage. keep. Qed.
#[local] Hint Resolve keeps_withLocalStorage keeps_readLocalStorage : kc.

Lemma keeps_clearExpired : preserves P clearExpired.
Proof. unfold clearExpired. keep. Qed.
#[local] Hint Resolve keeps_clearExpired : kc.

Lemma keeps_setCookie k v e : preserves P (setCookie k v e).
Proof. unfold setCookie, assignCookie. keep. Qed.
#[local] Hint Resolve keeps_setCookie : kc.

Lemma keeps_storage_get s : preserves P (storage_get s).
Proof. unfold storage_get, local_get, cookie_get, getCookie. keep. Qed.

Lemma keeps_storage_add s : preserves P (storage_add s).
Proof. unfold storage_add, local_add, cookie_add. keep. Qed.

Lemma keeps_createCallbackStorage : preserves P createCallbackStorage.
Proof. unfold createCallbackStorage, newLocalStorage. keep. Qed.
#[local] Hint Resolve keeps_storage_get keeps_storage_add keeps_createCallbackStorage : kc.

Lemma keeps_randomDigits n : preserves P (randomDigits n).
Proof.
  induction n as [|n IH]; simpl; [apply preserves_ret|].
  unfold randomDigit, random. keep.
Qed.

Lemma keeps_createUUID : preserves P createUUID.
Proof. pose proof keeps_randomDigits. unfold createUUID. keep. Qed.
#[local] Hint Resolve keeps_createUUID : kc.

Lemma keeps_redirect o : preserves P (adapter_redirectUri o).
Proof.
  unfold adapter_redirectUri, default_redirectUri, cordova_redirectUri, cordovaNative_redirectUri. keep.
Qed.
#[local] Hint Resolve keeps_redirect : kc.

Lemma keeps_createLoginUrl o : preserves P (createLoginUrl o).
Proof. unfold createLoginUrl. keep. Qed.

Lemma keeps_createLogoutUrl o : preserves P (createLogoutUrl o).
Proof. unfold createLogoutUrl. keep. Qed.

Lemma keeps_createAccountUrl o : preserves P (createAccountUrl o).
Proof. unfold createAccountUrl. keep. Qed.
#[local] Hint Resolve keeps_createLoginUrl keeps_createLogoutUrl keeps_createAccountUrl : kc.

Lemma keeps_createRegisterUrl o : preserves P (createRegisterUrl o).
Proof. unfold createRegisterUrl. keep. Qed.
#[local] Hint Resolve keeps_createRegisterUrl : kc.

(** *** Adapters *)

Lemma keeps_adapterOps a : AdapterKeeps P (adapterOps a).
Proof.
  destruct a; [constructor..|apply adm_custom];
    unfold adapterOps, a_login, a_logout, a_register, a_accountManagement, a_redirectUri,
      default_login, default_logout, default_register, default_accountManagement,
      default_redirectUri, cordova_login, cordova_logout, cordova_register,
      cordova_accountManagement, cordova_redirectUri, cordovaNative_login, cordovaNative_logout,
      cordovaNative_register, cordovaNative_accountManagement, cordovaNative_redirectUri,
      cordovaOpenWindowWrapper, subscribe; keep.
Qed.
#[local] Hint Resolve keeps_adapterOps : kc.

Lemma keeps_kc_login o : preserves P (login o).
Proof. unfold login. keep. Qed.
#[local] Hint Resolve keeps_kc_login : kc.

Lemma keeps_clearToken : preserves P clearToken.
Proof. unfold clearToken. keep. Qed.

End keeps_core.

#[export] Hint Resolve keeps_emit keeps_callHook keeps_navigate keeps_setTimeout keeps_setToken
  keeps_storage_get keeps_storage_add keeps_createCallbackStorage keeps_createLoginUrl
  keeps_createRegisterUrl keeps_createLogoutUrl keeps_createAccountUrl keeps_adapterOps
  keeps_kc_login keeps_clearToken adm_createPromise adm_setSuccess adm_setError
  adm_success adm_error keeps_login keeps_logout keeps_register keeps_accountManagement
  keeps_redirectUri : kc.
#[export] Hint Extern 0 (KeepsCore _ _) => apply _ : kc.
#[export] Hint Extern 0 (Settles _ _) => apply _ : kc.
#[export] Hint Extern 0 (AdapterKeeps _ custom) => apply _ : kc.

(** ** The operations that register no reaction *)

Section settles.
Context {env : Env} (P : World → Prop) {kp : Settles env P}.

#[local] Ltac same_core := by intros; eapply adm_core; [|eassumption].
#[local] Ltac keep := preserve same_core.

(** A response to a refresh, for a predicate that does not read the queue. *)
Lemma keeps_onRefreshResponse t status text :
  (∀ w q, P w → P (w <| refreshQueue := q |>)) → preserves P (onRefreshResponse t status text).
Proof.
  intros Hq.
  assert (∀ f n, (∀ p, preserves P (f p)) → preserves P (popQueue n f)) as Hpop.
  { intros f n Hf. induction n as [|n IH]; simpl; keep; apply preserves_modify; intros; by apply Hq. }
  assert (∀ f, (∀ p, preserves P (f p)) → preserves P (popAll f)) as Hall
    by (intros; unfold popAll; keep; by apply Hpop).
  unfold onRefreshResponse. keep; apply Hall; keep.
Qed.

(** *** Requests that are not refreshes *)

Lemma keeps_codeRequest o p t k :
  preserves P (r ← lift (codeRequest o p t k); send r).
Proof.
  intros w HP. destruct (codeRequest o p t k) as [r|] eqn:E; [|done].
  rewrite bind_lift. apply adm_send; [|done]. unfold codeRequest in E.
  destruct (ep_token k); [|done]. simpl in E. by destruct (clientAuth k) as [[]|]; simplify_eq/=.
Qed.

Lemma keeps_send_bearer u k h :
  (∀ t, h ≠ XRefresh t) → preserves P (send (bearerRequest u k h)).
Proof. intros Hh. apply adm_send. by destruct h; [..|edestruct Hh| | |]. Qed.

Lemma keeps_send_config u h :
  (∀ t, h ≠ XRefresh t) → preserves P (send (configRequest u h)).
Proof. intros Hh. apply adm_send. by destruct h; [..|edestruct Hh| | |]. Qed.
#[local] Hint Resolve keeps_codeRequest keeps_send_bearer keeps_send_config : kc.
#[local] Hint Extern 1 (∀ _, _ ≠ XRefresh _) => done : kc.

(** *** The redirect *)

Lemma keeps_parseCallback u : preserves P (parseCallback u).
Proof. unfold parseCallback. keep. Qed.
#[local] Hint Resolve keeps_parseCallback : kc.

Lemma keeps_authSuccess o p t a r i f : preserves P (authSuccess o p t a r i f).
Proof. unfold authSuccess. keep. Qed.
#[local] Hint Resolve keeps_authSuccess : kc.

Lemma keeps_processCallback o p : preserves P (processCallback o p).
Proof. unfold processCallback. keep. Qed.

Lemma keeps_onCodeResponse o p t s x : preserves P (onCodeResponse o p t s x).
Proof. unfold onCodeResponse. keep. Qed.
#[local] Hint Resolve keeps_processCallback keeps_onCodeResponse : kc.

(** *** The status iframe, the profile, the configuration *)

Lemma keeps_checkLoginIframe : preserves P checkLoginIframe.
Proof. unfold checkLoginIframe. keep. Qed.

Lemma keeps_setupCheckLoginIframe : preserves P setupCheckLoginIframe.
Proof. unfold setupCheckLoginIframe. keep. Qed.
#[local] Hint Resolve keeps_checkLoginIframe keeps_setupCheckLoginIframe : kc.

Lemma keeps_onIframeLoad p : preserves P (onIframeLoad p).
Proof. unfold onIframeLoad. keep. Qed.

Lemma keeps_check : preserves P check.
Proof. unfold check. keep. Qed.

Lemma keeps_messageCallback o f d : preserves P (messageCallback o f d).
Proof. unfold messageCallback, takeCallbacks. keep. Qed.

Lemma keeps_profile :
  preserves P loadUserProfile ∧ preserves P loadUserInfo ∧
  (∀ p s x, preserves P (onProfileResponse p s x)) ∧
  (∀ p s x, preserves P (onUserInfoResponse p s x)).
Proof.
  unfold loadUserProfile, loadUserInfo, onProfileResponse, onUserInfoResponse.
  split_and!; keep.
Qed.

Lemma keeps_setupOidcEndoints c : preserves P (setupOidcEndoints c).
Proof. unfold setupOidcEndoints. keep. Qed.
#[local] Hint Resolve keeps_setupOidcEndoints : kc.

Lemma keeps_loadConfig : preserves P loadConfig.
Proof. unfold loadConfig, loadConfigObject. keep. Qed.

Lemma keeps_onConfigResponse p s x u : preserves P (onConfigResponse p s x u).
Proof. unfold onConfigResponse. keep. Qed.

Lemma keeps_onOidcConfigResponse p s x u : preserves P (onOidcConfigResponse p s x u).
Proof. unfold onOidcConfigResponse. keep. Qed.

Lemma keeps_readOptions o : preserves P (readOptions o).
Proof. unfold readOptions. keep. Qed.

Lemma keeps_chooseAdapter o : preserves P (chooseAdapter o).
Proof. unfold chooseAdapter, loadAdapter, disableIframe. keep. Qed.

(** *** The listeners of windows and links *)

Lemma keeps_handleWindow i w e : preserves P (handleWindow i w e).
Proof. unfold handleWindow, finishLogin, closeBrowser, setWindow. keep. Qed.

Lemma keeps_handleLink h u : preserves P (handleLink h u).
Proof. unfold handleLink. keep. Qed.

End settles.

#[export] Hint Resolve keeps_codeRequest keeps_send_bearer keeps_send_config keeps_parseCallback
  keeps_authSuccess keeps_processCallback keeps_onCodeResponse keeps_checkLoginIframe
  keeps_setupCheckLoginIframe keeps_onIframeLoad keeps_check keeps_messageCallback
  keeps_setupOidcEndoints keeps_loadConfig keeps_onConfigResponse keeps_onOidcConfigResponse
  keeps_readOptions keeps_chooseAdapter keeps_handleWindow keeps_handleLink : kc.

(** ** The operations that register reactions, and the loop *)

Section admissible.
Context {env : Env} (P : World → Prop) {kp : Keeps env P} {adm : Admissible env P}.
#[local] Hint Resolve adm_updateExec : kc.

#[local] Ltac same_core := by intros; eapply adm_core; [|eassumption].
#[local] Ltac keep := preserve same_core.

Lemma keeps_updateToken m : preserves P (updateToken m).
Proof. unfold updateToken. keep. Qed.
#[local] Hint Resolve keeps_updateToken : kc.

(** *** [kc.init] *)

Lemma keeps_doLogin b p : preserves P (doLogin b p).
Proof. unfold doLogin. keep. Qed.
#[local] Hint Resolve keeps_doLogin : kc.

Lemma keeps_onLoad o p : preserves P (onLoad o p).
Proof. unfold onLoad. keep. Qed.

Lemma keeps_checkThen a b : preserves P (checkThen a b).
Proof. unfold checkThen. keep. Qed.
#[local] Hint Resolve keeps_onLoad keeps_checkThen : kc.

Lemma keeps_processInit o p : preserves P (processInit o p).
Proof. unfold processInit, replaceState, initWithTokens. keep. Qed.
#[local] Hint Resolve keeps_processInit : kc.

Lemma keeps_init o : preserves P (init o).
Proof. unfold init. keep. Qed.
#[local] Hint Resolve keeps_init : kc.

(** *** The loop *)

Lemma keeps_dispatch k v : preserves P (dispatch k v).
Proof. destruct k; unfold dispatch; keep. Qed.
#[local] Hint Resolve keeps_dispatch : kc.

Lemma keeps_handleApi a : preserves P (handleApi a).
Proof.
  destruct (keeps_profile P) as (? & ? & _).
  destruct a; unfold handleApi, logout, register, accountManagement; keep.
Qed.

#[local] Hint Resolve keeps_handleApi : kc.

Lemma keeps_handleResponse w n i r status text url :
  inflight w !! n = Some (i, r) → P w →
  P (handleResponse (req_cont r) status text url (w <| inflight ::= delete n |>)).2.
Proof.
  intros Hn HP. destruct (keeps_profile P) as (_ & _ & Hpr & Hui).
  destruct (req_cont r) eqn:Hr; simpl; [..| | |];
    try (by eapply adm_refreshed);
    (assert (P (w <| inflight ::= delete n |>)) as HP'
       by (eapply adm_deliver; [done| |done]; unfold is_refresh; by rewrite Hr));
    first [by apply Hpr | by apply Hui | by apply (keeps_onCodeResponse P)
          | by apply (keeps_onConfigResponse P) | by apply (keeps_onOidcConfigResponse P)].
Qed.

(** Every event preserves an admissible predicate. *)
Lemma handle_preserves e : preserves P (handle e).
Proof.
  intros w HP. unfold handle. rewrite bind_gets. cbn [id].
  destruct e as [a| |i st tx url|h|o f d| |i ev|i url|d].
  - by apply keeps_handleApi.
  - destruct (microtasks w) as [|[k v] q] eqn:Hq; [done|]. rewrite bind_modify.
    apply keeps_dispatch. by eapply adm_microtask.
  - destruct (list_find _ _) as [[n [j r]]|] eqn:Hf; [|done]. rewrite bind_modify.
    apply list_find_Some in Hf as (Hn & _ & _). by eapply keeps_handleResponse.
  - destruct (list_find _ _) as [[n [j [t d]]]|] eqn:Hf; [|done]. rewrite bind_modify.
    assert (P (w <| timers ::= delete n |>)) by (by eapply adm_core; [|exact HP]).
    destruct t; [by apply (keeps_callHook P) | by apply (keeps_check P)].
  - destruct (messageListener w); [|done]. by apply (keeps_messageCallback P).
  - destruct (li_onload _); [|done]. by apply (keeps_onIframeLoad P).
  - destruct (windows w !! i); [|done]. by apply (keeps_handleWindow P).
  - destruct (links w !! i); [|done]. by apply (keeps_handleLink P).
  - by eapply adm_core; [|exact HP].
Qed.

End admissible.

(** ** What the application's adapter may do *)

(** An adapter of the application uses the public interface: it may make promises
    and navigate, but the queue, the requests and the promises that exist are the
    library's. *)
Definition polite_op {A} (m : IO A) : Prop := ∀ w, native w →
  native (m w).2 ∧ refreshQueue (m w).2 = refreshQueue w ∧ inflight (m w).2 = inflight w ∧
  ∀ p st, state_of w p = Some st → state_of (m w).2 p = Some st.

Class Polite (a : AdapterOps) : Prop := {
  polite_login o : polite_op (a_login a o);
  polite_logout o : polite_op (a_logout a o);
  polite_register o : polite_op (a_register a o);
  polite_accountManagement : polite_op (a_accountManagement a);
  polite_redirectUri o : polite_op (a_redirectUri a o)
}.

Lemma polite_keeps (P : World → Prop) a :
  (∀ A (m : IO A), polite_op m → preserves P m) → Polite a → AdapterKeeps P a.
Proof. intros HP []. constructor; intros; by apply HP. Qed.

Section loop.
Context {env : Env} {polite : Polite custom}.

Lemma state_of_native w w' :
  promises w' = promises w → b_hasPromise (br w') = b_hasPromise (br w) →
  (native w → native w') ∧ ∀ p, state_of w' p = state_of w p.
Proof. intros Hp Hb. unfold native, state_of. by rewrite Hp, Hb. Qed.

Lemma fresh_state_old w p st : state_of w p = Some st → state_of (fresh w) p = Some st.
Proof.
  unfold state_of. simpl. destruct (promises w !! p) as [q|] eqn:E; [|done].
  by erewrite lookup_app_l_Some.
Qed.

Lemma preserves_needsRefresh (P : World → Prop) m : preserves P (needsRefresh m).
Proof. intros w HP. by rewrite (needsRefresh_pure m w w). Qed.

(** ** One refresh at a time *)

(** The refresh requests in flight. *)
Definition refreshes (w : World) : nat := length (filter is_refresh (inflight w).*2).

(** No refresh is in flight. *)
Definition idle (w : World) : Prop := native w ∧ refreshes w = 0.

(** At most one is, and then somebody waits for it. *)
Definition singleRefresh (w : World) : Prop :=
  native w ∧ refreshes w ≤ 1 ∧ (refreshes w = 1 → refreshQueue w ≠ []).

Lemma refreshes_send r w :
  refreshes (send r w).2 = refreshes w + (if is_refresh r then 1 else 0).
Proof.
  unfold refreshes, send. run_io. rewrite fmap_app, filter_app, length_app. simpl.
  unfold filter at 2. simpl. case_decide as H; destruct (is_refresh r); done.
Qed.

Lemma refreshes_delete w n i r :
  inflight w !! n = Some (i, r) →
  refreshes w = refreshes (w <| inflight ::= delete n |>) + (if is_refresh r then 1 else 0).
Proof.
  intros Hn. unfold refreshes. simpl. rewrite delete_take_drop.
  rewrite <- (take_drop_middle _ _ _ Hn) at 1.
  rewrite !fmap_app, fmap_cons, !filter_app, !length_app, filter_cons. simpl.
  case_decide as H; destruct (is_refresh r); try done; simpl; lia.
Qed.

(** The two predicates depend on the refreshes, the queue and the promises. *)
Lemma refresh_frame w w' :
  native w' → refreshes w' = refreshes w → refreshQueue w' = refreshQueue w →
  (idle w → idle w') ∧ (singleRefresh w → singleRefresh w').
Proof. unfold idle, singleRefresh. intros ? -> ->. naive_solver. Qed.

Lemma refresh_frame_others w w' :
  native w' → others w' = others w → (idle w → idle w') ∧ (singleRefresh w → singleRefresh w').
Proof.
  intros Hn Ho. apply refresh_frame; [done| |by apply others_refreshQueue].
  unfold refreshes. by rewrite (others_inflight _ _ Ho).
Qed.

(** A predicate with such a frame is kept by everything that is not a refresh. *)
Lemma framed_keeps (P : World → Prop) :
  (∀ w, P w → native w) →
  (∀ w w', native w' → refreshes w' = refreshes w → refreshQueue w' = refreshQueue w → P w → P w') →
  Keeps env P.
Proof.
  intros Hn Hf.
  assert (∀ w w', native w' → others w' = others w → P w → P w') as Ho.
  { intros w w' Hn' Ho. apply Hf; [done| |by apply others_refreshQueue].
    unfold refreshes. by rewrite (others_inflight _ _ Ho). }
  assert (∀ m, registers m → preserves P m) as Hreg.
  { intros m Hm w Hw. destruct (Hm w (Hn w Hw)) as (w' & -> & Hn' & Ho' & _). by eapply Ho. }
  split; [split; [split|..]|..].
  - intros w w' Hc Hw. unfold core in Hc. injection Hc as Hp _ Hq Hi _ Hb.
    eapply Hf; [|unfold refreshes; by rewrite Hi|done|done].
    by apply (state_of_native w w' Hp Hb), Hn.
  - intros w Hw. rewrite createPromise_native by auto. apply (Ho w); [apply fresh_native; auto|done|done].
  - apply polite_keeps; [|done]. intros A m Hm w Hw.
    destruct (Hm w (Hn w Hw)) as (Hn' & Hq & Hi & _).
    eapply Hf; [done|unfold refreshes; by rewrite Hi|done|done].
  - intros p v w Hw. rewrite setSuccess_native by auto.
    apply (Ho w); [apply settle_native; auto|apply settle_others|done].
  - intros p v w Hw. rewrite setError_native by auto.
    apply (Ho w); [apply settle_native; auto|apply settle_others|done].
  - intros r Hr w Hw. apply (Hf w); [exact (Hn w Hw)|rewrite refreshes_send, Hr; lia|done|done].
  - intros. apply Hreg, success_registers.
  - intros. apply Hreg, error_registers.
Qed.

#[local] Instance idle_keeps : Keeps env idle.
Proof. apply framed_keeps; [by intros w []|]. intros. by eapply refresh_frame. Qed.

#[local] Instance singleRefresh_keeps : Keeps env singleRefresh.
Proof. apply framed_keeps; [by intros w []|]. intros. by eapply refresh_frame. Qed.

Lemma idle_single w : idle w → singleRefresh w.
Proof. intros [Hn Hr]. split_and!; [done|lia|lia]. Qed.

Lemma refreshRequest_refresh url t n k r :
  refreshRequest url t n k = Returns r → is_refresh r = true.
Proof. unfold refreshRequest. by destruct (clientAuth k) as [[]|]; intros; simplify_eq/=. Qed.

Lemma singleRefresh_updateExec p m : preserves singleRefresh (updateExec p m).
Proof.
  unfold updateExec. apply preserves_bind; [apply preserves_needsRefresh|].
  intros b. destruct (negb b); [apply adm_setSuccess|]. intros w (Hn & Hle & Hq).
  rewrite bind_gets. destruct (ep_token (kc w)) as [url|]; [|done].
  rewrite bind_lift, bind_modify, bind_gets. cbn [id].
  change (upd refreshQueue _ w) with (enqueued p w). rewrite enqueued_length.
  assert (singleRefresh (enqueued p w)) as Hw.
  { split_and!; [done|done|]. intros _. simpl. by destruct (refreshQueue w). }
  destruct (refreshQueue w) as [|q qs]; [|done]. simpl.
  destruct (refreshRequest _ _ _ _) as [r|] eqn:Hr; [|done]. rewrite bind_lift.
  apply refreshRequest_refresh in Hr. assert (refreshes w = 0) as H0.
  { destruct (refreshes w) as [|[|]]; [done|by destruct Hq|lia]. }
  split_and!; [done| |intros _; run_io; by destruct (refreshQueue w)].
  rewrite refreshes_send, Hr. change (refreshes (enqueued p w)) with (refreshes w). lia.
Qed.

#[local] Instance singleRefresh_admissible : Admissible env singleRefresh.
Proof.
  split.
  - apply singleRefresh_updateExec.
  - by intros.
  - intros w n i r Hn Hr Hw. apply (refresh_frame w); [exact (proj1 Hw)| |done|exact Hw].
    rewrite (refreshes_delete w n i r Hn), Hr. lia.
  - intros w n i r t st tx Hn Hr (Hnat & Hle & _). apply idle_single.
    apply keeps_onRefreshResponse; [apply _|by intros|]. split; [exact Hnat|].
    pose proof (refreshes_delete w n i r Hn) as H. unfold is_refresh in H. rewrite Hr in H. lia.
Qed.

Lemma singleRefresh_handle e : preserves singleRefresh (handle e).
Proof. apply handle_preserves; apply _. Qed.

(** ** Reachable states *)

Lemma rtc_preserves (P : World → Prop) w w' :
  (∀ e, preserves P (handle e)) → rtc step w w' → P w → P w'.
Proof. intros HP Hs. induction Hs as [w|w w1 w' [e _] _ IH]; [done|]. intros Hw. by apply IH, HP. Qed.

(** C3: Whatever the application calls and in whatever order responses, timers,
    messages and windows interleave, at most one refresh request is in flight at any
    time, and while one is, the promises that wait for it are in the queue. *)
Theorem one_refresh_at_a_time config hooks b w :
  b_hasPromise b = true → rtc step (newKeycloak config hooks b) w →
  refreshes w ≤ 1 ∧ (refreshes w = 1 → refreshQueue w ≠ []).
Proof.
  intros Hb Hs. apply (rtc_preserves singleRefresh) in Hs; [apply Hs|apply singleRefresh_handle|].
  apply idle_single. by split; [split|].
Qed.

End loop.
End Invariants.
