(* ===== verification/Microtasks.v ===== *)
(** Termination of the microtask queue.

    Before the browser handles its next event it runs microtasks until none is
    left, and a microtask of the library may queue others.  [weight] bounds what
    each callback can still cause, [potential] adds it up over the queue and over the
    reactions of pending promises: a microtask uses up more than it adds, so that a
    checkpoint ends after at most [potential] of them. *)

From S2P Require Import Prelude JsString Uri JsValue World Promise Token Uuid Storage Urls Adapter Callback Iframe Refresh Init EventLoop Invariants.
Import JsString Uri JsValue World Promise Token Uuid Storage Urls Adapter Callback Iframe Refresh Init EventLoop Invariants.

Module Microtasks.

(** ** The microtask checkpoint *)

Section checkpoint.
Context {env : Env}.

(** Run at most [n] microtasks. *)
Fixpoint drain (n : nat) (w : World) : World :=
  match n, microtasks w with
  | S n, _ :: _ => drain n (handle EvMicrotask w).2
  | _, _ => w
  end.

(** ** What a callback can cause *)

Definition weight (k : cont) : nat :=
  match k with
  | KSsoUnchanged _ | KTokenIframeReady _ => 3
  | KSsoIframeReady _ => 5
  | KTokenRefreshError _ _ => 6
  | KProcessInit _ _ => 10
  | _ => 1
  end.

Definition reactions (q : promise) : list cont :=
  match q with NativePromise Pending rs => rs.*2 | _ => [] end.

Definition waiting_weight (qs : list promise) : nat :=
  sum_list_with (λ q, sum_list_with weight (reactions q)) qs.

Definition potential (w : World) : nat :=
  sum_list_with weight (microtasks w).*1 + waiting_weight (promises w).

(** The states with a given potential at most. *)
Definition bounded (c : nat) (w : World) : Prop := native w ∧ potential w ≤ c.

(** [m] adds at most [n] to the potential. *)
Definition costs {A} (n : nat) (m : IO A) : Prop :=
  ∀ w, native w → native (m w).2 ∧ potential (m w).2 ≤ potential w + n.

(** An adapter of the application that registers no callback with the library. *)
Class Quiet (a : AdapterOps) : Prop := {
  quiet_login o : costs 0 (a_login a o);
  quiet_logout o : costs 0 (a_logout a o);
  quiet_register o : costs 0 (a_register a o);
  quiet_accountManagement : costs 0 (a_accountManagement a);
  quiet_redirectUri o : costs 0 (a_redirectUri a o)
}.

(** *** Rules *)

Lemma costs_bind {A B} n k (m : IO A) (f : A → IO B) :
  costs n m → (∀ a, costs k (f a)) → costs (n + k) (m ≫= f).
Proof.
  intros Hm Hf w Hw. destruct (Hm w Hw) as [Hn Hp]. unfold mbind, M_bind.
  destruct (m w) as [[a|e] w']; simpl in *; [|split; [done|lia]].
  destruct (Hf a w' Hn). split; [done|lia].
Qed.

Lemma costs_weaken {A} n k (m : IO A) : costs n m → n ≤ k → costs k m.
Proof. intros Hm Hle w Hw. destruct (Hm w Hw). split; [done|lia]. Qed.

Lemma costs_bounded {A} (m : IO A) : (∀ c, preserves (bounded c) m) ↔ costs 0 m.
Proof.
  split; intros Hm.
  - intros w Hw. destruct (Hm (potential w) w (conj Hw (le_n _))). split; [done|lia].
  - intros c w [Hw Hc]. destruct (Hm w Hw). split; [done|lia].
Qed.

(** *** Promises *)

Lemma waiting_insert qs p q q' :
  qs !! p = Some q →
  waiting_weight (<[p := q']> qs) + sum_list_with weight (reactions q) =
  waiting_weight qs + sum_list_with weight (reactions q').
Proof.
  intros Hp. unfold waiting_weight. rewrite insert_take_drop by (by eapply lookup_lt_Some).
  rewrite <- (take_drop_middle qs p q Hp) at 3. rewrite !sum_list_with_app. simpl. lia.
Qed.

Lemma selected_weight ok (v : jsval) (rs : list (bool * cont)) :
  sum_list_with weight (omap (λ r, if Bool.eqb r.1 ok then Some (r.2, v) else None) rs).*1
  ≤ sum_list_with weight rs.*2.
Proof.
  induction rs as [|[b k] rs IH]; [done|]. csimpl. destruct (Bool.eqb b ok); csimpl; lia.
Qed.

Lemma settle_potential ok p v w : potential (settle ok p v w) ≤ potential w.
Proof.
  unfold settle. destruct (promises w !! p) as [[[] rs|]|] eqn:E; try done.
  unfold potential. simpl. rewrite fmap_app, sum_list_with_app.
  pose proof (selected_weight ok v rs).
  pose proof (waiting_insert (promises w) p _ (NativePromise (outcome_state ok v) []) E) as H'.
  simpl in H'. destruct ok; simpl in *; lia.
Qed.

Lemma costs_success p k : costs (weight k) (success p k).
Proof.
  intros w Hw. destruct (success_registers p k w Hw) as (w' & Hs & Hn & _). split; [by rewrite Hs|].
  clear w' Hs Hn. unfold success. rewrite bind_gets.
  destruct (promises w !! p) as [[[] rs|]|] eqn:E; unfold potential; simpl; try lia.
  - pose proof (waiting_insert (promises w) p _ (NativePromise Pending (rs ++ [(true, k)])) E) as H'.
    simpl in H'. rewrite fmap_app, sum_list_with_app in H'. simpl in H'. lia.
  - rewrite fmap_app, sum_list_with_app. simpl. lia.
  - by apply native_lookup in E.
Qed.

Lemma costs_error p k : costs (weight k) (error p k).
Proof.
  intros w Hw. destruct (error_registers p k w Hw) as (w' & Hs & Hn & _). split; [by rewrite Hs|].
  clear w' Hs Hn. unfold error. rewrite bind_gets.
  destruct (promises w !! p) as [[[] rs|]|] eqn:E; unfold potential; simpl; try lia.
  - pose proof (waiting_insert (promises w) p _ (NativePromise Pending (rs ++ [(false, k)])) E) as H'.
    simpl in H'. rewrite fmap_app, sum_list_with_app in H'. simpl in H'. lia.
  - rewrite fmap_app, sum_list_with_app. simpl. lia.
  - by apply native_lookup in E.
Qed.

(** ** The operations that register nothing *)

Context {polite : Polite custom} {quiet : Quiet custom}.

#[local] Instance bounded_settles c : Settles env (bounded c).
Proof.
  assert (∀ A (m : IO A), costs 0 m → preserves (bounded c) m) as Hq
    by (intros A m Hm; by apply (proj2 (costs_bounded m))).
  split; [split; [| |constructor; intros; apply Hq; apply quiet]|..].
  - intros w w' Hc [Hn Hp]. unfold core in Hc. injection Hc as Hps Hm _ _ _ Hb.
    split; [by apply (state_of_native w w' Hps Hb)|]. unfold potential. by rewrite Hps, Hm.
  - intros w [Hn Hp]. rewrite createPromise_native by done. split; [by apply fresh_native|].
    unfold potential, waiting_weight, fresh. simpl. rewrite sum_list_with_app. simpl.
    unfold potential, waiting_weight in Hp. lia.
  - intros p v w [Hn Hp]. rewrite setSuccess_native by done.
    split; [by apply settle_native|]. simpl. pose proof (settle_potential true p v w). lia.
  - intros p v w [Hn Hp]. rewrite setError_native by done.
    split; [by apply settle_native|]. simpl. pose proof (settle_potential false p v w). lia.
  - by intros r _ w Hw.
Qed.

Lemma bounded_updateExec c p m : preserves (bounded c) (updateExec p m).
Proof.
  unfold updateExec. apply preserves_bind; [apply preserves_needsRefresh|].
  intros b. destruct (negb b); [apply adm_setSuccess|]. preserve ltac:(by intros).
  by intros w Hw.
Qed.

Lemma costs_kept {A} (m : IO A) : (∀ c, preserves (bounded c) m) → costs 0 m.
Proof. apply costs_bounded. Qed.

(** The operations before a registration, and a registration, in one step. *)
#[local] Ltac free := apply costs_kept; intros; preserve ltac:(by intros; eapply adm_core; [|eassumption]).

Lemma costs_free_bind {A B} n (m : IO A) (f : A → IO B) :
  (∀ c, preserves (bounded c) m) → (∀ a, costs n (f a)) → costs n (m ≫= f).
Proof. intros Hm Hf. apply (costs_bind 0 n); [by apply costs_kept|done]. Qed.

Lemma costs_if {A} n (b : bool) (m m' : IO A) : costs n m → costs n m' → costs n (if b then m else m').
Proof. by destruct b. Qed.

Lemma costs_both p k k' : costs (weight k + weight k') (success p k;; error p k').
Proof. apply costs_bind; [apply costs_success|]. intros _. apply costs_error. Qed.

#[local] Hint Resolve bounded_updateExec : kc.
#[local] Ltac before :=
  apply costs_free_bind; [intros; preserve ltac:(by intros; eapply adm_core; [|eassumption])|intros].

Lemma costs_doLogin b p : costs 2 (doLogin b p).
Proof. unfold doLogin. before. exact (costs_both _ (KLoginSuccess p) (KLoginError p)). Qed.

Lemma costs_checkThen k k' : costs (weight k + weight k') (checkThen k k').
Proof. unfold checkThen. before. apply costs_both. Qed.

Lemma costs_onLoad o p : costs 5 (onLoad o p).
Proof.
  unfold onLoad. before. repeat apply costs_if.
  - before. apply costs_if.
    + before. exact (costs_success _ (KSsoIframeReady p)).
    + eapply costs_weaken; [apply costs_doLogin|lia].
  - eapply costs_weaken; [apply costs_doLogin|lia].
  - eapply costs_weaken; [free|lia].
Qed.

Lemma costs_updateToken m : costs 2 (updateToken m).
Proof.
  unfold updateToken. do 2 before. apply (costs_bind 2 0); [|intros; free].
  apply costs_if; [eapply costs_weaken; [free|lia]|]. cbv zeta. apply costs_if.
  - before. exact (costs_both _ (KUpdateExec _ _) (KUpdateError _)).
  - eapply costs_weaken; [free|lia].
Qed.

Lemma costs_initWithTokens o p : costs 9 (initWithTokens o p).
Proof.
  unfold initWithTokens. do 2 before. apply costs_if.
  - eapply costs_weaken; [|shelve]. before. exact (costs_success _ (KTokenIframeReady p)).
    Unshelve. simpl. lia.
  - apply (costs_bind 2 7); [apply costs_updateToken|]. intros q.
    exact (costs_both _ (KTokenRefreshed p) (KTokenRefreshError o p)).
Qed.

Lemma costs_processInit o p : costs 9 (processInit o p).
Proof.
  unfold processInit, replaceState. do 3 before. apply costs_if.
  - before. eapply costs_weaken; [exact (costs_both _ (KCallbackIframeReady _ _) (KCallbackIframeError _))|].
    simpl. lia.
  - repeat apply costs_if; try (by eapply costs_weaken; [free|lia]).
    + apply costs_initWithTokens.
    + eapply costs_weaken; [apply costs_onLoad|lia].
Qed.

(** A callback adds less than its weight. *)
Lemma costs_dispatch k v : costs (weight k - 1) (dispatch k v).
Proof.
  destruct k; simpl; try (by free).
  - apply costs_processInit.
  - exact (costs_checkThen (KSsoUnchanged _) (KSsoChanged _)).
  - apply costs_doLogin.
  - exact (costs_checkThen (KTokenUnchanged _) (KTokenChanged _)).
  - before. apply costs_if; [apply costs_onLoad|eapply costs_weaken; [free|lia]].
Qed.

(** A microtask lowers the potential. *)
Lemma microtask_decreases w :
  native w → microtasks w ≠ [] →
  native (handle EvMicrotask w).2 ∧ potential (handle EvMicrotask w).2 < potential w.
Proof.
  intros Hn Hm. unfold handle. rewrite bind_gets. cbn [id].
  destruct (microtasks w) as [|[k v] q] eqn:E; [done|]. rewrite bind_modify.
  assert (native (w <| microtasks := q |>)) as Hq by exact Hn.
  destruct (costs_dispatch k v _ Hq) as [Hn' Hp]. split; [exact Hn'|].
  assert (potential w = weight k + potential (w <| microtasks := q |>)) as Hw.
  { unfold potential. rewrite E. csimpl. lia. }
  assert (1 ≤ weight k) by (destruct k; simpl; lia). lia.
Qed.

(** C12: The browser's microtask checkpoint ends: with native promises, whatever the
    library's callbacks queue, at most [potential w] microtasks run before the queue
    is empty. *)
Theorem microtasks_terminate w :
  native w → ∃ n, n ≤ potential w ∧ microtasks (drain n w) = [].
Proof.
  remember (potential w) as c eqn:Hc. assert (potential w ≤ c) as Hle by lia. clear Hc.
  revert w Hle. induction c as [c IH] using lt_wf_ind. intros w Hle Hn.
  destruct (microtasks w) as [|t q] eqn:E; [exists 0; split; [lia|done]|].
  destruct (microtask_decreases w Hn) as [Hn' Hlt]; [by rewrite E|].
  destruct (IH (potential (handle EvMicrotask w).2)) with (w := (handle EvMicrotask w).2)
    as (n & Hle' & Hd); [lia|lia|done|].
  exists (S n). split; [lia|]. simpl. by rewrite E.
Qed.

End checkpoint.
End Microtasks.
