(* ===== verification/Login.v ===== *)
(** The whole of a login: from the page the server redirects to, over [kc.init], the
    exchange of the code and its answer, to the promise the application waits for.

    The session is watched with the status iframe, as is the default, or not; the
    adapter is the default one, and the redirect is any the server may send in the
    standard flow. *)

From S2P Require Import Prelude JsString Uri Base64 JsValue Json World Promise Token Uuid Storage Urls Adapter Callback Iframe Refresh Init EventLoop Invariants Microtasks.
Import JsString Uri Base64 JsValue Json World Promise Token Uuid Storage Urls Adapter Callback Iframe Refresh Init EventLoop Invariants Microtasks.

Module Login.
Section login.
Context {env : Env}.






(** ** Up to the end of [kc.init] *)






(** ** The redirect is recognised *)














(** ** The code is exchanged *)




(** ** The answer *)













End login.
End Login.
