(* ===== verification/Security.v ===== *)
(** What an application may conclude when a login promise is fulfilled, and where
    the adapters differ: properties that combine the redirect, the nonce, the
    adapters and the event loop. *)

From S2P Require Import Prelude JsString Uri Base64 JsValue Json World Promise Token Uuid Storage Urls Adapter Callback Iframe Refresh Init EventLoop Invariants.
Import JsString Uri Base64 JsValue Json World Promise Token Uuid Storage Urls Adapter Callback Iframe Refresh Init EventLoop Invariants.

Module Security.
Section security.
Context {env : Env} {polite : Polite custom}.

(** ** The nonce of an accepted login *)

Definition pendingIn (p : nat) (w : World) : Prop := native w ∧ state_of w p = Some Pending.

#[local] Instance pendingIn_keepsCore p : KeepsCore env (pendingIn p).
Proof.
  split.
  - intros w w' Hc [Hn Hs]. unfold core in Hc. injection Hc as Hp _ _ _ _ Hb.
    destruct (state_of_native w w' Hp Hb) as [Hn' Hs']. split; [auto|by rewrite Hs'].
  - intros w [Hn Hs]. rewrite createPromise_native by done.
    split; [by apply fresh_native|by apply fresh_state_old].
  - apply polite_keeps; [|done]. intros A m Hm w [Hn Hs].
    destruct (Hm w Hn) as (Hn' & _ & _ & Hs'). split; [done|auto].
Qed.

(** The nonce of a parsed token is the stored one. *)
Definition nonceIs (n : string) (parsed : jsval) : Prop :=
  truthy parsed = true → to_string (claim parsed "nonce") = n.

Lemma nonceMismatch_false n parsed :
  string_to_number n = None → nonceMismatch parsed (Str n) = false → nonceIs n parsed.
Proof.
  intros Hn H Ht. unfold nonceMismatch in H. rewrite Ht in H. simpl in H.
  apply negb_false_iff in H. by apply loose_eq_str in H as [-> _].
Qed.

(** C1: If a login promise is fulfilled while nonces are in use, then every token
    [kc] holds carries the nonce that was stored when the login started; this holds
    whatever the adapter, and also when a login is required. *)
Theorem accepted_tokens_have_the_nonce oauth p t0 a r i f w w' t n v :
  native w → state_of w p = Some Pending → truthy (useNonce w) = true →
  claim oauth "storedNonce" = Str n → string_to_number n = None →
  authSuccess oauth p t0 a r i f w = (Returns t, w') → state_of w' p = Some (Fulfilled v) →
  nonceIs n (kc_tokenParsed (kc w')) ∧ nonceIs n (kc_refreshTokenParsed (kc w')) ∧
  nonceIs n (kc_idTokenParsed (kc w')).
Proof.
  intros Hn Hp Hu Hst Hnn Ha Hv.
  assert (∃ w1, setToken a r i (Some (midpoint t0 w)) w = (Returns tt, w1)) as [w1 H1].
  { unfold authSuccess in Ha. rewrite bind_gets in Ha.
    apply bind_returns in Ha as ([] & w1 & H1 & _). by exists w1. }
  pose proof (setToken_rest_eq _ _ _ _ _ _ _ H1) as Hr.
  assert (pendingIn p w1) as Hp1.
  { split; [by apply (rest_native w)|by rewrite (rest_state _ _ _ Hr)]. }
  rewrite (authSuccess_unfold _ _ _ _ _ _ _ _ _ H1), Hu, Hst in Ha. cbn [andb] in Ha.
  destruct (invalidNonce (kc w1) (Str n)) eqn:Hinv.
  - exfalso. apply bind_returns in Ha as ([] & w2 & H2 & [= <- <-]).
    apply bind_returns in H2 as ([] & w3 & H3 & H4).
    pose proof (keeps_clearToken (pendingIn p) w1 Hp1) as Hp3. rewrite H3 in Hp3.
    destruct Hp3 as [Hn3 Hs3]. simpl in *. rewrite setError_native in H4 by done.
    injection H4 as <-. rewrite settle_state, decide_True in Hv by done. done.
  - assert (kc w' = kc w1) as ->.
    { destruct f; simpl in Ha; [|by injection Ha as _ <-].
      rewrite bind_bind in Ha. destruct (callHook_spec onAuthSuccess Undefined w1) as (w2 & H2 & Hk2 & Hr2).
      unfold mbind, M_bind in Ha. rewrite H2, setSuccess_native in Ha by (by eapply rest_native, Hp1).
      injection Ha as _ <-. by rewrite (others_kc _ _ (settle_others _ _ _ _)). }
    unfold invalidNonce in Hinv. rewrite !orb_false_iff in Hinv.
    destruct Hinv as [[H2 H3] H4]. by split_and!; apply nonceMismatch_false.
Qed.

(** ** Redirects in the Cordova adapters *)

(** The listener of an in-app browser window does not ask whether the state
    of the redirect is one it knows: with a state that was never stored, the code in
    the URL is exchanged all the same, with [undefined] for the redirect URI. *)
Theorem cordova_ignores_state i p w ls state params code url :
  kc_flow (kc w) = Str "standard" → kc_responseMode (kc w) = Str "fragment" →
  kc_endpoints (kc w) = KeycloakEndpoints → kc_authServerUrl (kc w) = Str url →
  truthy (kc_clientSecret (kc w)) = false →
  callbackStorage w = LocalStorage → b_localStorage (br w) = Some ls → storage_wf ls →
  key_of state ∉ ls.*1 → redirected "standard" "fragment" "http://localhost" state params →
  given "code" params = Str code → code ≠ "" → given "error" params = Undefined →
  ∃ w' r, handleWindow i (mkWindow (LoginWindow p) false false)
            (LoadStart (redirectUrl "fragment" "http://localhost" params)) w = (Returns tt, w') ∧
    inflight w' = inflight w ++ [(nextRequest w, r)] ∧
    req_body r = Some ("code=" +:+ code +:+ "&grant_type=authorization_code" +:+ "&client_id="
                       +:+ encode (kc_clientId (kc w)) +:+ "&redirect_uri=undefined").
Proof.
  intros Hf Hm He Hu Hsec Hcs Hls Hwf Hk Hr Hco Hcn Her.
  destruct (parseCallbackUrl_redirect (kc w) "standard" "fragment" "http://localhost" state params Hf Hm Hr)
    as (o & Hurl & [_ Hget] & Hso).
  destruct (local_get_absent w ls state Hls Hwf (rd_nonempty _ _ _ _ _ Hr) Hk) as (ls' & Hg & _).
  assert (parseCallback (redirectUrl "fragment" "http://localhost" params) w =
    (Returns (Obj o), with_items ls' w)) as Hpc.
  { apply (parseCallback_unknown _ _ _ state Null); [done|done| |done]. unfold storage_get.
    by rewrite bind_gets, Hcs. }
  destruct (processCallback_code_spec o p (with_items ls' w) url code) as (r & Hsend & _ & _ & _ & Hb & _);
    try done; [rewrite Hget by done; by rewrite Her|by rewrite Hget by done|].
  assert (isLocalhost (redirectUrl "fragment" "http://localhost" params) = true) as Hl by done.
  unfold handleWindow. cbn [win_role]. rewrite Hl. unfold when, finishLogin.
  unfold mbind at 1, M_bind at 1. rewrite Hpc.
  unfold mbind at 1, M_bind at 1. rewrite Hsend.
  eexists _, r. split_and!; [done|done|]. rewrite Hb, Hget by done. done.
Qed.

End security.
End Security.
