(* ===== verification/Authz.v ===== *)
(** keycloak-authz.js: the UMA client [KeycloakAuthorization].

    The methods [authorize] and [entitlement] do not return a promise: each stores
    a function in the property [then] of the one shared instance, so the state has
    that property, and [then_] runs whichever function was stored last. *)

From S2P Require Import Prelude JsString Uri JsValue Json World.
Import JsString Uri JsValue Json.

Module Authz.

(** The callbacks of [then(onGrant, onDeny, onError)] that were passed. *)
Record handlers := mkHandlers { onGrant : bool; onDeny : bool; onError : bool }.

Inductive az_cont :=
  | AzConfig
  | AzToken (h : handlers).

Record az_request := mkAzRequest {
  az_method : string;
  az_url : string;
  az_headers : list (string * string);
  az_body : option string;
  az_cont_of : az_cont
}.

Inductive az_output :=
  | AzSend (r : az_request)
  | AzGrant (rpt : jsval)
  | AzDeny
  | AzError
  | AzLog (msg : string).

(** The function stored in [this.then]. *)
Inductive az_then :=
  | NoThen
  | ThenAuthorize (authorizationRequest : jsval)
  | ThenEntitlement (resourceServerId : string) (authorizationRequest : jsval).

(** The properties of [keycloak] the instance reads. *)
Record keycloak_view := mkView {
  kv_authServerUrl : jsval;
  kv_realm : jsval;
  kv_clientId : jsval;
  kv_token : jsval
}.

Record authz := mkAuthz {
  az_keycloak : keycloak_view;
  az_rpt : jsval;
  az_config : jsval;
  az_stored : az_then;
  az_trace : list az_output
}.

Definition eta_authz (r : authz) : authz :=
  mkAuthz (az_keycloak r) (az_rpt r) (az_config r) (az_stored r) (az_trace r).

#[global] Instance set_az_rpt : Field az_rpt := ltac:(mk_field eta_authz az_rpt).
#[global] Instance set_az_config : Field az_config := ltac:(mk_field eta_authz az_config).
#[global] Instance set_az_stored : Field az_stored := ltac:(mk_field eta_authz az_stored).
#[global] Instance set_az_trace : Field az_trace := ltac:(mk_field eta_authz az_trace).

Abbreviation AZ := (M authz).

Definition out (o : az_output) : AZ unit := modify (λ s, s <| az_trace ::= cons o |>).

(** *** [init] *)

Definition init : AZ unit :=
  kv ← gets az_keycloak;
  out (AzSend (mkAzRequest "GET"
    (to_string (kv_authServerUrl kv) +:+ "/realms/" +:+ to_string (kv_realm kv)
     +:+ "/.well-known/uma2-configuration") [] None AzConfig)).

(** [new KeycloakAuthorization(keycloak)] *)
Definition newAuthz (kv : keycloak_view) : authz :=
  (init (mkAuthz kv Null Undefined NoThen [])).2.

Definition onConfig (status : Z) (responseText : string) : AZ unit :=
  if (status =? 200)%Z then
    c ← lift (JSON_parse responseText);
    modify (λ s, s <| az_config := c |>)
  else out (AzLog "Could not obtain configuration from server.").

(** *** The answer to a token request *)

Definition onToken (h : handlers) (status : Z) (responseText : string) : AZ unit :=
  if (200 <=? status)%Z && (status <? 300)%Z then
    v ← lift (JSON_parse responseText);
    rpt ← lift (getp v "access_token");
    modify (λ s, s <| az_rpt := rpt |>);;
    if onGrant h then out (AzGrant rpt) else throw TypeError
  else if (status =? 403)%Z then
    if onDeny h then out AzDeny
    else out (AzLog "Authorization request was denied by the server.")
  else
    if onError h then out AzError
    else out (AzLog "Could not obtain authorization data from server.").

(** *** The parameters *)

(** [if (o.f) params += "&name=" + o.f] *)
Definition addIf (o : jsval) (f name : string) : outcome string :=
  v ← getp o f;
  Returns (if truthy v then "&" +:+ name +:+ "=" +:+ to_string v else "").

Definition metadataParams (authorizationRequest : jsval) : outcome string :=
  metadata ← getp authorizationRequest "metadata";
  if truthy metadata then
    a ← addIf metadata "responseIncludeResourceName" "response_include_resource_name";
    b ← addIf metadata "responsePermissionsLimit" "response_permissions_limit";
    Returns (a +:+ b)
  else Returns "".

(** The elements [v[0] .. v[v.length - 1]] of an array or a string. *)
Fixpoint chars (s : string) : list jsval :=
  match s with "" => [] | String a s' => Str (String a "") :: chars s' end.

Definition elements (v : jsval) : list jsval :=
  match v with Arr l => l | Str s => chars s | _ => [] end.

(** The body of the inner loop over [resource.scopes]. *)
Definition addScope (permission : string) (scope : jsval) : string :=
  (if (indexOf permission "#" =? length_s permission - 1)%Z then permission
   else permission +:+ ",") +:+ to_string scope.

Definition formatPermission (resource : jsval) : outcome string :=
  id ← getp resource "id";
  scopes ← getp resource "scopes";
  Returns (if truthy scopes && bool_decide (elements scopes ≠ [])
           then foldl addScope (to_string id +:+ "#") (elements scopes)
           else to_string id).

Fixpoint permissionParams (permissions : list jsval) : outcome string :=
  match permissions with
  | [] => Returns ""
  | resource :: ps =>
      permission ← formatPermission resource;
      rest ← permissionParams ps;
      Returns ("&permission=" +:+ permission +:+ rest)
  end.

Definition grantType (kv : keycloak_view) : string :=
  "grant_type=urn:ietf:params:oauth:grant-type:uma-ticket&client_id=" +:+ to_string (kv_clientId kv).

Definition tokenRequest (s : authz) (h : handlers) (params : string) : outcome az_request :=
  url ← getp (az_config s) "token_endpoint";
  Returns (mkAzRequest "POST" (to_string url)
    [("Content-type", "application/x-www-form-urlencoded");
     ("Authorization", "Bearer " +:+ to_string (kv_token (az_keycloak s)))]
    (Some params) (AzToken h)).

Definition authorizeParams (s : authz) (req : jsval) : outcome string :=
  ticket ← getp req "ticket";
  submit ← getp req "submitRequest";
  metadata ← metadataParams req;
  incremental ← getp req "incrementalAuthorization";
  Returns (grantType (az_keycloak s) +:+ "&ticket=" +:+ to_string ticket
    +:+ (if is_nullish submit then "" else "&submit_request=" +:+ to_string submit)
    +:+ metadata
    +:+ (if truthy (az_rpt s) && (is_nullish incremental || truthy incremental)
         then "&rpt=" +:+ to_string (az_rpt s) else "")).

Definition entitlementParams (s : authz) (resourceServerId : string) (req : jsval) : outcome string :=
  claimToken ← addIf req "claimToken" "claim_token";
  claimFormat ← addIf req "claimTokenFormat" "claim_token_format";
  permissions ← getp req "permissions";
  ps ← permissionParams (elements permissions);
  metadata ← metadataParams req;
  Returns (grantType (az_keycloak s)
    +:+ (if String.eqb claimToken "" then "" else claimToken +:+ claimFormat)
    +:+ "&audience=" +:+ resourceServerId +:+ ps +:+ metadata
    +:+ (if truthy (az_rpt s) then "&rpt=" +:+ to_string (az_rpt s) else "")).

(** *** [authorize], [entitlement], and the [then] they store *)

Definition authorize (authorizationRequest : jsval) : AZ unit :=
  modify (λ s, s <| az_stored := ThenAuthorize authorizationRequest |>).

Definition entitlement (resourceServerId : string) (authorizationRequest : jsval) : AZ unit :=
  modify (λ s, s <| az_stored := ThenEntitlement resourceServerId authorizationRequest |>).

(** The request is opened before its parameters are built, so that a missing
    configuration throws first. *)
Definition sendToken (h : handlers) (params : authz → outcome string) : AZ unit :=
  s ← gets id;
  _ ← lift (tokenRequest s h "");
  body ← lift (params s);
  r ← lift (tokenRequest s h body);
  out (AzSend r).

Definition then_ (h : handlers) : AZ unit :=
  t ← gets az_stored;
  match t with
  | NoThen => throw TypeError
  | ThenAuthorize req =>
      when (truthy (optp req "ticket")) (sendToken h (λ s, authorizeParams s req))
  | ThenEntitlement id req =>
      let req := if truthy req then req else Obj [] in
      sendToken h (λ s, entitlementParams s id req)
  end.

(** ** Permissions *)

(** Scopes after the first one that is not empty are separated by commas. *)
Fixpoint dropEmptyScopes (l : list string) : list string :=
  match l with "" :: l' => dropEmptyScopes l' | _ => l end.

Lemma addScope_nonempty id t s :
  occurs "#" id = false → t ≠ "" →
  addScope (id +:+ "#" +:+ t) (Str s) = id +:+ "#" +:+ (t +:+ "," +:+ s).
Proof.
  intros Hid Ht. unfold addScope. rewrite app_cons, app_nil_l, indexOf_first by done.
  rewrite length_s_app. change (length_s (String "#" t)) with (Z.of_nat (S (String.length t))).
  destruct t as [|a t]; [done|]. rewrite (proj2 (Z.eqb_neq _ _)) by (simpl; lia).
  cbn [to_string]. by rewrite !app_assoc_s.
Qed.

Lemma foldl_addScope id t ss :
  occurs "#" id = false → t ≠ "" →
  foldl addScope (id +:+ "#" +:+ t) (Str <$> ss) = id +:+ "#" +:+ join "," (t :: ss).
Proof.
  intros Hid. revert t. induction ss as [|s ss IH]; intros t Ht; [done|].
  cbn [fmap list_fmap foldl]. rewrite addScope_nonempty by done.
  rewrite IH.
  - do 2 f_equal. rewrite (join_cons _ t) by done. destruct ss as [|s' ss]; [done|].
    rewrite !(join_cons _ _ (s' :: ss)) by done. by rewrite !app_assoc_s.
  - by destruct t.
Qed.

Lemma addScope_first id s :
  occurs "#" id = false → addScope (id +:+ "#") (Str s) = id +:+ "#" +:+ s.
Proof.
  intros Hid. unfold addScope. rewrite (indexOf_first "#" id "") by done.
  rewrite length_s_app. change (length_s "#") with 1%Z.
  rewrite (proj2 (Z.eqb_eq _ _)) by lia. cbn [to_string]. by rewrite app_assoc_s.
Qed.

(** A permission is the resource's identifier and, behind a hash sign, its
    scopes separated by commas (leading empty scopes leave no trace), for every
    identifier without a hash sign. *)
Theorem formatPermission_spec id ss o :
  assoc "id" o = Str id → assoc "scopes" o = Arr (Str <$> ss) → occurs "#" id = false →
  formatPermission (Obj o) = Returns (id +:+ (if decide (ss = []) then "" else "#")
                                      +:+ join "," (dropEmptyScopes ss)).
Proof.
  intros Hid Hss Hh. unfold formatPermission. cbn [getp]. rewrite Hid, Hss.
  cbn [mbind outcome_bind truthy elements to_string andb]. f_equal.
  destruct ss as [|s ss]; [by rewrite app_nil_r|].
  rewrite bool_decide_eq_true_2 by done. rewrite decide_False by done.
  generalize (s :: ss). clear s ss Hss. intros ss. induction ss as [|s ss IH]; [done|].
  cbn [fmap list_fmap foldl]. rewrite addScope_first by done.
  destruct s as [|a s]; [by rewrite app_nil_r|]. by apply foldl_addScope.
Qed.

(** An identifier that contains a hash sign gets a comma before its first
    scope, which the format does not have. *)
Theorem formatPermission_hash a b s o :
  assoc "id" o = Str (a +:+ "#" +:+ b) → assoc "scopes" o = Arr [Str s] →
  occurs "#" a = false →
  formatPermission (Obj o) = Returns (a +:+ "#" +:+ b +:+ "#," +:+ s).
Proof.
  intros Hid Hs Ha. unfold formatPermission. cbn [getp]. rewrite Hid, Hs.
  cbn [mbind outcome_bind truthy elements to_string andb]. f_equal.
  rewrite bool_decide_eq_true_2 by done. cbn [foldl]. rewrite !app_assoc_s.
  rewrite addScope_nonempty; [by rewrite !app_assoc_s|done|by destruct b].
Qed.

(** The instance has one [then]: after [authorize] and a later [entitlement], the
    [then] of the object the first call returned is the second one's, and the ticket
    is never sent. *)
Lemma then_is_shared req id req' h s :
  (authorize req ≫= λ _, entitlement id req' ≫= λ _, then_ h) s =
  (entitlement id req' ≫= λ _, then_ h) s.
Proof. done. Qed.

(** C25: The answer to a token request.  Any status of the 200s grants: the RPT of the
    body, a text, is remembered, handed to the application's [onGrant], and sent with
    the next entitlement request that asks for nothing in particular; a body that is no
    JSON throws and changes nothing.  Status 403 denies and every other status is an
    error, whatever the body is: the handler is called, or a message logged when the
    application gave none, and nothing else changes, so that the instance keeps the RPT
    it had. *)
Theorem onToken_spec h status text s :
  if decide (200 ≤ status < 300)%Z then
    (∀ v t, JSON_parse text = Returns v → getp v "access_token" = Returns (Str t) → t ≠ "" →
       onGrant h = true →
       ∃ s', onToken h status text s = (Returns tt, s') ∧
         az_rpt s' = Str t ∧ az_trace s' = AzGrant (Str t) :: az_trace s ∧
         ∀ id, entitlementParams s' id (Obj []) =
           Returns (grantType (az_keycloak s) +:+ "&audience=" +:+ id +:+ "&rpt=" +:+ t)) ∧
    (∀ e, JSON_parse text = Throws e → onToken h status text s = (Throws e, s))
  else
    onToken h status text s = (Returns tt, s <| az_trace := 
      (if decide (status = 403)%Z
       then if onDeny h then AzDeny else AzLog "Authorization request was denied by the server."
       else if onError h then AzError else AzLog "Could not obtain authorization data from server.")
      :: az_trace s |>).
Proof.
  unfold onToken. case_decide as Hs.
  - assert ((200 <=? status)%Z && (status <? 300)%Z = true) as ->
      by (apply andb_true_iff; rewrite Z.leb_le, Z.ltb_lt; lia).
    split; [|intros e Hj; by rewrite Hj, bind_lift_throws].
    intros v t Hj Hv Ht Hg. rewrite Hj, bind_lift, Hv, bind_lift, bind_modify, Hg. eexists. split; [done|].
    split_and!; [done|done|]. intros id. unfold entitlementParams. cbn [getp].
    cbn. by rewrite (proj2 (String.eqb_neq _ _) Ht).
  - assert ((200 <=? status)%Z && (status <? 300)%Z = false) as ->
      by (apply andb_false_iff; rewrite Z.leb_gt, Z.ltb_ge; lia).
    destruct (Z.eqb_spec status 403) as [->|Hne].
    + by destruct (onDeny h).
    + rewrite decide_False by done. by destruct (onError h).
Qed.

End Authz.
