(* ===== verification/StatusIframe.v ===== *)
(** The status iframe the server delivers, login-status-iframe.html: it answers
    the message that [checkLoginIframe] of keycloak.js posts. *)

From S2P Require Import Prelude JsString Uri JsValue World.
Import JsString Uri JsValue.

Module StatusIframe.

(** [init] is unset until the server has confirmed a client and its origin. *)
Record iframe := mkIframe {
  if_init : option (string * string);
  if_cookie : string;
  if_href : string
}.

Definition eta_iframe (r : iframe) : iframe := mkIframe (if_init r) (if_cookie r) (if_href r).
#[global] Instance set_if_init : Field if_init := ltac:(mk_field eta_iframe if_init).

(** What a message leads to: an answer for the page at an origin, a request to
    confirm client and origin, or nothing. *)
Inductive reaction :=
  | Answer (result targetOrigin : string)
  | ConfirmClient (url clientId origin : string)
  | Ignore.

(** [c.trim()] *)
Definition white (a : ascii) : bool :=
  Ascii.eqb a " " || (code a =? 9) || (code a =? 10) || (code a =? 11) || (code a =? 12) || (code a =? 13).

Fixpoint trim_start (s : string) : string :=
  match s with String a s' => if white a then trim_start s' else s | "" => "" end.

Fixpoint trim_end (s : string) : string :=
  match s with
  | "" => ""
  | String a s' => let r := trim_end s' in
      if String.eqb r "" && white a then "" else String a r
  end.

Definition trim (s : string) : string := trim_end (trim_start s).

(** The loop of [getCookie] over the pieces of [document.cookie]. *)
Fixpoint findSession (ca : list string) : option string :=
  match ca with
  | [] => None
  | c :: ca' =>
      let c := trim c in
      if starts_with "KEYCLOAK_SESSION=" c
      then Some (substring c (length_s "KEYCLOAK_SESSION=") (length_s c))
      else findSession ca'
  end.

Definition getCookie (s : iframe) : option string := findSession (split ";" (if_cookie s)).

(** [location.href.split("?")[0] + "/init?client_id=...&origin=..."] *)
Definition initUrl (s : iframe) (clientId origin : string) : string :=
  hd "" (split "?" (if_href s)) +:+ "/init"
  +:+ "?client_id=" +:+ encodeURIComponent clientId
  +:+ "&origin=" +:+ encodeURIComponent origin.

Definition checkState (s : iframe) (clientId origin sessionState : string) : reaction :=
  match getCookie s with
  | None | Some "" => Answer "changed" origin
  | Some cookie =>
      match if_init s with
      | None => ConfirmClient (initUrl s clientId origin) clientId origin
      | Some (c, o) =>
          if String.eqb clientId c && String.eqb origin o then
            match split "/" cookie !! 2 with
            | Some st => if String.eqb sessionState st then Answer "unchanged" origin
                         else Answer "changed" origin
            | None => Answer "changed" origin
            end
          else Answer "error" origin
      end
  end.

(** The handler of the request [checkState] sends. *)
Definition onInitResponse (clientId origin : string) (status : Z) (s : iframe) : reaction * iframe :=
  if (status =? 204)%Z || (status =? 1223)%Z then
    (Answer "unchanged" origin, s <| if_init := Some (clientId, origin) |>)
  else if (status =? 404)%Z then (Answer "changed" origin, s)
  else (Answer "error" origin, s).

Definition receiveMessage (s : iframe) (origin : string) (data : jsval) : reaction :=
  match data with
  | Str d =>
      match split " " d with
      | [clientId; sessionState] => checkState s clientId origin sessionState
      | _ => Ignore
      end
  | _ => Ignore
  end.

(** ** Properties *)

(** The session a cookie names: the part behind its second slash. *)
Definition sessionOf (s : iframe) : option string :=
  cookie ← getCookie s; split "/" cookie !! 2.

(** C24: The iframe answers nobody but the origin that asked, and it says
    [unchanged] without asking the server only when the server has confirmed that
    client at that origin before and the session of the message is the session of
    the cookie. *)
Theorem receiveMessage_sound s origin data result target :
  receiveMessage s origin data = Answer result target →
  target = origin ∧ result ∈ ["unchanged"; "changed"; "error"] ∧
  (result = "unchanged" →
   ∃ clientId sessionState, data = Str (clientId +:+ " " +:+ sessionState) ∧
     if_init s = Some (clientId, origin) ∧ sessionOf s = Some sessionState).
Proof.
  unfold receiveMessage. destruct data as [| | | | |d| |]; try done.
  pose proof (join_split " " d) as Hd.
  destruct (split " " d) as [|c [|st [|]]] eqn:Es; try done. simpl in Hd.
  unfold checkState, sessionOf. destruct (getCookie s) as [ck|].
  - destruct ck as [|a ck]; [intros [= <- <-]; set_solver|].
    destruct (if_init s) as [[c' o']|]; [|done].
    destruct (String.eqb_spec c c') as [<-|]; [|intros [= <- <-]; set_solver].
    destruct (String.eqb_spec origin o') as [<-|]; [|intros [= <- <-]; set_solver].
    cbn [andb]. destruct (split "/" (String a ck) !! 2) as [x|] eqn:Ex; [|intros [= <- <-]; set_solver].
    destruct (String.eqb_spec st x) as [<-|]; intros [= <- <-]; (split_and!; [done|set_solver|]); [|done].
    intros _. exists c, st. split_and!; [by rewrite <- Hd|done|].
    change (Some (String a ck) ≫= _) with (split "/" (String a ck) !! 2). done.
  - intros [= <- <-]. set_solver.
Qed.

(** The message of [checkLoginIframe] is understood when neither the client's
    name nor the session contains a space; a client whose name contains one gets no
    answer. *)
Theorem receiveMessage_client s origin clientId sessionState :
  (occurs " " clientId = false → occurs " " sessionState = false →
   receiveMessage s origin (Str (clientId +:+ " " +:+ sessionState)) =
     checkState s clientId origin sessionState) ∧
  (occurs " " clientId = true →
   receiveMessage s origin (Str (clientId +:+ " " +:+ sessionState)) = Ignore).
Proof.
  split.
  - intros Hc Hs. unfold receiveMessage. rewrite app_cons, app_nil_l, split_app by done.
    by rewrite split_no_sep.
  - intros Hc. unfold receiveMessage.
    pose proof (length_split " " (clientId +:+ " " +:+ sessionState)) as Hl.
    rewrite !count_char_app in Hl. apply count_char_occurs in Hc.
    change (count_char " " " ") with 1 in Hl.
    destruct (split " " _) as [|a [|b [|]]]; simpl in Hl; try lia; done.
Qed.

End StatusIframe.
