(* ===== verification/AdminResources.v ===== *)
(** The REST resources of the admin console (services.js and authz-services.js):
    every factory that is one [$resource], as the arguments it passes.

    A URL template is relative to [authUrl]; a default ["@x"] takes the value of the
    property [x] of the object that is sent. *)

From S2P Require Import Prelude JsString Uri JsValue.
Import JsString Uri.

Module AdminResources.

(** The properties of an action of [$resource]; a transformation is named by the
    function it calls. *)
Inductive act_field :=
  | Method (m : string)
  | IsArray (b : bool)
  | Url (u : string)
  | Params (l : list (string * string))
  | Headers (l : list (string * string))
  | ResponseType (t : string)
  | TransformRequest (f : string)
  | TransformResponse (f : string).

Record resource := mkResource {
  rs_name : string;
  rs_url : string;
  rs_defaults : list (string * string);
  rs_actions : list (string * list act_field)
}.

Definition resources1 : list resource := [
  mkResource "Realm" "/admin/realms/:id"
    [("id", "@realm")]
    [("update", [Method "PUT"]); ("create", [Method "POST"; Params [("id", "")]])];
  mkResource "RealmKeys" "/admin/realms/:id/keys"
    [("id", "@realm")]
    [];
  mkResource "RealmEventsConfig" "/admin/realms/:id/events/config"
    [("id", "@realm")]
    [("update", [Method "PUT"])];
  mkResource "RealmEvents" "/admin/realms/:id/events"
    [("id", "@realm")]
    [];
  mkResource "RealmAdminEvents" "/admin/realms/:id/admin-events"
    [("id", "@realm")]
    [];
  mkResource "BruteForce" "/admin/realms/:realm/attack-detection/brute-force/users"
    [("realm", "@realm")]
    [];
  mkResource "BruteForceUser" "/admin/realms/:realm/attack-detection/brute-force/users/:userId"
    [("realm", "@realm"); ("userId", "@userId")]
    [];
  mkResource "RequiredActions" "/admin/realms/:realm/authentication/required-actions/:alias"
    [("realm", "@realm"); ("alias", "@alias")]
    [("update", [Method "PUT"])];
  mkResource "RequiredActionRaisePriority" "/admin/realms/:realm/authentication/required-actions/:alias/raise-priority"
    [("realm", "@realm"); ("alias", "@alias")]
    [];
  mkResource "RequiredActionLowerPriority" "/admin/realms/:realm/authentication/required-actions/:alias/lower-priority"
    [("realm", "@realm"); ("alias", "@alias")]
    [];
  mkResource "UnregisteredRequiredActions" "/admin/realms/:realm/authentication/unregistered-required-actions"
    [("realm", "@realm")]
    [];
  mkResource "RegisterRequiredAction" "/admin/realms/:realm/authentication/register-required-action"
    [("realm", "@realm")]
    [];
  mkResource "RealmLDAPConnectionTester" "/admin/realms/:realm/testLDAPConnection"
    [("realm", "@realm")]
    [("save", [Method "POST"; Headers [("Content-Type", "application/x-www-form-urlencoded; charset=UTF-8")]; TransformRequest "$httpParamSerializer"])];
  mkResource "RealmSMTPConnectionTester" "/admin/realms/:realm/testSMTPConnection/:config"
    [("realm", "@realm"); ("config", "@config")]
    [("send", [Method "POST"])]
].

Definition resources2 : list resource := [
  mkResource "ClientInitialAccess" "/admin/realms/:realm/clients-initial-access/:id"
    [("realm", "@realm"); ("id", "@id")]
    [];
  mkResource "ClientProtocolMapper" "/admin/realms/:realm/clients/:client/protocol-mappers/models/:id"
    [("realm", "@realm"); ("client", "@client"); ("id", "@id")]
    [("update", [Method "PUT"])];
  mkResource "ClientScopeProtocolMapper" "/admin/realms/:realm/client-scopes/:clientScope/protocol-mappers/models/:id"
    [("realm", "@realm"); ("clientScope", "@clientScope"); ("id", "@id")]
    [("update", [Method "PUT"])];
  mkResource "User" "/admin/realms/:realm/users/:userId"
    [("realm", "@realm"); ("userId", "@userId")]
    [("update", [Method "PUT"])]
].

Definition resources3 : list resource := [
  mkResource "UserSessionStats" "/admin/realms/:realm/users/:user/session-stats"
    [("realm", "@realm"); ("user", "@user")]
    [];
  mkResource "UserSessions" "/admin/realms/:realm/users/:user/sessions"
    [("realm", "@realm"); ("user", "@user")]
    [];
  mkResource "UserOfflineSessions" "/admin/realms/:realm/users/:user/offline-sessions/:client"
    [("realm", "@realm"); ("user", "@user"); ("client", "@client")]
    [];
  mkResource "UserSessionLogout" "/admin/realms/:realm/sessions/:session"
    [("realm", "@realm"); ("session", "@session")]
    [];
  mkResource "UserLogout" "/admin/realms/:realm/users/:user/logout"
    [("realm", "@realm"); ("user", "@user")]
    [];
  mkResource "UserFederatedIdentities" "/admin/realms/:realm/users/:user/federated-identity"
    [("realm", "@realm"); ("user", "@user")]
    [];
  mkResource "UserFederatedIdentity" "/admin/realms/:realm/users/:user/federated-identity/:provider"
    [("realm", "@realm"); ("user", "@user"); ("provider", "@provider")]
    [];
  mkResource "UserConsents" "/admin/realms/:realm/users/:user/consents/:client"
    [("realm", "@realm"); ("user", "@user"); ("client", "@client")]
    [];
  mkResource "UserImpersonation" "/admin/realms/:realm/users/:user/impersonation"
    [("realm", "@realm"); ("user", "@user")]
    []
].

Definition resources4 : list resource := [
  mkResource "UserExecuteActionsEmail" "/admin/realms/:realm/users/:userId/execute-actions-email"
    [("realm", "@realm"); ("userId", "@userId"); ("lifespan", "@lifespan")]
    [("update", [Method "PUT"])];
  mkResource "RealmRoleMapping" "/admin/realms/:realm/users/:userId/role-mappings/realm"
    [("realm", "@realm"); ("userId", "@userId")]
    [];
  mkResource "CompositeRealmRoleMapping" "/admin/realms/:realm/users/:userId/role-mappings/realm/composite"
    [("realm", "@realm"); ("userId", "@userId")]
    [];
  mkResource "AvailableRealmRoleMapping" "/admin/realms/:realm/users/:userId/role-mappings/realm/available"
    [("realm", "@realm"); ("userId", "@userId")]
    [];
  mkResource "ClientRoleMapping" "/admin/realms/:realm/users/:userId/role-mappings/clients/:client"
    [("realm", "@realm"); ("userId", "@userId"); ("client", "@client")]
    [];
  mkResource "AvailableClientRoleMapping" "/admin/realms/:realm/users/:userId/role-mappings/clients/:client/available"
    [("realm", "@realm"); ("userId", "@userId"); ("client", "@client")]
    [];
  mkResource "CompositeClientRoleMapping" "/admin/realms/:realm/users/:userId/role-mappings/clients/:client/composite"
    [("realm", "@realm"); ("userId", "@userId"); ("client", "@client")]
    [];
  mkResource "ClientRealmScopeMapping" "/admin/realms/:realm/clients/:client/scope-mappings/realm"
    [("realm", "@realm"); ("client", "@client")]
    [];
  mkResource "ClientAvailableRealmScopeMapping" "/admin/realms/:realm/clients/:client/scope-mappings/realm/available"
    [("realm", "@realm"); ("client", "@client")]
    [];
  mkResource "ClientCompositeRealmScopeMapping" "/admin/realms/:realm/clients/:client/scope-mappings/realm/composite"
    [("realm", "@realm"); ("client", "@client")]
    [];
  mkResource "ClientClientScopeMapping" "/admin/realms/:realm/clients/:client/scope-mappings/clients/:targetClient"
    [("realm", "@realm"); ("client", "@client"); ("targetClient", "@targetClient")]
    [];
  mkResource "ClientAvailableClientScopeMapping" "/admin/realms/:realm/clients/:client/scope-mappings/clients/:targetClient/available"
    [("realm", "@realm"); ("client", "@client"); ("targetClient", "@targetClient")]
    [];
  mkResource "ClientCompositeClientScopeMapping" "/admin/realms/:realm/clients/:client/scope-mappings/clients/:targetClient/composite"
    [("realm", "@realm"); ("client", "@client"); ("targetClient", "@targetClient")]
    [];
  mkResource "RealmRoles" "/admin/realms/:realm/roles"
    [("realm", "@realm")]
    [];
  mkResource "RoleRealmComposites" "/admin/realms/:realm/roles-by-id/:role/composites/realm"
    [("realm", "@realm"); ("role", "@role")]
    [];
  mkResource "RealmPushRevocation" "/admin/realms/:realm/push-revocation"
    [("realm", "@realm")]
    [];
  mkResource "RealmClearUserCache" "/admin/realms/:realm/clear-user-cache"
    [("realm", "@realm")]
    [];
  mkResource "RealmClearRealmCache" "/admin/realms/:realm/clear-realm-cache"
    [("realm", "@realm")]
    []
].

Definition resources5 : list resource := [
  mkResource "RealmClearKeysCache" "/admin/realms/:realm/clear-keys-cache"
    [("realm", "@realm")]
    [];
  mkResource "RealmSessionStats" "/admin/realms/:realm/session-stats"
    [("realm", "@realm")]
    [];
  mkResource "RealmClientSessionStats" "/admin/realms/:realm/client-session-stats"
    [("realm", "@realm")]
    [];
  mkResource "RoleClientComposites" "/admin/realms/:realm/roles-by-id/:role/composites/clients/:client"
    [("realm", "@realm"); ("role", "@role"); ("client", "@client")]
    []
].

Definition resources6 : list resource := [
  mkResource "Role" "/admin/realms/:realm/roles/:role"
    [("realm", "@realm"); ("role", "@role")]
    [("update", [Method "PUT"])];
  mkResource "RoleById" "/admin/realms/:realm/roles-by-id/:role"
    [("realm", "@realm"); ("role", "@role")]
    [("update", [Method "PUT"])];
  mkResource "ClientRole" "/admin/realms/:realm/clients/:client/roles/:role"
    [("realm", "@realm"); ("client", "@client"); ("role", "@role")]
    [("update", [Method "PUT"])];
  mkResource "ClientDefaultClientScopes" "/admin/realms/:realm/clients/:client/default-client-scopes/:clientScopeId"
    [("realm", "@realm"); ("client", "@client"); ("clientScopeId", "@clientScopeId")]
    [("update", [Method "PUT"])];
  mkResource "ClientOptionalClientScopes" "/admin/realms/:realm/clients/:client/optional-client-scopes/:clientScopeId"
    [("realm", "@realm"); ("client", "@client"); ("clientScopeId", "@clientScopeId")]
    [("update", [Method "PUT"])];
  mkResource "ClientEvaluateProtocolMappers" "/admin/realms/:realm/clients/:client/evaluate-scopes/protocol-mappers?scope=:scopeParam"
    [("realm", "@realm"); ("client", "@client"); ("scopeParam", "@scopeParam")]
    [];
  mkResource "ClientEvaluateGrantedRoles" "/admin/realms/:realm/clients/:client/evaluate-scopes/scope-mappings/:roleContainer/granted?scope=:scopeParam"
    [("realm", "@realm"); ("client", "@client"); ("roleContainer", "@roleContainer"); ("scopeParam", "@scopeParam")]
    [];
  mkResource "ClientEvaluateNotGrantedRoles" "/admin/realms/:realm/clients/:client/evaluate-scopes/scope-mappings/:roleContainer/not-granted?scope=:scopeParam"
    [("realm", "@realm"); ("client", "@client"); ("roleContainer", "@roleContainer"); ("scopeParam", "@scopeParam")]
    []
].

Definition resources7 : list resource := [
  mkResource "ClientProtocolMappersByProtocol" "/admin/realms/:realm/clients/:client/protocol-mappers/protocol/:protocol"
    [("realm", "@realm"); ("client", "@client"); ("protocol", "@protocol")]
    [];
  mkResource "ClientScopeProtocolMappersByProtocol" "/admin/realms/:realm/client-scopes/:clientScope/protocol-mappers/protocol/:protocol"
    [("realm", "@realm"); ("clientScope", "@clientScope"); ("protocol", "@protocol")]
    [];
  mkResource "ClientScopeRealmScopeMapping" "/admin/realms/:realm/client-scopes/:clientScope/scope-mappings/realm"
    [("realm", "@realm"); ("clientScope", "@clientScope")]
    [];
  mkResource "ClientScopeAvailableRealmScopeMapping" "/admin/realms/:realm/client-scopes/:clientScope/scope-mappings/realm/available"
    [("realm", "@realm"); ("clientScope", "@clientScope")]
    [];
  mkResource "ClientScopeCompositeRealmScopeMapping" "/admin/realms/:realm/client-scopes/:clientScope/scope-mappings/realm/composite"
    [("realm", "@realm"); ("clientScope", "@clientScope")]
    [];
  mkResource "ClientScopeClientScopeMapping" "/admin/realms/:realm/client-scopes/:clientScope/scope-mappings/clients/:targetClient"
    [("realm", "@realm"); ("clientScope", "@clientScope"); ("targetClient", "@targetClient")]
    [];
  mkResource "ClientScopeAvailableClientScopeMapping" "/admin/realms/:realm/client-scopes/:clientScope/scope-mappings/clients/:targetClient/available"
    [("realm", "@realm"); ("clientScope", "@clientScope"); ("targetClient", "@targetClient")]
    [];
  mkResource "ClientScopeCompositeClientScopeMapping" "/admin/realms/:realm/client-scopes/:clientScope/scope-mappings/clients/:targetClient/composite"
    [("realm", "@realm"); ("clientScope", "@clientScope"); ("targetClient", "@targetClient")]
    [];
  mkResource "ClientSessionStats" "/admin/realms/:realm/clients/:client/session-stats"
    [("realm", "@realm"); ("client", "@client")]
    [];
  mkResource "ClientSessionStatsWithUsers" "/admin/realms/:realm/clients/:client/session-stats?users=true"
    [("realm", "@realm"); ("client", "@client")]
    [];
  mkResource "ClientSessionCount" "/admin/realms/:realm/clients/:client/session-count"
    [("realm", "@realm"); ("client", "@client")]
    [];
  mkResource "ClientUserSessions" "/admin/realms/:realm/clients/:client/user-sessions"
    [("realm", "@realm"); ("client", "@client")]
    [];
  mkResource "ClientOfflineSessionCount" "/admin/realms/:realm/clients/:client/offline-session-count"
    [("realm", "@realm"); ("client", "@client")]
    [];
  mkResource "ClientOfflineSessions" "/admin/realms/:realm/clients/:client/offline-sessions"
    [("realm", "@realm"); ("client", "@client")]
    [];
  mkResource "RealmLogoutAll" "/admin/realms/:realm/logout-all"
    [("realm", "@realm")]
    [];
  mkResource "ClientPushRevocation" "/admin/realms/:realm/clients/:client/push-revocation"
    [("realm", "@realm"); ("client", "@client")]
    [];
  mkResource "ClientClusterNode" "/admin/realms/:realm/clients/:client/nodes/:node"
    [("realm", "@realm"); ("client", "@client")]
    [];
  mkResource "ClientTestNodesAvailable" "/admin/realms/:realm/clients/:client/test-nodes-available"
    [("realm", "@realm"); ("client", "@client")]
    [];
  mkResource "ClientCertificate" "/admin/realms/:realm/clients/:client/certificates/:attribute"
    [("realm", "@realm"); ("client", "@client"); ("attribute", "@attribute")]
    []
].

Definition resources8 : list resource := [
  mkResource "ClientCertificateGenerate" "/admin/realms/:realm/clients/:client/certificates/:attribute/generate"
    [("realm", "@realm"); ("client", "@client"); ("attribute", "@attribute")]
    [("generate", [Method "POST"])];
  mkResource "ClientCertificateDownload" "/admin/realms/:realm/clients/:client/certificates/:attribute/download"
    [("realm", "@realm"); ("client", "@client"); ("attribute", "@attribute")]
    [("download", [Method "POST"; ResponseType "arraybuffer"])];
  mkResource "Client" "/admin/realms/:realm/clients/:client"
    [("realm", "@realm"); ("client", "@client")]
    [("update", [Method "PUT"])];
  mkResource "ClientScope" "/admin/realms/:realm/client-scopes/:clientScope"
    [("realm", "@realm"); ("clientScope", "@clientScope")]
    [("update", [Method "PUT"])];
  mkResource "RealmDefaultClientScopes" "/admin/realms/:realm/default-default-client-scopes/:clientScopeId"
    [("realm", "@realm"); ("clientScopeId", "@clientScopeId")]
    [("update", [Method "PUT"])];
  mkResource "RealmOptionalClientScopes" "/admin/realms/:realm/default-optional-client-scopes/:clientScopeId"
    [("realm", "@realm"); ("clientScopeId", "@clientScopeId")]
    [("update", [Method "PUT"])];
  mkResource "ClientDescriptionConverter" "/admin/realms/:realm/client-description-converter"
    [("realm", "@realm")]
    []
].

Definition resources9 : list resource := [
  mkResource "ClientSecret" "/admin/realms/:realm/clients/:client/client-secret"
    [("realm", "@realm"); ("client", "@client")]
    [("update", [Method "POST"])];
  mkResource "ClientRegistrationAccessToken" "/admin/realms/:realm/clients/:client/registration-access-token"
    [("realm", "@realm"); ("client", "@client")]
    [("update", [Method "POST"])];
  mkResource "ClientOrigins" "/admin/realms/:realm/clients/:client/allowed-origins"
    [("realm", "@realm"); ("client", "@client")]
    [("update", [Method "PUT"; IsArray true])];
  mkResource "ClientServiceAccountUser" "/admin/realms/:realm/clients/:client/service-account-user"
    [("realm", "@realm"); ("client", "@client")]
    []
].

Definition resources10 : list resource := [
  mkResource "IdentityProvider" "/admin/realms/:realm/identity-provider/instances/:alias"
    [("realm", "@realm"); ("alias", "@alias")]
    [("update", [Method "PUT"])]
].

Definition resources11 : list resource := [
  mkResource "IdentityProviderFactory" "/admin/realms/:realm/identity-provider/providers/:provider_id"
    [("realm", "@realm"); ("provider_id", "@provider_id")]
    [];
  mkResource "IdentityProviderMapperTypes" "/admin/realms/:realm/identity-provider/instances/:alias/mapper-types"
    [("realm", "@realm"); ("alias", "@alias")]
    [];
  mkResource "IdentityProviderMappers" "/admin/realms/:realm/identity-provider/instances/:alias/mappers"
    [("realm", "@realm"); ("alias", "@alias")]
    [];
  mkResource "IdentityProviderMapper" "/admin/realms/:realm/identity-provider/instances/:alias/mappers/:mapperId"
    [("realm", "@realm"); ("alias", "@alias"); ("mapperId", "@mapperId")]
    [("update", [Method "PUT"])];
  mkResource "AuthenticationFlowExecutions" "/admin/realms/:realm/authentication/flows/:alias/executions"
    [("realm", "@realm"); ("alias", "@alias")]
    [("update", [Method "PUT"])];
  mkResource "CreateExecutionFlow" "/admin/realms/:realm/authentication/flows/:alias/executions/flow"
    [("realm", "@realm"); ("alias", "@alias")]
    [];
  mkResource "CreateExecution" "/admin/realms/:realm/authentication/flows/:alias/executions/execution"
    [("realm", "@realm"); ("alias", "@alias")]
    [];
  mkResource "AuthenticationFlows" "/admin/realms/:realm/authentication/flows/:flow"
    [("realm", "@realm"); ("flow", "@flow")]
    [];
  mkResource "AuthenticationFormProviders" "/admin/realms/:realm/authentication/form-providers"
    [("realm", "@realm")]
    [];
  mkResource "AuthenticationFormActionProviders" "/admin/realms/:realm/authentication/form-action-providers"
    [("realm", "@realm")]
    [];
  mkResource "AuthenticatorProviders" "/admin/realms/:realm/authentication/authenticator-providers"
    [("realm", "@realm")]
    [];
  mkResource "ClientAuthenticatorProviders" "/admin/realms/:realm/authentication/client-authenticator-providers"
    [("realm", "@realm")]
    [];
  mkResource "AuthenticationFlowsCopy" "/admin/realms/:realm/authentication/flows/:alias/copy"
    [("realm", "@realm"); ("alias", "@alias")]
    [];
  mkResource "AuthenticationConfigDescription" "/admin/realms/:realm/authentication/config-description/:provider"
    [("realm", "@realm"); ("provider", "@provider")]
    [];
  mkResource "PerClientAuthenticationConfigDescription" "/admin/realms/:realm/authentication/per-client-config-description"
    [("realm", "@realm")]
    [];
  mkResource "AuthenticationConfig" "/admin/realms/:realm/authentication/config/:config"
    [("realm", "@realm"); ("config", "@config")]
    [("update", [Method "PUT"])];
  mkResource "AuthenticationExecutionConfig" "/admin/realms/:realm/authentication/executions/:execution/config"
    [("realm", "@realm"); ("execution", "@execution")]
    [];
  mkResource "AuthenticationExecution" "/admin/realms/:realm/authentication/executions/:execution"
    [("realm", "@realm"); ("execution", "@execution")]
    [("update", [Method "PUT"])]
].

Definition resources12 : list resource := [
  mkResource "AuthenticationExecutionRaisePriority" "/admin/realms/:realm/authentication/executions/:execution/raise-priority"
    [("realm", "@realm"); ("execution", "@execution")]
    [];
  mkResource "AuthenticationExecutionLowerPriority" "/admin/realms/:realm/authentication/executions/:execution/lower-priority"
    [("realm", "@realm"); ("execution", "@execution")]
    []
].

Definition resources13 : list resource := [
  mkResource "Group" "/admin/realms/:realm/groups/:groupId"
    [("realm", "@realm"); ("userId", "@groupId")]
    [("update", [Method "PUT"])];
  mkResource "GroupChildren" "/admin/realms/:realm/groups/:groupId/children"
    [("realm", "@realm"); ("groupId", "@groupId")]
    [];
  mkResource "GroupsCount" "/admin/realms/:realm/groups/count"
    [("realm", "@realm")]
    [("query", [IsArray false; Method "GET"; Params []; TransformResponse "angular.fromJson"])];
  mkResource "Groups" "/admin/realms/:realm/groups"
    [("realm", "@realm")]
    [];
  mkResource "GroupRealmRoleMapping" "/admin/realms/:realm/groups/:groupId/role-mappings/realm"
    [("realm", "@realm"); ("groupId", "@groupId")]
    [];
  mkResource "GroupCompositeRealmRoleMapping" "/admin/realms/:realm/groups/:groupId/role-mappings/realm/composite"
    [("realm", "@realm"); ("groupId", "@groupId")]
    [];
  mkResource "GroupAvailableRealmRoleMapping" "/admin/realms/:realm/groups/:groupId/role-mappings/realm/available"
    [("realm", "@realm"); ("groupId", "@groupId")]
    [];
  mkResource "GroupClientRoleMapping" "/admin/realms/:realm/groups/:groupId/role-mappings/clients/:client"
    [("realm", "@realm"); ("groupId", "@groupId"); ("client", "@client")]
    [];
  mkResource "GroupAvailableClientRoleMapping" "/admin/realms/:realm/groups/:groupId/role-mappings/clients/:client/available"
    [("realm", "@realm"); ("groupId", "@groupId"); ("client", "@client")]
    [];
  mkResource "GroupCompositeClientRoleMapping" "/admin/realms/:realm/groups/:groupId/role-mappings/clients/:client/composite"
    [("realm", "@realm"); ("groupId", "@groupId"); ("client", "@client")]
    [];
  mkResource "GroupMembership" "/admin/realms/:realm/groups/:groupId/members"
    [("realm", "@realm"); ("groupId", "@groupId")]
    [];
  mkResource "RoleMembership" "/admin/realms/:realm/roles/:role/users"
    [("realm", "@realm"); ("role", "@role")]
    [];
  mkResource "UserGroupMembership" "/admin/realms/:realm/users/:userId/groups"
    [("realm", "@realm"); ("userId", "@userId")]
    [];
  mkResource "UserGroupMapping" "/admin/realms/:realm/users/:userId/groups/:groupId"
    [("realm", "@realm"); ("userId", "@userId"); ("groupId", "@groupId")]
    [("update", [Method "PUT"])];
  mkResource "DefaultGroups" "/admin/realms/:realm/default-groups/:groupId"
    [("realm", "@realm"); ("groupId", "@groupId")]
    [("update", [Method "PUT"])];
  mkResource "SubComponentTypes" "/admin/realms/:realm/components/:componentId/sub-component-types"
    [("realm", "@realm"); ("componentId", "@componentId")]
    []
].

Definition resources14 : list resource := [
  mkResource "ClientRegistrationPolicyProviders" "/admin/realms/:realm/client-registration-policy/providers"
    [("realm", "@realm")]
    [];
  mkResource "LDAPMapperSync" "/admin/realms/:realm/user-storage/:parentId/mappers/:mapperId/sync"
    [("realm", "@realm"); ("componentId", "@componentId"); ("mapperId", "@mapperId")]
    []
].

Definition authzResources1 : list resource := [
  mkResource "ResourceServer" "/admin/realms/:realm/clients/:client/authz/resource-server"
    [("realm", "@realm"); ("client", "@client")]
    [("update", [Method "PUT"]); ("import", [Url "/admin/realms/:realm/clients/:client/authz/resource-server/import"; Method "POST"]); ("settings", [Url "/admin/realms/:realm/clients/:client/authz/resource-server/settings"; Method "GET"])];
  mkResource "ResourceServerResource" "/admin/realms/:realm/clients/:client/authz/resource-server/resource/:rsrid"
    [("realm", "@realm"); ("client", "@client"); ("rsrid", "@rsrid")]
    [("update", [Method "PUT"]); ("search", [Url "/admin/realms/:realm/clients/:client/authz/resource-server/resource/search"; Method "GET"]); ("scopes", [Url "/admin/realms/:realm/clients/:client/authz/resource-server/resource/:rsrid/scopes"; Method "GET"; IsArray true]); ("permissions", [Url "/admin/realms/:realm/clients/:client/authz/resource-server/resource/:rsrid/permissions"; Method "GET"; IsArray true])];
  mkResource "ResourceServerScope" "/admin/realms/:realm/clients/:client/authz/resource-server/scope/:id"
    [("realm", "@realm"); ("client", "@client"); ("id", "@id")]
    [("update", [Method "PUT"]); ("search", [Url "/admin/realms/:realm/clients/:client/authz/resource-server/scope/search"; Method "GET"]); ("resources", [Url "/admin/realms/:realm/clients/:client/authz/resource-server/scope/:id/resources"; Method "GET"; IsArray true]); ("permissions", [Url "/admin/realms/:realm/clients/:client/authz/resource-server/scope/:id/permissions"; Method "GET"; IsArray true])];
  mkResource "ResourceServerPolicy" "/admin/realms/:realm/clients/:client/authz/resource-server/policy/:type/:id"
    [("realm", "@realm"); ("client", "@client"); ("id", "@id"); ("type", "@type")]
    [("update", [Method "PUT"]); ("search", [Url "/admin/realms/:realm/clients/:client/authz/resource-server/policy/search"; Method "GET"]); ("associatedPolicies", [Url "/admin/realms/:realm/clients/:client/authz/resource-server/policy/:id/associatedPolicies"; Method "GET"; IsArray true]); ("dependentPolicies", [Url "/admin/realms/:realm/clients/:client/authz/resource-server/policy/:id/dependentPolicies"; Method "GET"; IsArray true]); ("scopes", [Url "/admin/realms/:realm/clients/:client/authz/resource-server/policy/:id/scopes"; Method "GET"; IsArray true]); ("resources", [Url "/admin/realms/:realm/clients/:client/authz/resource-server/policy/:id/resources"; Method "GET"; IsArray true])];
  mkResource "ResourceServerPermission" "/admin/realms/:realm/clients/:client/authz/resource-server/permission/:type/:id"
    [("realm", "@realm"); ("client", "@client"); ("type", "@type"); ("id", "@id")]
    [("update", [Method "PUT"]); ("search", [Url "/admin/realms/:realm/clients/:client/authz/resource-server/permission/search"; Method "GET"]); ("searchPolicies", [Url "/admin/realms/:realm/clients/:client/authz/resource-server/policy"; Method "GET"; IsArray true]); ("associatedPolicies", [Url "/admin/realms/:realm/clients/:client/authz/resource-server/policy/:id/associatedPolicies"; Method "GET"; IsArray true]); ("dependentPolicies", [Url "/admin/realms/:realm/clients/:client/authz/resource-server/policy/:id/dependentPolicies"; Method "GET"; IsArray true]); ("scopes", [Url "/admin/realms/:realm/clients/:client/authz/resource-server/permission/:id/scopes"; Method "GET"; IsArray true]); ("resources", [Url "/admin/realms/:realm/clients/:client/authz/resource-server/permission/:id/resources"; Method "GET"; IsArray true])];
  mkResource "PolicyProvider" "/admin/realms/:realm/clients/:client/authz/resource-server/policy/providers"
    [("realm", "@realm"); ("client", "@client")]
    []
].

Definition authzResources2 : list resource := [
  mkResource "RoleManagementPermissions" "/admin/realms/:realm/roles-by-id/:role/management/permissions"
    [("realm", "@realm"); ("role", "@role")]
    [("update", [Method "PUT"])];
  mkResource "UsersManagementPermissions" "/admin/realms/:realm/users-management-permissions"
    [("realm", "@realm")]
    [("update", [Method "PUT"])];
  mkResource "ClientManagementPermissions" "/admin/realms/:realm/clients/:client/management/permissions"
    [("realm", "@realm"); ("client", "@client")]
    [("update", [Method "PUT"])];
  mkResource "IdentityProviderManagementPermissions" "/admin/realms/:realm/identity-provider/instances/:alias/management/permissions"
    [("realm", "@realm"); ("alias", "@alias")]
    [("update", [Method "PUT"])];
  mkResource "GroupManagementPermissions" "/admin/realms/:realm/groups/:group/management/permissions"
    [("realm", "@realm"); ("group", "@group")]
    [("update", [Method "PUT"])]
].

(** The factory [Components], whose transformations of the request body drop the
    empty last value of a multivalued property first. *)
Definition componentsResource : resource :=
  mkResource "Components" "/admin/realms/:realm/components/:componentId"
    [("realm", "@realm"); ("componentId", "@componentId")]
    [("update", [Method "PUT"; TransformRequest "removeLastEmptyValue"]);
     ("save", [Method "POST"; TransformRequest "removeLastEmptyValue"])].

(** Resources that are properties of a factory's object, named with it. *)
Definition operations : list resource := [
  mkResource "UserCredentials.resetPassword" "/admin/realms/:realm/users/:userId/reset-password"
    [("realm", "@realm"); ("userId", "@userId")] [("update", [Method "PUT"])];
  mkResource "UserCredentials.removeTotp" "/admin/realms/:realm/users/:userId/remove-totp"
    [("realm", "@realm"); ("userId", "@userId")] [("update", [Method "PUT"])];
  mkResource "UserCredentials.disableCredentialTypes"
    "/admin/realms/:realm/users/:userId/disable-credential-types"
    [("realm", "@realm"); ("userId", "@userId")] [("update", [Method "PUT"])]
].

Definition storageOperations : list resource := [
  mkResource "UserStorageOperations.sync" "/admin/realms/:realm/user-storage/:componentId/sync"
    [("realm", "@realm"); ("componentId", "@componentId")] [];
  mkResource "UserStorageOperations.removeImportedUsers"
    "/admin/realms/:realm/user-storage/:componentId/remove-imported-users"
    [("realm", "@realm"); ("componentId", "@componentId")] [];
  mkResource "UserStorageOperations.unlinkUsers"
    "/admin/realms/:realm/user-storage/:componentId/unlink-users"
    [("realm", "@realm"); ("componentId", "@componentId")] [];
  mkResource "UserStorageOperations.simpleName"
    "/admin/realms/:realm/user-storage/:componentId/name"
    [("realm", "@realm"); ("componentId", "@componentId")] [];
  mkResource "ClientStorageOperations.simpleName"
    "/admin/realms/:realm/client-storage/:componentId/name"
    [("realm", "@realm"); ("componentId", "@componentId")] []
].

Definition resources : list resource :=
  resources1
  ++ resources2
  ++ resources3
  ++ resources4
  ++ resources5
  ++ resources6
  ++ resources7
  ++ resources8
  ++ resources9
  ++ resources10
  ++ resources11
  ++ resources12
  ++ resources13
  ++ resources14
  ++ authzResources1
  ++ authzResources2
  ++ [componentsResource] ++ operations ++ storageOperations.

(** ** Templates *)

Definition word_char (a : ascii) : bool := is_alnum a || Ascii.eqb a "_".

(** The longest prefix of letters, digits and underscores. *)
Fixpoint word (s : string) : string :=
  match s with
  | String a s' => if word_char a then String a (word s') else ""
  | "" => ""
  end.

(** The parameters [:name] of a template, in order. *)
Fixpoint templateParams (s : string) : list string :=
  match s with
  | "" => []
  | String a s' =>
      if Ascii.eqb a ":" && negb (String.eqb (word s') "") then word s' :: templateParams s'
      else templateParams s'
  end.

Definition actionUrls (r : resource) : list string :=
  rs_url r :: omap (λ f, match f with Url u => Some u | _ => None end) (concat (rs_actions r).*2).

Definition lookupResource (name : string) : option resource :=
  snd <$> list_find (λ r, rs_name r = name) resources.

(** The parameters of the templates of a resource that have no default. *)
Definition undefaulted (r : resource) : list (string * string) :=
  (λ p, (rs_name r, p)) <$>
  filter (λ p, p ∉ (rs_defaults r).*1) (concat (templateParams <$> actionUrls r)).

End AdminResources.
