(* ===== verification/AdminLoaders.v ===== *)
(** The loaders of the admin console (loaders.js): what each fetches, with which
    arguments from the current route. *)

From S2P Require Import Prelude JsString Uri JsValue AdminResources.
Import JsString Uri JsValue AdminResources.

Module AdminLoaders.

(** Where an argument comes from: [$route.current.params.p], the first of two such
    parameters that is set, a constant, or an argument of the loader itself. *)
Inductive arg :=
  | Param (p : string)
  | ParamOr (p q : string)
  | Const (v : jsval)
  | Arg (x : string).

(** [Loader.get] and [Loader.query]. *)
Inductive fetch := Get | Query.

Inductive loading :=
  | Fetch (f : fetch) (service : string) (args : list (string * arg))
  | PromiseOf (service : string)
  | ParamOf (p : string).

Record loader := mkLoader {
  ld_name : string;
  ld_injected : list string;
  ld_loading : loading
}.

Definition loaders1 : list loader := [
  mkLoader "RealmListLoader" ["Loader"; "Realm"; "$q"]
    (Fetch Get "Realm" []);
  mkLoader "ServerInfoLoader" ["Loader"; "ServerInfo"] (PromiseOf "ServerInfo");
  mkLoader "RealmLoader" ["Loader"; "Realm"; "$route"; "$q"]
    (Fetch Get "Realm" [("id", Param "realm")]);
  mkLoader "RealmKeysLoader" ["Loader"; "RealmKeys"; "$route"; "$q"]
    (Fetch Get "RealmKeys" [("id", Param "realm")]);
  mkLoader "RealmEventsConfigLoader" ["Loader"; "RealmEventsConfig"; "$route"; "$q"]
    (Fetch Get "RealmEventsConfig" [("id", Param "realm")]);
  mkLoader "UserListLoader" ["Loader"; "User"; "$route"; "$q"]
    (Fetch Query "User" [("realm", Param "realm")]);
  mkLoader "RequiredActionsListLoader" ["Loader"; "RequiredActions"; "$route"; "$q"]
    (Fetch Query "RequiredActions" [("realm", Param "realm")]);
  mkLoader "UnregisteredRequiredActionsListLoader" ["Loader"; "UnregisteredRequiredActions"; "$route"; "$q"]
    (Fetch Query "UnregisteredRequiredActions" [("realm", Param "realm")]);
  mkLoader "RealmSessionStatsLoader" ["Loader"; "RealmSessionStats"; "$route"; "$q"]
    (Fetch Get "RealmSessionStats" [("realm", Param "realm")]);
  mkLoader "RealmClientSessionStatsLoader" ["Loader"; "RealmClientSessionStats"; "$route"; "$q"]
    (Fetch Query "RealmClientSessionStats" [("realm", Param "realm")]);
  mkLoader "ClientProtocolMapperLoader" ["Loader"; "ClientProtocolMapper"; "$route"; "$q"]
    (Fetch Get "ClientProtocolMapper" [("realm", Param "realm"); ("client", Param "client"); ("id", Param "id")]);
  mkLoader "ClientScopeProtocolMapperLoader" ["Loader"; "ClientScopeProtocolMapper"; "$route"; "$q"]
    (Fetch Get "ClientScopeProtocolMapper" [("realm", Param "realm"); ("clientScope", Param "clientScope"); ("id", Param "id")]);
  mkLoader "UserLoader" ["Loader"; "User"; "$route"; "$q"]
    (Fetch Get "User" [("realm", Param "realm"); ("userId", Param "user")]);
  mkLoader "ComponentLoader" ["Loader"; "Components"; "$route"; "$q"]
    (Fetch Get "Components" [("realm", Param "realm"); ("componentId", Param "componentId")]);
  mkLoader "LDAPMapperLoader" ["Loader"; "Components"; "$route"; "$q"]
    (Fetch Get "Components" [("realm", Param "realm"); ("componentId", Param "mapperId")]);
  mkLoader "ComponentsLoader" ["Loader"; "Components"; "$route"; "$q"]
    (Fetch Query "Components" [("realm", Param "realm"); ("parent", Arg "parent"); ("type", Arg "componentType")])
].

Definition loaders2 : list loader := [
  mkLoader "SubComponentTypesLoader" ["Loader"; "SubComponentTypes"; "$route"; "$q"]
    (Fetch Query "SubComponentTypes" [("realm", Param "realm"); ("componentId", Arg "parent"); ("type", Arg "componentType")]);
  mkLoader "UserSessionStatsLoader" ["Loader"; "UserSessionStats"; "$route"; "$q"]
    (Fetch Get "UserSessionStats" [("realm", Param "realm"); ("user", Param "user")]);
  mkLoader "UserSessionsLoader" ["Loader"; "UserSessions"; "$route"; "$q"]
    (Fetch Query "UserSessions" [("realm", Param "realm"); ("user", Param "user")]);
  mkLoader "UserOfflineSessionsLoader" ["Loader"; "UserOfflineSessions"; "$route"; "$q"]
    (Fetch Query "UserOfflineSessions" [("realm", Param "realm"); ("user", Param "user"); ("client", Param "client")]);
  mkLoader "UserFederatedIdentityLoader" ["Loader"; "UserFederatedIdentities"; "$route"; "$q"]
    (Fetch Query "UserFederatedIdentities" [("realm", Param "realm"); ("user", Param "user")]);
  mkLoader "UserConsentsLoader" ["Loader"; "UserConsents"; "$route"; "$q"]
    (Fetch Query "UserConsents" [("realm", Param "realm"); ("user", Param "user")]);
  mkLoader "RoleLoader" ["Loader"; "RoleById"; "$route"; "$q"]
    (Fetch Get "RoleById" [("realm", Param "realm"); ("role", Param "role")]);
  mkLoader "RoleListLoader" ["Loader"; "Role"; "$route"; "$q"]
    (Fetch Query "Role" [("realm", Param "realm")]);
  mkLoader "ClientRoleLoader" ["Loader"; "RoleById"; "$route"; "$q"]
    (Fetch Get "RoleById" [("realm", Param "realm"); ("client", Param "client"); ("role", Param "role")]);
  mkLoader "ClientSessionStatsLoader" ["Loader"; "ClientSessionStats"; "$route"; "$q"]
    (Fetch Get "ClientSessionStats" [("realm", Param "realm"); ("client", Param "client")]);
  mkLoader "ClientSessionCountLoader" ["Loader"; "ClientSessionCount"; "$route"; "$q"]
    (Fetch Get "ClientSessionCount" [("realm", Param "realm"); ("client", Param "client")]);
  mkLoader "ClientOfflineSessionCountLoader" ["Loader"; "ClientOfflineSessionCount"; "$route"; "$q"]
    (Fetch Get "ClientOfflineSessionCount" [("realm", Param "realm"); ("client", Param "client")]);
  mkLoader "ClientDefaultClientScopesLoader" ["Loader"; "ClientDefaultClientScopes"; "$route"; "$q"]
    (Fetch Query "ClientDefaultClientScopes" [("realm", Param "realm"); ("client", Param "client")]);
  mkLoader "ClientOptionalClientScopesLoader" ["Loader"; "ClientOptionalClientScopes"; "$route"; "$q"]
    (Fetch Query "ClientOptionalClientScopes" [("realm", Param "realm"); ("client", Param "client")])
].

Definition loaders3 : list loader := [
  mkLoader "ClientRoleListLoader" ["Loader"; "ClientRole"; "$route"; "$q"]
    (Fetch Query "ClientRole" [("realm", Param "realm"); ("client", Param "client")]);
  mkLoader "ClientLoader" ["Loader"; "Client"; "$route"; "$q"]
    (Fetch Get "Client" [("realm", Param "realm"); ("client", Param "client")]);
  mkLoader "ClientListLoader" ["Loader"; "Client"; "$route"; "$q"]
    (Fetch Query "Client" [("realm", Param "realm")]);
  mkLoader "ClientScopeLoader" ["Loader"; "ClientScope"; "$route"; "$q"]
    (Fetch Get "ClientScope" [("realm", Param "realm"); ("clientScope", Param "clientScope")]);
  mkLoader "ClientScopeListLoader" ["Loader"; "ClientScope"; "$route"; "$q"]
    (Fetch Query "ClientScope" [("realm", Param "realm")]);
  mkLoader "RealmDefaultClientScopesLoader" ["Loader"; "RealmDefaultClientScopes"; "$route"; "$q"]
    (Fetch Query "RealmDefaultClientScopes" [("realm", Param "realm")]);
  mkLoader "RealmOptionalClientScopesLoader" ["Loader"; "RealmOptionalClientScopes"; "$route"; "$q"]
    (Fetch Query "RealmOptionalClientScopes" [("realm", Param "realm")]);
  mkLoader "ClientServiceAccountUserLoader" ["Loader"; "ClientServiceAccountUser"; "$route"; "$q"]
    (Fetch Get "ClientServiceAccountUser" [("realm", Param "realm"); ("client", Param "client")]);
  mkLoader "RoleMappingLoader" ["Loader"; "RoleMapping"; "$route"; "$q"]
    (Fetch Query "RoleMapping" [("realm", ParamOr "realm" "client"); ("role", Param "role")]);
  mkLoader "IdentityProviderLoader" ["Loader"; "IdentityProvider"; "$route"; "$q"]
    (Fetch Get "IdentityProvider" [("realm", Param "realm"); ("alias", Param "alias")]);
  mkLoader "IdentityProviderFactoryLoader" ["Loader"; "IdentityProviderFactory"; "$route"; "$q"]
    (Fetch Get "IdentityProviderFactory" [("realm", Param "realm"); ("provider_id", Param "provider_id")]);
  mkLoader "IdentityProviderMapperTypesLoader" ["Loader"; "IdentityProviderMapperTypes"; "$route"; "$q"]
    (Fetch Get "IdentityProviderMapperTypes" [("realm", Param "realm"); ("alias", Param "alias")]);
  mkLoader "IdentityProviderMappersLoader" ["Loader"; "IdentityProviderMappers"; "$route"; "$q"]
    (Fetch Query "IdentityProviderMappers" [("realm", Param "realm"); ("alias", Param "alias")]);
  mkLoader "IdentityProviderMapperLoader" ["Loader"; "IdentityProviderMapper"; "$route"; "$q"]
    (Fetch Get "IdentityProviderMapper" [("realm", Param "realm"); ("alias", Param "alias"); ("mapperId", Param "mapperId")]);
  mkLoader "AuthenticationFlowsLoader" ["Loader"; "AuthenticationFlows"; "$route"; "$q"]
    (Fetch Query "AuthenticationFlows" [("realm", Param "realm"); ("flow", Const (Str ""))])
].

Definition loaders4 : list loader := [
  mkLoader "AuthenticationFormProvidersLoader" ["Loader"; "AuthenticationFormProviders"; "$route"; "$q"]
    (Fetch Query "AuthenticationFormProviders" [("realm", Param "realm")]);
  mkLoader "AuthenticationFormActionProvidersLoader" ["Loader"; "AuthenticationFormActionProviders"; "$route"; "$q"]
    (Fetch Query "AuthenticationFormActionProviders" [("realm", Param "realm")]);
  mkLoader "AuthenticatorProvidersLoader" ["Loader"; "AuthenticatorProviders"; "$route"; "$q"]
    (Fetch Query "AuthenticatorProviders" [("realm", Param "realm")]);
  mkLoader "ClientAuthenticatorProvidersLoader" ["Loader"; "ClientAuthenticatorProviders"; "$route"; "$q"]
    (Fetch Query "ClientAuthenticatorProviders" [("realm", Param "realm")]);
  mkLoader "AuthenticationFlowLoader" ["Loader"; "AuthenticationFlows"; "$route"; "$q"]
    (Fetch Get "AuthenticationFlows" [("realm", Param "realm"); ("flow", Param "flow")]);
  mkLoader "AuthenticationConfigDescriptionLoader" ["Loader"; "AuthenticationConfigDescription"; "$route"; "$q"]
    (Fetch Get "AuthenticationConfigDescription" [("realm", Param "realm"); ("provider", Param "provider")]);
  mkLoader "PerClientAuthenticationConfigDescriptionLoader" ["Loader"; "PerClientAuthenticationConfigDescription"; "$route"; "$q"]
    (Fetch Get "PerClientAuthenticationConfigDescription" [("realm", Param "realm")]);
  mkLoader "ExecutionIdLoader" ["$route"] (ParamOf "executionId");
  mkLoader "AuthenticationConfigLoader" ["Loader"; "AuthenticationConfig"; "$route"; "$q"]
    (Fetch Get "AuthenticationConfig" [("realm", Param "realm"); ("config", Param "config")]);
  mkLoader "GroupListLoader" ["Loader"; "Groups"; "$route"; "$q"]
    (Fetch Query "Groups" [("realm", Param "realm")]);
  mkLoader "GroupCountLoader" ["Loader"; "GroupsCount"; "$route"; "$q"]
    (Fetch Query "GroupsCount" [("realm", Param "realm"); ("top", Const (Bool true))]);
  mkLoader "GroupLoader" ["Loader"; "Group"; "$route"; "$q"]
    (Fetch Get "Group" [("realm", Param "realm"); ("groupId", Param "group")]);
  mkLoader "ClientInitialAccessLoader" ["Loader"; "ClientInitialAccess"; "$route"]
    (Fetch Query "ClientInitialAccess" [("realm", Param "realm")]);
  mkLoader "ClientRegistrationPolicyProvidersLoader" ["Loader"; "ClientRegistrationPolicyProviders"; "$route"]
    (Fetch Query "ClientRegistrationPolicyProviders" [("realm", Param "realm")])
].

Definition loaders : list loader :=
  loaders1
  ++ loaders2
  ++ loaders3
  ++ loaders4.

(** *** [Loader.get] and [Loader.query]

    [Loader.get(service, id)] calls the service with the value of [id], and resolves
    or rejects its promise with the answer.  The service is [$resource]'s, so the
    calls that leave the loader are values. *)

Inductive service_call :=
  | CallGet (service : string) (i : jsval)
  | CallQuery (service : string) (i : jsval).

(** What a loader returns: the promise of a call it makes, the property [promise]
    of a service, or a value. *)
Inductive loaded :=
  | Call (c : service_call)
  | PromiseProperty (service : string)
  | Loaded (v : jsval).

(** What the deferred becomes when the service answers. *)
Definition onAnswer (i : jsval) (answer : option jsval) : jsval + string :=
  match answer with
  | Some entry => inl entry
  | None => inr ("Unable to fetch " +:+ to_string i)
  end.

Definition argValue (params : list (string * jsval)) (extra : list (string * jsval)) (a : arg) : jsval :=
  match a with
  | Param p => assoc p params
  | ParamOr p q => js_or (assoc p params) (assoc q params)
  | Const v => v
  | Arg x => assoc x extra
  end.

(** [id && id()] *)
Definition argObject (params extra : list (string * jsval)) (args : list (string * arg)) : jsval :=
  match args with
  | [] => Undefined
  | _ :: _ => Obj ((λ '(k, a), (k, argValue params extra a)) <$> args)
  end.

(** Running a loader on a route. *)
Definition runLoader (params extra : list (string * jsval)) (l : loader) : loaded :=
  match ld_loading l with
  | Fetch Get s args => Call (CallGet s (argObject params extra args))
  | Fetch Query s args => Call (CallQuery s (argObject params extra args))
  | PromiseOf s => PromiseProperty s
  | ParamOf p => Loaded (assoc p params)
  end.

Definition lookupLoader (name : string) : option loader :=
  snd <$> list_find (λ l, ld_name l = name) loaders.

(** The route parameters a loader reads. *)
Definition argReads (a : arg) : list string :=
  match a with Param p => [p] | ParamOr p q => [p; q] | Const _ | Arg _ => [] end.

Definition loaderReads (l : loader) : list string :=
  match ld_loading l with
  | Fetch _ _ args => concat (argReads <$> args.*2)
  | PromiseOf _ => []
  | ParamOf p => [p]
  end.

(** The parameters of the service's template a loader leaves open. *)
Definition openParams (l : loader) : option (list string) :=
  match ld_loading l with
  | Fetch _ s args =>
      (λ r, filter (λ p, p ∉ args.*1) (templateParams (rs_url r))) <$> lookupResource s
  | PromiseOf _ | ParamOf _ => Some []
  end.

Definition isGet (l : loader) : bool :=
  match ld_loading l with Fetch Get _ _ => true | _ => false end.

End AdminLoaders.
