(* ===== verification/AdminRoutes.v ===== *)
(** The routes of the admin console (app.js): path, template, what is resolved
    before the controller runs, and the controller. *)

From S2P Require Import Prelude JsString Uri JsValue AdminResources AdminLoaders.
Import JsString Uri JsValue AdminResources AdminLoaders.

Module AdminRoutes.

(** [templateUrl]: a path under [resourceUrl], or a function of the parameters. *)
Inductive piece := Lit (s : string) | FromParam (p : string).
Inductive template := Template (path : string) | TemplateFun (pieces : list piece).

(** The body of a function under [resolve]. *)
Inductive resolver :=
  | Load (loader : string)
  | LoadNew (loader : string)
  | LoadComponents (loader : string) (parent : arg) (type : string)
  | RouteParam (p : string)
  | Property (service property : string)
  | Value (v : jsval)
  | Object (fields : list (string * arg)).

(** One property of [resolve]: its name, the parameters Angular injects, the body. *)
Record resolve := mkResolve {
  rv_name : string;
  rv_injected : list string;
  rv_body : resolver
}.

(** The path is [None] for [otherwise]. *)
Record route := mkRoute {
  rt_path : option string;
  rt_template : template;
  rt_resolve : list resolve;
  rt_controller : option string
}.

Definition routes1 : list route := [
  mkRoute (Some "/create/realm") (Template "/partials/realm-create.html")
     []
    (Some "RealmCreateCtrl");
  mkRoute (Some "/realms/:realm") (Template "/partials/realm-detail.html")
     [mkResolve "realm" ["RealmLoader"] (Load "RealmLoader");
      mkResolve "serverInfo" ["ServerInfoLoader"] (Load "ServerInfoLoader")]
    (Some "RealmDetailCtrl");
  mkRoute (Some "/realms/:realm/login-settings") (Template "/partials/realm-login-settings.html")
     [mkResolve "realm" ["RealmLoader"] (Load "RealmLoader");
      mkResolve "serverInfo" ["ServerInfo"] (Property "ServerInfo" "delay")]
    (Some "RealmLoginSettingsCtrl");
  mkRoute (Some "/realms/:realm/theme-settings") (Template "/partials/realm-theme-settings.html")
     [mkResolve "realm" ["RealmLoader"] (Load "RealmLoader");
      mkResolve "serverInfo" ["ServerInfoLoader"] (Load "ServerInfoLoader")]
    (Some "RealmThemeCtrl");
  mkRoute (Some "/realms/:realm/cache-settings") (Template "/partials/realm-cache-settings.html")
     [mkResolve "realm" ["RealmLoader"] (Load "RealmLoader");
      mkResolve "serverInfo" ["ServerInfoLoader"] (Load "ServerInfoLoader")]
    (Some "RealmCacheCtrl");
  mkRoute (Some "/realms") (Template "/partials/realm-list.html")
     []
    (Some "RealmListCtrl");
  mkRoute (Some "/realms/:realm/token-settings") (Template "/partials/realm-tokens.html")
     [mkResolve "serverInfo" ["ServerInfoLoader"] (Load "ServerInfoLoader");
      mkResolve "realm" ["RealmLoader"] (Load "RealmLoader")]
    (Some "RealmTokenDetailCtrl");
  mkRoute (Some "/realms/:realm/client-registration/client-initial-access") (Template "/partials/client-initial-access.html")
     [mkResolve "realm" ["RealmLoader"] (Load "RealmLoader");
      mkResolve "clientInitialAccess" ["ClientInitialAccessLoader"] (Load "ClientInitialAccessLoader")]
    (Some "ClientInitialAccessCtrl");
  mkRoute (Some "/realms/:realm/client-registration/client-initial-access/create") (Template "/partials/client-initial-access-create.html")
     [mkResolve "realm" ["RealmLoader"] (Load "RealmLoader")]
    (Some "ClientInitialAccessCreateCtrl");
  mkRoute (Some "/realms/:realm/client-registration/client-reg-policies") (Template "/partials/client-reg-policies.html")
     [mkResolve "realm" ["RealmLoader"] (Load "RealmLoader");
      mkResolve "policies" ["ComponentsLoader"] (LoadComponents "ComponentsLoader" (Const Null) "org.keycloak.services.clientregistration.policy.ClientRegistrationPolicy");
      mkResolve "clientRegistrationPolicyProviders" ["ClientRegistrationPolicyProvidersLoader"] (Load "ClientRegistrationPolicyProvidersLoader")]
    (Some "ClientRegPoliciesCtrl");
  mkRoute (Some "/realms/:realm/client-registration/client-reg-policies/create/:componentType/:providerId") (Template "/partials/client-reg-policy-detail.html")
     [mkResolve "realm" ["RealmLoader"] (Load "RealmLoader");
      mkResolve "instance" ["$route"] (Object [("providerType", Const (Str "org.keycloak.services.clientregistration.policy.ClientRegistrationPolicy")); ("subType", Param "componentType"); ("providerId", Param "providerId")]);
      mkResolve "clientRegistrationPolicyProviders" ["ClientRegistrationPolicyProvidersLoader"] (Load "ClientRegistrationPolicyProvidersLoader")]
    (Some "ClientRegPolicyDetailCtrl");
  mkRoute (Some "/realms/:realm/client-registration/client-reg-policies/:provider/:componentId") (Template "/partials/client-reg-policy-detail.html")
     [mkResolve "realm" ["RealmLoader"] (Load "RealmLoader");
      mkResolve "instance" ["ComponentLoader"] (Load "ComponentLoader");
      mkResolve "clientRegistrationPolicyProviders" ["ClientRegistrationPolicyProvidersLoader"] (Load "ClientRegistrationPolicyProvidersLoader")]
    (Some "ClientRegPolicyDetailCtrl")
].

Definition routes2 : list route := [
  mkRoute (Some "/realms/:realm/keys") (Template "/partials/realm-keys.html")
     [mkResolve "realm" ["RealmLoader"] (Load "RealmLoader");
      mkResolve "serverInfo" ["ServerInfoLoader"] (Load "ServerInfoLoader");
      mkResolve "keys" ["RealmKeysLoader"] (Load "RealmKeysLoader")]
    (Some "RealmKeysCtrl");
  mkRoute (Some "/realms/:realm/keys/passive") (Template "/partials/realm-keys-passive.html")
     [mkResolve "realm" ["RealmLoader"] (Load "RealmLoader");
      mkResolve "serverInfo" ["ServerInfoLoader"] (Load "ServerInfoLoader");
      mkResolve "keys" ["RealmKeysLoader"] (Load "RealmKeysLoader")]
    (Some "RealmKeysCtrl");
  mkRoute (Some "/realms/:realm/keys/disabled") (Template "/partials/realm-keys-disabled.html")
     [mkResolve "realm" ["RealmLoader"] (Load "RealmLoader");
      mkResolve "serverInfo" ["ServerInfoLoader"] (Load "ServerInfoLoader");
      mkResolve "keys" ["RealmKeysLoader"] (Load "RealmKeysLoader")]
    (Some "RealmKeysCtrl");
  mkRoute (Some "/realms/:realm/keys/providers") (Template "/partials/realm-keys-providers.html")
     [mkResolve "realm" ["RealmLoader"] (Load "RealmLoader");
      mkResolve "serverInfo" ["ServerInfoLoader"] (Load "ServerInfoLoader")]
    (Some "RealmKeysProvidersCtrl");
  mkRoute (Some "/create/keys/:realm/providers/:provider") (Template "/partials/realm-keys-generic.html")
     [mkResolve "realm" ["RealmLoader"] (Load "RealmLoader");
      mkResolve "instance" [] (Value (Obj []));
      mkResolve "providerId" ["$route"] (RouteParam "provider");
      mkResolve "serverInfo" ["ServerInfoLoader"] (Load "ServerInfoLoader")]
    (Some "GenericKeystoreCtrl");
  mkRoute (Some "/realms/:realm/keys/providers/:provider/:componentId") (Template "/partials/realm-keys-generic.html")
     [mkResolve "realm" ["RealmLoader"] (Load "RealmLoader");
      mkResolve "instance" ["ComponentLoader"] (Load "ComponentLoader");
      mkResolve "providerId" ["$route"] (RouteParam "provider");
      mkResolve "serverInfo" ["ServerInfoLoader"] (Load "ServerInfoLoader")]
    (Some "GenericKeystoreCtrl");
  mkRoute (Some "/realms/:realm/identity-provider-settings") (Template "/partials/realm-identity-provider.html")
     [mkResolve "realm" ["RealmLoader"] (Load "RealmLoader");
      mkResolve "serverInfo" ["ServerInfoLoader"] (Load "ServerInfoLoader");
      mkResolve "instance" ["IdentityProviderLoader"] (Value (Obj []));
      mkResolve "providerFactory" ["IdentityProviderFactoryLoader"] (Value (Obj []));
      mkResolve "authFlows" ["AuthenticationFlowsLoader"] (Value (Obj []))]
    (Some "RealmIdentityProviderCtrl");
  mkRoute (Some "/create/identity-provider/:realm/:provider_id") (TemplateFun [Lit "/partials/realm-identity-provider-"; FromParam "provider_id"; Lit ".html"])
     [mkResolve "realm" ["RealmLoader"] (Load "RealmLoader");
      mkResolve "serverInfo" ["ServerInfoLoader"] (Load "ServerInfoLoader");
      mkResolve "instance" ["IdentityProviderLoader"] (Value (Obj []));
      mkResolve "providerFactory" ["IdentityProviderFactoryLoader"] (LoadNew "IdentityProviderFactoryLoader");
      mkResolve "authFlows" ["AuthenticationFlowsLoader"] (Load "AuthenticationFlowsLoader")]
    (Some "RealmIdentityProviderCtrl")
].

Definition routes3 : list route := [
  mkRoute (Some "/realms/:realm/identity-provider-settings/provider/:provider_id/:alias") (TemplateFun [Lit "/partials/realm-identity-provider-"; FromParam "provider_id"; Lit ".html"])
     [mkResolve "realm" ["RealmLoader"] (Load "RealmLoader");
      mkResolve "serverInfo" ["ServerInfoLoader"] (Load "ServerInfoLoader");
      mkResolve "instance" ["IdentityProviderLoader"] (Load "IdentityProviderLoader");
      mkResolve "providerFactory" ["IdentityProviderFactoryLoader"] (Load "IdentityProviderFactoryLoader");
      mkResolve "authFlows" ["AuthenticationFlowsLoader"] (Load "AuthenticationFlowsLoader")]
    (Some "RealmIdentityProviderCtrl");
  mkRoute (Some "/realms/:realm/identity-provider-settings/provider/:provider_id/:alias/export") (Template "/partials/realm-identity-provider-export.html")
     [mkResolve "realm" ["RealmLoader"] (Load "RealmLoader");
      mkResolve "serverInfo" ["ServerInfoLoader"] (Load "ServerInfoLoader");
      mkResolve "identityProvider" ["IdentityProviderLoader"] (Load "IdentityProviderLoader");
      mkResolve "providerFactory" ["IdentityProviderFactoryLoader"] (Load "IdentityProviderFactoryLoader")]
    (Some "RealmIdentityProviderExportCtrl");
  mkRoute (Some "/realms/:realm/identity-provider-mappers/:alias/mappers") (TemplateFun [Lit "/partials/identity-provider-mappers.html"])
     [mkResolve "realm" ["RealmLoader"] (Load "RealmLoader");
      mkResolve "identityProvider" ["IdentityProviderLoader"] (Load "IdentityProviderLoader");
      mkResolve "mapperTypes" ["IdentityProviderMapperTypesLoader"] (Load "IdentityProviderMapperTypesLoader");
      mkResolve "mappers" ["IdentityProviderMappersLoader"] (Load "IdentityProviderMappersLoader")]
    (Some "IdentityProviderMapperListCtrl");
  mkRoute (Some "/realms/:realm/identity-provider-mappers/:alias/mappers/:mapperId") (TemplateFun [Lit "/partials/identity-provider-mapper-detail.html"])
     [mkResolve "realm" ["RealmLoader"] (Load "RealmLoader");
      mkResolve "identityProvider" ["IdentityProviderLoader"] (Load "IdentityProviderLoader");
      mkResolve "mapperTypes" ["IdentityProviderMapperTypesLoader"] (Load "IdentityProviderMapperTypesLoader");
      mkResolve "mapper" ["IdentityProviderMapperLoader"] (Load "IdentityProviderMapperLoader")]
    (Some "IdentityProviderMapperCtrl");
  mkRoute (Some "/create/identity-provider-mappers/:realm/:alias") (TemplateFun [Lit "/partials/identity-provider-mapper-detail.html"])
     [mkResolve "realm" ["RealmLoader"] (Load "RealmLoader");
      mkResolve "identityProvider" ["IdentityProviderLoader"] (Load "IdentityProviderLoader");
      mkResolve "mapperTypes" ["IdentityProviderMapperTypesLoader"] (Load "IdentityProviderMapperTypesLoader")]
    (Some "IdentityProviderMapperCreateCtrl");
  mkRoute (Some "/realms/:realm/default-roles") (Template "/partials/realm-default-roles.html")
     [mkResolve "realm" ["RealmLoader"] (Load "RealmLoader");
      mkResolve "clients" ["ClientListLoader"] (Load "ClientListLoader");
      mkResolve "roles" ["RoleListLoader"] (Load "RoleListLoader")]
    (Some "RealmDefaultRolesCtrl");
  mkRoute (Some "/realms/:realm/smtp-settings") (Template "/partials/realm-smtp.html")
     [mkResolve "realm" ["RealmLoader"] (Load "RealmLoader")]
    (Some "RealmSMTPSettingsCtrl");
  mkRoute (Some "/realms/:realm/events") (Template "/partials/realm-events.html")
     [mkResolve "realm" ["RealmLoader"] (Load "RealmLoader");
      mkResolve "serverInfo" ["ServerInfoLoader"] (Load "ServerInfoLoader")]
    (Some "RealmEventsCtrl");
  mkRoute (Some "/realms/:realm/admin-events") (Template "/partials/realm-events-admin.html")
     [mkResolve "realm" ["RealmLoader"] (Load "RealmLoader");
      mkResolve "serverInfo" ["ServerInfoLoader"] (Load "ServerInfoLoader")]
    (Some "RealmAdminEventsCtrl")
].

Definition routes4 : list route := [
  mkRoute (Some "/realms/:realm/events-settings") (Template "/partials/realm-events-config.html")
     [mkResolve "realm" ["RealmLoader"] (Load "RealmLoader");
      mkResolve "serverInfo" ["ServerInfoLoader"] (Load "ServerInfoLoader");
      mkResolve "eventsConfig" ["RealmEventsConfigLoader"] (Load "RealmEventsConfigLoader")]
    (Some "RealmEventsConfigCtrl");
  mkRoute (Some "/realms/:realm/partial-import") (Template "/partials/partial-import.html")
     [mkResolve "resourceName" [] (Value (Str "users"));
      mkResolve "realm" ["RealmLoader"] (Load "RealmLoader")]
    (Some "RealmImportCtrl");
  mkRoute (Some "/realms/:realm/partial-export") (Template "/partials/partial-export.html")
     [mkResolve "realm" ["RealmLoader"] (Load "RealmLoader")]
    (Some "RealmExportCtrl");
  mkRoute (Some "/create/user/:realm") (Template "/partials/user-detail.html")
     [mkResolve "realm" ["RealmLoader"] (Load "RealmLoader");
      mkResolve "user" [] (Value (Obj []))]
    (Some "UserDetailCtrl");
  mkRoute (Some "/realms/:realm/users/:user") (Template "/partials/user-detail.html")
     [mkResolve "realm" ["RealmLoader"] (Load "RealmLoader");
      mkResolve "user" ["UserLoader"] (Load "UserLoader")]
    (Some "UserDetailCtrl");
  mkRoute (Some "/realms/:realm/users/:user/user-attributes") (Template "/partials/user-attributes.html")
     [mkResolve "realm" ["RealmLoader"] (Load "RealmLoader");
      mkResolve "user" ["UserLoader"] (Load "UserLoader")]
    (Some "UserDetailCtrl");
  mkRoute (Some "/realms/:realm/users/:user/user-credentials") (Template "/partials/user-credentials.html")
     [mkResolve "realm" ["RealmLoader"] (Load "RealmLoader");
      mkResolve "user" ["UserLoader"] (Load "UserLoader")]
    (Some "UserCredentialsCtrl");
  mkRoute (Some "/realms/:realm/users/:user/role-mappings") (Template "/partials/role-mappings.html")
     [mkResolve "realm" ["RealmLoader"] (Load "RealmLoader");
      mkResolve "user" ["UserLoader"] (Load "UserLoader");
      mkResolve "clients" ["ClientListLoader"] (Load "ClientListLoader");
      mkResolve "client" [] (Value (Obj []))]
    (Some "UserRoleMappingCtrl");
  mkRoute (Some "/realms/:realm/users/:user/groups") (Template "/partials/user-group-membership.html")
     [mkResolve "realm" ["RealmLoader"] (Load "RealmLoader");
      mkResolve "user" ["UserLoader"] (Load "UserLoader");
      mkResolve "groups" ["GroupListLoader"] (Load "GroupListLoader")]
    (Some "UserGroupMembershipCtrl");
  mkRoute (Some "/realms/:realm/users/:user/sessions") (Template "/partials/user-sessions.html")
     [mkResolve "realm" ["RealmLoader"] (Load "RealmLoader");
      mkResolve "user" ["UserLoader"] (Load "UserLoader");
      mkResolve "sessions" ["UserSessionsLoader"] (Load "UserSessionsLoader")]
    (Some "UserSessionsCtrl");
  mkRoute (Some "/realms/:realm/users/:user/federated-identity") (Template "/partials/user-federated-identity-list.html")
     [mkResolve "realm" ["RealmLoader"] (Load "RealmLoader");
      mkResolve "user" ["UserLoader"] (Load "UserLoader");
      mkResolve "federatedIdentities" ["UserFederatedIdentityLoader"] (Load "UserFederatedIdentityLoader")]
    (Some "UserFederatedIdentityCtrl")
].

Definition routes5 : list route := [
  mkRoute (Some "/create/federated-identity/:realm/:user") (Template "/partials/user-federated-identity-detail.html")
     [mkResolve "realm" ["RealmLoader"] (Load "RealmLoader");
      mkResolve "user" ["UserLoader"] (Load "UserLoader");
      mkResolve "federatedIdentities" ["UserFederatedIdentityLoader"] (Load "UserFederatedIdentityLoader")]
    (Some "UserFederatedIdentityAddCtrl");
  mkRoute (Some "/realms/:realm/users/:user/consents") (Template "/partials/user-consents.html")
     [mkResolve "realm" ["RealmLoader"] (Load "RealmLoader");
      mkResolve "user" ["UserLoader"] (Load "UserLoader");
      mkResolve "userConsents" ["UserConsentsLoader"] (Load "UserConsentsLoader")]
    (Some "UserConsentsCtrl");
  mkRoute (Some "/realms/:realm/users/:user/offline-sessions/:client") (Template "/partials/user-offline-sessions.html")
     [mkResolve "realm" ["RealmLoader"] (Load "RealmLoader");
      mkResolve "user" ["UserLoader"] (Load "UserLoader");
      mkResolve "client" ["ClientLoader"] (Load "ClientLoader");
      mkResolve "offlineSessions" ["UserOfflineSessionsLoader"] (Load "UserOfflineSessionsLoader")]
    (Some "UserOfflineSessionsCtrl");
  mkRoute (Some "/realms/:realm/users") (Template "/partials/user-list.html")
     [mkResolve "realm" ["RealmLoader"] (Load "RealmLoader")]
    (Some "UserListCtrl");
  mkRoute (Some "/create/role/:realm") (Template "/partials/role-detail.html")
     [mkResolve "realm" ["RealmLoader"] (Load "RealmLoader");
      mkResolve "role" [] (Value (Obj []));
      mkResolve "roles" ["RoleListLoader"] (Load "RoleListLoader");
      mkResolve "clients" ["ClientListLoader"] (Load "ClientListLoader")]
    (Some "RoleDetailCtrl");
  mkRoute (Some "/realms/:realm/roles/:role") (Template "/partials/role-detail.html")
     [mkResolve "realm" ["RealmLoader"] (Load "RealmLoader");
      mkResolve "role" ["RoleLoader"] (Load "RoleLoader");
      mkResolve "roles" ["RoleListLoader"] (Load "RoleListLoader");
      mkResolve "clients" ["ClientListLoader"] (Load "ClientListLoader")]
    (Some "RoleDetailCtrl");
  mkRoute (Some "/realms/:realm/roles/:role/users") (Template "/partials/realm-role-users.html")
     [mkResolve "realm" ["RealmLoader"] (Load "RealmLoader");
      mkResolve "role" ["RoleLoader"] (Load "RoleLoader")]
    (Some "RoleMembersCtrl");
  mkRoute (Some "/realms/:realm/roles") (Template "/partials/role-list.html")
     [mkResolve "realm" ["RealmLoader"] (Load "RealmLoader");
      mkResolve "roles" ["RoleListLoader"] (Load "RoleListLoader")]
    (Some "RoleListCtrl");
  mkRoute (Some "/realms/:realm/groups") (Template "/partials/group-list.html")
     [mkResolve "realm" ["RealmLoader"] (Load "RealmLoader")]
    (Some "GroupListCtrl");
  mkRoute (Some "/create/group/:realm/parent/:parentId") (Template "/partials/create-group.html")
     [mkResolve "realm" ["RealmLoader"] (Load "RealmLoader");
      mkResolve "parentId" ["$route"] (RouteParam "parentId")]
    (Some "GroupCreateCtrl")
].

Definition routes6 : list route := [
  mkRoute (Some "/realms/:realm/groups/:group") (Template "/partials/group-detail.html")
     [mkResolve "realm" ["RealmLoader"] (Load "RealmLoader");
      mkResolve "group" ["GroupLoader"] (Load "GroupLoader")]
    (Some "GroupDetailCtrl");
  mkRoute (Some "/realms/:realm/groups/:group/attributes") (Template "/partials/group-attributes.html")
     [mkResolve "realm" ["RealmLoader"] (Load "RealmLoader");
      mkResolve "group" ["GroupLoader"] (Load "GroupLoader")]
    (Some "GroupDetailCtrl");
  mkRoute (Some "/realms/:realm/groups/:group/members") (Template "/partials/group-members.html")
     [mkResolve "realm" ["RealmLoader"] (Load "RealmLoader");
      mkResolve "group" ["GroupLoader"] (Load "GroupLoader")]
    (Some "GroupMembersCtrl");
  mkRoute (Some "/realms/:realm/groups/:group/role-mappings") (Template "/partials/group-role-mappings.html")
     [mkResolve "realm" ["RealmLoader"] (Load "RealmLoader");
      mkResolve "group" ["GroupLoader"] (Load "GroupLoader");
      mkResolve "clients" ["ClientListLoader"] (Load "ClientListLoader");
      mkResolve "client" [] (Value (Obj []))]
    (Some "GroupRoleMappingCtrl");
  mkRoute (Some "/realms/:realm/default-groups") (Template "/partials/default-groups.html")
     [mkResolve "realm" ["RealmLoader"] (Load "RealmLoader");
      mkResolve "groups" ["GroupListLoader"] (Load "GroupListLoader")]
    (Some "DefaultGroupsCtrl");
  mkRoute (Some "/create/role/:realm/clients/:client") (Template "/partials/client-role-detail.html")
     [mkResolve "realm" ["RealmLoader"] (Load "RealmLoader");
      mkResolve "client" ["ClientLoader"] (Load "ClientLoader");
      mkResolve "role" [] (Value (Obj []));
      mkResolve "roles" ["RoleListLoader"] (Load "RoleListLoader");
      mkResolve "clients" ["ClientListLoader"] (Load "ClientListLoader")]
    (Some "ClientRoleDetailCtrl");
  mkRoute (Some "/realms/:realm/clients/:client/roles/:role") (Template "/partials/client-role-detail.html")
     [mkResolve "realm" ["RealmLoader"] (Load "RealmLoader");
      mkResolve "client" ["ClientLoader"] (Load "ClientLoader");
      mkResolve "role" ["ClientRoleLoader"] (Load "ClientRoleLoader");
      mkResolve "roles" ["RoleListLoader"] (Load "RoleListLoader");
      mkResolve "clients" ["ClientListLoader"] (Load "ClientListLoader")]
    (Some "ClientRoleDetailCtrl");
  mkRoute (Some "/realms/:realm/clients/:client/mappers") (Template "/partials/client-mappers.html")
     [mkResolve "realm" ["RealmLoader"] (Load "RealmLoader");
      mkResolve "client" ["ClientLoader"] (Load "ClientLoader");
      mkResolve "serverInfo" ["ServerInfoLoader"] (Load "ServerInfoLoader")]
    (Some "ClientProtocolMapperListCtrl");
  mkRoute (Some "/realms/:realm/clients/:client/add-mappers") (Template "/partials/client-mappers-add.html")
     [mkResolve "realm" ["RealmLoader"] (Load "RealmLoader");
      mkResolve "client" ["ClientLoader"] (Load "ClientLoader");
      mkResolve "serverInfo" ["ServerInfoLoader"] (Load "ServerInfoLoader")]
    (Some "AddBuiltinProtocolMapperCtrl")
].

Definition routes7 : list route := [
  mkRoute (Some "/realms/:realm/clients/:client/mappers/:id") (Template "/partials/client-protocol-mapper-detail.html")
     [mkResolve "realm" ["RealmLoader"] (Load "RealmLoader");
      mkResolve "client" ["ClientLoader"] (Load "ClientLoader");
      mkResolve "serverInfo" ["ServerInfoLoader"] (Load "ServerInfoLoader");
      mkResolve "mapper" ["ClientProtocolMapperLoader"] (Load "ClientProtocolMapperLoader");
      mkResolve "clients" ["ClientListLoader"] (Load "ClientListLoader")]
    (Some "ClientProtocolMapperCtrl");
  mkRoute (Some "/create/client/:realm/:client/mappers") (Template "/partials/client-protocol-mapper-detail.html")
     [mkResolve "realm" ["RealmLoader"] (Load "RealmLoader");
      mkResolve "serverInfo" ["ServerInfoLoader"] (Load "ServerInfoLoader");
      mkResolve "client" ["ClientLoader"] (Load "ClientLoader");
      mkResolve "clients" ["ClientListLoader"] (Load "ClientListLoader")]
    (Some "ClientProtocolMapperCreateCtrl");
  mkRoute (Some "/realms/:realm/clients/:client/client-scopes/setup-scopes") (Template "/partials/client-scopes-setup.html")
     [mkResolve "realm" ["RealmLoader"] (Load "RealmLoader");
      mkResolve "client" ["ClientLoader"] (Load "ClientLoader");
      mkResolve "clientScopes" ["ClientScopeListLoader"] (Load "ClientScopeListLoader");
      mkResolve "serverInfo" ["ServerInfoLoader"] (Load "ServerInfoLoader");
      mkResolve "clientDefaultClientScopes" ["ClientDefaultClientScopesLoader"] (Load "ClientDefaultClientScopesLoader");
      mkResolve "clientOptionalClientScopes" ["ClientOptionalClientScopesLoader"] (Load "ClientOptionalClientScopesLoader")]
    (Some "ClientClientScopesSetupCtrl");
  mkRoute (Some "/realms/:realm/clients/:client/client-scopes/evaluate-scopes") (Template "/partials/client-scopes-evaluate.html")
     [mkResolve "realm" ["RealmLoader"] (Load "RealmLoader");
      mkResolve "client" ["ClientLoader"] (Load "ClientLoader");
      mkResolve "clients" ["ClientListLoader"] (Load "ClientListLoader");
      mkResolve "clientScopes" ["ClientScopeListLoader"] (Load "ClientScopeListLoader");
      mkResolve "clientDefaultClientScopes" ["ClientDefaultClientScopesLoader"] (Load "ClientDefaultClientScopesLoader");
      mkResolve "clientOptionalClientScopes" ["ClientOptionalClientScopesLoader"] (Load "ClientOptionalClientScopesLoader");
      mkResolve "serverInfo" ["ServerInfoLoader"] (Load "ServerInfoLoader")]
    (Some "ClientClientScopesEvaluateCtrl");
  mkRoute (Some "/realms/:realm/client-scopes/:clientScope/mappers") (Template "/partials/client-scope-mappers.html")
     [mkResolve "realm" ["RealmLoader"] (Load "RealmLoader");
      mkResolve "clientScope" ["ClientScopeLoader"] (Load "ClientScopeLoader");
      mkResolve "serverInfo" ["ServerInfoLoader"] (Load "ServerInfoLoader")]
    (Some "ClientScopeProtocolMapperListCtrl");
  mkRoute (Some "/realms/:realm/client-scopes/:clientScope/add-mappers") (Template "/partials/client-scope-mappers-add.html")
     [mkResolve "realm" ["RealmLoader"] (Load "RealmLoader");
      mkResolve "clientScope" ["ClientScopeLoader"] (Load "ClientScopeLoader");
      mkResolve "serverInfo" ["ServerInfoLoader"] (Load "ServerInfoLoader")]
    (Some "ClientScopeAddBuiltinProtocolMapperCtrl");
  mkRoute (Some "/realms/:realm/client-scopes/:clientScope/mappers/:id") (Template "/partials/client-scope-protocol-mapper-detail.html")
     [mkResolve "realm" ["RealmLoader"] (Load "RealmLoader");
      mkResolve "clientScope" ["ClientScopeLoader"] (Load "ClientScopeLoader");
      mkResolve "serverInfo" ["ServerInfoLoader"] (Load "ServerInfoLoader");
      mkResolve "mapper" ["ClientScopeProtocolMapperLoader"] (Load "ClientScopeProtocolMapperLoader");
      mkResolve "clients" ["ClientListLoader"] (Load "ClientListLoader")]
    (Some "ClientScopeProtocolMapperCtrl")
].

Definition routes8 : list route := [
  mkRoute (Some "/create/client-scope/:realm/:clientScope/mappers") (Template "/partials/client-scope-protocol-mapper-detail.html")
     [mkResolve "realm" ["RealmLoader"] (Load "RealmLoader");
      mkResolve "serverInfo" ["ServerInfoLoader"] (Load "ServerInfoLoader");
      mkResolve "clientScope" ["ClientScopeLoader"] (Load "ClientScopeLoader");
      mkResolve "clients" ["ClientListLoader"] (Load "ClientListLoader")]
    (Some "ClientScopeProtocolMapperCreateCtrl");
  mkRoute (Some "/realms/:realm/clients/:client/sessions") (Template "/partials/client-sessions.html")
     [mkResolve "realm" ["RealmLoader"] (Load "RealmLoader");
      mkResolve "client" ["ClientLoader"] (Load "ClientLoader");
      mkResolve "sessionCount" ["ClientSessionCountLoader"] (Load "ClientSessionCountLoader")]
    (Some "ClientSessionsCtrl");
  mkRoute (Some "/realms/:realm/clients/:client/offline-access") (Template "/partials/client-offline-sessions.html")
     [mkResolve "realm" ["RealmLoader"] (Load "RealmLoader");
      mkResolve "client" ["ClientLoader"] (Load "ClientLoader");
      mkResolve "offlineSessionCount" ["ClientOfflineSessionCountLoader"] (Load "ClientOfflineSessionCountLoader")]
    (Some "ClientOfflineSessionsCtrl");
  mkRoute (Some "/realms/:realm/clients/:client/credentials") (Template "/partials/client-credentials.html")
     [mkResolve "realm" ["RealmLoader"] (Load "RealmLoader");
      mkResolve "client" ["ClientLoader"] (Load "ClientLoader");
      mkResolve "clientAuthenticatorProviders" ["ClientAuthenticatorProvidersLoader"] (Load "ClientAuthenticatorProvidersLoader");
      mkResolve "clientConfigProperties" ["PerClientAuthenticationConfigDescriptionLoader"] (Load "PerClientAuthenticationConfigDescriptionLoader")]
    (Some "ClientCredentialsCtrl");
  mkRoute (Some "/realms/:realm/clients/:client/credentials/client-jwt/:keyType/import/:attribute") (Template "/partials/client-credentials-jwt-key-import.html")
     [mkResolve "realm" ["RealmLoader"] (Load "RealmLoader");
      mkResolve "client" ["ClientLoader"] (Load "ClientLoader");
      mkResolve "callingContext" [] (Value (Str "jwt-credentials"))]
    (Some "ClientCertificateImportCtrl");
  mkRoute (Some "/realms/:realm/clients/:client/credentials/client-jwt/:keyType/export/:attribute") (Template "/partials/client-credentials-jwt-key-export.html")
     [mkResolve "realm" ["RealmLoader"] (Load "RealmLoader");
      mkResolve "client" ["ClientLoader"] (Load "ClientLoader");
      mkResolve "callingContext" [] (Value (Str "jwt-credentials"))]
    (Some "ClientCertificateExportCtrl");
  mkRoute (Some "/realms/:realm/clients/:client/identity-provider") (Template "/partials/client-identity-provider.html")
     [mkResolve "realm" ["RealmLoader"] (Load "RealmLoader");
      mkResolve "client" ["ClientLoader"] (Load "ClientLoader")]
    (Some "ClientIdentityProviderCtrl");
  mkRoute (Some "/realms/:realm/clients/:client/clustering") (Template "/partials/client-clustering.html")
     [mkResolve "realm" ["RealmLoader"] (Load "RealmLoader");
      mkResolve "client" ["ClientLoader"] (Load "ClientLoader")]
    (Some "ClientClusteringCtrl");
  mkRoute (Some "/register-node/realms/:realm/clients/:client/clustering") (Template "/partials/client-clustering-node.html")
     [mkResolve "realm" ["RealmLoader"] (Load "RealmLoader");
      mkResolve "client" ["ClientLoader"] (Load "ClientLoader")]
    (Some "ClientClusteringNodeCtrl");
  mkRoute (Some "/realms/:realm/clients/:client/clustering/:node") (Template "/partials/client-clustering-node.html")
     [mkResolve "realm" ["RealmLoader"] (Load "RealmLoader");
      mkResolve "client" ["ClientLoader"] (Load "ClientLoader")]
    (Some "ClientClusteringNodeCtrl")
].

Definition routes9 : list route := [
  mkRoute (Some "/realms/:realm/clients/:client/saml/keys") (Template "/partials/client-saml-keys.html")
     [mkResolve "realm" ["RealmLoader"] (Load "RealmLoader");
      mkResolve "client" ["ClientLoader"] (Load "ClientLoader")]
    (Some "ClientSamlKeyCtrl");
  mkRoute (Some "/realms/:realm/clients/:client/saml/:keyType/import/:attribute") (Template "/partials/client-saml-key-import.html")
     [mkResolve "realm" ["RealmLoader"] (Load "RealmLoader");
      mkResolve "client" ["ClientLoader"] (Load "ClientLoader");
      mkResolve "callingContext" [] (Value (Str "saml"))]
    (Some "ClientCertificateImportCtrl");
  mkRoute (Some "/realms/:realm/clients/:client/saml/:keyType/export/:attribute") (Template "/partials/client-saml-key-export.html")
     [mkResolve "realm" ["RealmLoader"] (Load "RealmLoader");
      mkResolve "client" ["ClientLoader"] (Load "ClientLoader");
      mkResolve "callingContext" [] (Value (Str "saml"))]
    (Some "ClientCertificateExportCtrl");
  mkRoute (Some "/realms/:realm/clients/:client/roles") (Template "/partials/client-role-list.html")
     [mkResolve "realm" ["RealmLoader"] (Load "RealmLoader");
      mkResolve "client" ["ClientLoader"] (Load "ClientLoader");
      mkResolve "roles" ["ClientRoleListLoader"] (Load "ClientRoleListLoader")]
    (Some "ClientRoleListCtrl");
  mkRoute (Some "/realms/:realm/clients/:client/revocation") (Template "/partials/client-revocation.html")
     [mkResolve "realm" ["RealmLoader"] (Load "RealmLoader");
      mkResolve "client" ["ClientLoader"] (Load "ClientLoader")]
    (Some "ClientRevocationCtrl");
  mkRoute (Some "/realms/:realm/clients/:client/scope-mappings") (Template "/partials/client-scope-mappings.html")
     [mkResolve "realm" ["RealmLoader"] (Load "RealmLoader");
      mkResolve "client" ["ClientLoader"] (Load "ClientLoader");
      mkResolve "clients" ["ClientListLoader"] (Load "ClientListLoader")]
    (Some "ClientScopeMappingCtrl");
  mkRoute (Some "/realms/:realm/clients/:client/installation") (Template "/partials/client-installation.html")
     [mkResolve "realm" ["RealmLoader"] (Load "RealmLoader");
      mkResolve "client" ["ClientLoader"] (Load "ClientLoader");
      mkResolve "serverInfo" ["ServerInfoLoader"] (Load "ServerInfoLoader")]
    (Some "ClientInstallationCtrl");
  mkRoute (Some "/realms/:realm/clients/:client/service-account-roles") (Template "/partials/client-service-account-roles.html")
     [mkResolve "realm" ["RealmLoader"] (Load "RealmLoader");
      mkResolve "user" ["ClientServiceAccountUserLoader"] (Load "ClientServiceAccountUserLoader");
      mkResolve "clients" ["ClientListLoader"] (Load "ClientListLoader");
      mkResolve "client" ["ClientLoader"] (Load "ClientLoader")]
    (Some "UserRoleMappingCtrl");
  mkRoute (Some "/create/client/:realm") (Template "/partials/create-client.html")
     [mkResolve "realm" ["RealmLoader"] (Load "RealmLoader");
      mkResolve "clients" ["ClientListLoader"] (Load "ClientListLoader");
      mkResolve "client" [] (Value (Obj []));
      mkResolve "flows" ["AuthenticationFlowsLoader"] (Load "AuthenticationFlowsLoader");
      mkResolve "serverInfo" ["ServerInfoLoader"] (Load "ServerInfoLoader")]
    (Some "CreateClientCtrl")
].

Definition routes10 : list route := [
  mkRoute (Some "/realms/:realm/clients/:client") (Template "/partials/client-detail.html")
     [mkResolve "realm" ["RealmLoader"] (Load "RealmLoader");
      mkResolve "clients" ["ClientListLoader"] (Load "ClientListLoader");
      mkResolve "client" ["ClientLoader"] (Load "ClientLoader");
      mkResolve "flows" ["AuthenticationFlowsLoader"] (Load "AuthenticationFlowsLoader");
      mkResolve "serverInfo" ["ServerInfoLoader"] (Load "ServerInfoLoader")]
    (Some "ClientDetailCtrl");
  mkRoute (Some "/create/client-scope/:realm") (Template "/partials/client-scope-detail.html")
     [mkResolve "realm" ["RealmLoader"] (Load "RealmLoader");
      mkResolve "clientScope" [] (Value (Obj []));
      mkResolve "serverInfo" ["ServerInfoLoader"] (Load "ServerInfoLoader")]
    (Some "ClientScopeDetailCtrl");
  mkRoute (Some "/realms/:realm/client-scopes/:clientScope") (Template "/partials/client-scope-detail.html")
     [mkResolve "realm" ["RealmLoader"] (Load "RealmLoader");
      mkResolve "clientScope" ["ClientScopeLoader"] (Load "ClientScopeLoader");
      mkResolve "serverInfo" ["ServerInfoLoader"] (Load "ServerInfoLoader")]
    (Some "ClientScopeDetailCtrl");
  mkRoute (Some "/realms/:realm/client-scopes/:clientScope/scope-mappings") (Template "/partials/client-scope-scope-mappings.html")
     [mkResolve "realm" ["RealmLoader"] (Load "RealmLoader");
      mkResolve "clientScope" ["ClientScopeLoader"] (Load "ClientScopeLoader");
      mkResolve "clients" ["ClientListLoader"] (Load "ClientListLoader")]
    (Some "ClientScopeScopeMappingCtrl");
  mkRoute (Some "/realms/:realm/clients") (Template "/partials/client-list.html")
     [mkResolve "realm" ["RealmLoader"] (Load "RealmLoader");
      mkResolve "serverInfo" ["ServerInfoLoader"] (Load "ServerInfoLoader")]
    (Some "ClientListCtrl");
  mkRoute (Some "/realms/:realm/client-scopes") (Template "/partials/client-scope-list.html")
     [mkResolve "realm" ["RealmLoader"] (Load "RealmLoader");
      mkResolve "clientScopes" ["ClientScopeListLoader"] (Load "ClientScopeListLoader");
      mkResolve "serverInfo" ["ServerInfoLoader"] (Load "ServerInfoLoader")]
    (Some "ClientScopeListCtrl");
  mkRoute (Some "/realms/:realm/default-client-scopes") (Template "/partials/client-scopes-realm-default.html")
     [mkResolve "realm" ["RealmLoader"] (Load "RealmLoader");
      mkResolve "clientScopes" ["ClientScopeListLoader"] (Load "ClientScopeListLoader");
      mkResolve "serverInfo" ["ServerInfoLoader"] (Load "ServerInfoLoader");
      mkResolve "realmDefaultClientScopes" ["RealmDefaultClientScopesLoader"] (Load "RealmDefaultClientScopesLoader");
      mkResolve "realmOptionalClientScopes" ["RealmOptionalClientScopesLoader"] (Load "RealmOptionalClientScopesLoader")]
    (Some "ClientScopesRealmDefaultCtrl");
  mkRoute (Some "/import/client/:realm") (Template "/partials/client-import.html")
     [mkResolve "realm" ["RealmLoader"] (Load "RealmLoader");
      mkResolve "serverInfo" ["ServerInfoLoader"] (Load "ServerInfoLoader")]
    (Some "ClientImportCtrl");
  mkRoute (Some "/realms/:realm/client-stores") (Template "/partials/client-storage-list.html")
     [mkResolve "realm" ["RealmLoader"] (Load "RealmLoader");
      mkResolve "serverInfo" ["ServerInfoLoader"] (Load "ServerInfoLoader")]
    (Some "ClientStoresCtrl")
].

Definition routes11 : list route := [
  mkRoute (Some "/realms/:realm/client-storage/providers/:provider/:componentId") (Template "/partials/client-storage-generic.html")
     [mkResolve "realm" ["RealmLoader"] (Load "RealmLoader");
      mkResolve "instance" ["ComponentLoader"] (Load "ComponentLoader");
      mkResolve "providerId" ["$route"] (RouteParam "provider");
      mkResolve "serverInfo" ["ServerInfoLoader"] (Load "ServerInfoLoader")]
    (Some "GenericClientStorageCtrl");
  mkRoute (Some "/create/client-storage/:realm/providers/:provider") (Template "/partials/client-storage-generic.html")
     [mkResolve "realm" ["RealmLoader"] (Load "RealmLoader");
      mkResolve "instance" [] (Value (Obj []));
      mkResolve "providerId" ["$route"] (RouteParam "provider");
      mkResolve "serverInfo" ["ServerInfoLoader"] (Load "ServerInfoLoader")]
    (Some "GenericClientStorageCtrl");
  mkRoute (Some "/") (Template "/partials/home.html")
     []
    (Some "HomeCtrl");
  mkRoute (Some "/mocks/:realm") (Template "/partials/realm-detail_mock.html")
     [mkResolve "realm" ["RealmLoader"] (Load "RealmLoader");
      mkResolve "serverInfo" ["ServerInfoLoader"] (Load "ServerInfoLoader")]
    (Some "RealmDetailCtrl");
  mkRoute (Some "/realms/:realm/sessions/revocation") (Template "/partials/session-revocation.html")
     [mkResolve "realm" ["RealmLoader"] (Load "RealmLoader")]
    (Some "RealmRevocationCtrl");
  mkRoute (Some "/realms/:realm/sessions/realm") (Template "/partials/session-realm.html")
     [mkResolve "realm" ["RealmLoader"] (Load "RealmLoader");
      mkResolve "stats" ["RealmClientSessionStatsLoader"] (Load "RealmClientSessionStatsLoader")]
    (Some "RealmSessionStatsCtrl");
  mkRoute (Some "/create/user-storage/:realm/providers/ldap") (Template "/partials/user-storage-ldap.html")
     [mkResolve "realm" ["RealmLoader"] (Load "RealmLoader");
      mkResolve "instance" [] (Value (Obj []));
      mkResolve "providerId" ["$route"] (RouteParam "provider");
      mkResolve "serverInfo" ["ServerInfoLoader"] (Load "ServerInfoLoader")]
    (Some "LDAPUserStorageCtrl");
  mkRoute (Some "/create/user-storage/:realm/providers/kerberos") (Template "/partials/user-storage-kerberos.html")
     [mkResolve "realm" ["RealmLoader"] (Load "RealmLoader");
      mkResolve "instance" [] (Value (Obj []));
      mkResolve "providerId" ["$route"] (Value (Str "kerberos"));
      mkResolve "serverInfo" ["ServerInfoLoader"] (Load "ServerInfoLoader")]
    (Some "GenericUserStorageCtrl");
  mkRoute (Some "/create/user-storage/:realm/providers/:provider") (Template "/partials/user-storage-generic.html")
     [mkResolve "realm" ["RealmLoader"] (Load "RealmLoader");
      mkResolve "instance" [] (Value (Obj []));
      mkResolve "providerId" ["$route"] (RouteParam "provider");
      mkResolve "serverInfo" ["ServerInfoLoader"] (Load "ServerInfoLoader")]
    (Some "GenericUserStorageCtrl")
].

Definition routes12 : list route := [
  mkRoute (Some "/realms/:realm/user-storage/providers/ldap/:componentId") (Template "/partials/user-storage-ldap.html")
     [mkResolve "realm" ["RealmLoader"] (Load "RealmLoader");
      mkResolve "instance" ["ComponentLoader"] (Load "ComponentLoader");
      mkResolve "providerId" ["$route"] (RouteParam "provider");
      mkResolve "serverInfo" ["ServerInfoLoader"] (Load "ServerInfoLoader")]
    (Some "LDAPUserStorageCtrl");
  mkRoute (Some "/realms/:realm/user-storage/providers/kerberos/:componentId") (Template "/partials/user-storage-kerberos.html")
     [mkResolve "realm" ["RealmLoader"] (Load "RealmLoader");
      mkResolve "instance" ["ComponentLoader"] (Load "ComponentLoader");
      mkResolve "providerId" ["$route"] (Value (Str "kerberos"));
      mkResolve "serverInfo" ["ServerInfoLoader"] (Load "ServerInfoLoader")]
    (Some "GenericUserStorageCtrl");
  mkRoute (Some "/realms/:realm/user-storage/providers/:provider/:componentId") (Template "/partials/user-storage-generic.html")
     [mkResolve "realm" ["RealmLoader"] (Load "RealmLoader");
      mkResolve "instance" ["ComponentLoader"] (Load "ComponentLoader");
      mkResolve "providerId" ["$route"] (RouteParam "provider");
      mkResolve "serverInfo" ["ServerInfoLoader"] (Load "ServerInfoLoader")]
    (Some "GenericUserStorageCtrl");
  mkRoute (Some "/realms/:realm/ldap-mappers/:componentId") (TemplateFun [Lit "/partials/user-storage-ldap-mappers.html"])
     [mkResolve "realm" ["RealmLoader"] (Load "RealmLoader");
      mkResolve "provider" ["ComponentLoader"] (Load "ComponentLoader");
      mkResolve "mappers" ["ComponentsLoader"; "$route"] (LoadComponents "ComponentsLoader" (Param "componentId") "org.keycloak.storage.ldap.mappers.LDAPStorageMapper")]
    (Some "LDAPMapperListCtrl");
  mkRoute (Some "/create/ldap-mappers/:realm/:componentId") (TemplateFun [Lit "/partials/user-storage-ldap-mapper-detail.html"])
     [mkResolve "realm" ["RealmLoader"] (Load "RealmLoader");
      mkResolve "provider" ["ComponentLoader"] (Load "ComponentLoader");
      mkResolve "mapperTypes" ["SubComponentTypesLoader"; "$route"] (LoadComponents "SubComponentTypesLoader" (Param "componentId") "org.keycloak.storage.ldap.mappers.LDAPStorageMapper");
      mkResolve "clients" ["ClientListLoader"] (Load "ClientListLoader")]
    (Some "LDAPMapperCreateCtrl");
  mkRoute (Some "/realms/:realm/ldap-mappers/:componentId/mappers/:mapperId") (TemplateFun [Lit "/partials/user-storage-ldap-mapper-detail.html"])
     [mkResolve "realm" ["RealmLoader"] (Load "RealmLoader");
      mkResolve "provider" ["ComponentLoader"] (Load "ComponentLoader");
      mkResolve "mapperTypes" ["SubComponentTypesLoader"; "$route"] (LoadComponents "SubComponentTypesLoader" (Param "componentId") "org.keycloak.storage.ldap.mappers.LDAPStorageMapper");
      mkResolve "mapper" ["LDAPMapperLoader"] (Load "LDAPMapperLoader");
      mkResolve "clients" ["ClientListLoader"] (Load "ClientListLoader")]
    (Some "LDAPMapperCtrl");
  mkRoute (Some "/realms/:realm/user-federation") (Template "/partials/user-federation.html")
     [mkResolve "realm" ["RealmLoader"] (Load "RealmLoader");
      mkResolve "serverInfo" ["ServerInfoLoader"] (Load "ServerInfoLoader")]
    (Some "UserFederationCtrl");
  mkRoute (Some "/realms/:realm/defense/headers") (Template "/partials/defense-headers.html")
     [mkResolve "realm" ["RealmLoader"] (Load "RealmLoader");
      mkResolve "serverInfo" ["ServerInfoLoader"] (Load "ServerInfoLoader")]
    (Some "DefenseHeadersCtrl");
  mkRoute (Some "/realms/:realm/defense/brute-force") (Template "/partials/brute-force.html")
     [mkResolve "realm" ["RealmLoader"] (Load "RealmLoader")]
    (Some "RealmBruteForceCtrl")
].

Definition routes13 : list route := [
  mkRoute (Some "/realms/:realm/protocols") (Template "/partials/protocol-list.html")
     [mkResolve "realm" ["RealmLoader"] (Load "RealmLoader");
      mkResolve "serverInfo" ["ServerInfoLoader"] (Load "ServerInfoLoader")]
    (Some "ProtocolListCtrl");
  mkRoute (Some "/realms/:realm/authentication/flows") (Template "/partials/authentication-flows.html")
     [mkResolve "realm" ["RealmLoader"] (Load "RealmLoader");
      mkResolve "flows" ["AuthenticationFlowsLoader"] (Load "AuthenticationFlowsLoader");
      mkResolve "selectedFlow" [] (Value Null)]
    (Some "AuthenticationFlowsCtrl");
  mkRoute (Some "/realms/:realm/authentication/flow-bindings") (Template "/partials/authentication-flow-bindings.html")
     [mkResolve "realm" ["RealmLoader"] (Load "RealmLoader");
      mkResolve "flows" ["AuthenticationFlowsLoader"] (Load "AuthenticationFlowsLoader");
      mkResolve "serverInfo" ["ServerInfoLoader"] (Load "ServerInfoLoader")]
    (Some "RealmFlowBindingCtrl");
  mkRoute (Some "/realms/:realm/authentication/flows/:flow") (Template "/partials/authentication-flows.html")
     [mkResolve "realm" ["RealmLoader"] (Load "RealmLoader");
      mkResolve "flows" ["AuthenticationFlowsLoader"] (Load "AuthenticationFlowsLoader");
      mkResolve "selectedFlow" ["$route"] (RouteParam "flow")]
    (Some "AuthenticationFlowsCtrl");
  mkRoute (Some "/realms/:realm/authentication/flows/:flow/create/execution/:topFlow") (Template "/partials/create-execution.html")
     [mkResolve "realm" ["RealmLoader"] (Load "RealmLoader");
      mkResolve "topFlow" ["$route"] (RouteParam "topFlow");
      mkResolve "parentFlow" ["AuthenticationFlowLoader"] (Load "AuthenticationFlowLoader");
      mkResolve "formActionProviders" ["AuthenticationFormActionProvidersLoader"] (Load "AuthenticationFormActionProvidersLoader");
      mkResolve "authenticatorProviders" ["AuthenticatorProvidersLoader"] (Load "AuthenticatorProvidersLoader");
      mkResolve "clientAuthenticatorProviders" ["ClientAuthenticatorProvidersLoader"] (Load "ClientAuthenticatorProvidersLoader")]
    (Some "CreateExecutionCtrl");
  mkRoute (Some "/realms/:realm/authentication/flows/:flow/create/flow/execution/:topFlow") (Template "/partials/create-flow-execution.html")
     [mkResolve "realm" ["RealmLoader"] (Load "RealmLoader");
      mkResolve "topFlow" ["$route"] (RouteParam "topFlow");
      mkResolve "parentFlow" ["AuthenticationFlowLoader"] (Load "AuthenticationFlowLoader");
      mkResolve "formProviders" ["AuthenticationFormProvidersLoader"] (Load "AuthenticationFormProvidersLoader")]
    (Some "CreateExecutionFlowCtrl");
  mkRoute (Some "/realms/:realm/authentication/create/flow") (Template "/partials/create-flow.html")
     [mkResolve "realm" ["RealmLoader"] (Load "RealmLoader")]
    (Some "CreateFlowCtrl");
  mkRoute (Some "/realms/:realm/authentication/required-actions") (Template "/partials/required-actions.html")
     [mkResolve "realm" ["RealmLoader"] (Load "RealmLoader");
      mkResolve "unregisteredRequiredActions" ["UnregisteredRequiredActionsListLoader"] (Load "UnregisteredRequiredActionsListLoader")]
    (Some "RequiredActionsCtrl");
  mkRoute (Some "/realms/:realm/authentication/password-policy") (Template "/partials/password-policy.html")
     [mkResolve "realm" ["RealmLoader"] (Load "RealmLoader");
      mkResolve "serverInfo" ["ServerInfoLoader"] (Load "ServerInfoLoader")]
    (Some "RealmPasswordPolicyCtrl");
  mkRoute (Some "/realms/:realm/authentication/otp-policy") (Template "/partials/otp-policy.html")
     [mkResolve "realm" ["RealmLoader"] (Load "RealmLoader");
      mkResolve "serverInfo" ["ServerInfo"] (Property "ServerInfo" "delay")]
    (Some "RealmOtpPolicyCtrl")
].

Definition routes14 : list route := [
  mkRoute (Some "/realms/:realm/authentication/flows/:flow/config/:provider/:config") (Template "/partials/authenticator-config.html")
     [mkResolve "realm" ["RealmLoader"] (Load "RealmLoader");
      mkResolve "flow" ["AuthenticationFlowLoader"] (Load "AuthenticationFlowLoader");
      mkResolve "configType" ["AuthenticationConfigDescriptionLoader"] (Load "AuthenticationConfigDescriptionLoader");
      mkResolve "config" ["AuthenticationConfigLoader"] (Load "AuthenticationConfigLoader")]
    (Some "AuthenticationConfigCtrl");
  mkRoute (Some "/create/authentication/:realm/flows/:flow/execution/:executionId/provider/:provider") (Template "/partials/authenticator-config.html")
     [mkResolve "realm" ["RealmLoader"] (Load "RealmLoader");
      mkResolve "flow" ["AuthenticationFlowLoader"] (Load "AuthenticationFlowLoader");
      mkResolve "configType" ["AuthenticationConfigDescriptionLoader"] (Load "AuthenticationConfigDescriptionLoader");
      mkResolve "execution" ["ExecutionIdLoader"] (Load "ExecutionIdLoader")]
    (Some "AuthenticationConfigCreateCtrl");
  mkRoute (Some "/server-info") (Template "/partials/server-info.html")
     [mkResolve "serverInfo" ["ServerInfoLoader"] (Load "ServerInfoLoader")]
    (Some "ServerInfoCtrl");
  mkRoute (Some "/server-info/providers") (Template "/partials/server-info-providers.html")
     [mkResolve "serverInfo" ["ServerInfoLoader"] (Load "ServerInfoLoader")]
    (Some "ServerInfoCtrl");
  mkRoute (Some "/logout") (Template "/partials/home.html")
     []
    (Some "LogoutCtrl");
  mkRoute (Some "/notfound") (Template "/partials/notfound.html")
     []
    None;
  mkRoute (Some "/forbidden") (Template "/partials/forbidden.html")
     []
    None;
  mkRoute None (Template "/partials/pagenotfound.html")
     []
    None
].

Definition routes : list route :=
  routes1
  ++ routes2
  ++ routes3
  ++ routes4
  ++ routes5
  ++ routes6
  ++ routes7
  ++ routes8
  ++ routes9
  ++ routes10
  ++ routes11
  ++ routes12
  ++ routes13
  ++ routes14.

(** ** What a route needs *)

(** The names a resolver uses, which Angular has to inject. *)
Definition uses (b : resolver) : list string :=
  match b with
  | Load l | LoadNew l => [l]
  | LoadComponents l a _ => l :: (if bool_decide (argReads a = []) then [] else ["$route"])
  | RouteParam _ => ["$route"]
  | Property s _ => [s]
  | Value _ => []
  | Object fs => if bool_decide (concat (argReads <$> fs.*2) = []) then [] else ["$route"]
  end.

Definition readsOfLoader (name : string) : list string :=
  match lookupLoader name with Some l => loaderReads l | None => [] end.

(** The route parameters a resolver reads, itself or through its loader. *)
Definition reads (b : resolver) : list string :=
  match b with
  | Load l | LoadNew l => readsOfLoader l
  | LoadComponents l a _ => argReads a ++ readsOfLoader l
  | RouteParam p => [p]
  | Property _ _ | Value _ => []
  | Object fs => concat (argReads <$> fs.*2)
  end.

Definition templateReads (t : template) : list string :=
  match t with
  | Template _ => []
  | TemplateFun ps => omap (λ p, match p with FromParam x => Some x | Lit _ => None end) ps
  end.

(** The loader a resolver calls. *)
Definition loaderOf (b : resolver) : option string :=
  match b with Load l | LoadNew l | LoadComponents l _ _ => Some l | _ => None end.

Definition pathParams (r : route) : list string :=
  match rt_path r with Some p => templateParams p | None => [] end.

(** What the resolvers and the template of a route read that its path does not
    bind: the path, the name of the resolver, and the parameter. *)
Definition unbound (r : route) : list (string * string * string) :=
  let path := default "" (rt_path r) in
  let missing n ps := (λ p, (path, n, p)) <$> filter (λ p, p ∉ pathParams r) ps in
  missing "templateUrl" (templateReads (rt_template r))
  ++ concat ((λ v, missing (rv_name v) (reads (rv_body v))) <$> rt_resolve r).

Definition wellInjected (v : resolve) : bool :=
  forallb (λ x, bool_decide (x ∈ rv_injected v)) (uses (rv_body v)).

Definition loaderKnown (v : resolve) : bool :=
  match loaderOf (rv_body v) with
  | Some n => match lookupLoader n with Some _ => true | None => false end
  | None => true
  end.

(** ** Properties *)

Definition ldap_exceptions : list (string * string * string) :=
  [("/create/user-storage/:realm/providers/ldap", "providerId", "provider");
   ("/realms/:realm/user-storage/providers/ldap/:componentId", "providerId", "provider")].

Lemma elem_of_concat {A} (x : A) ls : x ∈ concat ls ↔ ∃ l, x ∈ l ∧ l ∈ ls.
Proof.
  rewrite list_elem_of_In, in_concat. setoid_rewrite list_elem_of_In. naive_solver.
Qed.

(** What the two checks say of a table of routes. *)
Lemma checked_routes rs exceptions r v :
  concat (unbound <$> rs) = exceptions →
  forallb (λ r, forallb (λ v, wellInjected v && loaderKnown v) (rt_resolve r)) rs = true →
  r ∈ rs → v ∈ rt_resolve r →
  (∀ p, p ∈ reads (rv_body v) →
     p ∈ pathParams r ∨ (default "" (rt_path r), rv_name v, p) ∈ exceptions) ∧
  (∀ x, x ∈ uses (rv_body v) → x ∈ rv_injected v) ∧
  (∀ n, loaderOf (rv_body v) = Some n → is_Some (lookupLoader n)).
Proof.
  intros Hun Hc Hr Hv.
  assert (wellInjected v && loaderKnown v = true) as [Hi Hl]%andb_true_iff.
  { rewrite forallb_forall in Hc.
    specialize (Hc r). rewrite forallb_forall in Hc. apply Hc; by apply list_elem_of_In. }
  split_and!.
  - intros p Hp. destruct (decide (p ∈ pathParams r)) as [|Hn]; [by left|right].
    rewrite <- Hun. apply elem_of_concat.
    exists (unbound r). split; [|apply list_elem_of_fmap; exists r; split; [reflexivity|exact Hr]].
    unfold unbound. apply elem_of_app. right. apply elem_of_concat. eexists. split.
    2:{ apply list_elem_of_fmap. exists v. split; [reflexivity|exact Hv]. }
    cbv beta. apply list_elem_of_fmap. exists p. split; [done|]. by apply list_elem_of_filter.
  - intros x Hx. unfold wellInjected in Hi. rewrite forallb_forall in Hi.
    apply list_elem_of_In, Hi in Hx. by apply bool_decide_eq_true in Hx.
  - intros n Hn. unfold loaderKnown in Hl. rewrite Hn in Hl. by destruct (lookupLoader n).
Qed.

(** The loaders that fetch one entity leave no parameter of its template open,
    the list of realms apart, and every loader's service exists, but for that of
    [RoleMappingLoader], which no route uses. *)
Theorem loaders_bind_their_services l :
  l ∈ loaders →
  (ld_name l ≠ "RoleMappingLoader" → is_Some (openParams l)) ∧
  (isGet l = true → ld_name l ≠ "RealmListLoader" → openParams l = Some []).
Proof.
  intros Hl.
  assert (forallb (λ l, (bool_decide (ld_name l = "RoleMappingLoader")
       || bool_decide (openParams l ≠ None)) &&
    (negb (isGet l) || bool_decide (ld_name l = "RealmListLoader")
     || bool_decide (openParams l = Some []))) loaders = true) as Hall by (by vm_compute).
  rewrite forallb_forall in Hall. apply list_elem_of_In, Hall in Hl.
  apply andb_true_iff in Hl as [Hs Ho]. rewrite orb_true_iff, !bool_decide_eq_true in Hs.
  split; [destruct Hs; [done|]; intros _; by apply not_eq_None_Some|].
  intros Hg Hn. rewrite !orb_true_iff, negb_true_iff, !bool_decide_eq_true in Ho.
  destruct Ho as [[?|?]|?]; congruence.
Qed.

(** Every parameter of a resource's templates has a default, but for three: the
    defaults of these resources name another parameter. *)
Lemma resources_defaults :
  concat (undefaulted <$> resources) =
    [("ClientClusterNode", "node"); ("Group", "groupId"); ("LDAPMapperSync", "parentId")].
Proof. by vm_compute. Qed.

End AdminRoutes.
