(* ===== verification/AuthzRoutes.v ===== *)
(** The routes of the authorization pages (authz-app.js), and the route provider over all
    the routes of the admin console: which route a path leads to. *)

From S2P Require Import Prelude JsString Uri JsValue AdminResources AdminLoaders AdminRoutes.
Import JsString Uri JsValue AdminResources AdminLoaders AdminRoutes.

Module AuthzRoutes.

Definition authzRoutes1 : list route := [
  mkRoute (Some "/realms/:realm/authz") (Template "/partials/authz/resource-server-list.html")
     [mkResolve "realm" ["RealmLoader"] (Load "RealmLoader")]
    (Some "ResourceServerCtrl");
  mkRoute (Some "/realms/:realm/clients/:client/authz/resource-server/create") (Template "/partials/authz/resource-server-detail.html")
     [mkResolve "realm" ["RealmLoader"] (Load "RealmLoader");
      mkResolve "client" ["ClientLoader"] (Load "ClientLoader");
      mkResolve "clients" ["ClientListLoader"] (Load "ClientListLoader")]
    (Some "ResourceServerDetailCtrl");
  mkRoute (Some "/realms/:realm/clients/:client/authz/resource-server") (Template "/partials/authz/resource-server-detail.html")
     [mkResolve "realm" ["RealmLoader"] (Load "RealmLoader");
      mkResolve "client" ["ClientLoader"] (Load "ClientLoader");
      mkResolve "clients" ["ClientListLoader"] (Load "ClientListLoader");
      mkResolve "serverInfo" ["ServerInfoLoader"] (Load "ServerInfoLoader")]
    (Some "ResourceServerDetailCtrl");
  mkRoute (Some "/realms/:realm/clients/:client/authz/resource-server/export-settings") (Template "/partials/authz/resource-server-export-settings.html")
     [mkResolve "realm" ["RealmLoader"] (Load "RealmLoader");
      mkResolve "client" ["ClientLoader"] (Load "ClientLoader");
      mkResolve "clients" ["ClientListLoader"] (Load "ClientListLoader");
      mkResolve "serverInfo" ["ServerInfoLoader"] (Load "ServerInfoLoader")]
    (Some "ResourceServerDetailCtrl");
  mkRoute (Some "/realms/:realm/clients/:client/authz/resource-server/evaluate") (Template "/partials/authz/policy/resource-server-policy-evaluate.html")
     [mkResolve "realm" ["RealmLoader"] (Load "RealmLoader");
      mkResolve "client" ["ClientLoader"] (Load "ClientLoader");
      mkResolve "clients" ["ClientListLoader"] (Load "ClientListLoader");
      mkResolve "roles" ["RoleListLoader"] (LoadNew "RoleListLoader")]
    (Some "PolicyEvaluateCtrl");
  mkRoute (Some "/realms/:realm/clients/:client/authz/resource-server/evaluate/result") (Template "/partials/authz/policy/resource-server-policy-evaluate-result.html")
     [mkResolve "realm" ["RealmLoader"] (Load "RealmLoader");
      mkResolve "client" ["ClientLoader"] (Load "ClientLoader")]
    (Some "PolicyEvaluateCtrl");
  mkRoute (Some "/realms/:realm/clients/:client/authz/resource-server/resource") (Template "/partials/authz/resource-server-resource-list.html")
     [mkResolve "realm" ["RealmLoader"] (Load "RealmLoader");
      mkResolve "client" ["ClientLoader"] (Load "ClientLoader")]
    (Some "ResourceServerResourceCtrl");
  mkRoute (Some "/realms/:realm/clients/:client/authz/resource-server/resource/create") (Template "/partials/authz/resource-server-resource-detail.html")
     [mkResolve "realm" ["RealmLoader"] (Load "RealmLoader");
      mkResolve "client" ["ClientLoader"] (Load "ClientLoader")]
    (Some "ResourceServerResourceDetailCtrl");
  mkRoute (Some "/realms/:realm/clients/:client/authz/resource-server/resource/:rsrid") (Template "/partials/authz/resource-server-resource-detail.html")
     [mkResolve "realm" ["RealmLoader"] (Load "RealmLoader");
      mkResolve "client" ["ClientLoader"] (Load "ClientLoader")]
    (Some "ResourceServerResourceDetailCtrl");
  mkRoute (Some "/realms/:realm/clients/:client/authz/resource-server/scope") (Template "/partials/authz/resource-server-scope-list.html")
     [mkResolve "realm" ["RealmLoader"] (Load "RealmLoader");
      mkResolve "client" ["ClientLoader"] (Load "ClientLoader")]
    (Some "ResourceServerScopeCtrl");
  mkRoute (Some "/realms/:realm/clients/:client/authz/resource-server/scope/create") (Template "/partials/authz/resource-server-scope-detail.html")
     [mkResolve "realm" ["RealmLoader"] (Load "RealmLoader");
      mkResolve "client" ["ClientLoader"] (Load "ClientLoader")]
    (Some "ResourceServerScopeDetailCtrl")
].

Definition authzRoutes2 : list route := [
  mkRoute (Some "/realms/:realm/clients/:client/authz/resource-server/scope/:id") (Template "/partials/authz/resource-server-scope-detail.html")
     [mkResolve "realm" ["RealmLoader"] (Load "RealmLoader");
      mkResolve "client" ["ClientLoader"] (Load "ClientLoader")]
    (Some "ResourceServerScopeDetailCtrl");
  mkRoute (Some "/realms/:realm/clients/:client/authz/resource-server/permission") (Template "/partials/authz/permission/resource-server-permission-list.html")
     [mkResolve "realm" ["RealmLoader"] (Load "RealmLoader");
      mkResolve "client" ["ClientLoader"] (Load "ClientLoader")]
    (Some "ResourceServerPermissionCtrl");
  mkRoute (Some "/realms/:realm/clients/:client/authz/resource-server/policy") (Template "/partials/authz/policy/resource-server-policy-list.html")
     [mkResolve "realm" ["RealmLoader"] (Load "RealmLoader");
      mkResolve "client" ["ClientLoader"] (Load "ClientLoader")]
    (Some "ResourceServerPolicyCtrl");
  mkRoute (Some "/realms/:realm/clients/:client/authz/resource-server/policy/rules/create") (Template "/partials/authz/policy/provider/resource-server-policy-drools-detail.html")
     [mkResolve "realm" ["RealmLoader"] (Load "RealmLoader");
      mkResolve "client" ["ClientLoader"] (Load "ClientLoader")]
    (Some "ResourceServerPolicyDroolsDetailCtrl");
  mkRoute (Some "/realms/:realm/clients/:client/authz/resource-server/policy/rules/:id") (Template "/partials/authz/policy/provider/resource-server-policy-drools-detail.html")
     [mkResolve "realm" ["RealmLoader"] (Load "RealmLoader");
      mkResolve "client" ["ClientLoader"] (Load "ClientLoader")]
    (Some "ResourceServerPolicyDroolsDetailCtrl");
  mkRoute (Some "/realms/:realm/clients/:client/authz/resource-server/permission/resource/create") (Template "/partials/authz/permission/provider/resource-server-policy-resource-detail.html")
     [mkResolve "realm" ["RealmLoader"] (Load "RealmLoader");
      mkResolve "client" ["ClientLoader"] (Load "ClientLoader")]
    (Some "ResourceServerPolicyResourceDetailCtrl");
  mkRoute (Some "/realms/:realm/clients/:client/authz/resource-server/permission/resource/:id") (Template "/partials/authz/permission/provider/resource-server-policy-resource-detail.html")
     [mkResolve "realm" ["RealmLoader"] (Load "RealmLoader");
      mkResolve "client" ["ClientLoader"] (Load "ClientLoader")]
    (Some "ResourceServerPolicyResourceDetailCtrl");
  mkRoute (Some "/realms/:realm/clients/:client/authz/resource-server/permission/scope/create") (Template "/partials/authz/permission/provider/resource-server-policy-scope-detail.html")
     [mkResolve "realm" ["RealmLoader"] (Load "RealmLoader");
      mkResolve "client" ["ClientLoader"] (Load "ClientLoader")]
    (Some "ResourceServerPolicyScopeDetailCtrl");
  mkRoute (Some "/realms/:realm/clients/:client/authz/resource-server/permission/scope/:id") (Template "/partials/authz/permission/provider/resource-server-policy-scope-detail.html")
     [mkResolve "realm" ["RealmLoader"] (Load "RealmLoader");
      mkResolve "client" ["ClientLoader"] (Load "ClientLoader")]
    (Some "ResourceServerPolicyScopeDetailCtrl");
  mkRoute (Some "/realms/:realm/clients/:client/authz/resource-server/policy/user/create") (Template "/partials/authz/policy/provider/resource-server-policy-user-detail.html")
     [mkResolve "realm" ["RealmLoader"] (Load "RealmLoader");
      mkResolve "client" ["ClientLoader"] (Load "ClientLoader")]
    (Some "ResourceServerPolicyUserDetailCtrl");
  mkRoute (Some "/realms/:realm/clients/:client/authz/resource-server/policy/user/:id") (Template "/partials/authz/policy/provider/resource-server-policy-user-detail.html")
     [mkResolve "realm" ["RealmLoader"] (Load "RealmLoader");
      mkResolve "client" ["ClientLoader"] (Load "ClientLoader")]
    (Some "ResourceServerPolicyUserDetailCtrl");
  mkRoute (Some "/realms/:realm/clients/:client/authz/resource-server/policy/client/create") (Template "/partials/authz/policy/provider/resource-server-policy-client-detail.html")
     [mkResolve "realm" ["RealmLoader"] (Load "RealmLoader");
      mkResolve "client" ["ClientLoader"] (Load "ClientLoader")]
    (Some "ResourceServerPolicyClientDetailCtrl");
  mkRoute (Some "/realms/:realm/clients/:client/authz/resource-server/policy/client/:id") (Template "/partials/authz/policy/provider/resource-server-policy-client-detail.html")
     [mkResolve "realm" ["RealmLoader"] (Load "RealmLoader");
      mkResolve "client" ["ClientLoader"] (Load "ClientLoader")]
    (Some "ResourceServerPolicyClientDetailCtrl")
].

Definition authzRoutes3 : list route := [
  mkRoute (Some "/realms/:realm/clients/:client/authz/resource-server/policy/role/create") (Template "/partials/authz/policy/provider/resource-server-policy-role-detail.html")
     [mkResolve "realm" ["RealmLoader"] (Load "RealmLoader");
      mkResolve "client" ["ClientLoader"] (Load "ClientLoader")]
    (Some "ResourceServerPolicyRoleDetailCtrl");
  mkRoute (Some "/realms/:realm/clients/:client/authz/resource-server/policy/role/:id") (Template "/partials/authz/policy/provider/resource-server-policy-role-detail.html")
     [mkResolve "realm" ["RealmLoader"] (Load "RealmLoader");
      mkResolve "client" ["ClientLoader"] (Load "ClientLoader")]
    (Some "ResourceServerPolicyRoleDetailCtrl");
  mkRoute (Some "/realms/:realm/clients/:client/authz/resource-server/policy/group/create") (Template "/partials/authz/policy/provider/resource-server-policy-group-detail.html")
     [mkResolve "realm" ["RealmLoader"] (Load "RealmLoader");
      mkResolve "client" ["ClientLoader"] (Load "ClientLoader")]
    (Some "ResourceServerPolicyGroupDetailCtrl");
  mkRoute (Some "/realms/:realm/clients/:client/authz/resource-server/policy/group/:id") (Template "/partials/authz/policy/provider/resource-server-policy-group-detail.html")
     [mkResolve "realm" ["RealmLoader"] (Load "RealmLoader");
      mkResolve "client" ["ClientLoader"] (Load "ClientLoader")]
    (Some "ResourceServerPolicyGroupDetailCtrl");
  mkRoute (Some "/realms/:realm/clients/:client/authz/resource-server/policy/js/create") (Template "/partials/authz/policy/provider/resource-server-policy-js-detail.html")
     [mkResolve "realm" ["RealmLoader"] (Load "RealmLoader");
      mkResolve "client" ["ClientLoader"] (Load "ClientLoader")]
    (Some "ResourceServerPolicyJSDetailCtrl");
  mkRoute (Some "/realms/:realm/clients/:client/authz/resource-server/policy/js/:id") (Template "/partials/authz/policy/provider/resource-server-policy-js-detail.html")
     [mkResolve "realm" ["RealmLoader"] (Load "RealmLoader");
      mkResolve "client" ["ClientLoader"] (Load "ClientLoader")]
    (Some "ResourceServerPolicyJSDetailCtrl");
  mkRoute (Some "/realms/:realm/clients/:client/authz/resource-server/policy/time/create") (Template "/partials/authz/policy/provider/resource-server-policy-time-detail.html")
     [mkResolve "realm" ["RealmLoader"] (Load "RealmLoader");
      mkResolve "client" ["ClientLoader"] (Load "ClientLoader")]
    (Some "ResourceServerPolicyTimeDetailCtrl");
  mkRoute (Some "/realms/:realm/clients/:client/authz/resource-server/policy/time/:id") (Template "/partials/authz/policy/provider/resource-server-policy-time-detail.html")
     [mkResolve "realm" ["RealmLoader"] (Load "RealmLoader");
      mkResolve "client" ["ClientLoader"] (Load "ClientLoader")]
    (Some "ResourceServerPolicyTimeDetailCtrl");
  mkRoute (Some "/realms/:realm/clients/:client/authz/resource-server/policy/aggregate/create") (Template "/partials/authz/policy/provider/resource-server-policy-aggregate-detail.html")
     [mkResolve "realm" ["RealmLoader"] (Load "RealmLoader");
      mkResolve "client" ["ClientLoader"] (Load "ClientLoader")]
    (Some "ResourceServerPolicyAggregateDetailCtrl");
  mkRoute (Some "/realms/:realm/clients/:client/authz/resource-server/policy/aggregate/:id") (Template "/partials/authz/policy/provider/resource-server-policy-aggregate-detail.html")
     [mkResolve "realm" ["RealmLoader"] (Load "RealmLoader");
      mkResolve "client" ["ClientLoader"] (Load "ClientLoader")]
    (Some "ResourceServerPolicyAggregateDetailCtrl");
  mkRoute (Some "/realms/:realm/roles/:role/permissions") (Template "/partials/authz/mgmt/realm-role-permissions.html")
     [mkResolve "realm" ["RealmLoader"] (Load "RealmLoader");
      mkResolve "role" ["RoleLoader"] (Load "RoleLoader")]
    (Some "RealmRolePermissionsCtrl");
  mkRoute (Some "/realms/:realm/clients/:client/roles/:role/permissions") (Template "/partials/authz/mgmt/client-role-permissions.html")
     [mkResolve "realm" ["RealmLoader"] (Load "RealmLoader");
      mkResolve "client" ["ClientLoader"] (Load "ClientLoader");
      mkResolve "role" ["RoleLoader"] (Load "RoleLoader")]
    (Some "ClientRolePermissionsCtrl");
  mkRoute (Some "/realms/:realm/users-permissions") (Template "/partials/authz/mgmt/users-permissions.html")
     [mkResolve "realm" ["RealmLoader"] (Load "RealmLoader")]
    (Some "UsersPermissionsCtrl")
].

Definition authzRoutes4 : list route := [
  mkRoute (Some "/realms/:realm/clients/:client/permissions") (Template "/partials/authz/mgmt/client-permissions.html")
     [mkResolve "realm" ["RealmLoader"] (Load "RealmLoader");
      mkResolve "client" ["ClientLoader"] (Load "ClientLoader")]
    (Some "ClientPermissionsCtrl");
  mkRoute (Some "/realms/:realm/groups/:group/permissions") (Template "/partials/authz/mgmt/group-permissions.html")
     [mkResolve "realm" ["RealmLoader"] (Load "RealmLoader");
      mkResolve "group" ["GroupLoader"] (Load "GroupLoader")]
    (Some "GroupPermissionsCtrl");
  mkRoute (Some "/realms/:realm/identity-provider-settings/provider/:provider_id/:alias/permissions") (TemplateFun [Lit "/partials/authz/mgmt/broker-permissions.html"])
     [mkResolve "realm" ["RealmLoader"] (Load "RealmLoader");
      mkResolve "identityProvider" ["IdentityProviderLoader"] (Load "IdentityProviderLoader")]
    (Some "IdentityProviderPermissionCtrl")
].

Definition authzRoutes : list route :=
  authzRoutes1
  ++ authzRoutes2
  ++ authzRoutes3
  ++ authzRoutes4.

(** The routes in the order of their registration: index.ftl loads app.js first. *)
Definition consoleRoutes : list route := routes ++ authzRoutes.

(** ** From a path to a route

    The matching of angular-route for paths whose parameters are whole segments, as all
    of the console's are: [:name] takes one segment that is not empty, anything else is
    taken literally.  The redirections the provider adds for a slash at the end are left
    out; they match no URL of [urlOf] with arguments that are not empty. *)

Definition isParam (s : string) : bool := starts_with ":" s.

(** A segment of a route's path against one of the URL: a parameter takes any segment
    that is not empty. *)
Definition matchSegment (p s : string) : option (list (string * string)) :=
  if isParam p then (if String.eqb s "" then None else Some [(drop_s 1 p, s)])
  else if String.eqb p s then Some [] else None.

Fixpoint matchSegments (ps ss : list string) : option (list (string * string)) :=
  match ps, ss with
  | [], [] => Some []
  | p :: ps, s :: ss => a ← matchSegment p s; b ← matchSegments ps ss; Some (a ++ b)
  | _, _ => None
  end.

(** [parseRoute]: the first route that matches, or the one of [otherwise]. *)
Fixpoint dispatch (rs : list route) (url : string) : option (route * list (string * string)) :=
  match rs with
  | [] => None
  | r :: rs' =>
      match rt_path r with
      | Some p =>
          match matchSegments (split "/" p) (split "/" url) with
          | Some params => Some (r, params)
          | None => dispatch rs' url
          end
      | None => match dispatch rs' url with Some x => Some x | None => Some (r, []) end
      end
  end.

(** *** The URL of a route *)

Definition fill (args : string → string) (s : string) : string :=
  if isParam s then args (drop_s 1 s) else s.

Definition urlOf (args : string → string) (path : string) : string :=
  join "/" (fill args <$> split "/" path).

Definition paramsOf (args : string → string) (path : string) : list (string * string) :=
  (λ s, (drop_s 1 s, args (drop_s 1 s))) <$> filter (λ s, isParam s = true) (split "/" path).

(** Every segment of a route that is not a parameter. *)
Definition literals (rs : list route) : list string :=
  filter (λ s, isParam s = false) (concat ((λ r, from_option (split "/") [] (rt_path r)) <$> rs)).

(** Values as identifiers are: one segment, and none of the words the routes use. *)
Definition plainArgs (rs : list route) (args : string → string) : Prop :=
  ∀ x, args x ≠ "" ∧ occurs "/" (args x) = false ∧ args x ∉ literals rs.

(** A path that matches whatever another one matches. *)
Fixpoint covers (ps qs : list string) : bool :=
  match ps, qs with
  | [], [] => true
  | p :: ps, q :: qs => (isParam p || (negb (isParam q) && String.eqb p q)) && covers ps qs
  | _, _ => false
  end.

(** No route stands behind one that matches all its URLs. *)
Fixpoint unshadowed (rs : list route) : bool :=
  match rs with
  | [] => true
  | r :: rs' =>
      forallb (λ r', match rt_path r, rt_path r' with
                     | Some p, Some p' => negb (covers (split "/" p) (split "/" p'))
                     | _, _ => true
                     end) rs' && unshadowed rs'
  end.

(** ** Properties *)

Lemma split_urlOf args path :
  (∀ x, occurs "/" (args x) = false) → split "/" (urlOf args path) = fill args <$> split "/" path.
Proof.
  intros Ha. unfold urlOf. apply split_join.
  - pose proof (split_nonempty "/" path). by destruct (split "/" path).
  - apply Forall_fmap. eapply Forall_impl; [apply split_pieces_no_sep|].
    intros s Hs. unfold compose, fill. by destruct (isParam s).
Qed.

Lemma match_self args ps :
  (∀ x, args x ≠ "") →
  matchSegments ps (fill args <$> ps) =
    Some ((λ s, (drop_s 1 s, args (drop_s 1 s))) <$> filter (λ s, isParam s = true) ps).
Proof.
  intros Ha. induction ps as [|p ps IH]; [done|]. csimpl. rewrite IH, filter_cons.
  unfold matchSegment, fill. destruct (isParam p) eqn:E.
  - rewrite (proj2 (String.eqb_neq _ _) (Ha _)). by rewrite decide_True.
  - rewrite String.eqb_refl, decide_False by done. done.
Qed.

Lemma match_covers (L : list string) args ps qs params :
  (∀ x, args x ∉ L) → (∀ p, p ∈ ps → isParam p = false → p ∈ L) →
  matchSegments ps (fill args <$> qs) = Some params → covers ps qs = true.
Proof.
  intros Ha. revert qs params. induction ps as [|p ps IH]; intros [|q qs] params HL Hm; try done.
  cbn [covers]. rewrite fmap_cons in Hm. cbn [matchSegments] in Hm.
  apply bind_Some in Hm as (a & E & (b & E' & _)%bind_Some).
  assert (covers ps qs = true) as -> by (apply (IH qs b); [intros; apply HL; [by right|done]|done]).
  rewrite andb_true_r. unfold matchSegment, fill in E.
  destruct (isParam p) eqn:Ep; [done|]. destruct (isParam q) eqn:Eq.
  - destruct (String.eqb_spec p (args (drop_s 1 q))) as [E''|]; [|done]. exfalso.
    apply (Ha (drop_s 1 q)). rewrite <- E''. apply HL; [by left|done].
  - by destruct (String.eqb p q).
Qed.

Lemma dispatch_url rs L args r path :
  (∀ x, args x ≠ "" ∧ occurs "/" (args x) = false ∧ args x ∉ L) → literals rs ⊆ L →
  unshadowed rs = true → r ∈ rs → rt_path r = Some path →
  dispatch rs (urlOf args path) = Some (r, paramsOf args path).
Proof.
  intros Ha. induction rs as [|r' rs IH]; intros HL Hu Hr Hp; [set_solver|].
  cbn [unshadowed] in Hu. apply andb_true_iff in Hu as [Hu Hus]. cbn [dispatch].
  assert (literals rs ⊆ L) as HL'.
  { intros x [Hx1 Hx2]%list_elem_of_filter. apply HL, list_elem_of_filter. split; [done|].
    csimpl. apply elem_of_app. by right. }
  assert (split "/" (urlOf args path) = fill args <$> split "/" path) as Hsplit
    by (apply split_urlOf; intros x; apply Ha).
  apply elem_of_cons in Hr as [->|Hr].
  - rewrite Hp, Hsplit, match_self by (intros x; apply Ha). done.
  - specialize (IH HL' Hus Hr Hp). destruct (rt_path r') as [p'|] eqn:Ep; [|by rewrite IH].
    destruct (matchSegments (split "/" p') _) as [params|] eqn:Em; [|done]. exfalso.
    rewrite Hsplit in Em. apply (match_covers L) in Em; [|intros x; apply Ha|].
    + rewrite forallb_forall in Hu. apply list_elem_of_In in Hr. specialize (Hu _ Hr).
      rewrite Hp, Em in Hu. done.
    + intros p Hin Hnp. apply HL, list_elem_of_filter. split; [done|]. csimpl. rewrite Ep.
      apply elem_of_app. by left.
Qed.

Lemma consoleRoutes_unshadowed : unshadowed consoleRoutes = true.
Proof. by vm_compute. Qed.

(** The controller of a path, and the URLs the pages build from identifiers. *)
Definition controllerOf (path : string) : option string :=
  '(_, r) ← list_find (λ r, rt_path r = Some path) consoleRoutes; rt_controller r.

Lemma console_url path ctrl args :
  controllerOf path = Some ctrl → plainArgs consoleRoutes args →
  ∃ r, dispatch consoleRoutes (urlOf args path) = Some (r, paramsOf args path) ∧
    rt_path r = Some path ∧ rt_controller r = Some ctrl.
Proof.
  unfold controllerOf. intros Hc Ha. destruct (list_find _ _) as [[i r]|] eqn:E; [|done].
  apply list_find_Some in E as (Hi & Hp & _). exists r. split; [|by split].
  by apply (dispatch_url consoleRoutes (literals consoleRoutes) args r path Ha
              (reflexivity _) consoleRoutes_unshadowed (list_elem_of_lookup_2 _ _ _ Hi)).
Qed.

(** Arguments from a list of them, for parameters that are all in it. *)
Definition argsOf (l : list (string * string)) (x : string) : string :=
  match list_find (λ kv, kv.1 = x) l with Some (_, kv) => kv.2 | None => from_option snd "" (head l) end.

(** A value that names one thing: one segment of a URL, and none of the words of the routes. *)
Definition plain (s : string) : Prop := s ≠ "" ∧ occurs "/" s = false ∧ s ∉ literals consoleRoutes.

Lemma plain_args l : l ≠ [] → Forall (λ kv, plain kv.2) l → plainArgs consoleRoutes (argsOf l).
Proof.
  intros Hl HF x. unfold argsOf. rewrite Forall_forall in HF.
  destruct (list_find _ l) as [[i kv]|] eqn:E.
  - apply list_find_Some in E as (Hi & _). apply HF. by eapply list_elem_of_lookup_2.
  - destruct l as [|kv l]; [done|]. apply (HF kv). by left.
Qed.

(** C26: Every page of the admin console can be reached: the URL made of the path of a
    route and of identifiers leads to that route, with those identifiers as its
    parameters.  Where two paths match the same URL, as [.../scope/create] and
    [.../scope/:id] do, the special one is registered first. *)
Theorem dispatch_roundtrip r path args :
  r ∈ consoleRoutes → rt_path r = Some path → plainArgs consoleRoutes args →
  dispatch consoleRoutes (urlOf args path) = Some (r, paramsOf args path).
Proof.
  intros Hr Hp Ha.
  by apply (dispatch_url consoleRoutes (literals consoleRoutes) args r path Ha
              (reflexivity _) consoleRoutes_unshadowed).
Qed.

(** A URL that no path matches leads to the page that says so. *)
Theorem dispatch_otherwise url :
  (∀ r p, r ∈ consoleRoutes → rt_path r = Some p → matchSegments (split "/" p) (split "/" url) = None) →
  ∃ r, dispatch consoleRoutes url = Some (r, []) ∧ rt_template r = Template "/partials/pagenotfound.html".
Proof.
  assert (∀ rs, (∀ r p, r ∈ rs → rt_path r = Some p → matchSegments (split "/" p) (split "/" url) = None) →
    dispatch rs url = (λ r, (r, [])) <$> last (filter (λ r, rt_path r = None) rs)) as Hd.
  { induction rs as [|r rs IH]; intros H; [done|]. cbn [dispatch]. rewrite filter_cons.
    rewrite IH by (intros; by eapply H; [right|]). destruct (rt_path r) as [p|] eqn:E.
    - rewrite (H r p) by (by left || done). by rewrite decide_False.
    - rewrite decide_True by done. rewrite last_cons. by destruct (last _). }
  intros H. rewrite Hd by done. set (f := filter _ _).
  assert (∃ r, last f = Some r ∧ rt_template r = Template "/partials/pagenotfound.html") as (r & -> & Ht);
    [|by exists r].
  unfold f. clear. eexists. split; [by vm_compute|done].
Qed.

(** *** What resolvers read *)

Lemma console_routes_bound : concat (unbound <$> consoleRoutes) = ldap_exceptions.
Proof. by vm_compute. Qed.

Lemma console_routes_checked :
  forallb (λ r, forallb (λ v, wellInjected v && loaderKnown v) (rt_resolve r)) consoleRoutes = true.
Proof. by vm_compute. Qed.

(** Every parameter of the URL that a route's template or resolvers read,
    directly or through the loader they call, is bound by the route's path, with the
    two LDAP routes as the only exceptions; every resolver is injected with what it
    calls, and calls a loader that exists. *)
Theorem routes_supply_their_resolvers r v :
  r ∈ consoleRoutes → v ∈ rt_resolve r →
  (∀ p, p ∈ reads (rv_body v) →
     p ∈ pathParams r ∨ (default "" (rt_path r), rv_name v, p) ∈ ldap_exceptions) ∧
  (∀ x, x ∈ uses (rv_body v) → x ∈ rv_injected v) ∧
  (∀ n, loaderOf (rv_body v) = Some n → is_Some (lookupLoader n)).
Proof. apply (checked_routes consoleRoutes _ r v console_routes_bound console_routes_checked). Qed.

End AuthzRoutes.
