(* ===== verification/AdminServices.v ===== *)
(** Services of the admin console (services.js) that compute: [TimeUnit] and
    [TimeUnit2], [Notifications], [ComponentUtils], the filter
    [removeSelectedPolicies] and the URL builders. *)

From S2P Require Import Prelude JsString Uri JsValue.
Import JsString Uri JsValue.

Module AdminServices.

(** *** [TimeUnit]: times are whole seconds *)

Definition divides (d t : Z) : bool := (t mod d =? 0)%Z.

Definition autoUnit (time : Z) : string :=
  if (time =? 0)%Z then "Hours"
  else
    let '(unit, time) := if divides 60 time then ("Minutes", (time / 60)%Z) else ("Seconds", time) in
    let '(unit, time) := if divides 60 time then ("Hours", (time / 60)%Z) else (unit, time) in
    if divides 24 time then "Days" else unit.

Definition toSeconds (time : Z) (unit : string) : outcome Z :=
  match unit with
  | "Seconds" => Returns time
  | "Minutes" => Returns (time * 60)%Z
  | "Hours" => Returns (time * 3600)%Z
  | "Days" => Returns (time * 86400)%Z
  | _ => Throws (Thrown ("invalid unit " +:+ unit))
  end.

(** [Math.ceil(time / d)] *)
Definition ceil_div (time d : Z) : Z := (- (- time / d))%Z.

Definition toUnit (time : Z) (unit : string) : outcome Z :=
  match unit with
  | "Seconds" => Returns time
  | "Minutes" => Returns (ceil_div time 60)
  | "Hours" => Returns (ceil_div time 3600)
  | "Days" => Returns (ceil_div time 86400)
  | _ => Throws (Thrown ("invalid unit " +:+ unit))
  end.

(** *** [TimeUnit2] *)

Definition asUnit (time : Z) : string * Z :=
  if (time =? 0)%Z then ("Minutes", time)
  else
    let time := if (time <? 60)%Z then 60%Z else time in
    let '(unit, time) := if divides 60 time then ("Minutes", (time / 60)%Z) else ("Minutes", time) in
    let '(unit, time) := if divides 60 time then ("Hours", (time / 60)%Z) else (unit, time) in
    if divides 24 time then ("Days", (time / 24)%Z) else (unit, time).

(** [v.toSeconds()]: an unknown unit gives [undefined]. *)
Definition asUnit_toSeconds (v : string * Z) : option Z :=
  match v.1 with
  | "Minutes" => Some (v.2 * 60)%Z
  | "Hours" => Some (v.2 * 3600)%Z
  | "Days" => Some (v.2 * 86400)%Z
  | _ => None
  end.

(** *** [Notifications] *)

(** The object [current], the handle [scheduled], and the timers of [$timeout]
    that have not run. *)
Record notifications := mkNotifications {
  n_type : option string;
  n_header : option string;
  n_message : option string;
  n_display : bool;
  n_scheduled : option nat;
  n_timers : list nat;
  n_next : nat
}.

Definition noNotification : notifications := mkNotifications None None None false None [] 0.

(** [notifications.current.remove()] *)
Definition remove (s : notifications) : notifications :=
  mkNotifications None None None false None
    (match n_scheduled s with Some h => filter (λ t, t ≠ h) (n_timers s) | None => n_timers s end)
    (n_next s).

Definition message (type header msg : string) (s : notifications) : notifications :=
  let s := remove s in
  mkNotifications (Some type) (Some header) (Some msg) true (Some (n_next s))
    (n_timers s ++ [n_next s]) (S (n_next s)).

Definition info : string → notifications → notifications := message "info" "Info!".
Definition notify_success : string → notifications → notifications := message "success" "Success!".
Definition notify_error : string → notifications → notifications := message "danger" "Error!".
Definition warn : string → notifications → notifications := message "warning" "Warning!".

(** The timer with handle [h] runs. *)
Definition fire (h : nat) (s : notifications) : notifications :=
  remove (mkNotifications (n_type s) (n_header s) (n_message s) (n_display s) (n_scheduled s)
            (filter (λ t, t ≠ h) (n_timers s)) (n_next s)).

Inductive notify_step (s : notifications) : notifications → Prop :=
  | step_info m : notify_step s (info m s)
  | step_success m : notify_step s (notify_success m s)
  | step_error m : notify_step s (notify_error m s)
  | step_warn m : notify_step s (warn m s)
  | step_remove : notify_step s (remove s)
  | step_fire h : h ∈ n_timers s → notify_step s (fire h s).

(** *** [ComponentUtils] *)

Abbreviation conf := (list (string * jsval)).

(** [config.length == 0 || config[config.length - 1].length > 0] for a value that
    is there; only an array has [push]. *)
Definition addEmpty (v : jsval) : outcome jsval :=
  match v with
  | Arr l =>
      match last l with
      | None => Returns (Arr (l ++ [Str ""]))
      | Some (Undefined | Null) => Throws TypeError
      | Some (Str s) => Returns (Arr (if String.eqb s "" then l else l ++ [Str ""]))
      | Some (Arr l') => Returns (Arr (if bool_decide (l' = []) then l else l ++ [Str ""]))
      | Some _ => Returns (Arr l)
      end
  | _ => Throws TypeError
  end.

(** A property's type and name. *)
Definition property : Type := string * string.

Definition addLastEmptyValue (p : property) (config : conf) : outcome conf :=
  if String.eqb p.1 "MultivaluedString" then
    let v := assoc p.2 config in
    v' ← addEmpty (if is_nullish v then Arr [] else v);
    Returns (obj_set p.2 v' config)
  else Returns config.

Fixpoint addLastEmptyValueToMultivaluedLists (properties : list property) (config : conf) : outcome conf :=
  match properties with
  | [] => Returns config
  | p :: ps => config' ← addLastEmptyValue p config; addLastEmptyValueToMultivaluedLists ps config'
  end.

Definition removeEmpty (v : jsval) : jsval :=
  match v with
  | Arr l => match last l with Some (Str "") => Arr (removelast l) | _ => v end
  | _ => v
  end.

Definition removeLastEmptyValue (componentConfig : conf) : conf :=
  (λ '(k, v), (k, removeEmpty v)) <$> componentConfig.

(** *** The filter [removeSelectedPolicies] *)

(** A policy: its identifier and whether it may be selected more than once. *)
Definition policy : Type := string * bool.

Definition removeSelectedPolicies (policies selectedPolicies : list policy) : list policy :=
  filter (λ p, negb (existsb (λ q, String.eqb p.1 q.1 && negb p.2) selectedPolicies)) policies.

(** *** URLs built by replacing the parameters of a template

    For values without a dollar sign, which [String.prototype.replace] would read as
    a reference to what it matched. *)

Definition replaceParams (url : string) (ps : list (string * string)) : string :=
  foldl (λ u '(k, v), replace_first u k v) url ps.

Definition ClientInstallation_url (authUrl realm client provider : string) : string :=
  replaceParams (authUrl +:+ "/admin/realms/:realm/clients/:client/installation/providers/:provider")
    [(":realm", realm); (":client", client); (":provider", provider)].

Definition ClientInstallationJBoss_url (authUrl realm client : string) : string :=
  replaceParams (authUrl +:+ "/admin/realms/:realm/clients/:client/installation/jboss")
    [(":realm", realm); (":client", client)].

Definition IdentityProviderExport_url (authUrl realm alias : string) : string :=
  replaceParams (authUrl +:+ "/admin/realms/:realm/identity-provider/instances/:alias/export")
    [(":realm", realm); (":alias", alias)].

Definition ClientEvaluateGenerateExampleToken_url (authUrl realm client scopeParam userId : string) : string :=
  replaceParams (authUrl +:+ "/admin/realms/:realm/clients/:client/evaluate-scopes/generate-example-access-token?scope=:scopeParam&userId=:userId")
    [(":realm", realm); (":client", client); (":scopeParam", scopeParam); (":userId", userId)].

(** ** Time units *)

(** The times the units get wrong: the test for days also runs on a number of
    seconds or minutes that is no number of hours. *)
Definition misread (t : Z) : Prop :=
  (t mod 3600 ≠ 0 ∧ if divides 60 t then (t / 60) mod 24 = 0 else t mod 24 = 0)%Z.

Lemma ceil_div_exact t d : (0 < d)%Z → (ceil_div t d * d = t ↔ t mod d = 0)%Z.
Proof.
  intros Hd. unfold ceil_div. pose proof (Z.div_mod (- t) d ltac:(lia)) as H.
  pose proof (Z.mod_pos_bound (- t) d Hd). split; intros E.
  - assert ((- t) mod d = 0)%Z as E' by lia.
    apply Z.mod_divide in E'; [|lia]. apply Z.mod_divide; [lia|]. by apply Z.divide_opp_r.
  - assert ((- t) mod d = 0)%Z; [|lia]. apply Z.mod_divide in E; [|lia].
    apply Z.mod_divide; [lia|]. by apply Z.divide_opp_r.
Qed.

Lemma mod_mul t a b : (0 < a)%Z → (0 < b)%Z → (t mod a = 0 → ((t / a) mod b = 0 ↔ t mod (a * b) = 0))%Z.
Proof.
  intros Ha Hb Ht. apply Z.mod_divide in Ht as [q ->]; [|lia]. rewrite Z.div_mul by lia.
  rewrite (Z.mul_comm q a), Z.mul_mod_distr_l by lia. split; [intros ->; lia|nia].
Qed.

Lemma mod_factor t a b : (0 < a)%Z → (0 < b)%Z → (t mod (a * b) = 0 → t mod a = 0)%Z.
Proof.
  intros Ha Hb Ht. apply Z.mod_divide in Ht as [q ->]; [|lia].
  replace (q * (a * b))%Z with (q * b * a)%Z by lia. by apply Z.mod_mul; lia.
Qed.

(** A time shown in the unit [autoUnit] picks and read back is the same time,
    except for exactly the [misread] ones: 24 minutes, for instance, become a day. *)
Theorem autoUnit_roundtrip t :
  (x ← toUnit t (autoUnit t); toSeconds x (autoUnit t)) = Returns t ↔ ¬ misread t.
Proof.
  unfold autoUnit, misread, divides. destruct (Z.eqb_spec t 0) as [->|Ht0].
  { split; [intros _ [H _]; done|done]. }
  destruct (Z.eqb_spec (t mod 60) 0) as [H60|H60].
  - pose proof (mod_mul t 60 60 ltac:(lia) ltac:(lia) H60) as Hh. change (60 * 60)%Z with 3600%Z in Hh.
    destruct (Z.eqb_spec ((t / 60) mod 60) 0) as [Hm|Hm].
    + apply Hh in Hm as H3600. rewrite Z.div_div by lia. change (60 * 60)%Z with 3600%Z.
      pose proof (mod_mul t 3600 24 ltac:(lia) ltac:(lia) H3600) as Hd.
      change (3600 * 24)%Z with 86400%Z in Hd.
      destruct (Z.eqb_spec ((t / 3600) mod 24) 0) as [H24|H24]; simpl.
      * split; [intros _ []; done|]. intros _. f_equal. apply ceil_div_exact; [lia|by apply Hd].
      * split; [intros _ []; done|]. intros _. f_equal. by apply ceil_div_exact.
    + assert (t mod 3600 ≠ 0)%Z as H3600 by (by intros E; apply Hm, Hh).
      destruct (Z.eqb_spec ((t / 60) mod 24) 0) as [H24|H24]; simpl.
      * split; [|intros H; by destruct H]. intros [= E]. exfalso. apply H3600.
        apply (mod_factor t 3600 24); [lia|lia|]. by apply (ceil_div_exact t 86400).
      * split; [by intros _ [_ ?]|]. intros _. f_equal. by apply ceil_div_exact.
  - assert (t mod 3600 ≠ 0)%Z as H3600
      by (intros E; apply H60; by apply (mod_factor t 60 60)).
    rewrite (proj2 (Z.eqb_neq _ _) H60).
    destruct (Z.eqb_spec (t mod 24) 0) as [H24|H24]; simpl.
    + split; [|intros H; by destruct H]. intros [= E]. exfalso. apply H3600.
      apply (mod_factor t 3600 24); [lia|lia|]. by apply (ceil_div_exact t 86400).
    + split; [by intros _ [_ ?]|done].
Qed.

(** [TimeUnit2] gives back the seconds it was given for no time, and for the
    full minutes that are not [misread]; every other time changes when it is shown
    and saved. *)
Theorem asUnit_roundtrip t :
  asUnit_toSeconds (asUnit t) = Some t ↔
  (t = 0 ∨ (60 ≤ t ∧ t mod 60 = 0 ∧ ¬ misread t))%Z.
Proof.
  unfold asUnit, misread, divides. destruct (Z.eqb_spec t 0) as [->|Ht0].
  { split; [by left|done]. }
  destruct (Z.ltb_spec t 60) as [Hlt|Hge].
  { split; [|intros [?|?]; lia]. intros E. vm_compute in E. injection E as <-. done. }
  destruct (Z.eqb_spec (t mod 60) 0) as [H60|H60].
  - pose proof (mod_mul t 60 60 ltac:(lia) ltac:(lia) H60) as Hh. change (60 * 60)%Z with 3600%Z in Hh.
    pose proof (Z.div_exact t 60 ltac:(lia)) as [_ E60]. specialize (E60 H60).
    destruct (Z.eqb_spec ((t / 60) mod 60) 0) as [Hm|Hm].
    + apply Hh in Hm as H3600. pose proof (Z.div_exact (t / 60) 60 ltac:(lia)) as [_ Em].
      specialize (Em Hm).
      destruct (Z.eqb_spec ((t / 60 / 60) mod 24) 0) as [H24|H24]; cbn [asUnit_toSeconds fst snd].
      * pose proof (Z.div_exact (t / 60 / 60) 24 ltac:(lia)) as [_ Ed]. specialize (Ed H24).
        split; [intros _; right|intros _; f_equal; clear -E60 Em Ed; revert E60 Em Ed;
          generalize (t / 60 / 60 / 24)%Z (t / 60 / 60)%Z (t / 60)%Z; lia].
        split_and!; [done|done|by intros [? _]].
      * split; [intros _; right|intros _; f_equal; clear -E60 Em; revert E60 Em;
          generalize (t / 60 / 60)%Z (t / 60)%Z; lia]. split_and!; [done|done|by intros [? _]].
    + assert (t mod 3600 ≠ 0)%Z as H3600 by (by intros E; apply Hm, Hh).
      destruct (Z.eqb_spec ((t / 60) mod 24) 0) as [H24|H24]; cbn [asUnit_toSeconds fst snd].
      * pose proof (Z.div_exact (t / 60) 24 ltac:(lia)) as [_ Ed]. specialize (Ed H24).
        split; [intros [= E]; lia|]. intros [?|(_ & _ & Hn)]; [done|]. by destruct Hn.
      * split; [intros _; right|intros _; f_equal; lia]. split_and!; [done|done|by intros [_ ?]].
  - rewrite (proj2 (Z.eqb_neq _ _) H60).
    destruct (Z.eqb_spec (t mod 24) 0) as [H24|H24]; cbn [asUnit_toSeconds fst snd].
    + pose proof (Z.div_exact t 24 ltac:(lia)) as [_ Ed]. specialize (Ed H24).
      split; [intros [= E]; lia|intros [?|?]; lia].
    + split; [intros [= E]; lia|intros [?|?]; lia].
Qed.

(** ** Notifications *)

(** What is shown and the timer that will hide it belong together. *)
Definition notify_ok (s : notifications) : Prop :=
  if n_display s then
    ∃ h, n_scheduled s = Some h ∧ n_timers s = [h] ∧
      is_Some (n_type s) ∧ is_Some (n_header s) ∧ is_Some (n_message s)
  else
    n_scheduled s = None ∧ n_timers s = [] ∧
    n_type s = None ∧ n_header s = None ∧ n_message s = None.

Lemma remove_ok s :
  (∃ h, n_scheduled s = Some h ∧ (n_timers s = [h] ∨ n_timers s = []))
    ∨ n_scheduled s = None ∧ n_timers s = [] →
  notify_ok (remove s) ∧ n_timers (remove s) = [].
Proof.
  unfold remove, notify_ok. simpl.
  intros [(h & -> & [->| ->])|[-> ->]]; rewrite ?filter_cons, ?filter_nil;
    rewrite ?decide_False by naive_solver; done.
Qed.

Lemma notify_ok_cases s :
  notify_ok s → (∃ h, n_scheduled s = Some h ∧ (n_timers s = [h] ∨ n_timers s = []))
                ∨ n_scheduled s = None ∧ n_timers s = [].
Proof. unfold notify_ok. destruct (n_display s); naive_solver. Qed.

Lemma message_ok t h m s : notify_ok s → notify_ok (message t h m s).
Proof.
  intros Hs. destruct (remove_ok s (notify_ok_cases s Hs)) as [_ Hr].
  unfold message, notify_ok. cbn -[remove]. rewrite Hr. eexists. by split_and!; [..|eexists|eexists|eexists].
Qed.

Lemma fire_ok h s : notify_ok s → h ∈ n_timers s → notify_ok (fire h s).
Proof.
  intros Hs Hh. unfold fire. apply remove_ok. simpl. unfold notify_ok in Hs.
  destruct (n_display s).
  - destruct Hs as (h' & -> & Ht & _). left. exists h'. split; [done|right].
    rewrite Ht in Hh |- *. apply list_elem_of_singleton in Hh as ->.
    rewrite filter_cons, filter_nil. by rewrite decide_False by naive_solver.
  - destruct Hs as (_ & Ht & _). rewrite Ht in Hh. by apply elem_of_nil in Hh.
Qed.

(** In every reachable state a notification is on display exactly while its
    own timer is the one pending timer: an older notification's timer never hides a
    newer one, and none stays for ever. *)
Theorem notifications_timer s :
  rtc notify_step noNotification s → notify_ok s.
Proof.
  intros Hs. assert (notify_ok noNotification) as H0 by done. revert H0.
  induction Hs as [s|s s1 s2 H12 _ IH]; [done|]. intros Hok. apply IH. clear IH s2.
  destruct H12; try (by apply message_ok).
  - by apply remove_ok, notify_ok_cases.
  - by apply fire_ok.
Qed.

(** ** Multivalued properties *)

(** No list ends in an empty value. *)
Definition trimmed (v : jsval) : Prop :=
  match v with Arr l => Forall (λ x, ∃ s, x = Str s) l ∧ last l ≠ Some (Str "") | _ => True end.

Definition multi (ps : list property) : list string :=
  (filter (λ p, p.1 = "MultivaluedString") ps).*2.

Lemma addEmpty_trimmed v :
  trimmed v → (∃ l, v = Arr l) → ∃ v', addEmpty v = Returns v' ∧ removeEmpty v' = v ∧
    addEmpty v' = Returns v'.
Proof.
  intros Hv [l ->]. destruct Hv as [HF Hl].
  assert (∀ l, removeEmpty (Arr (l ++ [Str ""])) = Arr l ∧
               addEmpty (Arr (l ++ [Str ""])) = Returns (Arr (l ++ [Str ""]))) as Hr.
  { intros l'. unfold removeEmpty, addEmpty. rewrite last_snoc, removelast_last. done. }
  unfold addEmpty at 1. destruct (last l) as [x|] eqn:E.
  - apply last_Some_elem_of in E as Hx. rewrite Forall_forall in HF.
    destruct (HF x Hx) as [s ->]. destruct (String.eqb_spec s "") as [->|]; [done|].
    eexists. split; [done|]. apply Hr.
  - eexists. split; [done|]. apply Hr.
Qed.

(** The value a multivalued property is edited from. *)
Definition base (v : jsval) : jsval := if is_nullish v then Arr [] else v.

Definition editable (c : conf) (k : string) : Prop :=
  trimmed (assoc k c) ∧ ∃ l, base (assoc k c) = Arr l.

Lemma base_added c k :
  editable c k → ∃ v', addEmpty (base (assoc k c)) = Returns v' ∧
    removeEmpty v' = base (assoc k c) ∧ addEmpty v' = Returns v' ∧ is_nullish v' = false.
Proof.
  intros [Ht [l Hl]]. destruct (addEmpty_trimmed (base (assoc k c))) as (v' & H1 & H2 & H3).
  - unfold base in *. by destruct (assoc k c).
  - by exists l.
  - exists v'. split_and!; [done..|]. by destruct v'.
Qed.

(** The configuration after the properties [K] were prepared for editing. *)
Definition prepared (c0 c : conf) (K : list string) : Prop :=
  ∀ k, if decide (k ∈ K) then Returns (assoc k c) = addEmpty (base (assoc k c0))
       else assoc k c = assoc k c0.

Lemma prepared_step ps c0 c K c' :
  (∀ k, k ∈ K ++ multi ps → editable c0 k) → prepared c0 c K →
  addLastEmptyValueToMultivaluedLists ps c = Returns c' → prepared c0 c' (K ++ multi ps).
Proof.
  revert c K. induction ps as [|[t k] ps IH]; intros c K He Hp H.
  { injection H as <-. by rewrite List.app_nil_r. }
  cbn [addLastEmptyValueToMultivaluedLists] in H. unfold addLastEmptyValue in H. cbn [fst snd] in H.
  unfold multi in *. rewrite filter_cons in *. cbn [fst] in *.
  destruct (String.eqb_spec t "MultivaluedString") as [->|Hne].
  2:{ rewrite decide_False in * by done. by apply (IH c K). }
  rewrite decide_True in * by done. cbn [fmap list_fmap snd] in *.
  rewrite (cons_middle k K) in *. rewrite List.app_assoc in *.
  assert (editable c0 k) as Hk by (apply He; set_solver).
  destruct (base_added c0 k Hk) as (v' & Hv & _ & Hidem & Hnn).
  assert (addEmpty (base (assoc k c)) = Returns v') as Hadd.
  { specialize (Hp k). destruct (decide (k ∈ K)); [|by rewrite Hp].
    rewrite Hv in Hp. injection Hp as ->. unfold base. by rewrite Hnn. }
  fold (base (assoc k c)) in H. rewrite Hadd in H. cbn [mbind outcome_bind] in H.
  apply (IH (obj_set k v' c)); [done| |done]. intros k'. specialize (Hp k').
  destruct (decide (k' = k)) as [->|Hne].
  - rewrite assoc_obj_set, decide_True by set_solver. done.
  - rewrite assoc_obj_set_ne by done. destruct (decide (k' ∈ K)).
    + by rewrite decide_True by set_solver.
    + by rewrite decide_False by set_solver.
Qed.

Lemma assoc_removeLastEmptyValue k c :
  assoc k (removeLastEmptyValue c) = removeEmpty (assoc k c).
Proof.
  unfold removeLastEmptyValue. induction c as [|[k' v] c IH]; [done|]. simpl.
  by destruct (String.eqb k k').
Qed.

Lemma removeEmpty_trimmed v : trimmed v → removeEmpty v = v.
Proof.
  destruct v as [| | | | | |l|]; try done. intros [_ Hl]. simpl.
  destruct (last l) as [[| | | | |[]| |]|]; done.
Qed.

(** What the form adds to edit multivalued properties is removed again before
    the component is saved: the values of every property are the ones it had, and a
    multivalued property that was missing has no value. *)
Theorem multivalued_roundtrip ps c c' :
  (∀ k, trimmed (assoc k c)) → (∀ k, k ∈ multi ps → editable c k) →
  addLastEmptyValueToMultivaluedLists ps c = Returns c' →
  ∀ k, assoc k (removeLastEmptyValue c') =
       if decide (k ∈ multi ps) then base (assoc k c) else assoc k c.
Proof.
  intros Ht He H k. rewrite assoc_removeLastEmptyValue.
  assert (prepared c c' (multi ps)) as Hp.
  { apply (prepared_step ps c c []); [done| |done]. intros k'.
    by rewrite decide_False by apply not_elem_of_nil. }
  specialize (Hp k). destruct (decide (k ∈ multi ps)) as [Hk|Hk].
  - destruct (base_added c k (He k Hk)) as (v' & Hv & Hr & _). rewrite Hv in Hp. by injection Hp as ->.
  - rewrite Hp. by apply removeEmpty_trimmed.
Qed.

End AdminServices.
