(* ===== verification/AdminHttp.v ===== *)
(** The HTTP pipeline of the admin console (app.js): how the console starts, the
    interceptors [authInterceptor], [spinnerInterceptor] and [errorInterceptor], and
    the loading spinner.

    AngularJS hands the configuration of a request to the request interceptors in the
    order of their registration, then to the transformers, and the response to the
    response interceptors in the opposite order.  The transformers are those of
    [$httpProvider.defaults], unless the request brings its own. *)

From S2P Require Import Prelude JsString Uri JsValue Json World Promise Token Storage Urls Adapter Callback Iframe Refresh Init EventLoop AdminServices.
Import JsString Uri JsValue Json World Promise Token Adapter Refresh Init EventLoop.

Module AdminHttp.

(** *** The spinner *)

(** The variables [resourceRequests] and [loadingTimer], whether [#loading] is shown,
    the timeouts that are set, and the requests the server has not answered, with
    whether a request brought its own transformer. *)
Record console := mkConsole {
  resourceRequests : Z;
  loadingTimer : Z;
  loading : bool;
  timeouts : list Z;
  nextTimeout : Z;
  unanswered : list bool
}.

(** The variables as app.js declares them, and [#loading] as index.ftl has it: shown. Browsers
    number timeouts from 1. *)
Definition started : console := mkConsole 0 (-1) true [] 1 [].

Definition spinnerFunction (c : console) : console :=
  let c := if (resourceRequests c =? 0)%Z
           then mkConsole (resourceRequests c) (nextTimeout c) (loading c)
                  (timeouts c ++ [nextTimeout c]) (nextTimeout c + 1) (unanswered c)
           else c in
  mkConsole (resourceRequests c + 1) (loadingTimer c) (loading c) (timeouts c) (nextTimeout c)
    (unanswered c).

(** The function [spinnerFunction] gives to [window.setTimeout]. *)
Definition onLoadingTimer (h : Z) (c : console) : console :=
  mkConsole (resourceRequests c) (-1) true (filter (λ h', h' ≠ h) (timeouts c)) (nextTimeout c)
    (unanswered c).

(** [response] and [responseError] of [spinnerInterceptor]; both run these
    statements. *)
Definition spinnerResponse (c : console) : console :=
  let n := (resourceRequests c - 1)%Z in
  if (n =? 0)%Z then
    mkConsole n (-1) false
      (if (loadingTimer c =? -1)%Z then timeouts c
       else filter (λ h, h ≠ loadingTimer c) (timeouts c)) (nextTimeout c) (unanswered c)
  else mkConsole n (loadingTimer c) (loading c) (timeouts c) (nextTimeout c) (unanswered c).

(** A request leaves for the server; [own] when it brings its own transformer. *)
Definition sendRequest (own : bool) (c : console) : console :=
  let c := if own then c else spinnerFunction c in
  mkConsole (resourceRequests c) (loadingTimer c) (loading c) (timeouts c) (nextTimeout c)
    (unanswered c ++ [own]).

(** The answer to the i-th request that waits. *)
Definition answerRequest (i : nat) (c : console) : console :=
  spinnerResponse (mkConsole (resourceRequests c) (loadingTimer c) (loading c) (timeouts c)
    (nextTimeout c) (delete i (unanswered c))).

(** The states of the console, with whether some answer has left no request unanswered; [P] says
    which requests are made. *)
Inductive reached (P : bool → Prop) : console → bool → Prop :=
  | reached_start : reached P started false
  | reached_send own c idle : P own → reached P c idle → reached P (sendRequest own c) idle
  | reached_answer i c idle :
      i < length (unanswered c) → reached P c idle →
      reached P (answerRequest i c) (idle || bool_decide (delete i (unanswered c) = []))
  | reached_timer h c idle : h ∈ timeouts c → reached P c idle → reached P (onLoadingTimer h c) idle.

(** *** [errorInterceptor] *)

(** What [responseError] does with a response before it passes the rejection on. *)
Inductive reaction :=
  | Logout
  | GoTo (path : string)
  | NotifyError (message : jsval).

Definition errorInterceptor (status : Z) (data : jsval) : reaction :=
  if (status =? 401)%Z then Logout
  else if (status =? 403)%Z then GoTo "/forbidden"
  else if (status =? 404)%Z then GoTo "/notfound"
  else if negb (status =? 0)%Z then
    if truthy data && truthy (claim data "errorMessage") then NotifyError (claim data "errorMessage")
    else if truthy data && truthy (claim data "error_description") then
      NotifyError (claim data "error_description")
    else NotifyError (Str "An unexpected server error has occurred")
  else NotifyError (Str "No response from server.").

(** *** [authInterceptor] *)

(** [url.match(/.html$/)]: the point matches any character but a line terminator. *)
Definition isTemplate (url : string) : bool :=
  match drop_s (String.length url - 5) url with
  | String c "html" => negb (Ascii.eqb c "010" || Ascii.eqb c "013")
  | _ => false
  end.

(** [config.headers.Authorization = 'Bearer ' + Auth.authz.token] *)
Definition authorization (k : Kc) : string := "Bearer " +:+ to_string (kc_token k).

Section auth.
Context {env : Env}.

(** The request interceptor; [resolve] and [reload] name the two callbacks it passes
    to the promise.  It returns the headers at once for a template; otherwise the
    request waits for the first callback. *)
Definition authInterceptor (url : string) (resolve reload : nat) : IO (option (list (string * string))) :=
  if isTemplate url then mret (Some [])
  else
    k ← gets kc;
    (if truthy (kc_token k) then
       p ← updateToken (Num 5);
       success p (KUser resolve);;
       error p (KUser reload)
     else mret tt);;
    mret None.

End auth.

(** *** The start of the console *)

(** The answer to one of the two requests. *)
Definition answer : Type := Z * string.

(** What has become of the page. *)
Inductive page :=
  | Reloading                                   (* window.location.reload() *)
  | Loading                                     (* a request of the start is open *)
  | Running (user : jsval) (hasAnyAccess : jsval) (bundle : jsval) (locale : jsval)
  | Blank (e : option exn).                     (* nothing will happen any more *)

(** [user && user['realm_access']] *)
Definition hasAnyAccess (user : jsval) : jsval :=
  if truthy user then claim user "realm_access" else user.

(** [if (auth.authz.idTokenParsed.locale) locale = ...], of a default [locale]. *)
Definition localeOf (k : Kc) (locale : jsval) : outcome jsval :=
  l ← getp (kc_idTokenParsed k) "locale";
  Returns (if truthy l then l else locale).

(** The handler of a request: [None] where the caller passes no [error] and the code
    tests for it, [Some e] where it calls it all the same. *)
Definition onAnswer (missing : option exn) (a : answer) (success : jsval → page) : page :=
  if (a.1 =? 200)%Z then
    match JSON_parse a.2 with
    | Returns data => success data
    | Throws e => Blank (Some e)
    end
  else Blank missing.

(** [whoAmI] with the callbacks of [auth.refreshPermissions], which the console calls
    with one argument, so that its [error] is [undefined]. *)
Definition whoAmI (whoami : option answer) (success : jsval → page) : page :=
  match whoami with
  | None => Loading
  | Some a => onAnswer (Some TypeError) a success
  end.

(** [loadResourceBundle] *)
Definition loadResourceBundle (bundle : option answer) (success : jsval → page) : page :=
  match bundle with
  | None => Loading
  | Some a => onAnswer None a success
  end.

(** The callbacks of [keycloakAuth.init]: the promise's outcome, and the answers of the
    server so far. *)
Definition start (initialised : option bool) (k : Kc) (bundle whoami : option answer) : page :=
  match initialised with
  | None => Loading
  | Some false => Reloading
  | Some true =>
      match localeOf k (Str "en") with
      | Throws e => Blank (Some e)
      | Returns locale =>
          loadResourceBundle bundle (λ resourceBundle,
            whoAmI whoami (λ user, Running user (hasAnyAccess user) resourceBundle locale))
      end
  end.

(** ** The spinner follows the requests *)

(** With the default transformers the counter counts. Without a request that is unanswered no
    timeout is set and the spinner is as it rests; with one it is shown, or rests until its
    timeout, which is the only one. *)
Definition spinning (rests : bool) (c : console) : Prop :=
  (1 ≤ nextTimeout c)%Z ∧ Forall (λ h, h < nextTimeout c)%Z (timeouts c) ∧
  resourceRequests c = Z.of_nat (length (unanswered c)) ∧ Forall (λ own, own = false) (unanswered c) ∧
  if decide (unanswered c = []) then loading c = rests ∧ loadingTimer c = (-1)%Z ∧ timeouts c = []
  else (loading c = true ∧ loadingTimer c = (-1)%Z ∧ timeouts c = []) ∨
       (loading c = rests ∧ (1 ≤ loadingTimer c)%Z ∧ timeouts c = [loadingTimer c]).

Lemma filter_self (h : Z) : filter (λ h', h' ≠ h) [h] = [].
Proof. rewrite filter_cons. by rewrite decide_False by naive_solver. Qed.

Lemma spinning_send rests c : spinning rests c → spinning rests (sendRequest false c).
Proof.
  intros (Hn & Ht & Hr & Ho & Hc). unfold sendRequest, spinnerFunction. rewrite Hr.
  destruct (unanswered c) as [|b bs] eqn:E.
  - rewrite decide_True in Hc by done. destruct Hc as (Hl & _ & Hts). rewrite Hts. simpl.
    split_and!; simpl; [lia| |done|by repeat constructor|].
    + repeat constructor. lia.
    + by right.
  - rewrite decide_False in Hc by done.
    rewrite (proj2 (Z.eqb_neq _ _)) by (simpl; lia). split_and!; simpl; [done|done| | |].
    + rewrite Hr, length_app, E. simpl. lia.
    + rewrite E. apply Forall_app. split; [done|by constructor].
    + rewrite decide_False; [done|]. by intros [_ ?]%app_nil.
Qed.

Lemma spinning_answer i rests c :
  spinning rests c → i < length (unanswered c) →
  spinning (if decide (delete i (unanswered c) = []) then false else rests) (answerRequest i c).
Proof.
  intros (Hn & Ht & Hr & Ho & Hc) Hi. unfold answerRequest, spinnerResponse. simpl. rewrite Hr.
  assert (length (delete i (unanswered c)) = length (unanswered c) - 1) as Hlen
    by (apply length_delete; by apply lookup_lt_is_Some).
  assert (Forall (λ own, own = false) (delete i (unanswered c))) as Ho' by (by apply Forall_delete).
  destruct (Z.eqb_spec (Z.of_nat (length (unanswered c)) - 1) 0) as [E|E].
  - assert (delete i (unanswered c) = []) as Hd by (apply nil_length_inv; lia).
    rewrite decide_False in Hc by (intros H; rewrite H in Hi; simpl in Hi; lia).
    assert ((if (loadingTimer c =? -1)%Z then timeouts c
             else filter (λ h, h ≠ loadingTimer c) (timeouts c)) = []) as Hts.
    { destruct Hc as [(_ & -> & ->)|(_ & Hl & ->)]; [done|].
      rewrite (proj2 (Z.eqb_neq _ _)) by lia. apply filter_self. }
    rewrite Hts, Hd, (decide_True false rests eq_refl). split_and!; simpl; [done|constructor|lia|constructor|done].
  - assert (delete i (unanswered c) ≠ []) as Hd by (intros H; rewrite H in Hlen; simpl in Hlen; lia).
    rewrite (decide_False false rests Hd). split_and!; simpl; [done|done|rewrite Hlen; lia|done|].
    rewrite decide_False in Hc by (intros H; rewrite H in Hi; simpl in Hi; lia). by rewrite decide_False.
Qed.

Lemma spinning_timer h rests c : spinning rests c → h ∈ timeouts c → spinning rests (onLoadingTimer h c).
Proof.
  intros (Hn & Ht & Hr & Ho & Hc) Hh. unfold onLoadingTimer.
  destruct (decide (unanswered c = [])) as [E|E].
  - destruct Hc as (_ & _ & H). rewrite H in Hh. set_solver.
  - destruct Hc as [(_ & _ & H)|(_ & _ & H)]; rewrite H in *; [set_solver|].
    apply list_elem_of_singleton in Hh as ->. rewrite filter_self.
    split_and!; simpl; [done|constructor|done|done|]. rewrite decide_False by done. by left.
Qed.

(** C35: With the default transformers, whatever the order of requests, answers and the timeout:
    [#loading], which the page shows from the start, is shown until an answer leaves no request
    unanswered, which hides it; from then on it is shown, or about to be, exactly while some
    request is unanswered, and every answer to the last one hides it again. *)
Theorem spinner_follows_requests c idle :
  reached (λ own, own = false) c idle → spinning (negb idle) c.
Proof.
  induction 1 as [|own c idle -> _ IH|i c idle Hi _ IH|h c idle Hh _ IH].
  - split_and!; try done; constructor.
  - by apply spinning_send.
  - pose proof (spinning_answer i _ c IH Hi) as H. case_decide as E.
    + by rewrite bool_decide_eq_true_2, orb_true_r.
    + by rewrite bool_decide_eq_false_2, orb_false_r.
  - by apply spinning_timer.
Qed.

(** ** A request with its own transformer *)

(** The spinner is off and no request is open, but the counter is [-k]. *)
Definition drifted (k : nat) : console → Prop := λ c,
  resourceRequests c = (- Z.of_nat k)%Z ∧ loading c = false ∧ timeouts c = [] ∧ unanswered c = [].

Lemma own_request_drifts k c : drifted k c → drifted (S k) (answerRequest 0 (sendRequest true c)).
Proof.
  intros (Hr & Hl & Ht & Hu). unfold answerRequest, sendRequest, spinnerResponse. simpl. rewrite Hr, Hu.
  rewrite (proj2 (Z.eqb_neq _ _)) by lia. split_and!; simpl; [lia|done..].
Qed.

(** A request that brings its own transformer, as saving a component or testing an
    LDAP connection does, is subtracted from the counter without having been added:
    after [S k] of them the next request on its own starts no spinner, however long
    the server takes, and leaves the console as it found it. *)
Theorem own_transformer_silences_spinner k c :
  drifted k c →
  let c1 := answerRequest 0 (sendRequest true c) in
  drifted (S k) c1 ∧ timeouts (sendRequest false c1) = [] ∧ loading (sendRequest false c1) = false ∧
  drifted (S k) (answerRequest 0 (sendRequest false c1)).
Proof.
  intros Hd c1. assert (drifted (S k) c1) as H1 by (by apply own_request_drifts).
  split; [done|]. clearbody c1. clear Hd c. destruct H1 as (Hr & Hl & Ht & Hu).
  assert (spinnerFunction c1 = mkConsole (- Z.of_nat (S k) + 1) (loadingTimer c1) false [] (nextTimeout c1) []) as Hs.
  { unfold spinnerFunction. rewrite Hr, (proj2 (Z.eqb_neq _ _)) by lia. by rewrite Hr, Hl, Ht, Hu. }
  unfold answerRequest, sendRequest. rewrite Hs. simpl. split; [done|]. split; [done|].
  unfold spinnerResponse. simpl. rewrite (proj2 (Z.eqb_neq _ _)) by lia.
  split_and!; simpl; [lia|done..].
Qed.
(** ** [authInterceptor] *)

Section auth_spec.
Context {env : Env}.

Lemma success_error_settled p v w k1 k2 :
  promises w !! p = Some (NativePromise (Fulfilled v) []) →
  (success p k1 ≫= λ _, error p k2) w = (Returns tt, w <| microtasks ::= (λ q, q ++ [(k1, v)]) |>).
Proof.
  intros Hp. unfold success, error, enqueue. rewrite bind_bind, bind_gets, Hp. cbn.
  rewrite bind_modify, bind_gets. cbn. by rewrite Hp.
Qed.

(** The request interceptor: a template is requested without a token; another
    request of an instance with a token is prepared by [updateToken] with five seconds,
    and one that finds the token good for that long waits for a single callback, which
    puts the token of the instance in the header.  Without a token nothing is
    registered, so that the request is never sent, nor rejected. *)
Theorem authInterceptor_spec url resolve reload w :
  native w →
  (isTemplate url = true → authInterceptor url resolve reload w = (Returns (Some []), w)) ∧
  (isTemplate url = false → truthy (kc_token (kc w)) = false →
     authInterceptor url resolve reload w = (Returns None, w)) ∧
  (isTemplate url = false → truthy (kc_token (kc w)) = true →
   truthy (kc_refreshToken (kc w)) = true → truthy (li_enable (loginIframe w)) = false →
   (needsRefresh (Num 5) w).1 = Returns false →
   ∃ w', authInterceptor url resolve reload w = (Returns None, w') ∧
     microtasks w' = microtasks w ++ [(KUser resolve, Bool false)] ∧
     kc w' = kc w ∧ inflight w' = inflight w).
Proof.
  intros Hn. unfold authInterceptor. split_and!.
  - by intros ->.
  - intros -> Ht. by rewrite bind_gets, Ht.
  - intros -> Ht Hr He Hv. rewrite bind_gets, Ht.
    set (p := length (promises w)). set (w1 := settle true p (Bool false) (fresh w)).
    assert (updateToken (Num 5) w = (Returns p, w1)) as Hu.
    { unfold updateToken. unfold mbind at 1, M_bind at 1. rewrite createPromise_native, bind_gets by done.
      cbn [id]. change (kc (fresh w)) with (kc w). rewrite Hr.
      change (loginIframe (fresh w)) with (loginIframe w). rewrite He. cbn [negb].
      change (js_or (Num 5) (Num 5)) with (Num 5).
      unfold mbind at 1, M_bind at 1. rewrite updateExec_valid; [done|by apply fresh_native|].
      by rewrite (needsRefresh_pure (Num 5) w (fresh w)). }
    assert (promises (fresh w) !! p = Some (NativePromise Pending [])) as Hp
      by (simpl; by rewrite lookup_app_r, Nat.sub_diag).
    assert (promises w1 !! p = Some (NativePromise (Fulfilled (Bool false)) [])) as Hp1.
    { unfold w1, settle. rewrite Hp. cbn. apply list_lookup_insert_eq. rewrite length_app. simpl. lia. }
    rewrite bind_bind. unfold mbind at 1, M_bind at 1. rewrite Hu.
    unfold mbind at 1, M_bind at 1. rewrite (success_error_settled _ _ _ _ _ Hp1).
    eexists. split; [done|]. cbn.
    pose proof (settle_others true p (Bool false) (fresh w)) as Ho. fold w1 in Ho.
    rewrite (others_kc _ _ Ho), (others_inflight _ _ Ho). split_and!; try done.
    unfold w1, settle. rewrite Hp. cbn. by rewrite (right_id_L [] (++)).
Qed.

End auth_spec.

(** ** The start *)

(** The console runs exactly when the login succeeded with an ID token, and both
    requests were answered with status 200 and JSON; it then has the user's rights,
    the messages, and the locale of the ID token or English.  A login that fails
    reloads the page.  Otherwise, once both answers are there, the page stays blank:
    no error is shown, and a refused [whoami] even ends in a call of an [error] that
    was not passed. *)
Theorem start_spec k b u :
  start (Some false) k (Some b) (Some u) = Reloading ∧
  (∀ user access bundle locale,
     start (Some true) k (Some b) (Some u) = Running user access bundle locale ↔
     b.1 = 200%Z ∧ JSON_parse b.2 = Returns bundle ∧ u.1 = 200%Z ∧ JSON_parse u.2 = Returns user ∧
     access = hasAnyAccess user ∧ localeOf k (Str "en") = Returns locale) ∧
  (∀ bundle locale, localeOf k (Str "en") = Returns locale → b.1 = 200%Z →
     JSON_parse b.2 = Returns bundle → u.1 ≠ 200%Z →
     start (Some true) k (Some b) (Some u) = Blank (Some TypeError)).
Proof.
  split_and!; [done|..]; unfold start, loadResourceBundle, whoAmI, onAnswer.
  - intros user access bundle locale. split.
    + intros H. repeat case_match; simplify_eq;
        repeat match goal with H : (_ =? _)%Z = true |- _ => apply Z.eqb_eq in H end; by split_and!.
    + by intros (-> & -> & -> & -> & -> & ->).
  - intros bundle locale -> -> -> Hu. by rewrite (proj2 (Z.eqb_neq _ _) Hu).
Qed.

End AdminHttp.
