(* ===== verification/RoleControl.v ===== *)
(** [roleControl] of services.js: the page of a role, with the two pairs of lists in
    which an administrator moves roles into the composite and out of it.

    The lists hold objects, which [indexOf] compares by reference: a [role] has its
    reference, and [r_id] is the id by which the server knows it.  Both pairs, of realm
    roles and of the roles of a client, are run by the same statements, which are
    modelled once, on a [panel]. *)

From stdpp Require Import gmap.
From S2P Require Import Prelude JsString JsValue.

Module RoleControl.

Record role := mkRole { r_ref : nat; r_id : string; r_name : string }.

#[global] Instance role_eq_dec : EqDecision role.
Proof. solve_decision. Defined.

(** *** Lists of objects *)

(** [l.indexOf(r)], [None] for -1 *)
Definition indexOf (r : role) (l : list role) : option nat :=
  fst <$> list_find (λ x, r_ref x = r_ref r) l.

(** The loop that looks for an object with an id, and [splice(indexOf(it), 1)]. *)
Definition removeById (id : string) (l : list role) : list role :=
  match list_find (λ x, r_id x = id) l with
  | Some (_, x) =>
      match indexOf x l with
      | Some idx => delete idx l
      | None => l
      end
  | None => l
  end.

(** The body of the loops of [addRealmRole], [deleteRealmRole], [addClientRole] and
    [deleteClientRole]: one selected object goes from one list to the other. *)
Definition moveRole (lists : list role * list role) (r : role) : list role * list role :=
  match indexOf r lists.1 with
  | Some idx => (delete idx lists.1, lists.2 ++ [r])
  | None => lists
  end.

Definition moveSelected (selected from to : list role) : list role * list role :=
  foldl moveRole (from, to) selected.

(** *** A pair of lists *)

Record panel := mkPanel {
  available : list role;              (* realmRoles, clientRoles *)
  selectedRoles : list role;          (* selectedRealmRoles, selectedClientRoles *)
  selectedMappings : list role;       (* selectedRealmMappings, selectedClientMappings *)
  mappings : list role                (* realmMappings, clientMappings *)
}.

(** The callback of the query for the composites: what is mapped is not available. *)
Definition onMappings (composites : list role) (p : panel) : panel :=
  mkPanel (foldl (λ l r, removeById (r_id r) l) (available p) composites)
    (selectedRoles p) (selectedMappings p) composites.

(** [$scope.realmRoles = angular.copy(roles)] without the role itself, and the
    composites when they come. *)
Definition loadRealm (self : string) (roles composites : list role) : panel :=
  onMappings composites (mkPanel (removeById self roles) [] [] []).

(** The callbacks of the two requests of a client's panel: its loop for the role itself
    compares an object with an id, which never holds. *)
Definition loadClient (roles composites : list role) : panel :=
  onMappings composites (mkPanel roles [] [] []).

(** What the buttons send: the selection. *)
Definition addBody (p : panel) : list role := selectedRoles p.
Definition deleteBody (p : panel) : list role := selectedMappings p.

(** The callbacks of the answers. *)
Definition onAdded (p : panel) : panel :=
  let '(from, to) := moveSelected (selectedRoles p) (available p) (mappings p) in
  mkPanel from [] (selectedMappings p) to.

Definition onDeleted (p : panel) : panel :=
  let '(from, to) := moveSelected (selectedMappings p) (mappings p) (available p) in
  mkPanel to (selectedRoles p) [] from.

(** *** The role itself *)

(** [role], [$scope.role] and [$scope.changed]. *)
Record form (A : Type) := mkForm { saved : A; edited : A; changed : bool }.
Arguments mkForm {A}.
Arguments saved {A}.
Arguments edited {A}.
Arguments changed {A}.

Section form.
Context {A : Type} `{!EqDecision A}.

(** An edit, and the watch on ['role'] that follows it. *)
Definition edit (a : A) (f : form A) : form A :=
  mkForm (saved f) a (if decide (a = saved f) then changed f else true).

(** The body of [update] is [$scope.role]; its callback: *)
Definition onUpdated (f : form A) : form A := mkForm (edited f) (edited f) false.

Definition reset (f : form A) : form A := mkForm (saved f) (saved f) false.

End form.

(** ** Moving roles *)

(** Objects that differ have different references, as in any heap. *)
Definition heap_ok (l : list role) : Prop :=
  ∀ x y, x ∈ l → y ∈ l → r_ref x = r_ref y → x = y.

Lemma indexOf_spec r l :
  heap_ok (r :: l) →
  match indexOf r l with
  | Some i => l !! i = Some r ∧ r ∈ l
  | None => r ∉ l
  end.
Proof.
  intros Hok. unfold indexOf. destruct (list_find _ l) as [[i x]|] eqn:E; simpl.
  - apply list_find_Some in E as (Hi & Hx & _). pose proof (list_elem_of_lookup_2 _ _ _ Hi) as Hin.
    rewrite (Hok r x) by (done || set_solver). by split; [|set_solver].
  - apply list_find_None in E. intros Hin. rewrite Forall_forall in E. by apply (E r).
Qed.

Lemma filter_all (P : role → Prop) `{!∀ x, Decision (P x)} (l : list role) :
  (∀ x, x ∈ l → P x) → filter P l = l.
Proof.
  induction l as [|x l IH]; intros Hl; [done|]. rewrite filter_cons.
  rewrite decide_True by (apply Hl; set_solver). f_equal. apply IH. set_solver.
Qed.

Lemma heap_ok_mono l l' : (∀ x, x ∈ l' → x ∈ l) → heap_ok l → heap_ok l'.
Proof. intros Hs Hok x y Hx Hy. apply Hok; by apply Hs. Qed.

Lemma moveRole_spec r from to :
  heap_ok (r :: from) → NoDup from →
  let '(from', to') := moveRole (from, to) r in
  from' ++ to' ≡ₚ from ++ to ∧ NoDup from' ∧
  (∀ x, x ∈ from' ↔ x ∈ from ∧ x ≠ r) ∧ (∀ x, x ∈ to' ↔ x ∈ to ∨ x = r ∧ r ∈ from).
Proof.
  intros Hok Hnd. unfold moveRole. simpl. pose proof (indexOf_spec r from Hok) as Hi.
  destruct (indexOf r from) as [i|]; [|by split_and!; [..|set_solver|set_solver]].
  destruct Hi as [Hi Hin]. pose proof (delete_Permutation _ _ _ Hi) as Hp.
  assert ((r ∉ delete i from) ∧ NoDup (delete i from)) as [Hr Hnd'].
  { apply NoDup_cons. by rewrite <- Hp. }
  split_and!; [|done| |set_solver].
  - rewrite Hp at 2. rewrite (assoc_L (++)), (comm (++) _ [r]). done.
  - intros x. rewrite Hp at 2. set_solver.
Qed.

(** What a loop over a selection does to its two lists. *)
Lemma moveSelected_spec sel from to :
  heap_ok (sel ++ from) → NoDup from →
  let '(from', to') := moveSelected sel from to in
  from' ++ to' ≡ₚ from ++ to ∧ NoDup from' ∧
  (∀ x, x ∈ from' ↔ x ∈ from ∧ x ∉ sel) ∧ (∀ x, x ∈ to' ↔ x ∈ to ∨ x ∈ sel ∧ x ∈ from).
Proof.
  unfold moveSelected. revert from to. induction sel as [|r sel IH]; intros from to Hok Hnd; simpl.
  - by split_and!; [..|set_solver|set_solver].
  - pose proof (moveRole_spec r from to) as Hm. destruct (moveRole (from, to) r) as [from1 to1].
    destruct Hm as (Hp & Hnd1 & Hf & Ht); [eapply heap_ok_mono; [|exact Hok]; set_solver|done|].
    specialize (IH from1 to1). destruct (foldl _ _ sel) as [from' to'].
    destruct IH as (Hp' & Hnd' & Hf' & Ht'); [eapply heap_ok_mono; [|exact Hok]; set_solver|done|].
    split_and!; [by rewrite Hp'|done| |].
    + intros x. rewrite Hf', Hf. set_solver.
    + intros x. rewrite Ht', Ht, Hf. destruct (decide (x = r)); set_solver.
Qed.

(** ** The lists and the server *)

Definition ids (l : list role) : gset string := list_to_set (r_id <$> l).

(** A pair of lists, the composites the server has among the roles it shows, and the requests of
    its two buttons whose answers are still to come: what was sent, and whether the server has
    done it. *)
Record run := mkRun {
  lists : panel;
  server : gset string;
  adding : list (list role * bool);
  deleting : list (list role * bool)
}.

Inductive event :=
  | Select (sel : list role)
  | SelectMappings (sel : list role)
  | ClickAdd
  | ClickDelete
  | Serve (add : bool) (i : nat)
  | Refuse (add : bool) (i : nat)
  | Answer (add : bool) (i : nat).

Definition requests (add : bool) (s : run) : list (list role * bool) :=
  if add then adding s else deleting s.

Definition withRequests (add : bool) (l : list (list role * bool)) (s : run) : run :=
  if add then mkRun (lists s) (server s) l (deleting s) else mkRun (lists s) (server s) (adding s) l.

(** The user selects roles in one of the lists or presses a button, which sends what is selected
    then; the server does what a request asks for, or refuses it; the answer to one that was done
    runs the callback, on what is selected by then. Requests overtake each other as they like. *)
Definition perform (e : event) (s : run) : option run :=
  let p := lists s in
  match e with
  | Select sel =>
      if forallb (λ r, bool_decide (r ∈ available p)) sel
      then Some (mkRun (mkPanel (available p) sel (selectedMappings p) (mappings p)) (server s) (adding s) (deleting s))
      else None
  | SelectMappings sel =>
      if forallb (λ r, bool_decide (r ∈ mappings p)) sel
      then Some (mkRun (mkPanel (available p) (selectedRoles p) sel (mappings p)) (server s) (adding s) (deleting s))
      else None
  | ClickAdd => Some (withRequests true (adding s ++ [(addBody p, false)]) s)
  | ClickDelete => Some (withRequests false (deleting s ++ [(deleteBody p, false)]) s)
  | Serve add i =>
      match requests add s !! i with
      | Some (body, false) =>
          let srv := if add then server s ∪ ids body else server s ∖ ids body in
          Some (withRequests add (<[i := (body, true)]> (requests add s)) (mkRun p srv (adding s) (deleting s)))
      | _ => None
      end
  | Refuse add i =>
      match requests add s !! i with
      | Some (_, false) => Some (withRequests add (delete i (requests add s)) s)
      | _ => None
      end
  | Answer add i =>
      match requests add s !! i with
      | Some (_, true) =>
          Some (withRequests add (delete i (requests add s))
                  (mkRun (if add then onAdded p else onDeleted p) (server s) (adding s) (deleting s)))
      | _ => None
      end
  end.

(** The user waits: what a button has sent is not selected anew, and the button not pressed
    again, before the answer has come. *)
Definition orderly (e : event) (s : run) : Prop :=
  match e with
  | Select _ | ClickAdd => adding s = []
  | SelectMappings _ | ClickDelete => deleting s = []
  | _ => True
  end.

Definition panel_step (s s' : run) : Prop := ∃ e, perform e s = Some s'.
Definition orderly_step (s s' : run) : Prop := ∃ e, orderly e s ∧ perform e s = Some s'.

(** What the server has done of the requests whose answers are on their way. *)
Definition applied (l : list (list role * bool)) : gset string :=
  ⋃ ((λ r : list role * bool, if r.2 then ids r.1 else ∅) <$> l).

(** The lists show the roles of [all], each in one of them, the mapped ones being
    those of the server. *)
Definition agree (all : list role) (ps : panel * gset string) : Prop :=
  let '(p, srv) := ps in
  available p ++ mappings p ≡ₚ all ∧ selectedRoles p ⊆ available p ∧ selectedMappings p ⊆ mappings p ∧
  ids (mappings p) = srv.

Lemma elem_ids x l : x ∈ ids l ↔ ∃ r, r ∈ l ∧ r_id r = x.
Proof. unfold ids. rewrite elem_of_list_to_set, list_elem_of_fmap. naive_solver. Qed.

Lemma ids_inj all x y :
  NoDup (r_id <$> all) → x ∈ all → y ∈ all → r_id x = r_id y → x = y.
Proof.
  intros Hnd Hx Hy E. apply list_elem_of_lookup in Hx as [i Hi]. apply list_elem_of_lookup in Hy as [j Hj].
  assert (i = j) as ->; [|congruence].
  eapply (NoDup_lookup (r_id <$> all)); [done|by rewrite list_lookup_fmap, Hi|].
  rewrite list_lookup_fmap, Hj. simpl. by rewrite E.
Qed.

Lemma agree_facts all p srv :
  heap_ok all → NoDup (r_id <$> all) → agree all (p, srv) →
  NoDup (available p) ∧ NoDup (mappings p) ∧ heap_ok (available p ++ mappings p) ∧
  (∀ x y, x ∈ available p ++ mappings p → y ∈ available p ++ mappings p → r_id x = r_id y → x = y) ∧
  (∀ x, x ∈ available p → x ∉ mappings p).
Proof.
  intros Hok Hid (Hp & _). assert (NoDup all) as Hnd by (by eapply NoDup_fmap_1).
  rewrite <- Hp in Hnd. apply NoDup_app in Hnd as (Hnda & Hdis & Hndm). split_and!; try done.
  - eapply heap_ok_mono; [|exact Hok]. intros x. by rewrite Hp.
  - intros x y. rewrite Hp. by apply ids_inj.
Qed.

Lemma agree_added all p srv :
  heap_ok all → NoDup (r_id <$> all) → agree all (p, srv) →
  agree all (onAdded p, srv ∪ ids (addBody p)).
Proof.
  intros Hok Hid Ha. destruct (agree_facts _ _ _ Hok Hid Ha) as (Hnda & _ & Hok' & _ & _).
  destruct Ha as (Hp & Hsel & Hselm & Hsrv). unfold onAdded, addBody.
  pose proof (moveSelected_spec (selectedRoles p) (available p) (mappings p)) as Hm.
  destruct (moveSelected _ _ _) as [from to].
  destruct Hm as (Hpm & _ & Hf & Ht); [eapply heap_ok_mono; [|exact Hok']; set_solver|done|].
  split_and!; simpl; [by rewrite Hpm|set_solver|set_solver|].
  apply set_eq. intros x. rewrite elem_of_union, <- Hsrv, !elem_ids.
  setoid_rewrite Ht. set_solver.
Qed.

Lemma agree_deleted all p srv :
  heap_ok all → NoDup (r_id <$> all) → agree all (p, srv) →
  agree all (onDeleted p, srv ∖ ids (deleteBody p)).
Proof.
  intros Hok Hid Ha. destruct (agree_facts _ _ _ Hok Hid Ha) as (_ & Hndm & Hok' & Hinj & _).
  destruct Ha as (Hp & Hsel & Hselm & Hsrv). unfold onDeleted, deleteBody.
  pose proof (moveSelected_spec (selectedMappings p) (mappings p) (available p)) as Hm.
  destruct (moveSelected _ _ _) as [from to].
  destruct Hm as (Hpm & _ & Hf & Ht); [eapply heap_ok_mono; [|exact Hok']; set_solver|done|].
  split_and!; simpl; [by rewrite (comm (++)), Hpm, (comm (++))|set_solver|set_solver|].
  apply set_eq. intros x. rewrite elem_of_difference, <- Hsrv, !elem_ids. setoid_rewrite Hf. split.
  - intros (r & [Hr Hns] & <-). split; [by exists r|]. intros (r' & Hr' & E). apply Hns.
    rewrite <- (Hinj r' r); set_solver.
  - intros [(r & Hr & <-) Hn]. exists r. split; [|done]. split; [done|]. intros Hs. apply Hn. by exists r.
Qed.

(** *** Whatever happens, no role is lost *)

Lemma requests_with add l s : lists (withRequests add l s) = lists s.
Proof. by destruct add. Qed.

Lemma onAdded_partition all p :
  heap_ok (selectedRoles p ++ all) → NoDup all → available p ++ mappings p ≡ₚ all →
  available (onAdded p) ++ mappings (onAdded p) ≡ₚ all.
Proof.
  intros Hok Hnd Hp. unfold onAdded.
  pose proof (moveSelected_spec (selectedRoles p) (available p) (mappings p)) as Hm.
  destruct (moveSelected _ _ _) as [from to]. destruct Hm as (Hpm & _); [..|by rewrite <- Hp].
  - eapply heap_ok_mono; [|exact Hok]. intros x. rewrite !elem_of_app, <- Hp. set_solver.
  - rewrite <- Hp in Hnd. by apply NoDup_app in Hnd as [? _].
Qed.

Lemma onDeleted_partition all p :
  heap_ok (selectedMappings p ++ all) → NoDup all → available p ++ mappings p ≡ₚ all →
  available (onDeleted p) ++ mappings (onDeleted p) ≡ₚ all.
Proof.
  intros Hok Hnd Hp. unfold onDeleted.
  pose proof (moveSelected_spec (selectedMappings p) (mappings p) (available p)) as Hm.
  destruct (moveSelected _ _ _) as [from to]. destruct Hm as (Hpm & _).
  - eapply heap_ok_mono; [|exact Hok]. intros x. rewrite !elem_of_app, <- Hp. set_solver.
  - rewrite <- Hp in Hnd. by apply NoDup_app in Hnd as (_ & _ & ?).
  - simpl. by rewrite (comm (++)), Hpm, (comm (++)).
Qed.

(** What holds of the lists at all times; a selection may name a role that has left its list. *)
Definition kept (all : list role) (p : panel) : Prop :=
  available p ++ mappings p ≡ₚ all ∧ selectedRoles p ⊆ all ∧ selectedMappings p ⊆ all.

Lemma forallb_subseteq (sel l : list role) : forallb (λ r, bool_decide (r ∈ l)) sel = true → sel ⊆ l.
Proof.
  intros H r Hr. rewrite forallb_forall in H. apply list_elem_of_In, H in Hr. by apply bool_decide_eq_true in Hr.
Qed.

Lemma kept_step all s s' :
  heap_ok all → NoDup all → kept all (lists s) → panel_step s s' → kept all (lists s').
Proof.
  intros Hok Hnd (Hp & Hs & Hm) [e He].
    assert (available (lists s) ⊆ all ∧ mappings (lists s) ⊆ all) as [Ha Hb].
  { split; intros x; rewrite <- Hp; set_solver. }
  destruct e as [sel|sel| | |add i|add i|add i]; simpl in He.
  - destruct (forallb _ sel) eqn:E; simplify_eq. apply forallb_subseteq in E. split_and!; simpl; set_solver.
  - destruct (forallb _ sel) eqn:E; simplify_eq. apply forallb_subseteq in E. split_and!; simpl; set_solver.
  - by simplify_eq.
  - by simplify_eq.
  - destruct (requests add s !! i) as [[? []]|]; simplify_eq. by rewrite requests_with.
  - destruct (requests add s !! i) as [[? []]|]; simplify_eq. by rewrite requests_with.
  - destruct (requests add s !! i) as [[? []]|]; simplify_eq. rewrite requests_with. simpl. destruct add.
    + split; [apply onAdded_partition; [|done..]|].
      * eapply heap_ok_mono; [|exact Hok]. set_solver.
      * unfold onAdded. destruct (moveSelected _ _ _). simpl. set_solver.
    + split; [apply onDeleted_partition; [|done..]|].
      * eapply heap_ok_mono; [|exact Hok]. set_solver.
      * unfold onDeleted. destruct (moveSelected _ _ _). simpl. set_solver.
Qed.

Lemma kept_steps all s s' :
  heap_ok all → NoDup all → kept all (lists s) → rtc panel_step s s' → kept all (lists s').
Proof. intros ? ? Hk Hs. induction Hs; eauto using kept_step. Qed.

(** *** A user who waits *)

(** A button has at most one request under way, which sent what is still selected. *)
Definition single (l : list (list role * bool)) (sel : list role) : Prop :=
  l = [] ∨ ∃ served, l = [(sel, served)].

Record inStep (all : list role) (s : run) : Prop := {
  step_partition : available (lists s) ++ mappings (lists s) ≡ₚ all;
  step_selected : selectedRoles (lists s) ⊆ available (lists s);
  step_selectedMappings : selectedMappings (lists s) ⊆ mappings (lists s);
  step_adding : single (adding s) (selectedRoles (lists s));
  step_deleting : single (deleting s) (selectedMappings (lists s));
  step_server : server s = (ids (mappings (lists s)) ∪ applied (adding s)) ∖ applied (deleting s)
}.

Lemma applied_single body served : applied [(body, served)] = if served then ids body else ∅.
Proof. unfold applied. simpl. by rewrite (right_id_L ∅ (∪)). Qed.

Lemma applied_subseteq l sel : single l sel → applied l ⊆ ids sel.
Proof. intros [->|[served ->]]; [unfold applied; simpl; set_solver|]. rewrite applied_single. destruct served; set_solver. Qed.

Lemma ids_mono l l' : l ⊆ l' → ids l ⊆ ids l'.
Proof. intros Hs x. rewrite !elem_ids. set_solver. Qed.

Section orderly.
Context (all : list role) (Hheap : heap_ok all) (Hids : NoDup (r_id <$> all)).

Lemma inStep_agree s : inStep all s → agree all (lists s, ids (mappings (lists s))).
Proof. by intros []. Qed.

Lemma inStep_apart s :
  inStep all s → ids (selectedRoles (lists s)) ## ids (mappings (lists s)) ∧
                 ids (selectedMappings (lists s)) ⊆ ids (mappings (lists s)).
Proof.
  intros Hs. destruct (agree_facts _ _ _ Hheap Hids (inStep_agree s Hs)) as (_ & _ & _ & Hinj & Hdis).
  split; [|apply ids_mono, Hs]. intros i (x & Hx & <-)%elem_ids (y & Hy & E)%elem_ids.
  apply (step_selected _ _ Hs) in Hx. apply (Hdis x Hx). rewrite <- (Hinj y x); set_solver.
Qed.

Lemma inStep_answered_add s :
  inStep all s → adding s = [(selectedRoles (lists s), true)] →
  inStep all (mkRun (onAdded (lists s)) (server s) [] (deleting s)).
Proof.
  intros Hs Ha. destruct (agree_added _ _ _ Hheap Hids (inStep_agree s Hs)) as (H1 & H2 & H3 & H4).
  destruct Hs as [_ _ _ _ Hd Hsrv]. rewrite Ha, applied_single in Hsrv. split; simpl; [done..|by left| |].
  - unfold onAdded. by destruct (moveSelected _ _ _).
  - rewrite H4, Hsrv. unfold addBody, applied at 2. simpl. set_solver.
Qed.

Lemma inStep_answered_delete s :
  inStep all s → deleting s = [(selectedMappings (lists s), true)] →
  inStep all (mkRun (onDeleted (lists s)) (server s) (adding s) []).
Proof.
  intros Hs Hd. destruct (agree_deleted _ _ _ Hheap Hids (inStep_agree s Hs)) as (H1 & H2 & H3 & H4).
  destruct (inStep_apart s Hs) as [Hap Hsub].
  destruct Hs as [_ _ _ Ha _ Hsrv]. apply applied_subseteq in Ha as Hin. rewrite Hd, applied_single in Hsrv.
  split; simpl; [done..| |by left|].
  - unfold onDeleted. by destruct (moveSelected _ _ _).
  - rewrite H4, Hsrv. unfold deleteBody, applied at 3. simpl. set_solver.
Qed.

Lemma single_lookup l sel i body served :
  single l sel → l !! i = Some (body, served) → i = 0 ∧ l = [(sel, served)] ∧ body = sel.
Proof. intros [->|[? ->]]; destruct i; naive_solver. Qed.

Lemma inStep_served s add i body :
  inStep all s → requests add s !! i = Some (body, false) →
  inStep all (withRequests add (<[i := (body, true)]> (requests add s))
    (mkRun (lists s) (if add then server s ∪ ids body else server s ∖ ids body) (adding s) (deleting s))).
Proof.
  intros Hs Hi. destruct (inStep_apart s Hs) as [Hap Hsub]. destruct Hs as [H1 H2 H3 Ha Hd Hsrv].
  pose proof (applied_subseteq _ _ Ha) as Hina. pose proof (applied_subseteq _ _ Hd) as Hind.
  destruct add; simpl in *.
  - destruct (single_lookup _ _ _ _ _ Ha Hi) as (-> & E & ->). rewrite E in *. split; simpl; [done..|by right; eexists|done|].
    rewrite applied_single in *. set_solver.
  - destruct (single_lookup _ _ _ _ _ Hd Hi) as (-> & E & ->). rewrite E in *. split; simpl; [done..|by right; eexists|].
    rewrite applied_single in *. set_solver.
Qed.

Lemma inStep_step s s' : inStep all s → orderly_step s s' → inStep all s'.
Proof.
  intros Hs (e & Ho & He). destruct e as [sel|sel| | |add i|add i|add i]; simpl in *.
  - destruct (forallb _ sel) eqn:E; simplify_eq. apply forallb_subseteq in E.
    destruct Hs as [? ? ? ? ? ?]. split; simpl; try done. by left.
  - destruct (forallb _ sel) eqn:E; simplify_eq. apply forallb_subseteq in E.
    destruct Hs as [? ? ? ? ? ?]. split; simpl; try done. by left.
  - simplify_eq. destruct Hs as [? ? ? ? ? Hsrv]. rewrite Ho in *. split; simpl; try done; try (by right; eexists);
      by rewrite Hsrv, applied_single.
  - simplify_eq. destruct Hs as [? ? ? ? ? Hsrv]. rewrite Ho in *. split; simpl; try done; try (by right; eexists);
      by rewrite Hsrv, applied_single.
  - destruct (requests add s !! i) as [[body []]|] eqn:E; simplify_eq. by apply inStep_served.
  - destruct (requests add s !! i) as [[body []]|] eqn:E; simplify_eq. destruct Hs as [? ? ? Ha Hd Hsrv].
    destruct add; simpl in *.
    + destruct (single_lookup _ _ _ _ _ Ha E) as (-> & El & ->). rewrite El, applied_single in *.
      split; simpl; try done. by left.
    + destruct (single_lookup _ _ _ _ _ Hd E) as (-> & El & ->). rewrite El, applied_single in *.
      split; simpl; try done. by left.
  - destruct (requests add s !! i) as [[body []]|] eqn:E; simplify_eq. destruct Hs as [? ? ? Ha Hd Hsrv] eqn:Es.
    destruct add; simpl in *.
    + destruct (single_lookup _ _ _ _ _ Ha E) as (-> & El & ->). rewrite El. by apply inStep_answered_add.
    + destruct (single_lookup _ _ _ _ _ Hd E) as (-> & El & ->). rewrite El. by apply inStep_answered_delete.
Qed.

Lemma inStep_steps s s' : inStep all s → rtc orderly_step s s' → inStep all s'.
Proof. intros Hs Hr. induction Hr; eauto using inStep_step. Qed.

End orderly.

(** C29: A pair of lists that agrees with the server, no request being under way. Whatever is
    selected and sent, refused, done and answered, in any order, every role stays in exactly one
    of the two lists. When the user waits for the answer before selecting anew in the list a
    request was sent from, or pressing its button again, the server has the roles of the list of
    composites, up to the requests it has done and whose answers are still on their way; when
    none is, the lists agree with the server. *)
Theorem role_lists_agree all s s' :
  heap_ok all → NoDup (r_id <$> all) → agree all (lists s, server s) → adding s = [] → deleting s = [] →
  (rtc panel_step s s' → available (lists s') ++ mappings (lists s') ≡ₚ all) ∧
  (rtc orderly_step s s' →
     server s' = (ids (mappings (lists s')) ∪ applied (adding s')) ∖ applied (deleting s') ∧
     (adding s' = [] → deleting s' = [] → agree all (lists s', server s'))).
Proof.
  intros Hok Hid (H1 & H2 & H3 & H4) Ha Hd. split; intros Hr.
  - refine (proj1 (kept_steps all s s' Hok _ _ Hr)); [by eapply NoDup_fmap_1|].
    split; [done|]. split; intros x Hx; rewrite <- H1; set_solver.
  - assert (inStep all s') as Hs.
    { eapply inStep_steps; [done..| |exact Hr]. split; try done; [by left..|].
      rewrite Ha, Hd, <- H4. unfold applied. simpl. set_solver. }
    destruct Hs as [? ? ? ? ? Hsrv]. split; [done|]. intros Ha' Hd'. split_and!; [done..|].
    rewrite Hsrv, Ha', Hd'. unfold applied. simpl. set_solver.
Qed.

(** ** The start of the page *)

Lemma removeById_spec id l :
  heap_ok l → NoDup (r_id <$> l) → removeById id l = filter (λ x, r_id x ≠ id) l.
Proof.
  intros Hok Hnd. unfold removeById. destruct (list_find _ l) as [[i x]|] eqn:E.
  - apply list_find_Some in E as (Hi & Hx & Hbefore).
    pose proof (list_elem_of_lookup_2 _ _ _ Hi) as Hin.
    pose proof (indexOf_spec x l) as Hidx.
    destruct (indexOf x l) as [j|]; [|by destruct Hidx; [eapply heap_ok_mono; [|exact Hok]; set_solver|]].
    destruct Hidx as [Hj _]; [eapply heap_ok_mono; [|exact Hok]; set_solver|].
    clear Hok Hin Hbefore Hi. revert j Hj. induction l as [|y l IH]; intros j Hj; [done|].
    apply NoDup_cons in Hnd as [Hy Hnd]. rewrite filter_cons. destruct j as [|j]; simpl in *.
    + injection Hj as ->. rewrite decide_False by naive_solver. symmetry. apply filter_all.
      intros z Hz E. apply Hy, list_elem_of_fmap. exists z. by rewrite Hx.
    + rewrite decide_True; [by rewrite IH|]. intros E. apply Hy, list_elem_of_fmap. exists x.
      split; [by rewrite Hx|]. by eapply list_elem_of_lookup_2.
  - apply list_find_None in E. symmetry. apply filter_all. intros z Hz. rewrite Forall_forall in E. by apply E.
Qed.
Lemma NoDup_ids_filter (P : role → Prop) `{!∀ x, Decision (P x)} (l : list role) :
  NoDup (r_id <$> l) → NoDup (r_id <$> filter P l).
Proof. intros Hnd. eapply sublist_NoDup; [exact Hnd|]. apply fmap_sublist, sublist_filter. Qed.

Lemma removeAll_spec composites l :
  heap_ok l → NoDup (r_id <$> l) →
  foldl (λ l r, removeById (r_id r) l) l composites = filter (λ x, r_id x ∉ ids composites) l.
Proof.
  revert l. induction composites as [|c composites IH]; intros l Hok Hnd; simpl.
  - symmetry. apply filter_all. set_solver.
  - rewrite removeById_spec by done. rewrite IH.
    + rewrite list_filter_filter. apply list_filter_iff. intros x. unfold ids. simpl. set_solver.
    + eapply heap_ok_mono; [|exact Hok]. intros x. rewrite list_elem_of_filter. by intros [].
    + by apply NoDup_ids_filter.
Qed.

Lemma agree_loaded roles composites P `{!∀ x, Decision (P x)} :
  let p := mkPanel (filter (λ x, P x ∧ r_id x ∉ ids composites) roles) [] [] composites in
  heap_ok (roles ++ composites) → NoDup (r_id <$> roles) → NoDup (r_id <$> composites) →
  let all := available p ++ mappings p in
  agree all (p, ids composites) ∧ heap_ok all ∧ NoDup (r_id <$> all).
Proof.
  simpl. intros Hok Hr Hc. split_and!; [done|set_solver|set_solver|done|..].
  - eapply heap_ok_mono; [|exact Hok]. intros x. rewrite !elem_of_app, list_elem_of_filter. naive_solver.
  - rewrite fmap_app. apply NoDup_app. split_and!; [by apply NoDup_ids_filter| |done].
    intros i (x & -> & [[_ Hx] _]%list_elem_of_filter)%list_elem_of_fmap Hi.
    apply Hx, elem_of_list_to_set, Hi.
Qed.

(** The page starts with the composites of the role on one side and, on the other,
    every other realm role but the role itself, each once; so the agreement with the
    server, which later moves keep, holds from the start. *)
Theorem loadRealm_agrees self roles composites :
  heap_ok (roles ++ composites) → NoDup (r_id <$> roles) → NoDup (r_id <$> composites) →
  let p := loadRealm self roles composites in
  available p = filter (λ x, r_id x ≠ self ∧ r_id x ∉ ids composites) roles ∧
  mappings p = composites ∧
  let all := available p ++ mappings p in
  agree all (p, ids composites) ∧ heap_ok all ∧ NoDup (r_id <$> all).
Proof.
  intros Hok Hr Hc p. assert (heap_ok roles) as Hok1 by (eapply heap_ok_mono; [|exact Hok]; set_solver).
  assert (p = mkPanel (filter (λ x, r_id x ≠ self ∧ r_id x ∉ ids composites) roles) [] [] composites) as ->.
  { unfold p, loadRealm, onMappings. simpl. f_equal. rewrite removeById_spec by done.
    rewrite removeAll_spec; [|eapply heap_ok_mono; [|exact Hok1]; intros x; rewrite list_elem_of_filter; by intros []
                             |by apply NoDup_ids_filter].
    rewrite list_filter_filter. apply list_filter_iff. naive_solver. }
  split; [done|]. split; [done|]. by apply (agree_loaded roles composites).
Qed.

(** A client role is offered as a composite of itself: unlike the realm's list, the
    client's keeps every role that is not a composite yet. *)
Theorem loadClient_keeps_self self roles composites :
  heap_ok roles → NoDup (r_id <$> roles) → self ∈ roles → r_id self ∉ ids composites →
  self ∈ available (loadClient roles composites).
Proof.
  intros Hok Hnd Hin Hc. unfold loadClient, onMappings. simpl. rewrite removeAll_spec by done.
  by apply list_elem_of_filter.
Qed.

(** ** Answers that come after the selection changed *)

(** The callback of an addition moves what is selected when the answer comes, not
    what was sent: with the selection changed in between, the page shows a composite
    that the server does not have, and offers the one it has. *)
Theorem selection_race all p srv a b :
  heap_ok all → NoDup (r_id <$> all) → agree all (p, srv) →
  a ∈ available p → b ∈ available p → a ≠ b → addBody p = [a] →
  let p' := onAdded (mkPanel (available p) [b] (selectedMappings p) (mappings p)) in
  let srv' := srv ∪ ids (addBody p) in
  b ∈ mappings p' ∧ (r_id b ∉ srv') ∧ a ∈ available p' ∧ r_id a ∈ srv'.
Proof.
  intros Hok Hid Ha Hina Hinb Hne Hbody.
  destruct (agree_facts _ _ _ Hok Hid Ha) as (Hnda & _ & Hok' & Hinj & Hdis).
  destruct Ha as (Hp & _ & _ & Hsrv). unfold onAdded. simpl.
  pose proof (moveSelected_spec [b] (available p) (mappings p)) as Hm.
  destruct (moveSelected _ _ _) as [from to].
  destruct Hm as (_ & _ & Hf & Ht); [eapply heap_ok_mono; [|exact Hok']; set_solver|done|].
  rewrite Hbody, <- Hsrv. simpl. split_and!; [set_solver| |set_solver|].
  - rewrite elem_of_union, !elem_ids. intros [(r & Hr & E)|(r & ->%list_elem_of_singleton & E)].
    + apply (Hdis b Hinb). rewrite <- (Hinj r b); set_solver.
    + apply Hne. apply Hinj; set_solver.
  - apply elem_of_union. right. apply elem_ids. exists a. set_solver.
Qed.

(** ** The form *)

Section form_spec.
Context {A : Type} `{!EqDecision A}.

Inductive form_step : form A * A → form A * A → Prop :=
  | form_edit a f srv : form_step (f, srv) (edit a f, srv)
  | form_reset f srv : form_step (f, srv) (reset f, srv)
  | form_update f srv : form_step (f, srv) (onUpdated f, edited f).

(** The form of a role tracks the server as long as an update is answered before the
    next edit: [reset] returns to what the server has, and a form that is not marked
    as changed shows it. *)
Theorem form_tracks_server f srv a :
  rtc form_step (mkForm a a false, a) (f, srv) →
  saved f = srv ∧ (changed f = false → edited f = srv) ∧ edited (reset f) = srv.
Proof.
  intros H. remember (mkForm a a false, a) as s0 eqn:E0. remember (f, srv) as s eqn:E.
  assert (∀ s1, rtc form_step s1 s → saved s1.1 = s1.2 → (changed s1.1 = false → edited s1.1 = s1.2) →
            saved s.1 = s.2 ∧ (changed s.1 = false → edited s.1 = s.2)) as Hgen.
  { clear. intros s1 H. induction H as [|x y z Hs _ IH]; [done|]. intros H1 H2. apply IH;
      destruct Hs as [b f srv|f srv|f srv]; simpl in *; try done.
    subst. by case_decide. }
  destruct (Hgen s0 H) as [H1 H2]; [by subst|by subst|]. subst. simpl in *. done.
Qed.

(** An edit made while an update is under way is taken for saved when the answer comes. *)
Theorem update_race (f : form A) b :
  b ≠ edited f → let srv := edited f in
  let f' := onUpdated (edit b f) in saved f' ≠ srv ∧ changed f' = false.
Proof. done. Qed.

End form_spec.

End RoleControl.
