(* ===== verification/AdminView.v ===== *)
(** Filters, directives and small controllers of the admin console (app.js): [remove],
    [toOrderedMapSortedByKey], [startFrom], [PagingCtrl], [kcValidPage], [kcSave],
    [kcReadOnly] and [ProviderConfigCtrl]. *)

From Stdlib Require Import QArith Qround.
From stdpp Require Import gmap sorting.
From S2P Require Import Prelude JsString JsValue.
Import JsString JsValue.

#[local] Close Scope Q_scope.
#[local] Open Scope nat_scope.
#[local] Open Scope stdpp_scope.

Module AdminView.

(** ** The filter [remove] *)

(** The second argument: falsy, an array, or a single object. *)
Inductive removal (A : Type) :=
  | RemoveNothing
  | RemoveMany (l : list A)
  | RemoveOne (a : A).
Arguments RemoveNothing {A}.
Arguments RemoveMany {A}.
Arguments RemoveOne {A}.

Section remove_filter.
Context {A : Type} `{!EqDecision A} (attr : option (A → jsval)).

(** [remove[attribute] == e[attribute]], or [remove == e] without an attribute. *)
Definition same (r e : A) : bool :=
  match attr with
  | Some f => loose_eq (f r) (f e)
  | None => bool_decide (r = e)
  end.

(** The loop over [remove]: whether [e] is set to [null]. *)
Fixpoint removed (rs : list A) (e : A) : bool :=
  match rs with
  | [] => false
  | r :: rs => if same r e then true else removed rs e
  end.

(** The loop over [input], with the test that sets an object to [null]. *)
Fixpoint removeLoop (gone : A → bool) (input : list A) : list A :=
  match input with
  | [] => []
  | e :: input' => if gone e then removeLoop gone input' else e :: removeLoop gone input'
  end.

Definition remove (input : list A) (r : removal A) : list A :=
  match r with
  | RemoveNothing => input
  | RemoveMany rs => removeLoop (removed rs) input
  | RemoveOne x => removeLoop (same x) input
  end.

End remove_filter.

(** ** The filter [toOrderedMapSortedByKey] *)

(** [keys.sort()] *)
Definition sortKeys (keys : list string) : list string := merge_sort String.le keys.

(** On an object whose keys are not array indices, which an object lists first. *)
Definition toOrderedMapSortedByKey (input : list (string * jsval)) : list (string * jsval) :=
  if length input <=? 1 then input
  else foldl (λ result k, obj_set k (assoc k input) result) [] (sortKeys input.*1).

(** ** Paging *)

(** Page numbers are numbers, and not only whole ones. *)
Record paging := mkPaging { currentPage : Q; currentPageInput : Q; numberOfPages : Z }.

Definition hasNext (p : paging) : bool := negb (Qle_bool (inject_Z (numberOfPages p)) (currentPage p)).
Definition hasPrevious (p : paging) : bool := negb (Qle_bool (currentPage p) 1).

Definition goTo (q : Q) (p : paging) : paging := mkPaging q q (numberOfPages p).

Definition firstPage (p : paging) : paging := if hasPrevious p then goTo 1 p else p.
Definition lastPage (p : paging) : paging :=
  if hasNext p then goTo (inject_Z (numberOfPages p)) p else p.
Definition previousPage (p : paging) : paging :=
  if hasPrevious p then goTo (currentPage p - 1)%Q p else p.
Definition nextPage (p : paging) : paging :=
  if hasNext p then goTo (currentPage p + 1)%Q p else p.

(** [kcValidPage]: the number the text of the input stands for, [None] for none. *)
Definition validPage (viewValue : option Q) (p : paging) : paging :=
  match viewValue with
  | Some v =>
      if Qle_bool 1 v && Qle_bool v (inject_Z (numberOfPages p))
      then mkPaging v (currentPageInput p) (numberOfPages p) else p
  | None => p
  end.

Inductive paging_step (P : Q → Prop) (p : paging) : paging → Prop :=
  | page_first : paging_step P p (firstPage p)
  | page_last : paging_step P p (lastPage p)
  | page_previous : paging_step P p (previousPage p)
  | page_next : paging_step P p (nextPage p)
  | page_none : paging_step P p (validPage None p)
  | page_input v : P v → paging_step P p (validPage (Some v) p).

(** [input.slice(start)] for a [start] that is not negative: it is truncated. *)
Definition startFrom {A} (input : list A) (start : Q) : list A := drop (Z.to_nat (Qfloor start)) input.

(** [items | startFrom:(currentPage - 1) * pageSize | limitTo:pageSize], and
    [Math.ceil(items.length / pageSize)]. *)
Definition pageOf {A} (items : list A) (pageSize : nat) (page : Q) : list A :=
  take pageSize (startFrom items ((page - 1) * inject_Z (Z.of_nat pageSize))%Q).

Definition pagesFor (items pageSize : nat) : nat := (items + (pageSize - 1)) / pageSize.

(** ** [kcSave] *)

(** The variable [disabled], and the timeout that resets it. *)
Record save_button := mkSave { disabled : bool; enableAt : option Z }.

Definition clickDelay : Z := 500.

(** A click at a time: [changed] is [$scope.changed] where the scope has it, and the
    result says whether the listener goes on to [save] or to the error message. *)
Definition clickSave (t : Z) (changed : option bool) (b : save_button) : save_button * bool :=
  match changed with
  | Some false => (b, false)
  | _ =>
      if disabled b then (b, false)
      else (mkSave true (Some (t + clickDelay)%Z), true)
  end.

Definition saveTimeout (b : save_button) : save_button := mkSave false None.

(** The browser runs the timeout at its time or later. *)
Inductive save_step : Z * save_button → option Z → Z * save_button → Prop :=
  | save_click t t' ch b b' (acted : bool) :
      (t ≤ t')%Z → clickSave t' ch b = (b', acted) →
      save_step (t, b) (if acted then Some t' else None) (t', b')
  | save_timeout t t' b at_ :
      (t ≤ t')%Z → enableAt b = Some at_ → (at_ ≤ t')%Z →
      save_step (t, b) None (t', saveTimeout b).

(** ** [kcReadOnly] *)

(** An element of a page: whether it has [kc-read-only-ignore], and [disabled]. *)
Record element := mkElement { ignored : bool; e_disabled : bool }.

(** The elements below a directive, by tag, in the order of the document. *)
Abbreviation view := (list (string * list element)).

(** The keys of the object [disabled], which all uses of the directive share. *)
Abbreviation marks := (gset (string * nat)).

(** [.filter(filterIgnored).each(f)]: the index counts the elements that are left. *)
Fixpoint eachElement (f : string → nat → element → marks → element * marks) (tag : string) (i : nat)
    (es : list element) (m : marks) : list element * marks :=
  match es with
  | [] => ([], m)
  | e :: es' =>
      if ignored e then let '(es'', m') := eachElement f tag i es' m in (e :: es'', m')
      else
        let '(e', m1) := f tag i e m in
        let '(es'', m2) := eachElement f tag (S i) es' m1 in (e' :: es'', m2)
  end.

Definition disable (tag : string) (i : nat) (e : element) (m : marks) : element * marks :=
  if e_disabled e then (e, m) else (mkElement (ignored e) true, {[(tag, i)]} ∪ m).

(** [delete disabled[i]] removes the key [i], which is never set. *)
Definition enable (tag : string) (i : nat) (e : element) (m : marks) : element * marks :=
  if bool_decide ((tag, i) ∈ m) then (mkElement (ignored e) false, m) else (e, m).

Fixpoint eachTag (f : string → nat → element → marks → element * marks) (v : view) (m : marks)
    : view * marks :=
  match v with
  | [] => ([], m)
  | (tag, es) :: v' =>
      let '(es', m1) := eachElement f tag 0 es m in
      let '(v'', m2) := eachTag f v' m1 in ((tag, es') :: v'', m2)
  end.

(** The watch on the attribute. *)
Definition readOnlyChanged (readOnly : bool) : view → marks → view * marks :=
  eachTag (if readOnly then disable else enable).

(** ** [ProviderConfigCtrl] *)

(** [addValueToMultivalued] *)
Definition addValue (configProperty : list string) : outcome (list string) :=
  match last configProperty with
  | None => Throws TypeError
  | Some lastValue =>
      Returns (if (0 <? String.length lastValue)%nat then configProperty ++ [""] else configProperty)
  end.

(** [splice(index, 1)] *)
Definition deleteValue (index : nat) (configProperty : list string) : list string :=
  delete index configProperty.

(** ** What the filters compute *)

(** The removal as a set of objects. *)
Definition removals {A} (r : removal A) : list A :=
  match r with RemoveNothing => [] | RemoveMany l => l | RemoveOne a => [a] end.

(** The filter [remove] keeps, in their order, exactly the objects that match none of
    the ones to remove, by the attribute if one is given. *)
Theorem remove_spec {A} `{!EqDecision A} (attr : option (A → jsval)) input r :
  remove attr input r = filter (λ e, Forall (λ x, same attr x e = false) (removals r)) input.
Proof.
  assert (∀ rs e, removed attr rs e = false ↔ Forall (λ x, same attr x e = false) rs) as Hr.
  { intros rs e. induction rs as [|x rs IH]; simpl; [by split|]. rewrite Forall_cons.
    destruct (same attr x e); [naive_solver|]. rewrite IH. naive_solver. }
  assert (∀ gone (P : A → Prop) `{!∀ e, Decision (P e)}, (∀ e, gone e = false ↔ P e) →
            removeLoop gone input = filter P input) as Hloop.
  { intros gone P ? Hg. induction input as [|e input IH]; [done|]. simpl. rewrite filter_cons, IH.
    destruct (gone e) eqn:E; [rewrite decide_False|rewrite decide_True]; rewrite <- ?Hg; congruence. }
  destruct r as [|rs|x]; simpl.
  - rewrite <- (Hloop (λ _, false)) by (intros; split; [by constructor|done]).
    clear. induction input as [|e input IH]; simpl; [done|by f_equal].
  - by apply Hloop.
  - apply Hloop. intros e. by rewrite Forall_singleton.
Qed.

Lemma assoc_perm k (o1 o2 : list (string * jsval)) :
  NoDup o1.*1 → o1 ≡ₚ o2 → assoc k o1 = assoc k o2.
Proof.
  intros Hnd Hp. induction Hp as [|[k' v] o1 o2 _ IH|[k1 v1] [k2 v2] o|o1 o2 o3 H1 IH1 H2 IH2]; simpl.
  - done.
  - csimpl. apply NoDup_cons in Hnd as [_ Hnd]. by rewrite IH.
  - csimpl. destruct (String.eqb_spec k k1) as [E1|], (String.eqb_spec k k2) as [E2|]; try done.
    subst. simpl in Hnd. apply NoDup_cons in Hnd as [Hn _]. set_solver.
  - rewrite IH1, IH2; [done| |done]. by rewrite <- H1.
Qed.

Lemma foldl_set_fresh (f : string → jsval) ks acc :
  NoDup (acc.*1 ++ ks) →
  foldl (λ r k, obj_set k (f k) r) acc ks = acc ++ ((λ k, (k, f k)) <$> ks).
Proof.
  revert acc. induction ks as [|k ks IH]; intros acc Hnd; simpl; [by rewrite (right_id_L [] (++))|].
  rewrite obj_set_fresh, IH, <- (assoc_L (++)); [done| |].
  - rewrite fmap_app, <- (assoc_L (++)). exact Hnd.
  - intros Hin. apply NoDup_app in Hnd as (_ & Hd & _). apply (Hd k Hin). by left.
Qed.

(** The filter in one equation. *)
Lemma ordered_unfold o :
  NoDup o.*1 → toOrderedMapSortedByKey o = (λ k, (k, assoc k o)) <$> sortKeys o.*1.
Proof.
  intros Hnd. unfold toOrderedMapSortedByKey. destruct o as [|[k v] [|kv o]]; [done| |].
  - cbn. by rewrite String.eqb_refl.
  - cbn [length Nat.leb]. apply (foldl_set_fresh (λ k, assoc k _) _ []).
    unfold sortKeys. by rewrite merge_sort_Permutation.
Qed.

(** [toOrderedMapSortedByKey] has the properties of its input, sorted by name, and
    nothing else matters: two objects with the same properties in any order give the
    same result. *)
Theorem ordered_map_canonical o1 o2 :
  NoDup o1.*1 → o1 ≡ₚ o2 →
  toOrderedMapSortedByKey o1 = toOrderedMapSortedByKey o2 ∧
  Sorted String.le (toOrderedMapSortedByKey o1).*1 ∧
  (toOrderedMapSortedByKey o1).*1 ≡ₚ o1.*1 ∧
  ∀ k, assoc k (toOrderedMapSortedByKey o1) = assoc k o1.
Proof.
  intros Hnd Hp. assert (NoDup o2.*1) as Hnd2 by (by rewrite <- Hp).
  rewrite !ordered_unfold by done.
  assert (∀ ks, ((λ k, (k, assoc k o1)) <$> ks).*1 = ks) as Hkeys.
  { intros ks. induction ks; csimpl; [done|]. by f_equal. }
  rewrite Hkeys. unfold sortKeys. split_and!.
  - assert (merge_sort String.le o1.*1 = merge_sort String.le o2.*1) as ->.
    { apply (Sorted_unique String.le); [apply Sorted_merge_sort, _..|].
      by rewrite !merge_sort_Permutation, Hp. }
    apply list_fmap_ext. intros i k _. f_equal. by apply assoc_perm.
  - apply Sorted_merge_sort, _.
  - apply merge_sort_Permutation.
  - intros k. set (ks := merge_sort _ _). assert (∀ ks, assoc k ((λ k, (k, assoc k o1)) <$> ks) =
      if decide (k ∈ ks) then assoc k o1 else Undefined) as Ha.
    { clear. intros ks. induction ks as [|k' ks IH]; [done|]. csimpl.
      destruct (String.eqb_spec k k') as [->|Hne]; [rewrite decide_True; [done|by left]|].
      rewrite IH. destruct (decide (k ∈ ks)); [rewrite decide_True|rewrite decide_False]; set_solver. }
    rewrite Ha. case_decide as Hk; [done|]. symmetry. apply assoc_notin.
    intros Hin. apply Hk. unfold ks. by rewrite merge_sort_Permutation.
Qed.

(** ** Pages *)

Definition whole (q : Q) : Prop := ∃ z, q = inject_Z z.

(** A page that exists. *)
Definition in_range (p : paging) : Prop :=
  ∃ z, currentPage p = inject_Z z ∧ (1 ≤ z ≤ numberOfPages p)%Z.

Lemma Qle_bool_Z a b : Qle_bool (inject_Z a) (inject_Z b) = (a <=? b)%Z.
Proof. unfold Qle_bool. simpl. by rewrite !Z.mul_1_r. Qed.

Lemma inject_Z_pred z : (inject_Z z - 1)%Q = inject_Z (z - 1).
Proof. unfold Qminus, Qplus, inject_Z. simpl. f_equal. lia. Qed.

Lemma inject_Z_succ z : (inject_Z z + 1)%Q = inject_Z (z + 1).
Proof. unfold Qplus, inject_Z. simpl. f_equal. lia. Qed.

(** As long as whole numbers are typed, the current page is always one of the pages:
    the buttons stop at the first and the last, and input out of range is ignored. *)
Theorem paging_in_range p p' :
  in_range p → rtc (paging_step whole) p p' → in_range p' ∧ numberOfPages p' = numberOfPages p.
Proof.
  intros Hr Hs. induction Hs as [|p1 p2 p3 Hs _ IH]; [done|].
  assert (in_range p2 ∧ numberOfPages p2 = numberOfPages p1) as [H2 E2]; [|by rewrite <- E2; apply IH].
  clear IH p3. destruct Hr as (z & Hz & Hle). unfold in_range.
  destruct Hs as [| | | | |v [x ->]];
    unfold firstPage, lastPage, previousPage, nextPage, validPage, hasPrevious, hasNext, goTo;
    rewrite ?Hz, ?inject_Z_pred, ?inject_Z_succ; change 1%Q with (inject_Z 1); rewrite ?Qle_bool_Z.
  - destruct (Z.leb_spec z 1); simpl; (split; [eexists; split; [done|simpl; lia]|done]).
  - destruct (Z.leb_spec (numberOfPages p1) z); simpl; (split; [eexists; split; [done|simpl; lia]|done]).
  - destruct (Z.leb_spec z 1); simpl; (split; [eexists; split; [done|simpl; lia]|done]).
  - destruct (Z.leb_spec (numberOfPages p1) z); simpl; (split; [eexists; split; [done|simpl; lia]|done]).
  - split; [by exists z|done].
  - destruct (Z.leb_spec 1 x), (Z.leb_spec x (numberOfPages p1)); simpl;
      (split; [eexists; split; [done|simpl; lia]|done]).
Qed.

(** A number that is not whole is accepted, and from the middle of the last but one page
    [nextPage] leaves the range. *)
Theorem fractional_page_overshoots n :
  (2 ≤ n)%Z →
  let p := validPage (Some (inject_Z n - (1 # 2))%Q) (mkPaging 1 1 n) in
  currentPage p = (inject_Z n - (1 # 2))%Q ∧ (inject_Z n < currentPage (nextPage p))%Q.
Proof.
  intros Hn p. assert (currentPage p = (inject_Z n - (1 # 2))%Q ∧ numberOfPages p = n) as [Hc Hnp].
  { unfold p, validPage. simpl.
    assert (Qle_bool 1 (inject_Z n - (1 # 2)) = true) as ->.
    { apply Qle_bool_iff. unfold Qle, Qminus, Qplus, inject_Z. simpl. lia. }
    assert (Qle_bool (inject_Z n - (1 # 2)) (inject_Z n) = true) as ->; [|done].
    apply Qle_bool_iff. unfold Qle, Qminus, Qplus, inject_Z. simpl. lia. }
  split; [done|]. unfold nextPage, hasNext. rewrite Hc, Hnp.
  assert (Qle_bool (inject_Z n) (inject_Z n - (1 # 2)) = false) as ->.
  { destruct (Qle_bool _ _) eqn:E; [|done]. apply Qle_bool_iff in E.
    unfold Qle, Qminus, Qplus, inject_Z in E. simpl in E. lia. }
  simpl. unfold Qlt, Qminus, Qplus, inject_Z. simpl. lia.
Qed.

Lemma pageOf_whole {A} (items : list A) size k :
  pageOf items size (inject_Z (Z.of_nat k + 1)) = take size (drop (k * size) items).
Proof.
  unfold pageOf, startFrom. rewrite inject_Z_pred.
  assert (Qfloor (inject_Z (Z.of_nat k + 1 - 1) * inject_Z (Z.of_nat size)) = Z.of_nat (k * size)) as ->.
  { rewrite <- inject_Z_mult, Qfloor_Z. lia. }
  by rewrite Nat2Z.id.
Qed.

Lemma pages_cover {A} (items : list A) size n :
  concat ((λ k, take size (drop (k * size) items)) <$> seq 0 n) = take (n * size) items.
Proof.
  induction n as [|n IH]; [done|]. rewrite seq_S, fmap_app, concat_app, IH. simpl.
  rewrite (right_id_L [] (++)), (Nat.add_comm size), <- take_take_drop. done.
Qed.

(** The pages of a table are a partition of its items: put one after the other they
    are the items in their order, and none has more than the page size. *)
Theorem pages_partition {A} (items : list A) size :
  0 < size →
  let pages := (λ k, pageOf items size (inject_Z (Z.of_nat k + 1))) <$> seq 0 (pagesFor (length items) size) in
  concat pages = items ∧ Forall (λ p, length p ≤ size) pages.
Proof.
  intros Hs pages. assert (pages = (λ k, take size (drop (k * size) items))
    <$> seq 0 (pagesFor (length items) size)) as ->.
  { apply list_fmap_ext. intros. apply pageOf_whole. }
  split.
  - rewrite pages_cover. apply take_ge. unfold pagesFor.
    pose proof (Nat.div_mod (length items + (size - 1)) size ltac:(lia)).
    pose proof (Nat.mod_upper_bound (length items + (size - 1)) size ltac:(lia)). lia.
  - apply Forall_fmap, Forall_forall. intros k _. unfold compose. rewrite length_take. lia.
Qed.

(** ** Saving once *)

(** The actions of a run of the button, with their times. *)
Inductive save_run : Z * save_button → list Z → Z * save_button → Prop :=
  | save_nil s : save_run s [] s
  | save_cons s1 s2 s3 o ts :
      save_step s1 o s2 → save_run s2 ts s3 →
      save_run s1 (match o with Some t => t :: ts | None => ts end) s3.

(** Two neighbours of a list of times are far enough apart. *)
Definition apart (ts : list Z) : Prop :=
  ∀ i t1 t2, ts !! i = Some t1 → ts !! S i = Some t2 → (t1 + clickDelay ≤ t2)%Z.

(** Until when a button is disabled. *)
Definition save_ok (b : save_button) : Prop :=
  if disabled b then is_Some (enableAt b) else enableAt b = None.

Definition earliest (s : Z * save_button) : Z :=
  match enableAt s.2 with Some t => t | None => s.1 end.

Lemma save_spaced s ts s' :
  save_run s ts s' → save_ok s.2 →
  apart ts ∧ ∀ t, ts !! 0 = Some t → (earliest s ≤ t)%Z.
Proof.
  induction 1 as [s|s1 s2 s3 o ts Hs _ IH]; intros Hok; [by split; [intros [|]|]|].
  destruct Hs as [t t' ch b b' acted Hle Hc|t t' b at_ Hle He Hat]; simpl in *.
  - unfold clickSave in Hc. unfold save_ok, earliest in *. simpl in *.
    assert ((b' = b ∧ acted = false) ∨
            (disabled b = false ∧ b' = mkSave true (Some (t' + clickDelay)%Z) ∧ acted = true)) as [[-> ->]|(Hd & -> & ->)].
    { destruct ch as [[]|], (disabled b) eqn:E; simplify_eq; eauto. }
    + destruct (IH Hok) as [Ha Hf]. split; [done|]. intros x Hx. apply Hf in Hx.
      destruct (enableAt b); [done|lia].
    + destruct IH as [Ha Hf]; [by eexists|]. rewrite Hd in Hok. split.
      * intros [|i] t1 t2 H1 H2; simpl in *; [|by eapply Ha]. simplify_eq. by apply Hf.
      * intros x [= <-]. rewrite Hok. lia.
  - destruct IH as [Ha Hf]; [done|]. split; [done|]. intros x Hx. unfold earliest in *. simpl in *.
    rewrite He. apply Hf in Hx. lia.
Qed.

(** However fast the button is clicked, two runs of its action are at least the delay
    of 500 milliseconds apart: a form is not submitted twice by a double click. *)
Theorem save_not_twice t ts s' : save_run (t, mkSave false None) ts s' → apart ts.
Proof. intros H. by apply (save_spaced _ _ _ H). Qed.

(** ** Read-only pages *)

Lemma eachElement_disable tag i es m es' m' :
  eachElement disable tag i es m = (es', m') →
  (∀ t j, (t, j) ∈ m' → (t, j) ∈ m ∨ t = tag ∧ i ≤ j) ∧ m ⊆ m' ∧
  Forall (λ e, ignored e || e_disabled e = true) es' ∧
  ((∀ j, i ≤ j → (tag, j) ∉ m) →
   ∀ m'', (∀ j, i ≤ j → (tag, j) ∈ m'' ↔ (tag, j) ∈ m') → eachElement enable tag i es' m'' = (es, m'')).
Proof.
  revert i m es' m'. induction es as [|e es IH]; intros i m es' m'; simpl.
  - intros [= <- <-]. split_and!; [by left|done|constructor|done].
  - destruct (ignored e) eqn:Ei.
    + destruct (eachElement disable tag i es m) as [es1 m1] eqn:E. intros [= <- <-].
      destruct (IH _ _ _ _ E) as (H1 & H2 & H3 & H4).
      split_and!; [done|done|constructor; [by rewrite Ei|done]|].
      intros Hm m'' Hm''. simpl. by rewrite Ei, H4.
    + destruct (disable tag i e m) as [e1 m1] eqn:Ed.
      destruct (eachElement disable tag (S i) es m1) as [es1 m2] eqn:E. intros [= <- <-].
      destruct (IH _ _ _ _ E) as (H1 & H2 & H3 & H4).
      assert (∀ j, S i ≤ j → (tag, j) ∈ m1 → (tag, j) ∈ m) as Hm1.
      { unfold disable in Ed. destruct (e_disabled e); injection Ed as <- <-; [done|].
        intros j Hj. set_unfold. naive_solver lia. }
      assert (∀ t j, (t, j) ∈ m1 → (t, j) ∈ m ∨ t = tag ∧ i ≤ j) as Hm2.
      { unfold disable in Ed. destruct (e_disabled e); injection Ed as <- <-; [by left|].
        intros t j. set_unfold. naive_solver lia. }
      split_and!.
      * intros t j [Hin|[-> Hj]]%H1; [by apply Hm2|right; split; [done|lia]].
      * etrans; [|exact H2]. unfold disable in Ed. destruct (e_disabled e); injection Ed as <- <-; set_solver.
      * constructor; [|done]. unfold disable in Ed.
        destruct (e_disabled e) eqn:Edis; injection Ed as <- <-; by rewrite ?Edis, orb_true_r.
      * intros Hm m'' Hm''. assert ((tag, i) ∈ m'' ↔ e_disabled e = false) as Hi.
        { rewrite Hm'' by done. unfold disable in Ed. destruct (e_disabled e); injection Ed as <- <-.
          - split; [|done]. intros [Hin|[_ Hj]]%H1; [by apply Hm in Hin|lia].
          - split; [done|]. intros _. apply H2. set_solver. }
        assert (ignored e1 = false) as Ei1.
        { unfold disable in Ed. destruct (e_disabled e); injection Ed as <- <-; by simpl. }
        simpl. rewrite Ei1. unfold enable at 1.
        assert (eachElement enable tag (S i) es1 m'' = (es, m'')) as Hes.
        { apply H4; [|intros; apply Hm''; lia]. intros j Hj Hin. apply (Hm j); [lia|]. by apply Hm1. }
        unfold disable in Ed. destruct e as [ig dis]. simpl in *. subst ig.
        destruct dis; injection Ed as <- <-; simpl.
        -- rewrite bool_decide_false by (intros Hin; by apply Hi in Hin). by rewrite Hes.
        -- rewrite bool_decide_true by (by apply Hi). by rewrite Hes.
Qed.

(** No mark of a previous use is in the way. *)
Definition unmarked (v : view) (m : marks) : Prop := ∀ t j, t ∈ v.*1 → (t, j) ∉ m.

Lemma eachTag_roundtrip v m v' m' :
  NoDup v.*1 → unmarked v m → eachTag disable v m = (v', m') →
  v'.*1 = v.*1 ∧ (∀ t j, (t, j) ∈ m' → (t, j) ∈ m ∨ t ∈ v.*1) ∧ m ⊆ m' ∧
  Forall (λ te, Forall (λ e, ignored e || e_disabled e = true) te.2) v' ∧
  ∀ m'', (∀ t j, t ∈ v.*1 → (t, j) ∈ m'' ↔ (t, j) ∈ m') → eachTag enable v' m'' = (v, m'').
Proof.
  revert m v' m'. induction v as [|[tag es] v IH]; intros m v' m' Hnd Hun; csimpl.
  - intros [= <- <-]. split_and!; [done|by left|done|constructor|done].
  - csimpl in Hnd. apply NoDup_cons in Hnd as [Htag Hnd].
    destruct (eachElement disable tag 0 es m) as [es1 m1] eqn:E1.
    destruct (eachTag disable v m1) as [v1 m2] eqn:E2. intros [= <- <-].
    destruct (eachElement_disable _ _ _ _ _ _ E1) as (A1 & A2 & A3 & A4).
    destruct (IH m1 v1 m2) as (B1 & B2 & B3 & B4 & B5); [done| |done|].
    { intros t j Ht Hin. destruct (A1 t j Hin) as [Hm|[-> _]]; [|done]. apply (Hun t j); [by right|done]. }
    split_and!; [csimpl; by rewrite B1| |by etrans|by constructor|].
    + intros t j [Hin|Hin]%B2; [|right; by right]. destruct (A1 t j Hin) as [|[-> _]]; [by left|right; by left].
    + intros m'' Hm''. simpl. rewrite A4.
      * rewrite B5; [done|]. intros t j Ht. apply Hm''. by right.
      * intros j _. apply Hun. by left.
      * intros j _. rewrite Hm'' by (by left). split; [|apply B3].
        intros [Hin|Hin]%B2; [done|by apply Htag in Hin].
Qed.

(** Making a page read-only disables everything that does not opt out, and the first
    return to an editable page restores every element as it was. *)
Theorem readOnly_roundtrip v m :
  NoDup v.*1 → unmarked v m →
  let '(v1, m1) := readOnlyChanged true v m in
  Forall (λ te, Forall (λ e, ignored e || e_disabled e = true) te.2) v1 ∧
  (readOnlyChanged false v1 m1).1 = v.
Proof.
  intros Hnd Hun. unfold readOnlyChanged. destruct (eachTag disable v m) as [v1 m1] eqn:E.
  destruct (eachTag_roundtrip v m v1 m1 Hnd Hun E) as (_ & _ & _ & H1 & H2). by rewrite H2.
Qed.

(** The marks of a directive are never removed: an element that the page itself disabled
    later is enabled by the next return to an editable page. *)
Theorem stale_marks_enable tag es es' m :
  let '(v1, m1) := readOnlyChanged true [(tag, mkElement false false :: es)] m in
  let '(v2, m2) := readOnlyChanged false v1 m1 in
  ∃ es'', (readOnlyChanged false [(tag, mkElement false true :: es')] m2).1 =
            [(tag, mkElement false false :: es'')].
Proof.
  unfold readOnlyChanged. cbn [eachTag eachElement ignored].
  unfold disable at 1. cbn [e_disabled ignored].
  destruct (eachElement disable tag 1 es _) as [es1 m1] eqn:E1.
  apply eachElement_disable in E1 as (_ & Hsub & _).
  assert ((tag, 0) ∈ m1) as Hin by set_solver. clear Hsub.
  assert (∀ i l m, (eachElement enable tag i l m).2 = m) as Hm.
  { clear. intros i l. revert i. induction l as [|e l IH]; intros i m; [done|]. simpl.
    destruct (ignored e).
    - specialize (IH i m). by destruct (eachElement _ _ _ _ _).
    - unfold enable at 1. destruct (bool_decide _); specialize (IH (S i) m);
        by destruct (eachElement enable tag (S i) l m). }
  cbn [eachTag eachElement ignored]. unfold enable at 1. rewrite bool_decide_true by done.
  pose proof (Hm 1 es1 m1) as Hm1. destruct (eachElement enable tag 1 es1 m1) as [es2 m2].
  simpl in Hm1. subst m2. cbn [eachTag eachElement ignored]. unfold enable at 1.
  rewrite bool_decide_true by done. destruct (eachElement enable tag 1 es' m1) as [es3 m3]. by eexists.
Qed.

(** ** Multivalued properties *)

(** A list as the page edits it: an empty field at its end. *)
Definition editable (l : list string) : Prop := last l = Some "".

(** The buttons of a multivalued property keep an empty field at the end, as long as
    that field itself is not deleted; and deleting the only field makes the next use of
    the other button throw. *)
Theorem multivalued_buttons l :
  (∀ v, addValue (l ++ [v]) = Returns (if String.eqb v "" then l ++ [v] else (l ++ [v]) ++ [""])) ∧
  (∀ i, i < length l → editable (deleteValue i (l ++ [""])) ∧
        length (deleteValue i (l ++ [""])) = length l) ∧
  addValue (deleteValue 0 [""]) = Throws TypeError.
Proof.
  split_and!; [| |done].
  - intros v. unfold addValue. rewrite last_snoc. by destruct v.
  - intros i Hi. unfold deleteValue, editable. split.
    + rewrite delete_take_drop, drop_app_le by (simpl; lia).
      by rewrite (assoc_L (++)), last_snoc.
    + rewrite length_delete, length_app by (apply lookup_lt_is_Some; rewrite length_app; simpl; lia).
      simpl. lia.
Qed.

End AdminView.
