(* ===== verification/AdminUsers.v ===== *)
(** Controllers of the pages of users and groups (users.js, groups.js): the attributes of
    [UserDetailCtrl] and [GroupDetailCtrl], [UserFederatedIdentityCtrl] and
    [UserFederatedIdentityAddCtrl], the paging of [UserListCtrl] and [GroupMembersCtrl],
    [resetPassword] of [UserCredentialsCtrl], and [paste] of [GroupListCtrl]. *)

From S2P Require Import Prelude JsString Uri JsValue.
Import JsString Uri JsValue.

Module AdminUsers.

Abbreviation attributes := (list (string * jsval)).

(** *** The attributes of a user or a group *)

Definition isHash (a : ascii) : bool := Ascii.eqb a "#".

Definition consHead (a : ascii) (l : list string) : list string :=
  match l with [] => [String a ""] | w :: ws => String a w :: ws end.

(** [s.split("##")] *)
Fixpoint splitHash (s : string) : list string :=
  match s with
  | "" => [""]
  | String a s1 =>
      match s1 with
      | String b s2 =>
          if isHash a && isHash b then "" :: splitHash s2 else consHead a (splitHash s1)
      | "" => [String a ""]
      end
  end.

(** An element in [join]: [undefined] and [null] are empty. *)
Definition joinElement (v : jsval) : string := if is_nullish v then "" else to_string v.

(** The body of [convertAttributeValuesToLists]. *)
Definition valueToList (v : jsval) : jsval :=
  match v with Str s => Arr (Str <$> splitHash s) | _ => v end.

(** The body of [convertAttributeValuesToString]: [typeof] says "object" of arrays, of
    other objects and of [null], but only an array has [join]. *)
Definition valueToString (v : jsval) : outcome jsval :=
  match v with
  | Arr l => Returns (Str (join "##" (joinElement <$> l)))
  | Obj _ | Null => Throws TypeError
  | _ => Returns v
  end.

Definition convertAttributeValuesToLists (attrs : attributes) : attributes :=
  (λ '(k, v), (k, valueToList v)) <$> attrs.

Fixpoint convertAttributeValuesToString (attrs : attributes) : outcome attributes :=
  match attrs with
  | [] => Returns []
  | (k, v) :: attrs' =>
      v' ← valueToString v;
      attrs'' ← convertAttributeValuesToString attrs';
      Returns ((k, v') :: attrs'')
  end.

(** [user], [$scope.user] and [$scope.changed], of the attributes only. *)
Record detail := mkDetail { saved : attributes; shown : attributes; changed : bool }.

(** The start of the page of a user that exists. *)
Definition openDetail (attrs : attributes) : outcome detail :=
  a ← convertAttributeValuesToString attrs;
  Returns (mkDetail a a false).

(** The watch on ['user'] or ['group'], which runs after every change. *)
Definition watchDetail (d : detail) : detail :=
  mkDetail (saved d) (shown d) (if decide (shown d = saved d) then changed d else true).

(** The statements of [save] before the request, with its body. *)
Definition beginSave (d : detail) : detail * attributes :=
  let a := convertAttributeValuesToLists (shown d) in (watchDetail (mkDetail (saved d) a (changed d)), a).

(** The callback of [User.update]; there is none for an error. *)
Definition onSaved (d : detail) : outcome detail :=
  a ← convertAttributeValuesToString (shown d);
  Returns (mkDetail a a false).

Definition setAttribute (k : string) (v : jsval) (d : detail) : detail :=
  watchDetail (mkDetail (saved d) (obj_set k v (shown d)) (changed d)).

Definition removeAttribute (k : string) (d : detail) : detail :=
  watchDetail (mkDetail (saved d) (filter (λ kv, kv.1 ≠ k) (shown d)) (changed d)).

Definition resetDetail (d : detail) : detail := mkDetail (saved d) (saved d) false.

(** *** Federated identities *)

(** [a.indexOf(x)] and [a.splice(index, 1)]: an index of -1 means the last element. *)
Definition spliceOut (x : string) (l : list string) : list string :=
  match list_find (λ y, y = x) l with
  | Some (i, _) => delete i l
  | None => removelast l
  end.

Definition getAvailableProvidersToCreate (identityProviders federatedIdentities : list string) : list string :=
  foldl (λ l alias, spliceOut alias l) identityProviders federatedIdentities.

Definition hasAnyProvidersToCreate (identityProviders federatedIdentities : list string) : bool :=
  (0 <? Z.of_nat (length identityProviders) - Z.of_nat (length federatedIdentities))%Z.

(** *** Pages of users *)

(** [$scope.query.first], [None] for [NaN]; [max] is [parseInt($scope.query.max)]. *)
Definition firstPage : option Z := Some 0%Z.

Definition previousPage (max first : option Z) : option Z :=
  f ← first; m ← max;
  Some (if (f - m <? 0)%Z then 0%Z else (f - m)%Z).

Definition nextPage (max first : option Z) : option Z :=
  f ← first; m ← max; Some (f + m)%Z.

(** The callback of [removeUser], with the number of users that were shown. *)
Definition onUserRemoved (max first : option Z) (users : nat) : option Z :=
  if (users =? 1)%nat && match first with Some f => (0 <? f)%Z | None => false end
  then previousPage max first else first.

Inductive users_step (max : option Z) : option Z → option Z → Prop :=
  | users_first f : users_step max f firstPage
  | users_previous f : users_step max f (previousPage max f)
  | users_next f : users_step max f (nextPage max f)
  | users_removed f n : users_step max f (onUserRemoved max f n).

(** *** [resetPassword] *)

Inductive password_step :=
  | Ignored                                 (* one of the fields is empty *)
  | Mismatch                                (* Notifications.error *)
  | Confirm (value : string).               (* the dialog, whose first answer sends *)

Definition resetPassword (password confirmPassword : jsval) (pwdChange : bool) : password_step :=
  if negb (truthy password && truthy confirmPassword) then Ignored
  else if pwdChange && negb (loose_eq password confirmPassword) then Mismatch
  else Confirm (to_string password).

(** The watch on ['password']. *)
Definition watchPassword (password : jsval) : bool := truthy password.

(** *** [paste] of [GroupListCtrl] *)

Inductive paste_request :=
  | NoPaste
  | ToTop (group : jsval)                   (* Groups.save *)
  | ToParent (parent group : jsval).        (* GroupChildren.save *)

Definition paste (selected cutNode : jsval) : outcome paste_request :=
  if strict_eq selected Null then Returns NoPaste
  else if strict_eq cutNode Null then Returns NoPaste
  else
    id ← getp selected "id";
    cut ← getp cutNode "id";
    if strict_eq id cut then Returns NoPaste
    else if strict_eq id (Str "realm") then Returns (ToTop cut)
    else Returns (ToParent id cut).

(** ** Attributes there and back *)

(** No two hashes in a row. *)
Fixpoint single (s : string) : bool :=
  match s with
  | "" => true
  | String a s1 =>
      match s1 with
      | String b _ => negb (isHash a && isHash b) && single s1
      | "" => true
      end
  end.

Fixpoint endsHash (s : string) : bool :=
  match s with
  | "" => false
  | String a "" => isHash a
  | String _ s1 => endsHash s1
  end.

Lemma splitHash_cons a b s :
  isHash a && isHash b = false → splitHash (String a (String b s)) = consHead a (splitHash (String b s)).
Proof.
  intros H. change (splitHash (String a (String b s))) with
    (if isHash a && isHash b then "" :: splitHash s else consHead a (splitHash (String b s))).
  by rewrite H.
Qed.

Lemma splitHash_single s : single s = true → splitHash s = [s].
Proof.
  induction s as [|a s IH]; [done|]. destruct s as [|b s]; [done|].
  intros [Hab%negb_true_iff Hs]%andb_true_iff. by rewrite splitHash_cons, IH.
Qed.

Lemma splitHash_app s t :
  single s = true → endsHash s = false → splitHash (s +:+ "##" +:+ t) = s :: splitHash t.
Proof.
  induction s as [|a s IH]; [done|]. destruct s as [|b s]; intros Hs He.
  - cbn in He. rewrite app_cons, app_nil_l. change ("##" +:+ t) with (String "#" (String "#" t)).
    cbn [splitHash]. rewrite He. by destruct t.
  - apply andb_true_iff in Hs as [Hab%negb_true_iff Hs]. 
    change (String a (String b s) +:+ "##" +:+ t) with (String a (String b (s +:+ "##" +:+ t))).
    rewrite splitHash_cons by done.
    change (String b (s +:+ "##" +:+ t)) with (String b s +:+ "##" +:+ t). by rewrite IH.
Qed.

(** The values that survive: no two hashes in a row, and no hash at the end of any but
    the last. *)
Fixpoint survives (vs : list string) : bool :=
  match vs with
  | [] => false
  | [v] => single v
  | v :: vs => single v && negb (endsHash v) && survives vs
  end.

Lemma splitHash_join vs : survives vs = true → splitHash (join "##" vs) = vs.
Proof.
  induction vs as [|v [|v' vs] IH]; [done|apply splitHash_single|].
  intros [[Hv He]%andb_true_iff Hvs]%andb_true_iff. rewrite join_cons by done.
  rewrite splitHash_app; [by rewrite IH|done|by apply negb_true_iff].
Qed.

(** Attributes as the server sends them. *)
Definition attribute_ok (kv : string * jsval) : Prop :=
  ∃ vs, kv.2 = Arr (Str <$> vs) ∧ survives vs = true.

Lemma valueToString_list vs : valueToString (Arr (Str <$> vs)) = Returns (Str (join "##" vs)).
Proof.
  simpl. do 3 f_equal. rewrite <- list_fmap_compose. rewrite <- (list_fmap_id vs) at 2.
  by apply list_fmap_ext.
Qed.

Lemma attributes_roundtrip attrs :
  Forall attribute_ok attrs →
  ∃ texts, convertAttributeValuesToString attrs = Returns texts ∧
    convertAttributeValuesToLists texts = attrs ∧ Forall (λ kv, ∃ s, kv.2 = Str s) texts.
Proof.
  intros HF. induction HF as [|[k v] attrs (vs & Hv & Hs) _ (texts & Ht & Hl & HF)]; [by eexists|].
  simpl in Hv. subst v. eexists. split_and!.
  - cbn [convertAttributeValuesToString]. rewrite valueToString_list. cbn. by rewrite Ht.
  - unfold convertAttributeValuesToLists. rewrite fmap_cons. f_equal; [|exact Hl].
    cbn. by rewrite splitHash_join.
  - constructor; [by eexists|done].
Qed.

(** The pages of users and groups show the values of an attribute in one line, and
    save them as a list again: opening a page and saving it sends the attributes the
    server has, as long as no value has two hashes in a row or, but for the last, ends
    in one; and the answer leaves the page as it was opened. *)
Theorem detail_roundtrip attrs :
  Forall attribute_ok attrs →
  ∃ d, openDetail attrs = Returns d ∧ (beginSave d).2 = attrs ∧ onSaved (beginSave d).1 = Returns d.
Proof.
  intros HF. destruct (attributes_roundtrip attrs HF) as (texts & Ht & Hl & _).
  exists (mkDetail texts texts false). unfold openDetail, beginSave, onSaved, watchDetail. rewrite Ht.
  cbn [shown saved changed fst snd]. rewrite Hl. split_and!; [done|done|]. by rewrite Ht.
Qed.

(** A value with a hash at its end is cut differently than it was put together. *)
Theorem attribute_hash_misread a b :
  single a = true → endsHash a = false → single ("#" +:+ b) = true →
  splitHash (join "##" [a +:+ "#"; b]) = [a; "#" +:+ b].
Proof.
  intros Ha He Hb. cbn [join].
  assert ((a +:+ "#") +:+ "##" +:+ b = a +:+ "##" +:+ ("#" +:+ b)) as -> by (by rewrite app_assoc_s).
  rewrite splitHash_app by done. by rewrite splitHash_single.
Qed.

(** A save that fails leaves the lists where the page had text: nothing turns them
    back, and an attribute the administrator then edits, shown with commas between its
    values, is saved as one value. *)
Theorem failed_save_merges_values k v1 v2 attrs :
  attribute_ok (k, Arr [Str v1; Str v2]) → k ∉ attrs.*1 → Forall attribute_ok attrs →
  ∃ d, openDetail ((k, Arr [Str v1; Str v2]) :: attrs) = Returns d ∧
    let failed := (beginSave d).1 in
    assoc k (shown failed) = Arr [Str v1; Str v2] ∧
    (single (v1 +:+ "," +:+ v2) = true →
     assoc k (beginSave (setAttribute k (Str (v1 +:+ "," +:+ v2)) failed)).2 = Arr [Str (v1 +:+ "," +:+ v2)]).
Proof.
  intros Hk Hnk HF. destruct (attributes_roundtrip ((k, Arr [Str v1; Str v2]) :: attrs)) as (texts & Ht & Hl & _).
  { by constructor. }
  exists (mkDetail texts texts false). unfold openDetail. rewrite Ht. split; [done|]. cbn zeta.
  unfold beginSave. simpl. rewrite Hl. simpl. rewrite String.eqb_refl. split; [done|].
  intros Hs. simpl. rewrite String.eqb_refl. unfold valueToList. by rewrite splitHash_single.
Qed.

(** ** Federated identities *)

Lemma spliceOut_known x l :
  NoDup l → x ∈ l → spliceOut x l = filter (λ y, y ≠ x) l ∧ length (spliceOut x l) = length l - 1.
Proof.
  intros Hnd Hx. unfold spliceOut. destruct (list_find _ l) as [[i y]|] eqn:E.
  - apply list_find_Some in E as (Hi & -> & _). split; [|apply length_delete; by eexists].
    clear Hx. revert i Hi. induction Hnd as [|z l Hz Hnd IH]; intros i Hi; [done|].
    rewrite filter_cons. destruct i as [|i]; simpl in *.
    + injection Hi as ->. rewrite decide_False by naive_solver. symmetry.
      clear -Hz. induction l as [|w l IH]; [done|]. rewrite filter_cons, decide_True by set_solver.
      f_equal. apply IH. set_solver.
    + rewrite decide_True; [by rewrite (IH i)|]. intros ->. apply Hz. by eapply list_elem_of_lookup_2.
  - apply list_find_None in E. rewrite Forall_forall in E. by apply E in Hx.
Qed.

(** The providers a user may still be linked with are those of the realm without the
    ones that are linked, in their order, and there are some exactly when the page
    offers the button; provided every link is to a provider the realm still has. *)
Theorem available_providers_spec ps links :
  NoDup ps → NoDup links → links ⊆ ps →
  getAvailableProvidersToCreate ps links = filter (λ p, p ∉ links) ps ∧
  hasAnyProvidersToCreate ps links = negb (bool_decide (getAvailableProvidersToCreate ps links = [])).
Proof.
  intros Hps Hl Hsub.
  assert (getAvailableProvidersToCreate ps links = filter (λ p, p ∉ links) ps ∧
          length (getAvailableProvidersToCreate ps links) + length links = length ps) as [Hf Hlen].
  { unfold getAvailableProvidersToCreate. revert ps Hps Hsub.
    induction Hl as [|x links Hx Hl IH]; intros ps Hps Hsub; simpl.
    - split; [|lia]. clear. induction ps as [|p ps IH]; [done|].
      rewrite filter_cons, decide_True by set_solver. by f_equal.
    - destruct (spliceOut_known x ps Hps) as [Hs Hlen]; [set_solver|].
      assert (x ∈ ps) as Hin by set_solver.
      destruct (IH (spliceOut x ps)) as [H1 H2].
      + rewrite Hs. by apply NoDup_filter.
      + rewrite Hs. intros y Hy. apply list_elem_of_filter. split; [set_solver|set_solver].
      + split; [|destruct ps; [set_solver|simpl in *; lia]]. rewrite H1, Hs, list_filter_filter.
        apply list_filter_iff. set_solver. }
  split; [done|]. unfold hasAnyProvidersToCreate. case_bool_decide as E.
  - rewrite E in Hlen. simpl in Hlen. apply Z.ltb_ge. lia.
  - apply Z.ltb_lt. destruct (getAvailableProvidersToCreate ps links); [done|]. simpl in Hlen. lia.
Qed.

(** A link to a provider the realm does not have any more costs the last provider of the
    list, which then cannot be chosen. *)
Theorem unknown_link_hides_provider ps p x :
  x ∉ ps ++ [p] → getAvailableProvidersToCreate (ps ++ [p]) [x] = ps.
Proof.
  intros Hx. unfold getAvailableProvidersToCreate, spliceOut. cbn [foldl].
  destruct (list_find _ _) as [[i y]|] eqn:E; [|by rewrite removelast_last].
  apply list_find_Some in E as (Hi & -> & _). by apply list_elem_of_lookup_2 in Hi.
Qed.

(** ** Pages *)

(** The offset of a page of users is never negative and stays a multiple of the page
    size, so that pages neither overlap nor leave out a user; and a page that lost its
    last user gives way to the one before it. *)
Theorem users_pages m f f' :
  (0 < m)%Z → (0 ≤ f)%Z → (f mod m = 0)%Z → rtc (users_step (Some m)) (Some f) f' →
  (∃ g, f' = Some g ∧ (0 ≤ g)%Z ∧ (g mod m = 0)%Z) ∧
  (nextPage (Some m) (Some f) ≫= λ g, previousPage (Some m) (Some g)) = Some f ∧
  ((0 < f)%Z → onUserRemoved (Some m) (Some f) 1 = Some (f - m)%Z).
Proof.
  intros Hm Hf Hmod Hs. split_and!.
  - remember (Some f) as o eqn:Eo. revert f Hf Hmod Eo. induction Hs as [|x y z Hs _ IH]; intros f Hf Hmod ->; [by eexists|].
    assert (∀ g, (0 ≤ g)%Z → (g mod m = 0)%Z → y = Some g → ∃ g, z = Some g ∧ (0 ≤ g)%Z ∧ (g mod m = 0)%Z) as Hy
      by (intros; by eapply IH).
    assert ((if (f - m <? 0)%Z then 0 else f - m) mod m = 0)%Z as Hprev.
    { destruct (_ <? _)%Z; [done|]. rewrite Zminus_mod, Z_mod_same_full, Hmod by lia. done. }
    assert (0 ≤ (if (f - m <? 0)%Z then 0 else f - m))%Z as Hprev0
      by (destruct (Z.ltb_spec (f - m) 0); lia).
    inversion Hs; subst.
    + by apply (Hy 0%Z).
    + by eapply Hy.
    + eapply (Hy (f + m)%Z); [lia| |done]. rewrite Zplus_mod, Z_mod_same_full, Hmod. done.
    + unfold onUserRemoved in Hy. destruct ((n =? 1) && _); [by eapply Hy|by apply (Hy f)].
  - cbn. rewrite (proj2 (Z.ltb_ge _ _)) by lia. f_equal. lia.
  - intros Hpos. unfold onUserRemoved. rewrite (proj2 (Z.ltb_lt _ _) Hpos). cbn.
    apply Z.mod_divide in Hmod as [k ->]; [|lia]. rewrite (proj2 (Z.ltb_ge _ _)); [done|].
    assert (0 < k)%Z by nia. nia.
Qed.

(** ** Passwords and groups *)

(** The dialog that sets a password opens only for two equal fields that are not
    empty. *)
Theorem resetPassword_spec p c v :
  resetPassword (Str p) (Str c) (watchPassword (Str p)) = Confirm v ↔ p ≠ "" ∧ p = c ∧ v = p.
Proof.
  unfold resetPassword, watchPassword. simpl.
  destruct (String.eqb_spec p ""), (String.eqb_spec c ""), (String.eqb_spec p c); simpl; naive_solver.
Qed.

(** Pasting before anything was cut throws: the guard tests for [null], and the node is
    [undefined] until the first cut. *)
Theorem paste_before_cut id o :
  paste (Obj (("id", Str id) :: o)) Undefined = Throws TypeError.
Proof. done. Qed.

End AdminUsers.
