(* ===== verification/RoleMappings.v ===== *)
(** The role mappings of a user or a group: [UserRoleMappingCtrl] of users.js and
    [GroupRoleMappingCtrl] of groups.js, which run the same statements.

    A query of a resource returns an array at once and fills it when the answer comes.
    The arrays live in a store, and the variables of [$scope] hold references: an answer
    fills the array its query returned, whatever the variable holds by then. *)

From S2P Require Import Prelude JsString JsValue.

Module RoleMappings.

(** The six lists of the page. *)
Inductive var :=
  | RealmMappings | RealmRoles | RealmComposite
  | ClientMappings | ClientRoles | ClientComposite.

#[global] Instance var_eq_dec : EqDecision var.
Proof. solve_decision. Defined.

Definition isClient (v : var) : bool :=
  match v with ClientMappings | ClientRoles | ClientComposite => true | _ => false end.

(** A query: the list it is for, and the client of the lists that have one. *)
Definition query : Type := var * option string.

#[global] Instance query_eq_dec : EqDecision query.
Proof. solve_decision. Defined.

Section page.
Context {role : Type}.

Record scope := mkScope {
  store : list (list role);
  vars : var → option nat;
  targetClient : option string;
  selectedRealmRoles : list role;
  selectedRealmMappings : list role;
  selectedClientRoles : list role;
  selectedClientMappings : list role;
  pending : list (nat * query)
}.

Definition setVar (f : var → option nat) (v : var) (r : option nat) : var → option nat :=
  λ v', if decide (v' = v) then r else f v'.

(** [$scope.v = Resource.query({...})] *)
Definition assign (v : var) (client : option string) (s : scope) : scope :=
  mkScope (store s ++ [[]]) (setVar (vars s) v (Some (length (store s)))) (targetClient s)
    (selectedRealmRoles s) (selectedRealmMappings s) (selectedClientRoles s) (selectedClientMappings s)
    (pending s ++ [(length (store s), (v, client))]).

(** [$scope.v = null] *)
Definition clear (v : var) (s : scope) : scope :=
  mkScope (store s) (setVar (vars s) v None) (targetClient s)
    (selectedRealmRoles s) (selectedRealmMappings s) (selectedClientRoles s) (selectedClientMappings s)
    (pending s).

(** [$scope.selectedClientRoles = []; $scope.selectedClientMappings = []] *)
Definition unselectClient (s : scope) : scope :=
  mkScope (store s) (vars s) (targetClient s) (selectedRealmRoles s) (selectedRealmMappings s) [] []
    (pending s).

(** The page when it opens: the lists of the client are empty arrays. *)
Definition openPage : scope :=
  assign RealmComposite None (assign RealmRoles None (assign RealmMappings None
    (mkScope [[]; []; []] (λ v, match v with ClientRoles => Some 0 | ClientComposite => Some 1
                                          | ClientMappings => Some 2 | _ => None end)
       None [] [] [] [] []))).

(** [addRealmRole] before its request, with the body. *)
Definition addRealmRole (s : scope) : scope * list role :=
  (mkScope (store s) (vars s) (targetClient s) [] (selectedRealmMappings s) (selectedClientRoles s)
     (selectedClientMappings s) (pending s), selectedRealmRoles s).

Definition queryClient (c : string) (s : scope) : scope :=
  assign ClientMappings (Some c) (assign ClientRoles (Some c) (assign ClientComposite (Some c) s)).

(** The callback of [addRealmRole] and [deleteRealmRole].  It resets
    [$scope.selectRealmRoles], a variable the page does not have. *)
Definition onRealmAnswered (s : scope) : scope :=
  let s := assign RealmComposite None (assign RealmRoles None (assign RealmMappings None s)) in
  let s := mkScope (store s) (vars s) (targetClient s) (selectedRealmRoles s) [] (selectedClientRoles s)
             (selectedClientMappings s) (pending s) in
  match targetClient s with
  | Some c => unselectClient (queryClient c s)
  | None => s
  end.

(** The callback of [addClientRole] and [deleteClientRole], which reads
    [$scope.targetClient.id]. *)
Definition onClientAnswered (s : scope) : outcome scope :=
  match targetClient s with
  | None => Throws TypeError
  | Some c =>
      let s := assign ClientComposite (Some c) (assign ClientRoles (Some c)
                 (assign ClientMappings (Some c) s)) in
      Returns (assign RealmRoles None (assign RealmComposite None (unselectClient s)))
  end.

(** A choice of the client, with [changeClient]. *)
Definition changeClient (c : option string) (s : scope) : scope :=
  let s := mkScope (store s) (vars s) c (selectedRealmRoles s) (selectedRealmMappings s)
             (selectedClientRoles s) (selectedClientMappings s) (pending s) in
  unselectClient
    match c with
    | Some c => queryClient c s
    | None => clear ClientComposite (clear ClientMappings (clear ClientRoles s))
    end.

(** The answer to a query fills its array. *)
Definition onQueryAnswered (r : nat) (l : list role) (s : scope) : scope :=
  mkScope (<[r := l]> (store s)) (vars s) (targetClient s) (selectedRealmRoles s)
    (selectedRealmMappings s) (selectedClientRoles s) (selectedClientMappings s)
    (filter (λ x, x.1 ≠ r) (pending s)).

(** ** Queries *)

(** The query that fills a list, once there is a client for those that need one. *)
Definition queryFor (v : var) (client : option string) : option query :=
  if isClient v then c ← client; Some (v, Some c) else Some (v, None).

Definition page_ok (s : scope) : Prop :=
  NoDup (pending s).*1 ∧ (∀ r q, (r, q) ∈ pending s → r < length (store s)) ∧
  ∀ v r, vars s v = Some r → r < length (store s).

(** *** Assignments *)

Lemma assign_ok v c s : page_ok s → page_ok (assign v c s).
Proof.
  intros (Hnd & Hp & Hv). split_and!; simpl.
  - rewrite fmap_app. apply NoDup_app. split_and!; [done| |simpl; repeat constructor; set_solver].
    intros r ([r' q] & -> & Hin)%list_elem_of_fmap Hr%list_elem_of_singleton.
    apply Hp in Hin. simpl in Hr. lia.
  - intros r q. rewrite length_app. intros [Hin|Hin]%elem_of_app; [apply Hp in Hin; simpl; lia|].
    apply list_elem_of_singleton in Hin. simplify_eq. simpl. lia.
  - intros v' r. unfold setVar. rewrite length_app. simpl.
    case_decide; intros Hr; simplify_eq; [lia|]. apply Hv in Hr. lia.
Qed.

(** The list a query was made for waits for it; the others are as before. *)
Definition waits (s : scope) (v : var) : Prop :=
  ∀ r q, vars s v = Some r → queryFor v (targetClient s) = Some q → (r, q) ∈ pending s.

(** [s'] extends [s] as far as a list is concerned. *)
Definition extends (s s' : scope) (v : var) : Prop :=
  queryFor v (targetClient s') = queryFor v (targetClient s) ∧ vars s' v = vars s v ∧
  (∀ x, x ∈ pending s → x ∈ pending s') ∧ (∀ r l, store s !! r = Some l → store s' !! r = Some l) ∧
  (∀ r q, r < length (store s) → (r, q) ∈ pending s' → (r, q) ∈ pending s) ∧
  length (store s) ≤ length (store s').

Lemma extends_trans s1 s2 s3 v : extends s1 s2 v → extends s2 s3 v → extends s1 s3 v.
Proof.
  unfold extends. intros (E1 & V1 & H1 & H2 & H3 & H4) (E2 & V2 & H5 & H6 & H7 & H8).
  split_and!; [congruence|congruence|eauto|eauto| |lia]. intros r q Hr Hq. apply H3, H7; [done|lia|done].
Qed.

Lemma extends_waits s s' v : extends s s' v → waits s v → waits s' v.
Proof. intros (Ht & Hv & Hp & _) Hw r q. rewrite Ht, Hv. intros Hr Hq. by apply Hp, Hw. Qed.

Lemma assign_extends v c s v' : v' ≠ v → extends s (assign v c s) v'.
Proof.
  intros Hne. split_and!; simpl; [done| | | | |].
  - unfold setVar. by rewrite decide_False.
  - intros x Hx. apply elem_of_app. by left.
  - intros r l Hr. by apply lookup_app_l_Some.
  - intros r q Hr [Hq|Hq]%elem_of_app; [done|]. apply list_elem_of_singleton in Hq. simplify_eq. lia.
  - rewrite length_app. lia.
Qed.

Definition clientOf (v : var) (s : scope) : option string :=
  if isClient v then targetClient s else None.

Lemma assign_waits v s : waits (assign v (clientOf v s) s) v.
Proof.
  intros r q. simpl. unfold setVar. rewrite decide_True by done. intros [= <-] Hq.
  apply elem_of_app. right. unfold clientOf. unfold queryFor in Hq.
  destruct (isClient v), (targetClient s); simplify_eq/=; by left.
Qed.

(** Several lists are queried, one after the other. *)
Definition assignAll (vs : list var) (s : scope) : scope :=
  foldl (λ s v, assign v (clientOf v s) s) s vs.

Lemma assignAll_spec vs s v :
  (v ∈ vs → waits (assignAll vs s) v) ∧ (v ∉ vs → extends s (assignAll vs s) v).
Proof.
  unfold assignAll. revert s. induction vs as [|v' vs IH]; intros s; simpl.
  - split; [set_solver|]. intros _. by split_and!.
  - destruct (IH (assign v' (clientOf v' s) s)) as [Hw He]. split.
    + intros Hin. destruct (decide (v ∈ vs)) as [|Hn]; [by apply Hw|].
      assert (v = v') as -> by set_solver. eapply extends_waits; [by apply He|apply assign_waits].
    + intros Hn. eapply extends_trans; [apply assign_extends|apply He]; set_solver.
Qed.

Lemma assignAll_ok vs s : page_ok s → page_ok (assignAll vs s).
Proof. revert s. induction vs as [|v vs IH]; intros s Hs; [done|]. by apply IH, assign_ok. Qed.

(** The selections play no part. *)
Definition relabel (s s' : scope) : Prop :=
  store s' = store s ∧ vars s' = vars s ∧ targetClient s' = targetClient s ∧ pending s' = pending s.

Lemma relabel_ok s s' : relabel s s' → page_ok s → page_ok s'.
Proof. unfold page_ok. by intros (-> & -> & _ & ->). Qed.

Lemma relabel_extends s s' v : relabel s s' → extends s s' v.
Proof. unfold extends. intros (-> & -> & -> & ->). by split_and!. Qed.

Lemma onRealmAnswered_relabel s :
  relabel (assignAll ([RealmMappings; RealmRoles; RealmComposite] ++
    match targetClient s with Some _ => [ClientComposite; ClientRoles; ClientMappings] | None => [] end) s)
    (onRealmAnswered s).
Proof. unfold onRealmAnswered, relabel. destruct s as [? ? [c|] ? ? ? ? ?]; by split_and!. Qed.

Lemma onClientAnswered_relabel s p :
  onClientAnswered s = Returns p →
  relabel (assignAll [ClientMappings; ClientRoles; ClientComposite; RealmComposite; RealmRoles] s) p.
Proof.
  unfold onClientAnswered, relabel. destruct s as [? ? [c|] ? ? ? ? ?]; intros H; simplify_eq/=; by split_and!.
Qed.

(** ** The page and the server *)

(** The server: what it answers to a query, and what the two kinds of change do.  A
    change of the roles of a client leaves the realm roles that are mapped directly. *)
Context {server : Type} (answer : server → query → list role).
Context (realmChange clientChange : server → server → Prop).
Context (client_keeps : ∀ s s', clientChange s s' →
  answer s' (RealmMappings, None) = answer s (RealmMappings, None)).

(** The page, the server, and how many changes of each kind have been sent, and have been done
    and wait for their answer. [missed] says that the callback of a change of client roles has
    thrown, and that none has queried the lists of the realm again since. *)
Record system := mkSystem {
  page : scope;
  srv : server;
  realmSent : nat;
  realmOpen : nat;
  clientSent : nat;
  clientOpen : nat;
  missed : bool
}.

(** The buttons send requests, which the server does or refuses; the answer to one it has done
    runs the callback, and a callback that throws changes nothing. Meanwhile roles are selected,
    the client is changed, and queries are answered. *)
Inductive step : system → system → Prop :=
  | step_addRealm p sv a b c d m :
      step (mkSystem p sv a b c d m) (mkSystem (addRealmRole p).1 sv (S a) b c d m)
  | step_deleteRealm p sv a b c d m : step (mkSystem p sv a b c d m) (mkSystem p sv (S a) b c d m)
  | step_sendClient p sv a b c d m :
      is_Some (targetClient p) → step (mkSystem p sv a b c d m) (mkSystem p sv a b (S c) d m)
  | step_realm p sv sv' a b c d m : realmChange sv sv' →
      step (mkSystem p sv (S a) b c d m) (mkSystem p sv' a (S b) c d m)
  | step_client p sv sv' a b c d m : clientChange sv sv' →
      step (mkSystem p sv a b (S c) d m) (mkSystem p sv' a b c (S d) m)
  | step_realmRefused p sv a b c d m : step (mkSystem p sv (S a) b c d m) (mkSystem p sv a b c d m)
  | step_clientRefused p sv a b c d m : step (mkSystem p sv a b (S c) d m) (mkSystem p sv a b c d m)
  | step_realmAnswered p sv a b c d m :
      step (mkSystem p sv a (S b) c d m) (mkSystem (onRealmAnswered p) sv a b c d false)
  | step_clientAnswered p p' sv a b c d m : onClientAnswered p = Returns p' →
      step (mkSystem p sv a b c (S d) m) (mkSystem p' sv a b c d false)
  | step_clientThrew p e sv a b c d m : onClientAnswered p = Throws e →
      step (mkSystem p sv a b c (S d) m) (mkSystem p sv a b c d true)
  | step_select p sv a b c d m rr rm cr cm :
      step (mkSystem p sv a b c d m)
        (mkSystem (mkScope (store p) (vars p) (targetClient p) rr rm cr cm (pending p)) sv a b c d m)
  | step_changeClient p cl sv a b c d m :
      step (mkSystem p sv a b c d m) (mkSystem (changeClient cl p) sv a b c d m)
  | step_query p r q sv a b c d m : (r, q) ∈ pending p →
      step (mkSystem p sv a b c d m) (mkSystem (onQueryAnswered r (answer sv q) p) sv a b c d m).

(** The lists that only the callbacks query again, other than the one a change of client roles
    leaves alone. *)
Definition derived (v : var) : bool := match v with RealmRoles | RealmComposite => true | _ => false end.

(** A change under way after whose answer the list is queried again, or one whose answer has
    thrown. *)
Definition excused (x : system) (v : var) : Prop :=
  0 < realmOpen x ∨ (0 < clientOpen x ∧ v ≠ RealmMappings) ∨ (missed x = true ∧ derived v = true).

(** What a list shows: it waits for an answer, or has the server's, or will be queried. *)
Definition current (x : system) (v : var) : Prop :=
  ∀ r q, vars (page x) v = Some r → queryFor v (targetClient (page x)) = Some q →
    (r, q) ∈ pending (page x) ∨
    (∀ q', (r, q') ∉ pending (page x)) ∧ (store (page x) !! r = Some (answer (srv x) q) ∨ excused x v).

Definition system_ok (x : system) : Prop := page_ok (page x) ∧ ∀ v, current x v.

(** *** Steps *)

(** Lists that are queried again are current; for the others nothing changes. *)
Lemma requeried vs s s' sv a b c d m :
  page_ok s → relabel (assignAll vs s) s' →
  (∀ v, v ∉ vs → current (mkSystem s sv a b c d m) v) → system_ok (mkSystem s' sv a b c d m).
Proof.
  intros Hok Hr Hn. split; [by eapply relabel_ok, assignAll_ok|]. intros v r q Hv Hq. simpl in *.
  destruct (assignAll_spec vs s v) as [Hw He].
  pose proof (relabel_extends _ _ v Hr) as Hext. destruct (decide (v ∈ vs)) as [Hin|Hin].
  - left. eapply extends_waits; [exact Hext|by apply Hw|done|done].
  - pose proof (extends_trans _ _ _ _ (He Hin) Hext) as (Ht & Hv' & Hp & Hs & Hold & _). simpl in *.
    rewrite Hv' in Hv. rewrite Ht in Hq. destruct Hok as (_ & _ & Hvars).
    destruct (Hn v Hin r q Hv Hq) as [H1|[Hno H1]]; [left; by apply Hp|]. right. split.
    + intros q' Hq'. apply (Hno q'), Hold; [by eapply Hvars|done].
    + destruct H1 as [H1|H1]; [left; by apply Hs|by right].
Qed.

Lemma changeClient_ok c x : system_ok x →
  system_ok (mkSystem (changeClient c (page x)) (srv x) (realmSent x) (realmOpen x) (clientSent x)
    (clientOpen x) (missed x)).
Proof.
  intros [Hok Hc]. set (s0 := mkScope (store (page x)) (vars (page x)) c (selectedRealmRoles (page x))
    (selectedRealmMappings (page x)) (selectedClientRoles (page x)) (selectedClientMappings (page x))
    (pending (page x))).
  assert (∀ v, isClient v = false → current (mkSystem s0 (srv x) (realmSent x) (realmOpen x)
    (clientSent x) (clientOpen x) (missed x)) v) as Hreal.
  { intros v Hv r q Hr Hq. apply (Hc v r q Hr). unfold queryFor in *. by rewrite Hv in *. }
  destruct c as [c|].
  - apply (requeried [ClientComposite; ClientRoles; ClientMappings] s0); [done|by split_and!|].
    intros v Hv. apply Hreal. destruct v; [done..|set_solver|set_solver|set_solver].
  - assert (∀ v r, vars (changeClient None (page x)) v = Some r → isClient v = false ∧ vars (page x) v = Some r) as Hv.
    { intros v r. simpl. unfold setVar. repeat case_decide; [done..|]. by destruct v. }
    split.
    + destruct Hok as (H1 & H2 & H3). split_and!; [done|done|]. intros v r [_ Hr]%Hv. by eapply H3.
    + intros v r q [Hcl Hr]%Hv Hq. by apply (Hreal v Hcl r q).
Qed.

Lemma pending_unique (l : list (nat * query)) r q q' : NoDup l.*1 → (r, q) ∈ l → (r, q') ∈ l → q = q'.
Proof.
  intros Hnd Hi Hj. apply list_elem_of_lookup in Hi as [i Hi]. apply list_elem_of_lookup in Hj as [j Hj].
  assert (i = j) as ->; [|congruence].
  eapply (NoDup_lookup l.*1); [done|by rewrite list_lookup_fmap, Hi|by rewrite list_lookup_fmap, Hj].
Qed.

Lemma onQueryAnswered_ok r q p sv a b c d m : system_ok (mkSystem p sv a b c d m) → (r, q) ∈ pending p →
  system_ok (mkSystem (onQueryAnswered r (answer sv q) p) sv a b c d m).
Proof.
  intros [(Hnd & Hp & Hv) Hc] Hin. split.
  - split_and!; simpl.
    + eapply sublist_NoDup; [exact Hnd|]. apply fmap_sublist, sublist_filter.
    + intros r' q' [_ Hin']%list_elem_of_filter. rewrite length_insert. by eapply Hp.
    + intros v r' Hr'. rewrite length_insert. by eapply Hv.
  - intros v r' q' Hr' Hq'. simpl in *. destruct (Hc v r' q' Hr' Hq') as [H1|[Hno H1]].
    + destruct (decide (r' = r)) as [->|Hne]; [|left; by apply list_elem_of_filter].
      right. rewrite (pending_unique _ _ _ _ Hnd Hin H1) in *. split.
      * intros q'' [Hne _]%list_elem_of_filter. done.
      * left. by rewrite list_lookup_insert_eq by (by eapply Hp).
    + right. split; [intros q'' [_ Hq'']%list_elem_of_filter; by apply (Hno q'')|].
      destruct H1 as [H1|H1]; [left|by right]. rewrite list_lookup_insert_ne; [done|].
      intros ->. by apply (Hno q).
Qed.

(** A step that leaves the page as it is as far as the lists are concerned. *)
Lemma untouched_ok x x' :
  system_ok x → relabel (page x) (page x') →
  (∀ v q, queryFor v (targetClient (page x)) = Some q →
     answer (srv x') q = answer (srv x) q ∨ excused x' v) →
  (∀ v, queryFor v (targetClient (page x)) ≠ None → excused x v → excused x' v) → system_ok x'.
Proof.
  intros [Hok Hc] Hr Ha He. split; [by eapply relabel_ok|]. destruct Hr as (Es & Ev & Et & Ep).
  intros v r q Hv Hq. rewrite Ev in Hv. rewrite Et in Hq. rewrite Es, Ep.
  destruct (Hc v r q Hv Hq) as [H1|[Hno H1]]; [by left|]. right. split; [done|].
  destruct (Ha v q Hq) as [->|?]; [|by right]. destruct H1 as [?|?]; [by left|]. right. apply He; [|done]. by rewrite Hq.
Qed.

Lemma step_ok x x' : step x x' → system_ok x → system_ok x'.
Proof.
  intros Hs Hx. destruct Hs as [p sv a b c d m|p sv a b c d m|p sv a b c d m _|p sv sv' a b c d m Hch
    |p sv sv' a b c d m Hch|p sv a b c d m|p sv a b c d m|p sv a b c d m|p p' sv a b c d m Hp
    |p e sv a b c d m Hp|p sv a b c d m rr rm cr cm|p cl sv a b c d m|p r q sv a b c d m Hin].
  1,2,3,6,7,11: (eapply untouched_ok; [exact Hx|done|by left|done]).
  - eapply untouched_ok; [exact Hx|done|intros; right; left; simpl; lia|]. intros v _ _. left. simpl. lia.
  - eapply untouched_ok; [exact Hx|done| |].
    + intros v q Hq. destruct (decide (v = RealmMappings)) as [->|Hne].
      * left. injection Hq as <-. by apply client_keeps.
      * right. right. left. split; [simpl; lia|done].
    + intros v _ [?|[[? ?]|?]]; [by left|right; left; split; [simpl; lia|done]|by right; right].
  - destruct Hx as [Hok Hc]. eapply requeried; [done|apply onRealmAnswered_relabel|].
    intros v Hv r q Hr Hq. exfalso. simpl in *. apply Hv. unfold queryFor in Hq.
    destruct v; simpl in Hq; destruct (targetClient p); simplify_eq/=; set_solver.
  - destruct Hx as [Hok Hc]. eapply requeried; [done|by apply onClientAnswered_relabel|].
    intros v Hv r q Hr Hq. assert (v = RealmMappings) as -> by (destruct v; set_solver).
    destruct (Hc _ r q Hr Hq) as [H1|[Hno H1]]; [by left|]. right. split; [done|].
    destruct H1 as [H1|[H1|[[_ H1]|[_ H1]]]]; [by left|by right; left|done..].
  - eapply untouched_ok; [exact Hx|done|by left|]. intros v Hq He. unfold onClientAnswered in Hp.
    destruct (targetClient p) eqn:Ht; [done|]. simpl in Hq. rewrite Ht in Hq.
    destruct He as [?|[[_ ?]|[_ ?]]]; [by left|right; right; split; [done|]; by destruct v|by right; right].
  - by apply (changeClient_ok cl (mkSystem p sv a b c d m)).
  - by apply onQueryAnswered_ok.
Qed.

Definition opened (sv : server) : system := mkSystem openPage sv 0 0 0 0 false.

Lemma openPage_ok sv : system_ok (opened sv).
Proof.
  split.
  - split_and!; simpl; [repeat constructor; set_solver|..].
    + intros r q Hin. set_unfold. naive_solver lia.
    + intros v r. unfold setVar. repeat case_decide; intros Hr; simplify_eq; [lia..|].
      destruct v; simplify_eq; lia.
  - intros v r q Hr Hq. left. simpl in *. unfold setVar in Hr. unfold queryFor in Hq.
    destruct v; simplify_eq/=; set_solver.
Qed.

(** C30: Requests to change the roles are sent, done, refused and answered, the client is changed
    and lists are queried, in any order. When every change that was done has been answered and
    every query, the lists of the page are the server's: an answer that was overtaken by a later
    query fills an array nobody looks at. Two lists are excepted, the realm roles that are
    available and those the user has by composition, in one case: the answer to a change of
    client roles came when no client was chosen, so that its callback threw, and no later answer
    has queried them again. *)
Theorem lists_become_current sv x :
  rtc step (opened sv) x →
  realmOpen x = 0 → clientOpen x = 0 → pending (page x) = [] →
  ∀ v r q, vars (page x) v = Some r → queryFor v (targetClient (page x)) = Some q →
    (v ≠ RealmRoles ∧ v ≠ RealmComposite) ∨ missed x = false →
    store (page x) !! r = Some (answer (srv x) q).
Proof.
  intros Hs Hr Hc Hp. assert (system_ok x) as [_ Hcur].
  { pose proof (openPage_ok sv) as H0. induction Hs as [|x1 x2 x3 H1 _ IH]; [done|].
    apply IH; [done..|]. by eapply step_ok. }
  intros v r q Hv Hq Hm. destruct (Hcur v r q Hv Hq) as [H1|[_ [H1|H1]]].
  - rewrite Hp in H1. set_solver.
  - done.
  - destruct H1 as [H1|[[H1 _]|[H1 H2]]]; [lia|lia|]. destruct Hm as [[? ?]|?]; [by destruct v|congruence].
Qed.

(** The answer to a change of client roles that comes when no client is chosen any more
    ends in an exception, before any list is queried again. *)
Theorem client_answer_without_client s : targetClient s = None → onClientAnswered s = Throws TypeError.
Proof. intros H1. unfold onClientAnswered. by rewrite H1. Qed.

End page.
End RoleMappings.
