(* ===== verification/AdminAccess.v ===== *)
(** What an administrator may see: [getAccess], [getAccessObject], [HomeCtrl] and the
    choice of the current realm in [RealmDetailCtrl] (realm.js). *)

From S2P Require Import Prelude JsString Uri JsValue.
Import JsString Uri JsValue.

Module AdminAccess.

(** ** The model *)

(** [getAccess(Auth, Current, role)], of [Auth.user] and [Current.realm]. *)
Definition getAccess (user realm : jsval) (role : string) : outcome bool :=
  if negb (truthy realm) then Returns false
  else
    realmAccess ← (if truthy user then getp user "realm_access" else Returns user);
    if truthy realmAccess then
      name ← getp realm "realm";
      roles ← getp realmAccess (to_string name);
      if truthy roles then includes roles (Str role) else Returns false
    else Returns false.

(** [if (c) t else e], and [a || b] *)
Definition test {A} (c : outcome bool) (t e : outcome A) : outcome A :=
  b ← c; if (b : bool) then t else e.

Definition orElse (a b : outcome bool) : outcome bool := test a (Returns true) b.

(** The getters of the object of [getAccessObject] that answer from the roles. *)
Inductive right :=
  | QueryUsers | QueryGroups | QueryClients
  | ViewRealm | ViewClients | ViewUsers | ViewEvents | ViewIdentityProviders | ViewAuthorization
  | ManageRealm | ManageClients | ManageUsers | ManageEvents | ManageIdentityProviders
  | ManageAuthorization | Impersonation.

#[global] Instance right_eq_dec : EqDecision right.
Proof. solve_decision. Defined.

Section access.
Context (user realm : jsval).

Let has := getAccess user realm.

Definition manageRealm := has "manage-realm".
Definition manageClients := has "manage-clients".
Definition manageUsers := has "manage-users".
Definition manageEvents := has "manage-events".
Definition manageIdentityProviders := has "manage-identity-providers".
Definition manageAuthorization := has "manage-authorization".
Definition impersonation := has "impersonation".

Definition viewRealm := orElse (orElse (has "view-realm") (has "manage-realm")) manageRealm.
Definition viewClients := orElse (orElse (has "view-clients") (has "manage-clients")) manageClients.
Definition viewUsers := orElse (orElse (has "view-users") (has "manage-users")) manageClients.
Definition viewEvents := orElse (orElse (has "view-events") (has "manage-events")) manageClients.
Definition viewIdentityProviders :=
  orElse (orElse (has "view-identity-providers") (has "manage-identity-providers")) manageIdentityProviders.
Definition viewAuthorization := orElse (has "view-authorization") manageAuthorization.

Definition queryUsers := orElse (has "query-users") viewUsers.
Definition queryGroups := orElse (has "query-groups") viewUsers.
Definition queryClients := orElse (has "query-clients") viewClients.

Definition getAccessObject (g : right) : outcome bool :=
  match g with
  | QueryUsers => queryUsers
  | QueryGroups => queryGroups
  | QueryClients => queryClients
  | ViewRealm => viewRealm
  | ViewClients => viewClients
  | ViewUsers => viewUsers
  | ViewEvents => viewEvents
  | ViewIdentityProviders => viewIdentityProviders
  | ViewAuthorization => viewAuthorization
  | ManageRealm => manageRealm
  | ManageClients => manageClients
  | ManageUsers => manageUsers
  | ManageEvents => manageEvents
  | ManageIdentityProviders => manageIdentityProviders
  | ManageAuthorization => manageAuthorization
  | Impersonation => impersonation
  end.

End access.

(** The object of a realm in [Current.realms], of which the name matters here. *)
Definition realmObject (name : string) : jsval := Obj [("realm", Str name)].

(** The realm [HomeCtrl] chooses among those of the answer. *)
Definition homeRealm (user : jsval) (realms : list string) : outcome (option string) :=
  match realms with
  | [r] => Returns (Some r)
  | [r0; r1] =>
      own ← getp user "realm";
      Returns (if loose_eq (Str r0) own then Some r1
               else if loose_eq (Str r1) own then Some r0 else None)
  | _ => Returns None
  end.

(** The URL [HomeCtrl] goes to, [None] when it stays. *)
Definition home (user : jsval) (realms : list string) : outcome (option string) :=
  realm ← homeRealm user realms;
  match realm with
  | None => Returns (Some "/realms")
  | Some r =>
      let access := getAccessObject user (realmObject r) in
      let url suffix := Returns (Some ("/realms/" +:+ r +:+ suffix)) in
      test (orElse (access ViewRealm) (access ManageRealm)) (url "")
        (test (access QueryClients) (url "/clients")
           (test (access ViewIdentityProviders) (url "/identity-provider-settings")
              (test (access QueryUsers) (url "/users")
                 (test (access QueryGroups) (url "/groups")
                    (test (access ViewEvents) (url "/events") (Returns None))))))
  end.

(** The two loops of [RealmDetailCtrl] over [Current.realms], which look for the realm of
    the page: the first stops at a match and runs when the current realm is another, the
    second goes on. *)
Fixpoint firstNamed {A} (name : A → string) (n : string) (l : list A) : option A :=
  match l with
  | [] => None
  | x :: l => if String.eqb n (name x) then Some x else firstNamed name n l
  end.

Fixpoint lastNamed {A} (name : A → string) (n : string) (current : option A) (l : list A) : option A :=
  match l with
  | [] => current
  | x :: l => lastNamed name n (if String.eqb (name x) n then Some x else current) l
  end.

Definition selectCurrent {A} (name : A → string) (n : string) (realms : list A) (current : option A) : option A :=
  let current :=
    if match current with None => true | Some c => negb (String.eqb (name c) n) end
    then match firstNamed name n realms with Some x => Some x | None => current end
    else current in
  lastNamed name n current realms.

(** ** Rights *)

(** The answer of [whoami]: for each realm an array of names of roles. *)
Definition grants (user : jsval) (granted : string → list string) : Prop :=
  ∃ o ra, user = Obj o ∧ assoc "realm_access" o = Obj ra ∧
    ∀ r, assoc r ra = Arr (Str <$> granted r) ∨ assoc r ra = Undefined ∧ granted r = [].

Lemma includes_strs l x : includes (Arr (Str <$> l)) (Str x) = Returns (bool_decide (x ∈ l)).
Proof.
  simpl. f_equal. induction l as [|y l IH]; [done|]. csimpl. rewrite IH.
  destruct (String.eqb_spec x y) as [->|Hne]; simpl.
  - symmetry. apply bool_decide_eq_true. by left.
  - apply bool_decide_ext. set_solver.
Qed.

Lemma getAccess_spec user granted r role :
  grants user granted → getAccess user (realmObject r) role = Returns (bool_decide (role ∈ granted r)).
Proof.
  intros (o & ra & -> & Ha & Hr). unfold getAccess.
  change (getp (Obj o) "realm_access") with (Returns (assoc "realm_access" o)). rewrite Ha.
  change (getp (realmObject r) "realm") with (Returns (Str r)). simpl.
  destruct (Hr r) as [->|[-> ->]]; [|done]. apply includes_strs.
Qed.

(** The roles each of which is enough for a right. *)
Definition suffices (g : right) : list string :=
  match g with
  | QueryUsers => ["query-users"; "view-users"; "manage-users"; "manage-clients"]
  | QueryGroups => ["query-groups"; "view-users"; "manage-users"; "manage-clients"]
  | QueryClients => ["query-clients"; "view-clients"; "manage-clients"]
  | ViewRealm => ["view-realm"; "manage-realm"]
  | ViewClients => ["view-clients"; "manage-clients"]
  | ViewUsers => ["view-users"; "manage-users"; "manage-clients"]
  | ViewEvents => ["view-events"; "manage-events"; "manage-clients"]
  | ViewIdentityProviders => ["view-identity-providers"; "manage-identity-providers"]
  | ViewAuthorization => ["view-authorization"; "manage-authorization"]
  | ManageRealm => ["manage-realm"]
  | ManageClients => ["manage-clients"]
  | ManageUsers => ["manage-users"]
  | ManageEvents => ["manage-events"]
  | ManageIdentityProviders => ["manage-identity-providers"]
  | ManageAuthorization => ["manage-authorization"]
  | Impersonation => ["impersonation"]
  end.

(** Some role that is enough is granted. *)
Definition allowed (granted : list string) (g : right) : bool :=
  existsb (λ r, bool_decide (r ∈ granted)) (suffices g).

Lemma Returns_bind {A B} (a : A) (f : A → outcome B) : (Returns a ≫= f) = f a.
Proof. done. Qed.

Lemma test_returns {A} (b : bool) (t e : outcome A) : test (Returns b) t e = if b then t else e.
Proof. done. Qed.

Lemma orElse_returns a b : orElse (Returns a) (Returns b) = Returns (a || b).
Proof. by destruct a. Qed.

Lemma access_allowed user granted r g :
  grants user granted → getAccessObject user (realmObject r) g = Returns (allowed (granted r) g).
Proof.
  intros Hg. destruct g;
    unfold getAccessObject, queryUsers, queryGroups, queryClients, viewRealm, viewClients, viewUsers,
      viewEvents, viewIdentityProviders, viewAuthorization, manageRealm, manageClients, manageUsers,
      manageEvents, manageIdentityProviders, manageAuthorization, impersonation;
    rewrite !(getAccess_spec _ _ _ _ Hg), ?orElse_returns; unfold allowed; simpl; f_equal;
    repeat case_bool_decide; done.
Qed.

(** C34: The rights of a page in a realm are those of the roles granted there: each follows
    from exactly the roles listed by [suffices], more roles never take one away, a realm
    that grants nothing denies all of them, and whoever may manage clients may see users,
    groups and events as well. *)
Theorem access_spec user granted r :
  grants user granted →
  (∀ g, getAccessObject user (realmObject r) g = Returns (allowed (granted r) g)) ∧
  (∀ user' granted', grants user' granted' → granted r ⊆ granted' r → ∀ g,
     getAccessObject user (realmObject r) g = Returns true →
     getAccessObject user' (realmObject r) g = Returns true) ∧
  (∀ g, granted r = [] → getAccessObject user (realmObject r) g = Returns false) ∧
  (getAccessObject user (realmObject r) ManageClients = Returns true → ∀ g,
     g ∈ [ViewClients; QueryClients; ViewUsers; QueryUsers; QueryGroups; ViewEvents] →
     getAccessObject user (realmObject r) g = Returns true).
Proof.
  intros Hg. split_and!.
  - intros g. by apply access_allowed.
  - intros user' granted' Hg' Hsub g. rewrite !(access_allowed _ _ _ _ Hg), !(access_allowed _ _ _ _ Hg').
    intros [= H]. f_equal. unfold allowed in *. apply existsb_exists in H as (x & Hx & Hin%bool_decide_eq_true).
    apply existsb_exists. exists x. split; [done|]. apply bool_decide_eq_true. by apply Hsub.
  - intros g He. rewrite (access_allowed _ _ _ _ Hg), He. by destruct g.
  - rewrite (access_allowed _ _ _ _ Hg). intros [= H] g Hin. rewrite (access_allowed _ _ _ _ Hg). f_equal.
    unfold allowed in *. simpl in H. apply existsb_exists. exists "manage-clients".
    split; [|by case_bool_decide]. apply list_elem_of_In. repeat (apply elem_of_cons in Hin as [->|Hin]; [set_solver|]).
    set_solver.
Qed.

(** ** The page an administrator starts with *)

(** The pages of a realm in the order [HomeCtrl] tries them, with the right each needs. *)
Definition sections : list (right * string) :=
  [(ViewRealm, ""); (QueryClients, "/clients"); (ViewIdentityProviders, "/identity-provider-settings");
   (QueryUsers, "/users"); (QueryGroups, "/groups"); (ViewEvents, "/events")].

Lemma manage_implies_view granted : allowed granted ManageRealm = true → allowed granted ViewRealm = true.
Proof.
  unfold allowed. simpl. rewrite orb_false_r. intros ->. by rewrite !orb_true_r.
Qed.

Lemma home_unfold user granted r realms :
  grants user granted → homeRealm user realms = Returns (Some r) →
  home user realms = Returns ((λ s, "/realms/" +:+ r +:+ s.2) <$>
    head (filter (λ s, allowed (granted r) s.1 = true) sections)).
Proof.
  intros Hg Hr. unfold home. rewrite Hr, Returns_bind. cbv zeta.
  rewrite !(access_allowed _ _ _ _ Hg), orElse_returns.
  pose proof (manage_implies_view (granted r)) as Hm.
  assert (allowed (granted r) ViewRealm || allowed (granted r) ManageRealm = allowed (granted r) ViewRealm) as ->
    by (destruct (allowed _ ManageRealm); [by rewrite Hm|by rewrite orb_false_r]).
  unfold sections. rewrite !test_returns, !filter_cons. cbn [fst].
  repeat (case_match; [by rewrite decide_True by done|rewrite decide_False by done]). done.
Qed.

(** [HomeCtrl] opens, of the only realm or of the one that is not the administrator's
    own, the first page the administrator has the right to see, stays where it is only
    if there is none, and lists the realms if it cannot choose one. *)
Theorem home_spec user granted realms :
  grants user granted →
  (length realms = 1 ∨ length realms = 2 →
   ∃ chosen, homeRealm user realms = Returns chosen ∧ (∀ r, chosen = Some r → r ∈ realms)) ∧
  (∀ r, homeRealm user realms = Returns (Some r) →
     (∀ url, home user realms = Returns (Some url) →
        ∃ g path, (g, path) ∈ sections ∧ url = "/realms/" +:+ r +:+ path ∧
          getAccessObject user (realmObject r) g = Returns true) ∧
     (home user realms = Returns None ↔
        ∀ g path, (g, path) ∈ sections → getAccessObject user (realmObject r) g = Returns false)) ∧
  (homeRealm user realms = Returns None → home user realms = Returns (Some "/realms")).
Proof.
  intros Hg. split_and!.
  - destruct Hg as (o & ra & -> & _). unfold homeRealm.
    destruct realms as [|r0 [|r1 [|]]]; simpl; intros [|]; try lia.
    + eexists. split; [done|]. intros r [= ->]. set_solver.
    + eexists. split; [done|]. intros r. repeat case_match; intros; simplify_eq; set_solver.
  - intros r Hr. rewrite (home_unfold _ _ _ _ Hg Hr).
    destruct (filter _ sections) as [|[g path] l] eqn:E; simpl; split.
    + done.
    + split; [|done]. intros _ g path Hin. rewrite (access_allowed _ _ _ _ Hg). f_equal.
      apply not_true_iff_false. intros Ht. assert ((g, path) ∈ filter (λ s, allowed (granted r) s.1 = true) sections)
        as Hf by (by apply list_elem_of_filter). rewrite E in Hf. set_solver.
    + intros url [= <-]. exists g, path. assert ((g, path) ∈ filter (λ s, allowed (granted r) s.1 = true) sections)
        as [Ht Hin]%list_elem_of_filter by (rewrite E; by left).
      split_and!; [done|done|]. rewrite (access_allowed _ _ _ _ Hg). by f_equal.
    + split; [done|]. intros Hno. assert ((g, path) ∈ filter (λ s, allowed (granted r) s.1 = true) sections)
        as [Ht Hin]%list_elem_of_filter by (rewrite E; by left).
      specialize (Hno _ _ Hin). rewrite (access_allowed _ _ _ _ Hg) in Hno. simpl in Ht. congruence.
  - intros Hr. unfold home. by rewrite Hr.
Qed.

(** ** The current realm *)

Lemma lastNamed_spec {A} (name : A → string) n (l : list A) current :
  lastNamed name n current l = match last (filter (λ x, name x = n) l) with Some x => Some x | None => current end.
Proof.
  revert current. induction l as [|x l IH]; intros current; [done|]. simpl. rewrite IH, filter_cons.
  destruct (String.eqb_spec (name x) n); [rewrite decide_True by done|by rewrite decide_False].
  rewrite last_cons. by destruct (last _).
Qed.

(** The page of a realm makes it the current one, as the object of [Current.realms], if it
    is there; for names that occur once, the first of the two loops changes nothing. *)
Theorem selectCurrent_spec {A} (name : A → string) n (l : list A) current x :
  NoDup (name <$> l) → x ∈ l → name x = n → selectCurrent name n l current = Some x.
Proof.
  intros Hnd Hx Hn. unfold selectCurrent. rewrite lastNamed_spec.
  assert (filter (λ y, name y = n) l = [x]) as ->; [|done].
  induction l as [|y l IH]; [set_solver|]. apply NoDup_cons in Hnd as [Hy Hnd]. rewrite filter_cons.
  apply elem_of_cons in Hx as [<-|Hx].
  - rewrite decide_True by done. f_equal. destruct (filter _ l) as [|z l'] eqn:E; [done|].
    assert (z ∈ filter (λ y, name y = n) l) as [Hz Hin]%list_elem_of_filter by (rewrite E; by left).
    destruct Hy. rewrite Hn, <- Hz. by apply list_elem_of_fmap_2.
  - rewrite decide_False; [by apply IH|]. intros E. apply Hy. rewrite E, <- Hn. by apply list_elem_of_fmap_2.
Qed.

End AdminAccess.
