(* ===== verification/RealmSettings.v ===== *)
(** Pages of the settings of a realm (realm.js): the form that most of them share
    ([genericRealmUpdate]), themes and locales, the password policy, the SMTP server, the
    lifespans of tokens, the brute force detection and the queries for events. *)

From S2P Require Import Prelude JsString Uri JsValue Json JsText AdminServices AdminUsers.
Import JsString Uri JsValue Json JsText AdminServices.

Module RealmSettings.

(** ** The form *)

(** [oldCopy], the edited object of [$scope] and [$scope.changed]. *)
Record form (A : Type) := mkForm { oldCopy : A; shown : A; changed : bool }.
Arguments mkForm {A}.
Arguments oldCopy {A}.
Arguments shown {A}.
Arguments changed {A}.

Section form.
Context {A : Type} `{!EqDecision A}.

Definition openForm (a : A) : form A := mkForm a a false.

(** An edit, with the watch that follows it. *)
Definition edit (a : A) (f : form A) : form A :=
  mkForm (oldCopy f) a (if decide (a = oldCopy f) then changed f else true).

(** [save] before its request; the body is [shown]. *)
Definition beginSave (f : form A) : form A := mkForm (oldCopy f) (shown f) false.

Definition reset (f : form A) : form A := mkForm (oldCopy f) (oldCopy f) false.

(** The callbacks of [save]: [genericRealmUpdate] reloads the route, and so opens the page
    with what the server has; [RealmBruteForceCtrl] copies what is shown;
    [RealmSMTPSettingsCtrl] and [RealmEventsConfigCtrl] go to the URL they are at, which
    does nothing.  There is no callback for an error. *)
Definition savedReload (server : A) : form A := openForm server.
Definition savedCopy (f : form A) : form A := mkForm (shown f) (shown f) (changed f).
Definition savedSameUrl (f : form A) : form A := f.

End form.

(** ** Themes and locales *)

(** A theme: its name and [locales]. *)
Definition theme : Type := string * option (list string).

(** [localeForTheme], of the themes of a type. *)
Definition localeForTheme (themes : list theme) (name : option string) : list string :=
  let name := match name with Some n => if String.eqb n "" then "base" else n | None => "base" end in
  match list_find (λ t, t.1 = name) themes with
  | Some (_, t) => default [] t.2
  | None => []
  end.

(** The fields of the realm the page computes; [None] is [undefined] or [null]. *)
Record localisation := mkLocalisation {
  internationalizationEnabled : bool;
  supportedLocales : option (list string);
  defaultLocale : option string;
  tags : list string                       (* supportedLocalesOptions.tags *)
}.

(** [for (var i = 0; i < $scope.realm.supportedLocales.length; i++)], which replaces the
    list it runs over; the fuel is a bound on [i]. *)
Fixpoint checkLocales (fuel i : nat) (supported locales : list string) : list string :=
  match fuel with
  | 0 => locales
  | S fuel =>
      match locales !! i with
      | None => locales
      | Some l =>
          checkLocales fuel (S i) supported
            (if bool_decide (l ∈ supported) then locales else supported)
      end
  end.

Definition updateSupported (account login email : list string) (r : localisation) : localisation :=
  if internationalizationEnabled r then
    let supported := filter (λ l, l ∈ login ∧ l ∈ email) account in
    mkLocalisation true
      (Some match supportedLocales r with
            | None => supported
            | Some locales => checkLocales (S (length locales + length supported)) 0 supported locales
            end)
      (Some match defaultLocale r with
            | Some l => if negb (String.eqb l "") && bool_decide (l ∈ supported) then l else "en"
            | None => "en"
            end)
      supported
  else r.

(** ** The password policy *)

(** A policy the server knows, and one of the realm. *)
Record policyType := mkPolicyType { t_id : string; t_default : jsval }.
Record policy := mkPolicy { p_type : policyType; p_value : jsval }.

(** The id and the value of a token of the text. *)
Definition parseToken (token : string) : string * jsval :=
  if (indexOf token "(" =? -1)%Z then (trim token, Null)
  else
    (substring token 0 (indexOf token "("),
     Str (trim (substring token (indexOf token "(" + 1) (lastIndexOf token ")")))).

Definition parsePolicy (types : list policyType) (token : string) : list policy :=
  let '(id, value) := parseToken token in
  (λ t, mkPolicy t (js_or value (t_default t))) <$> filter (λ t, t_id t = id) types.

Definition parse (types : list policyType) (policyString : string) : list policy :=
  if String.eqb policyString "" then []
  else concat (parsePolicy types <$> split_on " and " policyString).

Definition policyText (p : policy) : string := t_id (p_type p) +:+ "(" +:+ to_string (p_value p) +:+ ")".

Definition toString (policies : list policy) : string := join " and " (policyText <$> policies).

Definition addPolicy (t : policyType) (policies : list policy) : list policy :=
  policies ++ [mkPolicy t (t_default t)].

Definition removePolicy (index : nat) (policies : list policy) : list policy := delete index policies.

(** ** The SMTP server *)

Definition booleanSmtpAtts : list string := ["auth"; "ssl"; "starttls"].

Abbreviation config := (list (string * jsval)).

Definition typeValue (kv : string * jsval) : string * jsval :=
  if bool_decide (kv.1 ∈ booleanSmtpAtts) then
    (kv.1, if strict_eq kv.2 (Str "true") then Bool true
           else if strict_eq kv.2 (Str "false") then Bool false else kv.2)
  else kv.

Definition detypeValue (kv : string * jsval) : string * jsval :=
  if bool_decide (kv.1 ∈ booleanSmtpAtts) then
    (kv.1, if strict_eq kv.2 (Bool true) then Str "true"
           else if strict_eq kv.2 (Bool false) then Str "false" else kv.2)
  else kv.

Definition typeObject (o : config) : config :=
  let o := typeValue <$> o in obj_set "port" (parseInt (assoc "port" o)) o.

(** [obj['port'] && obj['port'].toString()] *)
Definition detypeObject (o : config) : config :=
  let o := detypeValue <$> o in
  let port := assoc "port" o in
  obj_set "port" (if truthy port then Str (to_string port) else port) o.

(** The page: [realm.smtpServer], which is [$scope.realm.smtpServer] too until [reset]
    replaces [$scope.realm] by a copy. *)
Record smtpPage := mkSmtp { original : config; replaced : option config; smtpOld : config }.

Definition openSmtp (o : config) : smtpPage := mkSmtp (typeObject o) None (typeObject o).
Definition smtpShown (p : smtpPage) : config := default (original p) (replaced p).
Definition smtpEdit (o : config) (p : smtpPage) : smtpPage :=
  match replaced p with
  | None => mkSmtp o None (smtpOld p)
  | Some _ => mkSmtp (original p) (Some o) (smtpOld p)
  end.
Definition smtpReset (p : smtpPage) : smtpPage := mkSmtp (original p) (Some (smtpOld p)) (smtpOld p).
(** The body of [save], and the configuration [testConnection] sends. *)
Definition smtpSave (p : smtpPage) : config := detypeObject (smtpShown p).
Definition initSMTPTest (p : smtpPage) : string := JSON_stringify (Obj (original p)).

(** ** Lifespans *)

(** A field of [RealmTokenDetailCtrl]: the object of [TimeUnit2], or the number that
    [save] puts in its place; [None] where an unknown unit gives [undefined]. *)
Inductive lifespan :=
  | AsUnit (v : string * Z)
  | InSeconds (s : option Z).

(** The fields in the order of [save]. *)
Definition tokenFields : list string :=
  ["accessTokenLifespan"; "accessTokenLifespanForImplicitFlow"; "ssoSessionIdleTimeout";
   "ssoSessionMaxLifespan"; "offlineSessionIdleTimeout"; "offlineSessionMaxLifespan";
   "accessCodeLifespan"; "accessCodeLifespanUserAction"; "accessCodeLifespanLogin";
   "actionTokenGeneratedByAdminLifespan"; "actionTokenGeneratedByUserLifespan"].

Abbreviation lifespans := (string → lifespan).

Definition openTokens (seconds : string → Z) : lifespans := λ f, AsUnit (asUnit (seconds f)).

(** [x = x.toSeconds()], in place: a number has no such method. *)
Definition fieldToSeconds (f : string) (l : lifespans) : outcome lifespans :=
  match l f with
  | AsUnit v => Returns (λ g, if String.eqb g f then InSeconds (asUnit_toSeconds v) else l g)
  | InSeconds _ => Throws TypeError
  end.

Fixpoint saveFields (fs : list string) (l : lifespans) : outcome lifespans :=
  match fs with
  | [] => Returns l
  | f :: fs => l ← fieldToSeconds f l; saveFields fs l
  end.

(** The statements of [save] before the request, whose body is the result. *)
Definition saveTokens : lifespans → outcome lifespans := saveFields tokenFields.

(** ** Brute force detection *)

(** The number of seconds, as a time and its unit, and back. *)
Definition showSeconds (s : Z) : outcome (Z * string) :=
  let unit := autoUnit s in time ← toUnit s unit; Returns (time, unit).

Definition readSeconds (v : Z * string) : outcome Z := toSeconds v.1 v.2.

Definition bruteForceFields : list string :=
  ["waitIncrement"; "minimumQuickLoginWait"; "maxFailureWait"; "maxDeltaTime"].

(** The fields the page adds to the realm, and the body of [save]. *)
Definition openBruteForce (seconds : string → Z) : outcome (list (string * (Z * string))) :=
  mapM (λ f, v ← showSeconds (seconds f); Returns (f, v)) bruteForceFields.

Definition saveBruteForce (fields : list (string * (Z * string))) : outcome (list (string * Z)) :=
  mapM (λ fv, s ← readSeconds fv.2; Returns (fv.1, s)) fields.

(** ** Queries for events *)

(** [for (var i in query) if (query[i] === '') delete query[i]] *)
Definition dropEmpty (query : config) : config := filter (λ kv, strict_eq kv.2 (Str "") = false) query.

Definition setAll (keys : list string) (query : config) : config :=
  foldl (λ q k, obj_set k (Str "") q) query keys.

Definition eventKeys : list string := ["type"; "client"; "user"; "dateFrom"; "dateTo"].
Definition adminEventKeys : list string :=
  ["operationTypes"; "resourceTypes"; "resourcePath"; "authRealm"; "authClient"; "authUser";
   "authIpAddress"; "dateFrom"; "dateTo"].

Definition openEvents (realm : string) : config := [("id", Str realm); ("max", Num 5); ("first", Num 0)].
Definition updateEvents (query : config) : config := dropEmpty (obj_set "first" (Num 0) query).
Definition resetEvents (keys : list string) (query : config) : config :=
  updateEvents (setAll keys (obj_set "max" (Num 5) (obj_set "first" (Num 0) query))).

(** ** What [reset] returns to *)

(** After a save of [b], an edit and [reset]: the pages that reload, or copy, show what was
    saved; the two that go to their own URL show what was there before. *)
Theorem reset_after_save {A} `{!EqDecision A} (a b c : A) :
  let saved := beginSave (edit b (openForm a)) in
  shown (reset (edit c (savedReload (shown saved)))) = b ∧
  shown (reset (edit c (savedCopy saved))) = b ∧
  shown (reset (edit c (savedSameUrl saved))) = a.
Proof. done. Qed.

(** A save the server refuses leaves the edits on the page without marking it as changed,
    so that the buttons, which follow [changed], offer neither saving nor resetting. *)
Theorem refused_save_unmarked {A} `{!EqDecision A} (a b : A) :
  a ≠ b → let f := beginSave (edit b (openForm a)) in shown f ≠ oldCopy f ∧ changed f = false.
Proof. intros Hne. simpl. by split. Qed.

(** ** Locales *)

Lemma checkLocales_all fuel i supported locales :
  (∀ j l, i ≤ j → locales !! j = Some l → l ∈ supported) → checkLocales fuel i supported locales = locales.
Proof.
  revert i. induction fuel as [|fuel IH]; intros i Hl; [done|]. simpl.
  destruct (locales !! i) as [l|] eqn:E; [|done]. rewrite bool_decide_true by (by eapply Hl).
  apply IH. intros j l' Hj. apply Hl. lia.
Qed.

Lemma checkLocales_spec fuel i supported locales :
  length locales ≤ i + fuel → (∀ j l, j < i → locales !! j = Some l → l ∈ supported) →
  checkLocales fuel i supported locales = if bool_decide (locales ⊆ supported) then locales else supported.
Proof.
  revert i. induction fuel as [|fuel IH]; intros i Hlen Hl; simpl.
  - rewrite bool_decide_true; [done|]. intros l [j Hj]%list_elem_of_lookup.
    eapply Hl; [|done]. apply lookup_lt_Some in Hj. lia.
  - destruct (locales !! i) as [l|] eqn:E.
    + destruct (decide (l ∈ supported)) as [Hin|Hin].
      * rewrite (bool_decide_true (l ∈ supported)) by done. apply IH; [lia|]. intros j l' Hj Hl'. destruct (decide (j = i)) as [->|]; [congruence|].
        eapply Hl; [|done]. lia.
      * rewrite (bool_decide_false (l ∈ supported)) by done. rewrite checkLocales_all by (intros j l' _ Hl'; by eapply list_elem_of_lookup_2).
        rewrite bool_decide_false; [done|]. intros Hs. apply Hin, Hs. by eapply list_elem_of_lookup_2.
    + rewrite bool_decide_true; [done|]. intros l [j Hj]%list_elem_of_lookup.
      eapply Hl; [|done]. apply lookup_lt_Some in Hj. apply lookup_ge_None in E. lia.
Qed.

(** The page of themes offers exactly the locales that the three themes have in common,
    in the order of the account theme; it keeps a selection made of those and replaces
    any other by all of them, takes English for a default that is none of them, and
    leaves a second look nothing to change. *)
Theorem updateSupported_spec account login email r :
  internationalizationEnabled r = true →
  let r' := updateSupported account login email r in
  (∀ l, l ∈ tags r' ↔ l ∈ account ∧ l ∈ login ∧ l ∈ email) ∧
  (∃ ls, supportedLocales r' = Some ls ∧ ls ⊆ tags r' ∧
     (∀ ls0, supportedLocales r = Some ls0 → ls0 ⊆ tags r' → ls = ls0) ∧
     ((∀ ls0, supportedLocales r = Some ls0 → ¬ ls0 ⊆ tags r') → ls = tags r')) ∧
  (∃ d, defaultLocale r' = Some d ∧ (d ∈ tags r' ∨ d = "en")) ∧
  updateSupported account login email r' = r'.
Proof.
  intros He r'. assert (internationalizationEnabled r' = true) as He' by (unfold r', updateSupported; by rewrite He).
  set (sup := filter (λ l, l ∈ login ∧ l ∈ email) account).
  assert (∀ ls, checkLocales (S (length ls + length sup)) 0 sup ls =
    if bool_decide (ls ⊆ sup) then ls else sup) as Hcheck by (intros; apply checkLocales_spec; [lia|intros; lia]).
  assert (r' = mkLocalisation true
    (Some (match supportedLocales r with None => sup | Some ls => if bool_decide (ls ⊆ sup) then ls else sup end))
    (Some (match defaultLocale r with
           | Some l => if negb (String.eqb l "") && bool_decide (l ∈ sup) then l else "en" | None => "en" end))
    sup) as E.
  { unfold r', updateSupported. rewrite He. destruct (supportedLocales r); [|done]. by rewrite Hcheck. }
  clearbody r'. subst r'. cbn [tags supportedLocales defaultLocale]. split_and!.
  - intros l. unfold sup. rewrite list_elem_of_filter. naive_solver.
  - eexists. split; [done|]. split_and!.
    + destruct (supportedLocales r); [by case_bool_decide|done].
    + intros ls0 -> Hs. by rewrite bool_decide_true.
    + intros Hn. destruct (supportedLocales r); [|done]. rewrite bool_decide_false; [done|by apply Hn].
  - eexists. split; [done|]. destruct (defaultLocale r) as [l|]; [|by right].
    destruct (negb (l =? "")%string); simpl; [case_bool_decide; [by left|by right]|by right].
  - unfold updateSupported. cbn [internationalizationEnabled supportedLocales defaultLocale]. cbv zeta.
    fold sup. rewrite Hcheck. f_equal; f_equal.
    + rewrite bool_decide_true; [done|]. destruct (supportedLocales r); [by case_bool_decide|done].
    + assert (∀ b : bool, (if b then "en" else "en") = "en") as Hen by (by intros []).
      destruct (defaultLocale r) as [l|]; [|apply Hen].
      destruct (negb (l =? "")%string && bool_decide (l ∈ sup)) eqn:Ed; [by rewrite Ed|apply Hen].
Qed.

(** ** The password policy *)

(** A policy whose text can be read back. *)
Definition policy_ok (types : list policyType) (p : policy) : Prop :=
  filter (λ t, t_id t = t_id (p_type p)) types = [p_type p] ∧ occurs "(" (t_id (p_type p)) = false ∧
  ∃ v, p_value p = Str v ∧ v ≠ "" ∧ trim v = v ∧ find_s " and " (policyText p) = None.

Lemma policyText_token id v :
  occurs "(" id = false → parseToken (id +:+ "(" +:+ v +:+ ")") = (id, Str (trim v)).
Proof.
  intros Hid. unfold parseToken.
  change (id +:+ "(" +:+ v +:+ ")") with (id +:+ String "(" (v +:+ ")")).
  rewrite indexOf_first by done. rewrite (proj2 (Z.eqb_neq _ _)) by (pose proof (length_s_nonneg id); lia).
  rewrite substring_prefix. do 3 f_equal. unfold lastIndexOf.
  assert (id +:+ String "(" (v +:+ ")") = (id +:+ "(") +:+ v +:+ ")") as -> by (by rewrite app_assoc_s).
  assert (find_last ")" ((id +:+ "(") +:+ v +:+ ")") = Some (String.length (id +:+ "(") + String.length v)) as ->
    by (rewrite <- app_assoc_s, find_last_snoc, length_app_s; done).
  etrans; [|apply (substring_mid (id +:+ "(") v ")")]. f_equal; unfold length_s; rewrite ?length_app_s; simpl; lia.
Qed.

Lemma parsePolicy_text types p : policy_ok types p → parsePolicy types (policyText p) = [p].
Proof.
  intros (Ht & Hid & v & Hv & Hne & Htr & _). unfold parsePolicy, policyText. rewrite Hv. cbn [to_string].
  rewrite policyText_token, Ht, Htr by done. destruct p as [t pv]. simpl in *. subst.
  unfold js_or. simpl. by rewrite (proj2 (String.eqb_neq _ _) Hne).
Qed.

Lemma policyText_end p : ∃ s, policyText p = s +:+ ")".
Proof. exists (t_id (p_type p) +:+ "(" +:+ to_string (p_value p)). unfold policyText. by rewrite !app_assoc_s. Qed.

Lemma parse_toString types ps : Forall (policy_ok types) ps → parse types (toString ps) = ps.
Proof.
  intros HF. destruct ps as [|p ps]; [done|]. unfold parse, toString.
  assert (split_on " and " (join " and " (policyText <$> p :: ps)) = policyText <$> p :: ps) as Hsplit.
  { apply split_on_join; [done|done|]. apply Forall_fmap. eapply Forall_impl; [exact HF|].
    intros q (_ & _ & v & _ & _ & _ & Hf). unfold compose. destruct (policyText_end q) as [s Es].
    split; [done|]. intros t. rewrite Es in *. by apply clear_of_end. }
  assert (join " and " (policyText <$> p :: ps) ≠ "") as Hne.
  { intros E. rewrite E in Hsplit. simpl in Hsplit. injection Hsplit as Hp _.
    destruct (policyText_end p) as [s Es]. rewrite Es in Hp. by destruct s. }
  rewrite (proj2 (String.eqb_neq _ _) Hne), Hsplit. clear Hsplit Hne.
  induction HF as [|q qs Hq HF IH]; [done|]. csimpl. rewrite parsePolicy_text by done. simpl. f_equal.
  destruct qs as [|q' qs]; [done|]. apply IH.
Qed.

(** C33: The text [save] makes of the policies is read back as the same policies in the same
    order, provided each is one the server lists, with a value that is not empty, has no
    white space around it and does not contain the separator. *)
Theorem policy_roundtrip types ps : Forall (policy_ok types) ps → parse types (toString ps) = ps.
Proof. apply parse_toString. Qed.

(** A policy without a default value is saved with the text of [undefined] for its value,
    and has that text as its value from then on. *)
Theorem undefined_policy_value types t :
  filter (λ t', t_id t' = t_id t) types = [t] → occurs "(" (t_id t) = false → t_default t = Undefined →
  find_s " and " (t_id t +:+ "(undefined)") = None →
  toString (addPolicy t []) = t_id t +:+ "(undefined)" ∧
  parse types (toString (addPolicy t [])) = [mkPolicy t (Str "undefined")].
Proof.
  intros Ht Hid Hd Hf. unfold addPolicy. cbn [app]. rewrite Hd. split; [done|].
  change (toString _) with (toString [mkPolicy t (Str "undefined")]).
  apply parse_toString. repeat constructor; [done|done|]. by exists "undefined".
Qed.

(** ** The SMTP server *)

(** A configuration as the server has it. *)
Definition smtp_ok (o : config) : Prop :=
  NoDup o.*1 ∧
  (∀ k v, (k, v) ∈ o → k ∈ booleanSmtpAtts → v = Str "true" ∨ v = Str "false") ∧
  ∃ z, (0 < z)%Z ∧ ("port", Str (Z_to_string z)) ∈ o.

Lemma assoc_in (o : config) k v : NoDup o.*1 → (k, v) ∈ o → assoc k o = v.
Proof.
  induction o as [|[k' v'] o IH]; [set_solver|]. csimpl. intros [Hk Hnd]%NoDup_cons [E|Hin]%elem_of_cons.
  - simplify_eq. by rewrite String.eqb_refl.
  - destruct (String.eqb_spec k k') as [->|]; [|by apply IH].
    destruct Hk. by apply (list_elem_of_fmap_2 fst _ (k', v)).
Qed.

Lemma obj_set_same (o : config) k v : NoDup o.*1 → (k, v) ∈ o → obj_set k v o = o.
Proof.
  induction o as [|[k' v'] o IH]; [set_solver|]. csimpl. intros [Hk Hnd]%NoDup_cons [E|Hin]%elem_of_cons.
  - simplify_eq. by rewrite String.eqb_refl.
  - destruct (String.eqb_spec k k') as [->|]; [|by rewrite IH].
    destruct Hk. by apply (list_elem_of_fmap_2 fst _ (k', v)).
Qed.

Lemma obj_set_twice (o : config) k v w : obj_set k v (obj_set k w o) = obj_set k v o.
Proof.
  induction o as [|[k' v'] o IH]; simpl; [by rewrite String.eqb_refl|].
  destruct (String.eqb_spec k k') as [->|Hne]; simpl; [by rewrite String.eqb_refl|].
  by rewrite (proj2 (String.eqb_neq _ _) Hne), IH.
Qed.

Lemma fmap_obj_set (f : string * jsval → string * jsval) k v (o : config) :
  (∀ x, (f x).1 = x.1) → f (k, v) = (k, v) → f <$> obj_set k v o = obj_set k v (f <$> o).
Proof.
  intros Hf Hk. induction o as [|[k' v'] o IH]; csimpl; [by rewrite Hk|].
  destruct (f (k', v')) as [k'' v''] eqn:E. pose proof (Hf (k', v')) as Hfst. rewrite E in Hfst. simpl in Hfst. subst.
  destruct (String.eqb k k'); csimpl; [by rewrite Hk|]. by rewrite E, IH.
Qed.

Lemma detype_type kv :
  (kv.1 ∈ booleanSmtpAtts → kv.2 = Str "true" ∨ kv.2 = Str "false") → detypeValue (typeValue kv) = kv.
Proof.
  destruct kv as [k v]. cbn [fst snd]. intros Hb. unfold detypeValue, typeValue. cbn [fst snd].
  destruct (bool_decide (k ∈ booleanSmtpAtts)) eqn:Hk; cbn [fst snd]; rewrite Hk; [|done].
  apply bool_decide_eq_true in Hk. by destruct (Hb Hk) as [-> | ->].
Qed.

(** A configuration the server has is shown with booleans and a number for the port, and
    saving the page without an edit sends it back unchanged. *)
Theorem smtp_roundtrip o : smtp_ok o → smtpSave (openSmtp o) = o.
Proof.
  intros (Hnd & Hb & z & Hz & Hport). unfold smtpSave, smtpShown, openSmtp. cbn [default replaced original].
  assert (∀ x, (typeValue x).1 = x.1) as Ht1 by (intros x; unfold typeValue; by case_bool_decide).
  assert (∀ x, (detypeValue x).1 = x.1) as Hd1 by (intros x; unfold detypeValue; by case_bool_decide).
  assert ((typeValue <$> o).*1 = o.*1) as Hkeys.
  { rewrite <- list_fmap_compose. apply list_fmap_ext. intros ? x _. apply Ht1. }
  assert (assoc "port" (typeValue <$> o) = Str (Z_to_string z)) as Hp.
  { apply assoc_in; [by rewrite Hkeys|]. by apply (list_elem_of_fmap_2' typeValue _ ("port", Str (Z_to_string z))). }
  unfold typeObject. rewrite Hp, parseInt_Z_to_string by lia. unfold detypeObject.
  rewrite fmap_obj_set by done.
  rewrite assoc_obj_set. cbn [truthy]. rewrite (proj2 (Z.eqb_neq _ _)) by lia. cbn [negb to_string].
  rewrite obj_set_twice.
  assert (detypeValue <$> (typeValue <$> o) = o) as ->; [|by apply obj_set_same].
  rewrite <- list_fmap_compose. rewrite <- (list_fmap_id o) at 2. apply list_fmap_ext.
  intros i [k v] Hi. apply detype_type. apply Hb. by eapply list_elem_of_lookup_2.
Qed.

(** Until [reset] the test of the connection uses what the page shows; after [reset] it
    uses the edits that were thrown away, and later edits do not reach it. *)
Theorem smtp_test_after_reset o e e' :
  let edited := smtpEdit e (openSmtp o) in
  initSMTPTest edited = JSON_stringify (Obj (smtpShown edited)) ∧
  smtpShown (smtpReset edited) = typeObject o ∧
  initSMTPTest (smtpReset edited) = JSON_stringify (Obj e) ∧
  initSMTPTest (smtpEdit e' (smtpReset edited)) = JSON_stringify (Obj e).
Proof. done. Qed.

(** ** Lifespans *)

(** The times that survive being shown in a unit. *)
Definition lifespan_ok (t : Z) : Prop := (t = 0 ∨ (60 ≤ t ∧ t mod 60 = 0 ∧ ¬ misread t))%Z.

Lemma saveFields_spec fs l :
  NoDup fs → (∀ f, f ∈ fs → ∃ v, l f = AsUnit v) →
  ∃ l', saveFields fs l = Returns l' ∧ (∀ f, f ∉ fs → l' f = l f) ∧
    ∀ f v, f ∈ fs → l f = AsUnit v → l' f = InSeconds (asUnit_toSeconds v).
Proof.
  intros Hnd. revert l. induction Hnd as [|f fs Hf Hnd IH]; intros l Hl; simpl.
  - exists l. split_and!; [done|done|set_solver].
  - destruct (Hl f) as [v Hv]; [by left|]. unfold fieldToSeconds. rewrite Hv.
    change (saveFields fs) with (saveFields fs). cbn.
    destruct (IH (λ g, if String.eqb g f then InSeconds (asUnit_toSeconds v) else l g)) as (l' & E & Hn & Hy).
    { intros g Hg. destruct (String.eqb_spec g f) as [->|]; [done|]. apply Hl. by right. }
    exists l'. split_and!; [exact E| |].
    + intros g Hg. rewrite Hn by set_solver. destruct (String.eqb_spec g f) as [->|]; [set_solver|done].
    + intros g w [->|Hg]%elem_of_cons Hw.
      * rewrite Hn by done. rewrite String.eqb_refl. congruence.
      * apply Hy; [done|]. destruct (String.eqb_spec g f) as [->|]; done.
Qed.

Lemma tokenFields_NoDup : NoDup tokenFields.
Proof. apply (bool_decide_unpack _). by vm_compute. Qed.

(** Opening the page of lifespans and saving it sends the seconds of every field back,
    exactly if every field is no time at all or a number of full minutes that the unit
    does not misread. *)
Theorem tokens_roundtrip seconds :
  ∃ l, saveTokens (openTokens seconds) = Returns l ∧
    ∀ f, f ∈ tokenFields → (l f = InSeconds (Some (seconds f)) ↔ lifespan_ok (seconds f)).
Proof.
  destruct (saveFields_spec tokenFields (openTokens seconds)) as (l & E & _ & Hl);
    [apply tokenFields_NoDup|by intros; eexists|].
  exists l. split; [exact E|]. intros f Hf. rewrite (Hl f (asUnit (seconds f)) Hf eq_refl).
  unfold lifespan_ok. rewrite <- asUnit_roundtrip. split; [by intros [= ->]|by intros ->].
Qed.

(** A save that the server refuses leaves numbers where the fields of the page were: the
    next save throws before it sends anything. *)
Theorem tokens_save_twice seconds l :
  saveTokens (openTokens seconds) = Returns l → saveTokens l = Throws TypeError.
Proof.
  intros E. destruct (saveFields_spec tokenFields (openTokens seconds)) as (l' & E' & _ & Hl);
    [apply tokenFields_NoDup|by intros; eexists|].
  unfold saveTokens in *. rewrite E in E'. injection E' as <-.
  specialize (Hl "accessTokenLifespan" (asUnit (seconds "accessTokenLifespan"))).
  change (saveFields tokenFields l) with (fieldToSeconds "accessTokenLifespan" l ≫= saveFields (tail tokenFields)).
  unfold fieldToSeconds. by rewrite Hl by (done || by left).
Qed.

(** The page of the brute force detection sends back the seconds it was given, unless one
    of them is misread. *)
Theorem bruteForce_roundtrip seconds :
  (∀ f, f ∈ bruteForceFields → ¬ misread (seconds f)) →
  (fields ← openBruteForce seconds; saveBruteForce fields) = Returns ((λ f, (f, seconds f)) <$> bruteForceFields).
Proof.
  intros Hm. unfold openBruteForce, saveBruteForce.
  assert (∀ f, f ∈ bruteForceFields → ∃ v, showSeconds (seconds f) = Returns v ∧ readSeconds v = Returns (seconds f)) as Hs.
  { intros f Hf. pose proof (proj2 (autoUnit_roundtrip (seconds f)) (Hm f Hf)) as H.
    unfold showSeconds, readSeconds. destruct (toUnit _ _) as [x|]; [|done]. by exists (x, autoUnit (seconds f)). }
  revert Hs. generalize bruteForceFields. clear Hm. intros fs. induction fs as [|f fs IH]; intros Hs; [done|].
  destruct (Hs f) as (v & Hv & Hr); [by left|]. specialize (IH ltac:(intros; apply Hs; by right)).
  cbn [mapM]. rewrite Hv. cbn. destruct (mapM _ fs) as [vs|e] eqn:E; [|done]. cbn in *.
  rewrite Hr. cbn. by rewrite IH.
Qed.

(** ** Events *)

Lemma assoc_dropEmpty k q : NoDup q.*1 →
  assoc k (dropEmpty q) = if strict_eq (assoc k q) (Str "") then Undefined else assoc k q.
Proof.
  induction q as [|[k' v] q IH]; intros Hnd; [done|]. csimpl in Hnd. apply NoDup_cons in Hnd as [Hk Hnd].
  unfold dropEmpty in *. rewrite filter_cons. cbn [snd assoc].
  destruct (strict_eq v (Str "")) eqn:Ev; [rewrite decide_False by done|rewrite decide_True by done].
  - rewrite IH by done. destruct (String.eqb_spec k k') as [->|]; [|done]. rewrite Ev.
    rewrite (assoc_notin k' q) by done. done.
  - cbn [assoc]. destruct (String.eqb_spec k k') as [->|]; [by rewrite Ev|by rewrite IH].
Qed.

Lemma assoc_setAll k keys q : assoc k (setAll keys q) = if bool_decide (k ∈ keys) then Str "" else assoc k q.
Proof.
  unfold setAll. revert q. induction keys as [|k' keys IH]; intros q; simpl; [done|]. rewrite IH.
  destruct (decide (k = k')) as [->|Hne].
  - rewrite assoc_obj_set. rewrite (bool_decide_true (k' ∈ k' :: keys)) by (by left). by case_bool_decide.
  - rewrite assoc_obj_set_ne by done. by rewrite (bool_decide_ext (k ∈ k' :: keys) (k ∈ keys)) by set_solver.
Qed.

Lemma setAll_keys keys q : NoDup q.*1 → NoDup (setAll keys q).*1.
Proof.
  unfold setAll. revert q. induction keys as [|k keys IH]; intros q Hq; [done|]. by apply IH, obj_set_keys.
Qed.

(** Whatever was searched for, [reset] leaves the query with which the page opened: the
    first five events of the realm, without a condition. *)
Theorem resetEvents_spec keys realm q :
  keys = eventKeys ∨ keys = adminEventKeys → realm ≠ "" → NoDup q.*1 → assoc "id" q = Str realm →
  (∀ k, k ∈ q.*1 → k ∈ ["id"; "max"; "first"] ++ keys) →
  ∀ k, assoc k (resetEvents keys q) = assoc k (openEvents realm).
Proof.
  intros Hkeys Hr Hnd Hid Hq k. unfold resetEvents, updateEvents.
  rewrite assoc_dropEmpty by (by apply obj_set_keys, setAll_keys, obj_set_keys, obj_set_keys).
  assert (("first" ∉ keys) ∧ ("max" ∉ keys) ∧ ("id" ∉ keys)) as (H1 & H2 & H3)
    by (destruct Hkeys as [-> | ->]; split_and!; apply (bool_decide_unpack _); by vm_compute).
  destruct (decide (k = "first")) as [->|Hf]; [by rewrite assoc_obj_set|].
  rewrite assoc_obj_set_ne, assoc_setAll by done.
  destruct (decide (k = "max")) as [->|Hm]; [by rewrite bool_decide_false, assoc_obj_set|].
  destruct (decide (k = "id")) as [->|Hi].
  - rewrite bool_decide_false, !assoc_obj_set_ne, Hid by done. simpl.
    by rewrite (proj2 (String.eqb_neq _ _) Hr).
  - assert (assoc k (openEvents realm) = Undefined) as -> by (apply assoc_notin; set_solver).
    case_bool_decide as Hk; [done|]. rewrite !assoc_obj_set_ne by done.
    rewrite assoc_notin; [done|]. intros Hin. apply Hq in Hin. set_solver.
Qed.

End RealmSettings.
