(* ===== verification/RealmLists.v ===== *)
(** Lists that the pages of a realm keep (realm.js): the default roles of
    [RealmDefaultRolesCtrl], the providers of [RealmIdentityProviderCtrl], the flows and
    executions of [AuthenticationFlowsCtrl], the policies of [ClientRegPoliciesCtrl] and
    the configuration of [GenericKeystoreCtrl]. *)

From S2P Require Import Prelude JsString JsValue.
Import JsString JsValue.

Module RealmLists.

(** ** Default roles *)

(** [var index = l.indexOf(x); if (index > -1) l.splice(index, 1)] *)
Definition removeFirst (x : string) (l : list string) : list string :=
  match list_find (λ y, y = x) l with
  | Some (i, _) => delete i l
  | None => l
  end.

Record defaultRoles := mkDefaults {
  available : list string;          (* availableRealmRoles, availableClientRoles *)
  selectedRoles : list string;
  selectedDefRoles : list string;
  defaults : list string            (* realm.defaultRoles, client.defaultRoles *)
}.

(** The loop that fills the list of available roles. *)
Definition availableOf (roles defaults : list string) : list string := filter (λ r, r ∉ defaults) roles.

(** [roles] are the names of the realm's roles; [None] where the realm has no default
    roles. *)
Definition openRealm (roles : list string) (realmDefaults : option (list string)) : defaultRoles :=
  let defaults := default [] realmDefaults in
  mkDefaults (availableOf roles defaults) [] [] defaults.

(** The statements before [Realm.update], whose body has [defaults]. *)
Definition addRealmDefaultRole (p : defaultRoles) : defaultRoles :=
  let '(av, df) := foldl (λ '(av, df) r, (removeFirst r av, df ++ [r])) (available p, defaults p) (selectedRoles p) in
  mkDefaults av [] (selectedDefRoles p) df.

Definition deleteRealmDefaultRole (p : defaultRoles) : defaultRoles :=
  let '(av, df) := foldl (λ '(av, df) r, (av ++ [r], removeFirst r df)) (available p, defaults p) (selectedDefRoles p) in
  mkDefaults av (selectedRoles p) [] df.

(** The same for a client, where a role that is there is not pushed again. *)
Definition pushNew (x : string) (l : list string) : list string :=
  if bool_decide (x ∈ l) then l else l ++ [x].

Definition addClientDefaultRole (p : defaultRoles) : defaultRoles :=
  let '(av, df) := foldl (λ '(av, df) r, (removeFirst r av, pushNew r df)) (available p, defaults p) (selectedRoles p) in
  mkDefaults av [] (selectedDefRoles p) df.

Definition rmClientDefaultRole (p : defaultRoles) : defaultRoles :=
  let '(av, df) := foldl (λ '(av, df) r, (pushNew r av, removeFirst r df)) (available p, defaults p) (selectedDefRoles p) in
  mkDefaults av (selectedRoles p) [] df.

(** *** The choice of a client *)

(** [$scope.client] with its default roles, the list of available roles, and the clients
    whose roles were asked for and have not come. *)
Record clientPage := mkClientPage {
  client : option (string * option (list string));
  availableClientRoles : option (list string);
  asked : list string
}.

(** A choice, with [changeClient]. *)
Definition changeClient (c : option (string * option (list string))) (p : clientPage) : clientPage :=
  match c with
  | Some (id, _) => mkClientPage c (availableClientRoles p) (asked p ++ [id])
  | None => mkClientPage None None (asked p)
  end.

(** The callback of the i-th query, with the roles of the client it asked for: it reads
    [$scope.client]. *)
Definition onClientRoles (i : nat) (roles : list string) (p : clientPage) : outcome clientPage :=
  match client p with
  | None => Throws TypeError
  | Some (id, ds) =>
      let ds := default [] ds in
      Returns (mkClientPage (Some (id, Some ds)) (Some (availableOf roles ds)) (delete i (asked p)))
  end.

(** ** Social providers *)

Record provider := mkProvider { pr_id : string; pr_group : string }.

Definition isUsedSocial (configured : list string) (p : provider) : bool :=
  String.eqb (pr_group p) "Social" && bool_decide (pr_id p ∈ configured).

(** [var i = l.length; while (i--) ...], with [splice(i, 1)] in it. *)
Fixpoint removeLoop (i : nat) (configured : list string) (l : list provider) : list provider :=
  match i with
  | 0 => l
  | S i =>
      removeLoop i configured
        match l !! i with
        | Some p => if isUsedSocial configured p then delete i l else l
        | None => l
        end
  end.

(** [None] where the realm has no list of providers. *)
Definition removeUsedSocial (configured : option (list string)) (l : list provider) : list provider :=
  match configured with
  | Some c => removeLoop (length l) c l
  | None => l
  end.

(** ** Flows *)

Record flow := mkFlow { f_id : string; f_alias : string; f_provider : string }.

(** The flow of the page, [LastFlowSelected.alias], and whether the page goes to the
    first flow instead of asking for executions. *)
Definition openFlows (flows : list flow) (selectedFlow last : option string)
    : option flow * option string * bool :=
  let last := match selectedFlow with Some _ => selectedFlow | None => last end in
  let selectedFlow := match selectedFlow with None => last | Some _ => selectedFlow end in
  let f :=
    match flows with
    | [] => None
    | first :: _ =>
        match selectedFlow with
        | Some s =>
            if String.eqb s "" then Some first
            else match list_find (λ f, f_alias f = s) flows with Some (_, f) => Some f | None => Some first end
        | None => Some first
        end
    end in
  (f, last, match selectedFlow with None => true | Some _ => false end).

(** The bindings of a realm, in the order [removeFlow] tests them. *)
Record bindings := mkBindings {
  browserFlow : string; registrationFlow : string; directGrantFlow : string;
  resetCredentialsFlow : string; clientAuthenticationFlow : string; dockerAuthenticationFlow : string
}.

Inductive removal :=
  | Refused (message : string)
  | Remove (id : string).

Definition cannotRemove (what : string) : removal :=
  Refused ("Cannot remove flow, it is currently being used as the " +:+ what +:+ " flow.").

Definition removeFlow (b : bindings) (f : flow) : removal :=
  if String.eqb (browserFlow b) (f_alias f) then cannotRemove "browser"
  else if String.eqb (registrationFlow b) (f_alias f) then cannotRemove "registration"
  else if String.eqb (directGrantFlow b) (f_alias f) then cannotRemove "direct grant"
  else if String.eqb (resetCredentialsFlow b) (f_alias f) then cannotRemove "reset credentials"
  else if String.eqb (clientAuthenticationFlow b) (f_alias f) then cannotRemove "client authentication"
  else if String.eqb (dockerAuthenticationFlow b) (f_alias f) then cannotRemove "docker authentication"
  else Remove (f_id f).

(** *** The table of executions *)

Record execution := mkExecution { requirementChoices : list string; level : nat }.

(** What [setupForm] adds to an execution. *)
Record row := mkRow { execution_of : execution; empties : list nat; preLevels : list nat; postLevels : list nat }.

Definition choicesmax (es : list execution) : nat :=
  foldl (λ m e, if m <? length (requirementChoices e) then length (requirementChoices e) else m) 0 es.

Definition levelmax (es : list execution) : nat :=
  foldl (λ m e, if m <? level e then level e else m) 0 es.

(** [for (j = from; j < to; j++) l.push(j)] *)
Definition count (from to : nat) : list nat := seq from (to - from).

Definition setupForm (es : list execution) : list row :=
  (λ e, mkRow e (count 0 (choicesmax es - length (requirementChoices e))) (count 0 (level e))
          (count (level e) (levelmax es))) <$> es.

(** ** Policies of client registration *)

(** The loop over the policies, which are pushed to one of two lists; [sub] is the
    property [subType]. *)
Fixpoint splitPolicies {A} (sub : A → string) (policies anon auth : list A) : outcome (list A * list A) :=
  match policies with
  | [] => Returns (anon, auth)
  | p :: policies =>
      if String.eqb (sub p) "anonymous" then splitPolicies sub policies (anon ++ [p]) auth
      else if String.eqb (sub p) "authenticated" then splitPolicies sub policies anon (auth ++ [p])
      else Throws (Thrown "subType is required for clientRegistration policy component!")
  end.

(** ** Keystores *)

Abbreviation config := (list (string * jsval)).

(** A property of the provider: its name and its default value. *)
Definition property : Type := string * jsval.

(** The loop over the properties for an instance that exists: the configuration of
    [$scope.instance] and that of [instance], to which the watch compares it. *)
Definition fillProperty (cs : config * config) (p : property) : config * config :=
  let '(shown, saved) := cs in
  if truthy (assoc p.1 shown) then (shown, saved)
  else if truthy p.2 then (obj_set p.1 (Arr [p.2]) shown, obj_set p.1 (Arr [p.2]) saved)
  else (obj_set p.1 (Arr [Str ""]) shown, obj_set p.1 (Arr [p.2]) saved).

Definition openKeystore (properties : list property) (c : config) : config * config :=
  foldl fillProperty (c, c) properties.

(** ** Default roles stay in one list *)

Lemma removeFirst_spec x l :
  NoDup l → NoDup (removeFirst x l) ∧ (∀ y, y ∈ removeFirst x l ↔ y ∈ l ∧ y ≠ x) ∧
    (x ∈ l → l ≡ₚ x :: removeFirst x l).
Proof.
  intros Hnd. unfold removeFirst. destruct (list_find _ l) as [[i y]|] eqn:E.
  - apply list_find_Some in E as (Hi & -> & _). pose proof (delete_Permutation _ _ _ Hi) as Hp.
    assert ((x ∉ delete i l) ∧ NoDup (delete i l)) as [Hx Hd] by (apply NoDup_cons; by rewrite <- Hp).
    split_and!; [done| |by intros _]. intros y. rewrite Hp at 2. set_solver.
  - apply list_find_None in E. rewrite Forall_forall in E.
    assert (x ∉ l) as Hx by (intros Hx; by apply (E x)). split_and!; [done| |done]. set_solver.
Qed.

(** The four loops, as one: [from] loses the selection, [to] gains it. *)
Definition moveOne (to_push : string → list string → list string) (lists : list string * list string)
    (r : string) : list string * list string := (removeFirst r lists.1, to_push r lists.2).

(** A way to push that appends what is not there. *)
Definition appends (push : string → list string → list string) : Prop :=
  ∀ x l, x ∉ l → push x l = l ++ [x].

Lemma move_all push sel from to :
  appends push → NoDup sel → NoDup (from ++ to) → sel ⊆ from →
  let '(from', to') := foldl (moveOne push) (from, to) sel in
  from' ++ to' ≡ₚ from ++ to ∧ (∀ x, x ∈ from' ↔ x ∈ from ∧ x ∉ sel) ∧ (∀ x, x ∈ to' ↔ x ∈ to ∨ x ∈ sel).
Proof.
  intros Hpush Hsel. revert from to. induction Hsel as [|r sel Hr Hsel IH]; intros from to Hnd Hsub; simpl.
  - split_and!; set_solver.
  - apply NoDup_app in Hnd as Hnd'. destruct Hnd' as (Hf & Hd & Ht).
    destruct (removeFirst_spec r from Hf) as (Hrf & Hre & Hrp).
    assert (r ∈ from) as Hin by set_solver. assert (r ∉ to) as Hto by (by apply Hd).
    unfold moveOne at 2. simpl. rewrite Hpush by done.
    assert (removeFirst r from ++ to ++ [r] ≡ₚ from ++ to) as Hp.
    { rewrite (Hrp Hin) at 2. rewrite (assoc_L (++)), (comm (++) _ [r]). done. }
    specialize (IH (removeFirst r from) (to ++ [r])). destruct (foldl _ _ sel) as [from' to'].
    destruct IH as (Hp' & Hf' & Ht'); [by rewrite Hp|intros x Hx; apply Hre; set_solver|].
    split_and!; [by rewrite Hp'|intros x; rewrite Hf', Hre; set_solver|intros x; rewrite Ht'; set_solver].
Qed.

Lemma snoc_appends : appends (λ r l, l ++ [r]).
Proof. done. Qed.

Lemma pushNew_appends : appends pushNew.
Proof. intros x l Hx. unfold pushNew. by rewrite bool_decide_false. Qed.

(** The two ways to write a loop are one. *)
Lemma foldl_swap {A B} (f : A * B → string → A * B) (g : B * A → string → B * A) sel a b :
  (∀ a b r, g (b, a) r = (let '(a', b') := f (a, b) r in (b', a'))) →
  foldl g (b, a) sel = (let '(a', b') := foldl f (a, b) sel in (b', a')).
Proof.
  intros H. revert a b. induction sel as [|r sel IH]; intros a b; [done|]. cbn [foldl]. rewrite H.
  destruct (f (a, b) r). apply IH.
Qed.

(** Selections as the two boxes of the page make them. *)
Inductive default_step (add delete : defaultRoles → defaultRoles) (p : defaultRoles) : defaultRoles → Prop :=
  | default_select sel :
      sel ⊆ available p → NoDup sel →
      default_step add delete p (mkDefaults (available p) sel (selectedDefRoles p) (defaults p))
  | default_selectDef sel :
      sel ⊆ defaults p → NoDup sel →
      default_step add delete p (mkDefaults (available p) (selectedRoles p) sel (defaults p))
  | default_add : default_step add delete p (add p)
  | default_delete : default_step add delete p (delete p).

Definition defaults_ok (all : list string) (p : defaultRoles) : Prop :=
  available p ++ defaults p ≡ₚ all ∧ selectedRoles p ⊆ available p ∧ selectedDefRoles p ⊆ defaults p ∧
  NoDup (selectedRoles p) ∧ NoDup (selectedDefRoles p).

Lemma add_ok push all p :
  appends push → NoDup all → defaults_ok all p →
  let '(av, df) := foldl (moveOne push) (available p, defaults p) (selectedRoles p) in
  defaults_ok all (mkDefaults av [] (selectedDefRoles p) df) ∧ ∀ r, r ∈ df ↔ r ∈ defaults p ∨ r ∈ selectedRoles p.
Proof.
  intros Hpush Hnd (Hp & Hs & Hsd & Hns & Hnd'). pose proof (move_all push (selectedRoles p) (available p) (defaults p)) as Hm.
  destruct (foldl _ _ _) as [av df]. destruct Hm as (Hp' & Hav & Hdf); [done|done|by rewrite Hp|done|].
  split; [|done]. split_and!; simpl; [by rewrite Hp'|set_solver| |constructor|done].
  intros x Hx. apply Hdf. left. by apply Hsd.
Qed.

Lemma delete_ok push all p :
  appends push → NoDup all → defaults_ok all p →
  let '(df, av) := foldl (moveOne push) (defaults p, available p) (selectedDefRoles p) in
  defaults_ok all (mkDefaults av (selectedRoles p) [] df) ∧ ∀ r, r ∈ df ↔ r ∈ defaults p ∧ r ∉ selectedDefRoles p.
Proof.
  intros Hpush Hnd (Hp & Hs & Hsd & Hns & Hnd').
  pose proof (move_all push (selectedDefRoles p) (defaults p) (available p)) as Hm.
  destruct (foldl _ _ _) as [df av].
  destruct Hm as (Hp' & Hdf & Hav); [done|done|by rewrite (comm (++)), Hp|done|].
  split; [|done]. split_and!; simpl; [by rewrite (comm (++)), Hp', (comm (++))| |set_solver|done|constructor].
  intros x Hx. apply Hav. left. by apply Hs.
Qed.

(** The operations of the two halves of the page, with the way each pushes. *)
Definition operations (push : string → list string → list string) (add delete : defaultRoles → defaultRoles) : Prop :=
  (∀ p, add p = let '(av, df) := foldl (moveOne push) (available p, defaults p) (selectedRoles p) in
                mkDefaults av [] (selectedDefRoles p) df) ∧
  (∀ p, delete p = let '(df, av) := foldl (moveOne push) (defaults p, available p) (selectedDefRoles p) in
                   mkDefaults av (selectedRoles p) [] df).

Lemma realm_operations : operations (λ r l, l ++ [r]) addRealmDefaultRole deleteRealmDefaultRole.
Proof.
  split; intros p.
  - unfold addRealmDefaultRole.
    assert (∀ sel x, foldl (λ '(av, df) r, (removeFirst r av, df ++ [r])) x sel =
              foldl (moveOne (λ r l, l ++ [r])) x sel) as E; [|by rewrite E].
    induction sel as [|r sel IH]; intros [a b]; simpl; [done|apply IH].
  - unfold deleteRealmDefaultRole. rewrite (foldl_swap (moveOne (λ r l, l ++ [r]))) by done.
    by destruct (foldl _ _ _).
Qed.

Lemma client_operations : operations pushNew addClientDefaultRole rmClientDefaultRole.
Proof.
  split; intros p.
  - unfold addClientDefaultRole.
    assert (∀ sel x, foldl (λ '(av, df) r, (removeFirst r av, pushNew r df)) x sel =
              foldl (moveOne pushNew) x sel) as E; [|by rewrite E].
    induction sel as [|r sel IH]; intros [a b]; simpl; [done|apply IH].
  - unfold rmClientDefaultRole. rewrite (foldl_swap (moveOne pushNew)) by done. by destruct (foldl _ _ _).
Qed.

Lemma default_steps push add delete all p p' :
  operations push add delete → appends push → NoDup all →
  defaults_ok all p → rtc (default_step add delete) p p' → defaults_ok all p'.
Proof.
  intros [Hadd Hdel] Hpush Hnd Hp Hs. induction Hs as [|p1 p2 p3 Hs _ IH]; [done|]. apply IH.
  destruct Hs as [sel Hsel Hns|sel Hsel Hns| |].
  - destruct Hp as (? & ? & ? & ? & ?). by split_and!.
  - destruct Hp as (? & ? & ? & ? & ?). by split_and!.
  - rewrite Hadd. pose proof (add_ok push all p1 Hpush Hnd Hp) as H. destruct (foldl _ _ _). apply H.
  - rewrite Hdel. pose proof (delete_ok push all p1 Hpush Hnd Hp) as H. destruct (foldl _ _ _). apply H.
Qed.

(** C31: However default roles are selected, added and removed, of the realm or of a client,
    every role stays in exactly one of the two lists; an addition makes exactly the
    selected roles default ones, and a removal takes exactly the selected ones away. *)
Theorem default_roles_partition add delete all p p' :
  (add, delete) ∈ [(addRealmDefaultRole, deleteRealmDefaultRole); (addClientDefaultRole, rmClientDefaultRole)] →
  NoDup all → defaults_ok all p → rtc (default_step add delete) p p' →
  available p' ++ defaults p' ≡ₚ all ∧
  (∀ r, r ∈ defaults (add p') ↔ r ∈ defaults p' ∨ r ∈ selectedRoles p') ∧
  (∀ r, r ∈ defaults (delete p') ↔ r ∈ defaults p' ∧ r ∉ selectedDefRoles p').
Proof.
  intros Hin Hnd Hp Hs.
  assert (∃ push, operations push add delete ∧ appends push) as (push & Hop & Hpush).
  { apply elem_of_cons in Hin as [[= -> ->]|[= -> ->]%list_elem_of_singleton].
    - exists (λ r l, l ++ [r]). split; [apply realm_operations|apply snoc_appends].
    - exists pushNew. split; [apply client_operations|apply pushNew_appends]. }
  pose proof (default_steps _ _ _ _ _ _ Hop Hpush Hnd Hp Hs) as Hp'. destruct Hop as [Hadd Hdel].
  split; [by destruct Hp'|]. rewrite Hadd, Hdel.
  pose proof (add_ok push all p' Hpush Hnd Hp') as H1. pose proof (delete_ok push all p' Hpush Hnd Hp') as H2.
  destruct (foldl _ (available p', _) _), (foldl _ (defaults p', _) _). by destruct H1, H2.
Qed.

(** The page opens in such a state. *)
Theorem openRealm_ok roles ds :
  NoDup roles → NoDup ds →
  let p := openRealm roles (Some ds) in
  let all := available p ++ defaults p in
  NoDup all ∧ defaults_ok all p ∧ ∀ r, r ∈ all ↔ r ∈ roles ∨ r ∈ ds.
Proof.
  intros Hr Hd. simpl. unfold availableOf. split_and!.
  - apply NoDup_app. split_and!; [by apply NoDup_filter| |done]. intros r [Hn _]%list_elem_of_filter. done.
  - split_and!; simpl; [done|set_solver|set_solver|constructor|constructor].
  - intros r. rewrite elem_of_app, list_elem_of_filter. destruct (decide (r ∈ ds)); naive_solver.
Qed.

(** The answer about an earlier client, when it comes last, is shown as the roles of the
    client chosen since; and when no client is chosen any more it throws. *)
Theorem client_roles_race c1 d1 c2 d2 roles1 roles2 p :
  asked p = [] →
  let p2 := changeClient (Some (c2, Some d2)) (changeClient (Some (c1, Some d1)) p) in
  (∃ p3 p4, onClientRoles 1 roles2 p2 = Returns p3 ∧ onClientRoles 0 roles1 p3 = Returns p4 ∧
     client p4 = Some (c2, Some d2) ∧ availableClientRoles p4 = Some (availableOf roles1 d2) ∧ asked p4 = []) ∧
  onClientRoles 0 roles1 (changeClient None (changeClient (Some (c1, Some d1)) p)) = Throws TypeError.
Proof. intros Ha. simpl. split; [|done]. eexists _, _. split; [done|]. by rewrite Ha. Qed.

(** ** Social providers *)

Lemma removeLoop_spec i c l :
  i ≤ length l → removeLoop i c l = filter (λ p, isUsedSocial c p = false) (take i l) ++ drop i l.
Proof.
  revert l. induction i as [|i IH]; intros l Hi; [by rewrite drop_0|]. cbn [removeLoop].
  destruct (lookup_lt_is_Some_2 l i) as [p Hp]; [lia|]. rewrite Hp, (take_S_r _ _ _ Hp), filter_app.
  destruct (isUsedSocial c p) eqn:E.
  - rewrite IH by (rewrite length_delete by done; lia). rewrite filter_cons_False, filter_nil, (right_id_L [] (++)) by congruence.
    by rewrite delete_take_drop, take_app_le, take_take, Nat.min_id, drop_app_ge, length_take, Nat.min_l,
      Nat.sub_diag, drop_0 by (rewrite ?length_take; lia).
  - rewrite IH by lia. rewrite filter_cons_True, filter_nil by done.
    rewrite <- (assoc_L (++)). f_equal. by apply drop_S.
Qed.

(** Running over the providers from the end while splicing out removes exactly the social
    ones that are configured, and keeps the order of the others. *)
Theorem removeUsedSocial_spec c l :
  removeUsedSocial (Some c) l = filter (λ p, ¬ (pr_group p = "Social" ∧ pr_id p ∈ c)) l.
Proof.
  unfold removeUsedSocial. rewrite removeLoop_spec by done. rewrite drop_all, (right_id_L [] (++)), firstn_all.
  apply list_filter_iff. intros p. unfold isUsedSocial.
  rewrite andb_false_iff, String.eqb_neq, bool_decide_eq_false. split; [naive_solver|].
  intros H. destruct (decide (pr_group p = "Social")); [right|by left]. naive_solver.
Qed.

(** ** The table of executions *)

Lemma foldl_max {A} (f : A → nat) (es : list A) m :
  let r := foldl (λ m e, if m <? f e then f e else m) m es in
  m ≤ r ∧ (∀ e, e ∈ es → f e ≤ r) ∧ (r = m ∨ ∃ e, e ∈ es ∧ f e = r).
Proof.
  revert m. induction es as [|e es IH]; intros m; simpl; [split_and!; [done|set_solver|by left]|].
  destruct (IH (if m <? f e then f e else m)) as (H1 & H2 & H3).
  destruct (Nat.ltb_spec m (f e)).
  - split_and!; [lia|intros e' [->|He]%elem_of_cons; [lia|by apply H2]|].
    right. destruct H3 as [->|(e' & He & Hr)]; [exists e; split; [by left|done]|exists e'; split; [by right|done]].
  - split_and!; [lia|intros e' [->|He]%elem_of_cons; [lia|by apply H2]|].
    destruct H3 as [->|(e' & He & Hr)]; [by left|right; exists e'; split; [by right|done]].
Qed.

(** The table of a flow is rectangular: every row has, with its indentation, its choices
    and the cells that fill it up, as many cells as any other; and it is as narrow as
    the executions allow. *)
Theorem setupForm_rectangular es r :
  r ∈ setupForm es →
  length (preLevels r) = level (execution_of r) ∧
  length (preLevels r) + length (postLevels r) = levelmax es ∧
  length (requirementChoices (execution_of r)) + length (empties r) = choicesmax es ∧
  (∃ e, e ∈ es ∧ length (requirementChoices e) = choicesmax es) ∧ (∃ e, e ∈ es ∧ level e = levelmax es).
Proof.
  intros (e & -> & He)%list_elem_of_fmap.
  destruct (foldl_max (λ e, length (requirementChoices e)) es 0) as (_ & Hc & Hc').
  destruct (foldl_max level es 0) as (_ & Hl & Hl'). fold (choicesmax es) in *. fold (levelmax es) in *.
  specialize (Hc e He). specialize (Hl e He). simpl. unfold count. rewrite !length_seq. split_and!; [lia..| |].
  - destruct Hc' as [E|?]; [|done]. exists e. split; [done|]. simpl in Hc. lia.
  - destruct Hl' as [E|?]; [|done]. exists e. split; [done|]. lia.
Qed.

(** ** Flows *)

(** A flow is removed only if no binding of the realm has its alias. *)
Theorem removeFlow_spec b f :
  (∃ id, removeFlow b f = Remove id) ↔
  f_alias f ∉ [browserFlow b; registrationFlow b; directGrantFlow b; resetCredentialsFlow b;
               clientAuthenticationFlow b; dockerAuthenticationFlow b].
Proof.
  unfold removeFlow. rewrite !not_elem_of_cons.
  destruct (String.eqb_spec (browserFlow b) (f_alias f)); [split; [by intros []|naive_solver]|].
  destruct (String.eqb_spec (registrationFlow b) (f_alias f)); [split; [by intros []|naive_solver]|].
  destruct (String.eqb_spec (directGrantFlow b) (f_alias f)); [split; [by intros []|naive_solver]|].
  destruct (String.eqb_spec (resetCredentialsFlow b) (f_alias f)); [split; [by intros []|naive_solver]|].
  destruct (String.eqb_spec (clientAuthenticationFlow b) (f_alias f)); [split; [by intros []|naive_solver]|].
  destruct (String.eqb_spec (dockerAuthenticationFlow b) (f_alias f)); [split; [by intros []|naive_solver]|].
  split; [intros _; split_and!; [naive_solver..|set_solver]|by eexists].
Qed.

(** The tab remembers the flow: opened without one it shows the flow that was shown last,
    if that still exists. *)
Theorem openFlows_remembers flows s last f rest f' :
  f ∈ flows → f_alias f = s → s ≠ "" → (∀ g, g ∈ flows → f_alias g = s → g = f) →
  openFlows flows (Some s) last = (Some f, Some s, false) ∧
  openFlows flows None (openFlows flows (Some s) last).1.2 = (Some f, Some s, false) ∧
  (f_alias f' ≠ s → openFlows [f'] None (Some s) = (Some f', Some s, false)) ∧
  openFlows (f' :: rest) None None = (Some f', None, true).
Proof.
  intros Hf Ha Hs Hu. assert (openFlows flows (Some s) last = (Some f, Some s, false)) as Ho.
  { unfold openFlows. destruct flows as [|f0 fs] eqn:E; [set_solver|]. rewrite <- E in *.
    rewrite (proj2 (String.eqb_neq _ _) Hs). destruct (list_find _ flows) as [[i g]|] eqn:El.
    - apply list_find_Some in El as (Hi & Hg & _). by rewrite (Hu g) by (done || by eapply list_elem_of_lookup_2).
    - apply list_find_None in El. rewrite Forall_forall in El. by apply El in Hf. }
  split_and!; [done| | |done].
  - rewrite Ho. exact Ho.
  - intros Hne. unfold openFlows. rewrite (proj2 (String.eqb_neq _ _) Hs). cbn.
    by rewrite decide_False.
Qed.

(** ** Policies *)

(** The policies are split by their kind without losing their order, unless one has
    another kind. *)
Theorem splitPolicies_spec {A} (sub : A → string) policies :
  Forall (λ p, sub p = "anonymous" ∨ sub p = "authenticated") policies →
  splitPolicies sub policies [] [] =
    Returns (filter (λ p, sub p = "anonymous") policies, filter (λ p, sub p = "authenticated") policies).
Proof.
  intros HF. assert (∀ anon auth, splitPolicies sub policies anon auth =
    Returns (anon ++ filter (λ p, sub p = "anonymous") policies, auth ++ filter (λ p, sub p = "authenticated") policies))
    as H; [|apply H].
  induction HF as [|p ps Hp _ IH]; intros anon auth; cbn [splitPolicies];
    [by rewrite !filter_nil, !(right_id_L [] (++))|].
  rewrite !filter_cons. destruct Hp as [Hp|Hp]; rewrite Hp; simpl; rewrite IH, <- (assoc_L (++)); done.
Qed.

(** ** Keystores *)

(** An instance that lacks a property without a default value is shown with an empty value
    and compared with [undefined]: the page counts as changed when it opens. *)
Theorem keystore_opens_changed properties c name :
  NoDup properties.*1 → (name, Undefined) ∈ properties → truthy (assoc name c) = false →
  let '(shown, saved) := openKeystore properties c in
  assoc name shown = Arr [Str ""] ∧ assoc name saved = Arr [Undefined].
Proof.
  intros Hnd Hin Hc. unfold openKeystore.
  assert (∀ shown saved, truthy (assoc name shown) = false →
    let '(shown', saved') := foldl fillProperty (shown, saved) properties in
    assoc name shown' = Arr [Str ""] ∧ assoc name saved' = Arr [Undefined]) as H; [|by apply H].
  clear Hc. induction properties as [|[n d] ps IH]; intros shown saved Hs; [set_solver|].
  csimpl in Hnd. apply NoDup_cons in Hnd as [Hn Hnd]. cbn [foldl].
  assert (∀ ps cs, name ∉ ps.*1 → assoc name (foldl fillProperty cs ps).1 = assoc name cs.1 ∧
    assoc name (foldl fillProperty cs ps).2 = assoc name cs.2) as Hkeep.
  { clear. induction ps as [|[n d] ps IH]; intros [a b] Hn; [done|]. csimpl in Hn.
    apply not_elem_of_cons in Hn as [Hne Hn]. cbn [foldl]. destruct (IH (fillProperty (a, b) (n, d)) Hn) as [-> ->].
    unfold fillProperty. simpl. repeat case_match; simpl; rewrite ?assoc_obj_set_ne by done; done. }
  apply elem_of_cons in Hin as [E|Hin].
  - simplify_eq. assert (fillProperty (shown, saved) (n, Undefined) =
      (obj_set n (Arr [Str ""]) shown, obj_set n (Arr [Undefined]) saved)) as ->
      by (unfold fillProperty; cbn [fst snd]; by rewrite Hs).
    destruct (Hkeep ps (obj_set n (Arr [Str ""]) shown, obj_set n (Arr [Undefined]) saved) Hn) as [H1 H2].
    destruct (foldl _ _ ps). simpl in *. by rewrite H1, H2, !assoc_obj_set.
  - assert (name ≠ n) as Hne by (intros ->; apply Hn; by apply (list_elem_of_fmap_2' fst _ (n, Undefined))).
    destruct (fillProperty (shown, saved) (n, d)) as [a b] eqn:E. apply IH; [done|done|].
    unfold fillProperty in E. repeat case_match; simplify_eq/=; by rewrite ?assoc_obj_set_ne.
Qed.

End RealmLists.
