(* ===== verification/RealmImport.v ===== *)
(** The partial import of a realm: [RealmImportCtrl] of realm.js. *)

From S2P Require Import Prelude JsString JsValue Json AdminAccess.
Import JsString JsValue Json AdminAccess.

Module RealmImport.

(** *** What a file has *)

(** [a && b] *)
Definition andAlso (a b : outcome bool) : outcome bool := test a b (Returns false).

(** [v.hasOwnProperty(k)], for a [k] that is neither [length] nor an index. *)
Definition hasOwn (v : jsval) (k : string) : outcome bool :=
  match v with
  | Undefined | Null => Throws TypeError
  | Obj o => Returns (bool_decide (k ∈ o.*1))
  | _ => Returns false
  end.

(** [(v instanceof Array) && (v.length > 0)] *)
Definition fullArray (v : jsval) : bool := match v with Arr (_ :: _) => true | _ => false end.

(** [Object.keys(v).length] *)
Definition keysLength (v : jsval) : outcome nat :=
  match v with
  | Undefined | Null => Throws TypeError
  | Obj o => Returns (length o)
  | Arr l => Returns (length l)
  | Str s => Returns (String.length s)
  | _ => Returns 0
  end.

(** [v !== 'undefined'], which compares with a text. *)
Definition isNotText (v : jsval) : outcome bool := Returns (negb (strict_eq v (Str "undefined"))).

Definition hasArray (fileContent : jsval) (section : string) : outcome bool :=
  andAlso (isNotText fileContent)
    (andAlso (hasOwn fileContent section)
       (v ← getp fileContent section; Returns (fullArray v))).

Definition hasRoles (fileContent : jsval) : outcome bool :=
  andAlso (isNotText fileContent)
    (andAlso (hasOwn fileContent "roles") (v ← getp fileContent "roles"; isNotText v)).

Definition hasRealmRoles (fileContent : jsval) : outcome bool :=
  andAlso (hasRoles fileContent)
    (roles ← getp fileContent "roles";
     andAlso (hasOwn roles "realm") (v ← getp roles "realm"; Returns (fullArray v))).

Definition hasClientRoles (fileContent : jsval) : outcome bool :=
  andAlso (hasRoles fileContent)
    (roles ← getp fileContent "roles";
     andAlso (hasOwn roles "client")
       (v ← getp roles "client"; n ← keysLength v; Returns (0 <? n))).

(** *** The switches *)

Record switches := mkSwitches {
  importUsers : bool; importGroups : bool; importClients : bool; importIdentityProviders : bool;
  importRealmRoles : bool; importClientRoles : bool
}.

#[global] Instance switches_eq_dec : EqDecision switches.
Proof. solve_decision. Defined.

Definition noSwitch : switches := mkSwitches false false false false false false.

Definition setOnOffSwitchDefaults (fileContent : jsval) : outcome switches :=
  users ← hasArray fileContent "users";
  groups ← hasArray fileContent "groups";
  clients ← hasArray fileContent "clients";
  providers ← hasArray fileContent "identityProviders";
  realmRoles ← hasRealmRoles fileContent;
  clientRoles ← hasClientRoles fileContent;
  Returns (mkSwitches users groups clients providers realmRoles clientRoles).

Definition hasResources (s : switches) (fileContent : jsval) : outcome bool :=
  orElse (andAlso (Returns (importUsers s)) (hasArray fileContent "users"))
    (orElse (andAlso (Returns (importGroups s)) (hasArray fileContent "groups"))
       (orElse (andAlso (Returns (importClients s)) (hasArray fileContent "clients"))
          (orElse (andAlso (Returns (importIdentityProviders s)) (hasArray fileContent "identityProviders"))
             (orElse (andAlso (Returns (importRealmRoles s)) (hasRealmRoles fileContent))
                (andAlso (Returns (importClientRoles s)) (hasClientRoles fileContent)))))).

(** *** The file *)

Record importPage := mkImport { fileContent : jsval; isMultiRealm : bool; switched : switches }.

(** The object of the file that is imported, and whether the file has several. *)
Definition chooseRealm (raw : jsval) : jsval * bool :=
  match raw with
  | Arr (v :: rest) => (v, match rest with [] => false | _ => true end)
  | _ => (raw, false)
  end.

Inductive message := NoMessage | Unparsable | NothingToImport.

(** [importFile]; [isMultiRealm] is never reset. *)
Definition importFile (text : string) (p : importPage) : outcome (importPage * message) :=
  match JSON_parse text with
  | Throws NotModelled => Throws NotModelled
  | Throws _ => Returns (p, Unparsable)
  | Returns raw =>
      let '(content, several) := chooseRealm raw in
      s ← setOnOffSwitchDefaults content;
      has ← hasResources s content;
      Returns (mkImport content (isMultiRealm p || several) s, if (has : bool) then NoMessage else NothingToImport)
  end.

(** [delete o[k]], for an own property *)
Definition obj_del (k : string) (o : list (string * jsval)) : list (string * jsval) :=
  filter (λ kv, kv.1 ≠ k) o.

Definition delUnless (on : bool) (k : string) (o : list (string * jsval)) : list (string * jsval) :=
  if on then o else obj_del k o.

(** The two statements about [json.roles]. *)
Definition saveRoles (s : switches) (roles : jsval) : outcome jsval :=
  match roles with
  | Undefined | Null =>
      if importRealmRoles s && importClientRoles s then Returns roles else Throws TypeError
  | Obj r => Returns (Obj (delUnless (importClientRoles s) "client" (delUnless (importRealmRoles s) "realm" r)))
  | _ => Returns roles
  end.

(** The body of [save]. *)
Definition saveBody (s : switches) (ifResourceExists : string) (content : jsval) : outcome jsval :=
  match content with
  | Undefined | Null => Throws TypeError
  | Obj o =>
      let o := obj_set "ifResourceExists" (Str ifResourceExists) o in
      let o := delUnless (importUsers s) "users" o in
      let o := delUnless (importGroups s) "groups" o in
      let o := delUnless (importIdentityProviders s) "identityProviders" o in
      let o := delUnless (importClients s) "clients" o in
      if bool_decide ("roles" ∈ o.*1) then
        roles ← saveRoles s (assoc "roles" o); Returns (Obj (obj_set "roles" roles o))
      else Returns (Obj o)
  | v => Returns v
  end.

(** *** The table of results *)

Section results.
Context {A : Type}.

Definition pageSize : nat := 15.

(** [$scope.results.results], [None] before the answer, and [$scope.currentPage]. *)
Record resultPage := mkResults { results : option (list A); currentPage : Z }.

Definition hasResults (p : resultPage) : bool :=
  match results p with Some (_ :: _) => true | _ => false end.

Definition startIndex (p : resultPage) : Z := (Z.of_nat pageSize * currentPage p)%Z.
Definition endIndex (p : resultPage) (l : list A) : Z :=
  Z.min (startIndex p + Z.of_nat pageSize) (Z.of_nat (length l)).

(** [l.slice(start, end)], for bounds that are not negative. *)
Definition resultsPage (p : resultPage) : list A :=
  match results p with
  | Some l => take (Z.to_nat (endIndex p l - startIndex p)) (drop (Z.to_nat (startIndex p)) l)
  | None => []
  end.

Definition hasNext (p : resultPage) : bool :=
  hasResults p &&
  match results p with
  | Some l => (startIndex p + Z.of_nat pageSize <? Z.of_nat (length l))%Z
  | None => false
  end.

Definition hasPrevious (p : resultPage) : bool := hasResults p && (0 <? currentPage p)%Z.

(** The buttons, the last two of which are disabled without a page to go to; [save]
    replaces the results and keeps the page. *)
Inductive result_step (p : resultPage) : resultPage → Prop :=
  | step_first : result_step p (mkResults (results p) 0)
  | step_next : hasNext p = true → result_step p (mkResults (results p) (currentPage p + 1))
  | step_previous : hasPrevious p = true → result_step p (mkResults (results p) (currentPage p - 1)).

Definition onImported (l : list A) (p : resultPage) : resultPage := mkResults (Some l) (currentPage p).

End results.
Arguments resultPage : clear implicits.

(** ** What is selected and what is sent *)

Lemma andAlso_returns a b : andAlso (Returns a) (Returns b) = Returns (a && b).
Proof. by destruct a. Qed.

(** A file as an export makes it: an object, whose roles, if it has any, are an object
    with an object of the roles of clients. *)
Definition file_ok (o : list (string * jsval)) : Prop :=
  NoDup o.*1 ∧ ("roles" ∈ o.*1 → ∃ r, assoc "roles" o = Obj r ∧
    ("client" ∈ r.*1 → ∃ c, assoc "client" r = Obj c)).

(** The sections of a file that have something in them. *)
Definition contains (o : list (string * jsval)) (section : string) : bool := fullArray (assoc section o).

Definition rolesOf (o : list (string * jsval)) : list (string * jsval) :=
  match assoc "roles" o with Obj r => r | _ => [] end.

Definition clientsOf (o : list (string * jsval)) : list (string * jsval) :=
  match assoc "client" (rolesOf o) with Obj c => c | _ => [] end.

Definition present (o : list (string * jsval)) : switches :=
  mkSwitches (contains o "users") (contains o "groups") (contains o "clients") (contains o "identityProviders")
    (contains (rolesOf o) "realm") (match clientsOf o with [] => false | _ => true end).

Lemma hasArray_spec o k : hasArray (Obj o) k = Returns (contains o k).
Proof.
  unfold hasArray, contains. cbn. case_bool_decide as Hk; [done|].
  by rewrite assoc_notin.
Qed.

Lemma hasRoles_spec o : file_ok o → hasRoles (Obj o) = Returns (bool_decide ("roles" ∈ o.*1)).
Proof.
  intros [_ Hr]. unfold hasRoles. cbn. case_bool_decide as Hk; [|done].
  destruct (Hr Hk) as (r & -> & _). done.
Qed.

Lemma roles_spec o :
  file_ok o →
  hasRealmRoles (Obj o) = Returns (contains (rolesOf o) "realm") ∧
  hasClientRoles (Obj o) = Returns (match clientsOf o with [] => false | _ => true end).
Proof.
  intros Hok. unfold hasRealmRoles, hasClientRoles. rewrite hasRoles_spec by done.
  unfold rolesOf, clientsOf, contains, rolesOf.
  case_bool_decide as Hk; [|rewrite (assoc_notin "roles" o Hk); by split].
  destruct Hok as [_ Hr]. destruct (Hr Hk) as (r & E & Hc). unfold andAlso, test.
  change (getp (Obj o) "roles") with (Returns (assoc "roles" o)). rewrite E. cbn. split.
  - case_bool_decide as Hrealm; [done|]. by rewrite assoc_notin.
  - case_bool_decide as Hcl.
    + destruct (Hc Hcl) as (c & ->). by destruct c.
    + by rewrite assoc_notin.
Qed.

Lemma present_spec o : file_ok o → setOnOffSwitchDefaults (Obj o) = Returns (present o).
Proof.
  intros Hok. unfold setOnOffSwitchDefaults. destruct (roles_spec o Hok) as [-> ->]. by rewrite !hasArray_spec.
Qed.

(** Every file an export makes is accepted: the switches are on for exactly the sections
    that have something in them, and the page says that there is nothing to import
    exactly if there is none. *)
Theorem importFile_spec text o p :
  JSON_parse text = Returns (Obj o) → file_ok o →
  importFile text p =
    Returns (mkImport (Obj o) (isMultiRealm p) (present o),
             if bool_decide (present o = noSwitch) then NothingToImport else NoMessage).
Proof.
  intros Hp Hok. unfold importFile. rewrite Hp. cbn [chooseRealm]. rewrite present_spec by done.
  change (Returns (present o) ≫= ?f) with (f (present o)). cbv beta. rewrite orb_false_r.
  assert (hasResources (present o) (Obj o) = Returns (negb (bool_decide (present o = noSwitch)))) as ->;
    [|cbn; by case_bool_decide].
  destruct (roles_spec o Hok) as [Hr Hc]. unfold hasResources.
  rewrite Hr, Hc, !hasArray_spec, !andAlso_returns, !orElse_returns. f_equal. unfold present, noSwitch.
  cbn [importUsers importGroups importClients importIdentityProviders importRealmRoles importClientRoles].
  destruct (contains o "users"), (contains o "groups"), (contains o "clients"), (contains o "identityProviders"),
    (contains (rolesOf o) "realm"); cbn; try (by rewrite bool_decide_false).
  destruct (clientsOf o); cbn; [by rewrite bool_decide_true|by rewrite bool_decide_false].
Qed.

Lemma assoc_obj_del k k' o : assoc k (obj_del k' o) = if String.eqb k k' then Undefined else assoc k o.
Proof.
  unfold obj_del. induction o as [|[k'' v] o IH]; [by destruct (String.eqb k k')|].
  rewrite filter_cons. cbn [fst assoc]. destruct (decide (k'' ≠ k')) as [Hne|Heq].
  - cbn [assoc]. rewrite IH. destruct (String.eqb_spec k k'') as [->|]; [|done].
    by rewrite (proj2 (String.eqb_neq _ _) Hne).
  - apply dec_stable in Heq as ->. rewrite IH. by destruct (String.eqb k k').
Qed.

Lemma assoc_delUnless k k' on o :
  assoc k (delUnless on k' o) = if negb on && String.eqb k k' then Undefined else assoc k o.
Proof. unfold delUnless. destruct on; [done|]. apply assoc_obj_del. Qed.

Lemma assoc_Undefined_obj k o r : assoc k o = Obj r → k ∈ o.*1.
Proof. intros H. destruct (decide (k ∈ o.*1)) as [|Hn]; [done|]. by rewrite assoc_notin in H. Qed.

(** The sections whose switch is off. *)
Definition switchedOff (s : switches) : list string :=
  (if importUsers s then [] else ["users"]) ++ (if importGroups s then [] else ["groups"]) ++
  (if importIdentityProviders s then [] else ["identityProviders"]) ++
  (if importClients s then [] else ["clients"]).

Definition roleSwitchedOff (s : switches) : list string :=
  (if importRealmRoles s then [] else ["realm"]) ++ (if importClientRoles s then [] else ["client"]).

(** C32: What is switched off is not sent, and everything else of the file is, with the choice
    for resources that exist. *)
Theorem saveBody_spec s choice o :
  file_ok o →
  ∃ body, saveBody s choice (Obj o) = Returns (Obj body) ∧
    assoc "ifResourceExists" body = Str choice ∧
    (∀ k, k ≠ "ifResourceExists" → k ≠ "roles" →
       assoc k body = if bool_decide (k ∈ switchedOff s) then Undefined else assoc k o) ∧
    (∀ r, assoc "roles" o = Obj r → ∃ r', assoc "roles" body = Obj r' ∧
       ∀ k, assoc k r' = if bool_decide (k ∈ roleSwitchedOff s) then Undefined else assoc k r).
Proof.
  intros [Hnd Hr]. unfold saveBody. set (o1 := delUnless (importClients s) "clients" _).
  assert (∀ k, assoc k o1 = if bool_decide (k ∈ switchedOff s) then Undefined
                            else assoc k (obj_set "ifResourceExists" (Str choice) o)) as Ho1.
  { intros k. unfold o1. rewrite !assoc_delUnless. unfold switchedOff.
    destruct s as [[] [] [] [] ? ?]; cbn;
      repeat match goal with |- context [String.eqb k ?x] => destruct (String.eqb_spec k x) as [->|] end;
      cbn; case_bool_decide; try done; set_solver. }
  assert (∀ k, k ∈ ["ifResourceExists"; "roles"] → k ∉ switchedOff s) as Hoff.
  { intros k Hk. unfold switchedOff. destruct s as [[] [] [] [] ? ?]; set_solver. }
  assert (assoc "roles" o1 = assoc "roles" o) as Hroles.
  { rewrite Ho1, bool_decide_false by (apply Hoff; set_solver). by apply assoc_obj_set_ne. }
  assert (∃ body, (if bool_decide ("roles" ∈ o1.*1)
             then roles ← saveRoles s (assoc "roles" o1); Returns (Obj (obj_set "roles" roles o1))
             else Returns (Obj o1)) = Returns (Obj body) ∧ (∀ k, k ≠ "roles" → assoc k body = assoc k o1) ∧
           (∀ r, assoc "roles" o = Obj r → ∃ r', assoc "roles" body = Obj r' ∧
             ∀ k, assoc k r' = if bool_decide (k ∈ roleSwitchedOff s) then Undefined else assoc k r)) as (body & E & Hk & Hb).
  { case_bool_decide as Hin.
    - assert ("roles" ∈ o.*1) as Hin'.
      { destruct (decide ("roles" ∈ o.*1)) as [|Hn]; [done|]. exfalso. clear -Hin Hn.
        unfold o1 in Hin. assert (∀ on k (l : list (string * jsval)), (delUnless on k l).*1 ⊆ l.*1) as Hsub.
        { intros on k l x. unfold delUnless, obj_del. destruct on; [done|].
          intros (y & -> & [_ Hy]%list_elem_of_filter)%list_elem_of_fmap. by apply list_elem_of_fmap_2. }
        do 4 apply Hsub in Hin. apply Hn. clear -Hin. induction o as [|[k v] o IH]; [set_solver|].
        simpl in Hin. destruct (String.eqb_spec "ifResourceExists" k); csimpl in *; set_solver. }
      destruct (Hr Hin') as (r & Er & _). rewrite Hroles, Er. cbn. eexists. split; [done|]. split.
      + intros k Hne. by apply assoc_obj_set_ne.
      + intros r0 [= <-]. rewrite assoc_obj_set. eexists. split; [done|]. intros k.
        rewrite !assoc_delUnless. unfold roleSwitchedOff.
        destruct (importRealmRoles s), (importClientRoles s); cbn;
          repeat match goal with |- context [String.eqb k ?x] => destruct (String.eqb_spec k x) as [->|] end;
          case_bool_decide; try done; set_solver.
    - eexists. split; [done|]. split; [done|]. intros r Er. exfalso. apply Hin.
      apply (assoc_Undefined_obj _ _ r). by rewrite Hroles. }
  exists body. split; [exact E|]. split_and!; [| |exact Hb].
  - rewrite Hk, Ho1, bool_decide_false, assoc_obj_set by (done || apply Hoff; set_solver). done.
  - intros k Hne1 Hne2. rewrite Hk, Ho1, assoc_obj_set_ne by done. done.
Qed.

(** A file with [null] for its roles is not recognised by the tests, which compare with
    the text ['undefined'], and ends in an exception. *)
Theorem null_roles_throw text o p :
  JSON_parse text = Returns (Obj o) → assoc "roles" o = Null → "roles" ∈ o.*1 →
  importFile text p = Throws TypeError.
Proof.
  intros Hp Hn Hin. unfold importFile. rewrite Hp. cbn [chooseRealm]. unfold setOnOffSwitchDefaults.
  rewrite !hasArray_spec. cbn. unfold hasRealmRoles, hasRoles. cbn. rewrite bool_decide_true by done.
  cbn. by rewrite Hn.
Qed.

(** ** The table of results *)

Section results_spec.
Context {A : Type}.

(** A page that exists. *)
Definition page_ok (p : resultPage A) : Prop :=
  (0 ≤ currentPage p)%Z ∧ ∀ l, results p = Some l → currentPage p = 0%Z ∨ (startIndex p < Z.of_nat (length l))%Z.

(** The buttons stay within the pages of the results, so that a page is never empty; the
    results of another import, which keep the page, may leave it behind their end. *)
Theorem results_in_range (l : list A) p :
  rtc result_step (mkResults (Some l) 0) p → l ≠ [] →
  results p = Some l ∧ page_ok p ∧ resultsPage p ≠ [] ∧ length (resultsPage p) ≤ pageSize ∧
  ((0 < currentPage p)%Z → ∀ a, resultsPage (onImported [a] p) = []).
Proof.
  intros Hs Hl. assert (results p = Some l ∧ page_ok p) as [Hr Hok].
  { assert (∀ p0, rtc result_step p0 p → results p0 = Some l → page_ok p0 → results p = Some l ∧ page_ok p) as H.
    { clear Hs. intros p0 Hs. induction Hs as [|p1 p2 p3 Hs _ IH]; [done|]. intros Hr [H0 H1].
      destruct Hs as [|Hn|Hn]; apply IH; try done; split; unfold startIndex in *; simpl in *.
      - done.
      - by left.
      - lia.
      - intros l' Hl'. right. unfold hasNext in Hn. apply andb_true_iff in Hn as [_ Hn].
        rewrite Hl' in Hn. apply Z.ltb_lt in Hn. unfold startIndex, pageSize in *. lia.
      - unfold hasPrevious in Hn. apply andb_true_iff in Hn as [_ Hn%Z.ltb_lt]. lia.
      - intros l' Hl'. destruct (H1 l' Hl') as [E|Hlt]; [|right; unfold pageSize in *; lia].
        unfold hasPrevious in Hn. apply andb_true_iff in Hn as [_ Hn%Z.ltb_lt]. lia. }
    apply (H _ Hs); [done|]. split; [done|]. by left. }
  split; [done|]. split; [done|]. destruct Hok as [H0 H1].
  assert (startIndex p < Z.of_nat (length l))%Z as Hlt.
  { destruct (H1 l Hr) as [E|]; [|done]. unfold startIndex. rewrite E. destruct l; [done|]. simpl. lia. }
  assert (0 ≤ startIndex p)%Z as Hge by (unfold startIndex, pageSize; lia).
  unfold resultsPage. rewrite Hr. split_and!.
  - intros E. apply (f_equal length) in E. rewrite length_take, length_drop in E. simpl in E.
    unfold endIndex, pageSize in *. lia.
  - rewrite length_take. unfold endIndex. lia.
  - intros Hpos a. cbn [onImported results]. apply nil_length_inv. rewrite length_take, length_drop.
    unfold endIndex, startIndex, pageSize in *. simpl. lia.
Qed.

End results_spec.

End RealmImport.
