(* ===== verification/AngularEquals.v ===== *)
(** [angular.equals], by which a page of the admin console tells whether its form differs
    from what the server has, on the values of [JsValue]: it ignores the order of keys, keys
    that start with a dollar sign and values that are [undefined].

    It is shown to be an equivalence on values whose objects have each key once, and to be
    respected by what the pages do to an object. *)

From S2P Require Import Prelude JsString Uri JsValue.
Import JsString Uri JsValue.

Module AngularEquals.

Definition is_private (k : string) : bool := String.eqb (String.substring 0 1 k) "$".

(** Dates, regular expressions, functions, scopes and windows are no values of [jsval].
    Two references to one object are equal, as [equals_refl] shows. *)
Fixpoint equals (v w : jsval) : bool :=
  match v, w with
  | NaN, NaN => true
  | Arr l, Arr l' =>
      (fix elements (l l' : list jsval) : bool :=
         match l, l' with
         | [], [] => true
         | x :: l, y :: l' => if equals x y then elements l l' else false
         | _, _ => false
         end) l l'
  | Obj o, Obj o' =>
      (fix members (o : list (string * jsval)) : bool :=
         match o with
         | [] => true
         | (k, x) :: o => if is_private k || equals x (assoc k o') then members o else false
         end) o
      && forallb (λ kv, bool_decide (kv.1 ∈ o.*1) || is_private kv.1 || is_undefined kv.2) o'
  | _, _ => strict_eq v w
  end.

(** Every object has each of its keys once. *)
Fixpoint keys_once (v : jsval) : bool :=
  match v with
  | Arr l => forallb keys_once l
  | Obj o => forallb (λ kv, keys_once kv.2) o && bool_decide (NoDup o.*1)
  | _ => true
  end.

(** ** Objects by their keys *)

Lemma assoc_elem (o : list (string * jsval)) k v : NoDup o.*1 → (k, v) ∈ o → assoc k o = v.
Proof.
  induction o as [|[k' w] o IH]; csimpl; [by intros _ ?%not_elem_of_nil|].
  intros [Hk Ho]%NoDup_cons [[= -> ->]|Hin]%elem_of_cons; [by rewrite String.eqb_refl|].
  destruct (String.eqb_spec k k') as [->|]; [|by apply IH].
  destruct Hk. apply list_elem_of_fmap. by exists (k', v).
Qed.

Lemma elem_assoc (o : list (string * jsval)) k : k ∈ o.*1 → (k, assoc k o) ∈ o.
Proof.
  induction o as [|[k' w] o IH]; csimpl; [by intros ?%not_elem_of_nil|].
  rewrite !elem_of_cons. destruct (String.eqb_spec k k') as [->|]; [by left|].
  intros [?|?]; [done|right; auto].
Qed.

Lemma equals_undefined v : equals Undefined v = true ↔ v = Undefined.
Proof. by destruct v. Qed.

Lemma equals_undefined_r v : equals v Undefined = true ↔ v = Undefined.
Proof. by destruct v. Qed.

Lemma equals_arr l l' : equals (Arr l) (Arr l') = true ↔ Forall2 (λ x y, equals x y = true) l l'.
Proof.
  revert l'. induction l as [|x l IH]; intros [|y l'].
  - by split.
  - split; [done|]. by inversion 1.
  - split; [done|]. by inversion 1.
  - rewrite Forall2_cons, <-IH. simpl. destruct (equals x y); naive_solver.
Qed.

Lemma equals_members o o' :
  equals (Obj o) (Obj o') = true ↔
    Forall (λ kv, is_private kv.1 = false → equals kv.2 (assoc kv.1 o') = true) o ∧
    Forall (λ kv, kv.1 ∉ o.*1 → is_private kv.1 = false → kv.2 = Undefined) o'.
Proof.
  cbn [equals]. rewrite andb_true_iff. f_equiv.
  - induction o as [|[k x] o IH]; [by split|]. rewrite Forall_cons, <-IH. simpl.
    destruct (is_private k), (equals x _); simpl; naive_solver.
  - rewrite forallb_forall, Forall_forall. setoid_rewrite <-list_elem_of_In.
    apply forall_proper; intros [k v]. rewrite !orb_true_iff, bool_decide_eq_true. simpl.
    destruct (decide (k ∈ o.*1)), (is_private k), v; naive_solver.
Qed.

(** Two objects are equal when each key that is not private has equal values, [undefined]
    for a key that is missing. *)
Lemma equals_obj o o' :
  NoDup o.*1 → NoDup o'.*1 →
  equals (Obj o) (Obj o') = true ↔
    ∀ k, is_private k = false → equals (assoc k o) (assoc k o') = true.
Proof.
  intros Ho Ho'. rewrite equals_members, !Forall_forall. split.
  - intros [H1 H2] k Hk. destruct (decide (k ∈ o.*1)) as [Hin|Hin].
    + by apply (H1 _ (elem_assoc _ _ Hin)).
    + rewrite (assoc_notin k o) by done. apply equals_undefined.
      destruct (decide (k ∈ o'.*1)) as [Hin'|]; [|by apply assoc_notin].
      by apply (H2 _ (elem_assoc _ _ Hin')).
  - intros H. split; intros [k v] Hin; simpl.
    + intros Hk. rewrite <-(assoc_elem o k v) by done. by apply H.
    + intros Hnot Hk. specialize (H k Hk). rewrite (assoc_notin k o) in H by done.
      apply equals_undefined in H. by rewrite (assoc_elem o' k v) in H.
Qed.

Lemma keys_once_obj o : keys_once (Obj o) = true ↔ Forall (λ kv, keys_once kv.2 = true) o ∧ NoDup o.*1.
Proof.
  simpl. rewrite andb_true_iff, bool_decide_eq_true, forallb_forall, Forall_forall.
  by setoid_rewrite <-list_elem_of_In.
Qed.

Lemma keys_once_arr l : keys_once (Arr l) = true ↔ Forall (λ v, keys_once v = true) l.
Proof. simpl. rewrite forallb_forall, Forall_forall. by setoid_rewrite <-list_elem_of_In. Qed.

Lemma keys_once_assoc k o : keys_once (Obj o) = true → keys_once (assoc k o) = true.
Proof.
  intros [Ho _]%keys_once_obj. destruct (decide (k ∈ o.*1)) as [Hin|].
  - rewrite Forall_forall in Ho. apply (Ho _ (elem_assoc _ _ Hin)).
  - by rewrite assoc_notin.
Qed.

Lemma keys_once_obj_set k v o :
  keys_once (Obj o) = true → keys_once v = true → keys_once (Obj (obj_set k v o)) = true.
Proof.
  rewrite !keys_once_obj. intros [Ho HN] Hv. split; [|by apply obj_set_keys].
  clear HN. induction Ho as [|[k' v'] o Hx Ho IH]; simpl; [by repeat constructor|].
  destruct (String.eqb k k'); by constructor.
Qed.

(** ** An equivalence *)

Lemma equals_refl v : keys_once v = true → equals v v = true.
Proof.
  induction v as [| |b|z| |s|l IH|o IH] using jsval_ind'; intros Hv; try done.
  - apply eqb_reflx.
  - apply Z.eqb_refl.
  - apply String.eqb_refl.
  - apply keys_once_arr in Hv. apply equals_arr.
    induction IH as [|x l Hx _ IHl]; [done|]. apply Forall_cons in Hv as [? ?]. constructor; auto.
  - pose proof Hv as [Ho HN]%keys_once_obj. apply equals_obj; [done..|]. intros k _.
    destruct (decide (k ∈ o.*1)) as [Hin|]; [|by rewrite assoc_notin].
    apply elem_assoc in Hin. rewrite Forall_forall in IH, Ho. apply (IH _ Hin), (Ho _ Hin).
Qed.

Lemma strict_eq_eq v w : strict_eq v w = true → v = w.
Proof.
  destruct v, w; simpl; try done.
  - by intros ->%eqb_prop.
  - by intros ->%Z.eqb_eq.
  - by intros ->%String.eqb_eq.
Qed.

(** Values other than arrays and objects equal only themselves. *)
Lemma equals_scalar v w :
  match v with Arr _ | Obj _ => False | _ => True end → equals v w = true → v = w.
Proof.
  intros Hv H. destruct v; try done; destruct w; try done; cbn [equals] in H; by apply strict_eq_eq in H.
Qed.

Lemma equals_sym v w :
  keys_once v = true → keys_once w = true → equals v w = true → equals w v = true.
Proof.
  revert w. induction v as [| |b|z| |s|l IH|o IH] using jsval_ind'; intros w Hv Hw H;
    try (by apply equals_scalar in H as <-; [apply equals_refl|]).
  - destruct w as [| | | | | |l'|]; try done.
    apply equals_arr in H. apply keys_once_arr in Hv, Hw. apply equals_arr.
    induction H as [|x y l l' Hxy _ IHl]; [done|].
    apply Forall_cons in IH as [Hx ?], Hv as [? ?], Hw as [? ?]. constructor; auto.
  - destruct w as [| | | | | | |o']; try done.
    pose proof Hv as [Ho HN]%keys_once_obj. pose proof Hw as [Ho' HN']%keys_once_obj.
    rewrite equals_obj in * by done. intros k Hk. specialize (H k Hk).
    destruct (decide (k ∈ o.*1)) as [Hin|].
    + rewrite Forall_forall in IH. apply (IH _ (elem_assoc _ _ Hin)); [by apply keys_once_assoc..|done].
    + rewrite (assoc_notin k o) in * by done. apply equals_undefined in H. by rewrite H.
Qed.

Lemma equals_trans u v w :
  keys_once u = true → keys_once v = true → keys_once w = true →
  equals u v = true → equals v w = true → equals u w = true.
Proof.
  revert v w. induction u as [| |b|z| |s|l IH|o IH] using jsval_ind'; intros v w Hu Hv Hw H H';
    try (by apply equals_scalar in H as <-).
  - destruct v as [| | | | | |l'|]; try done. destruct w as [| | | | | |l''|]; try done.
    rewrite equals_arr in *. rewrite keys_once_arr in *. revert l'' Hw H'.
    induction H as [|x y l l' Hxy _ IHl]; intros l'' Hw H'; inversion H'; subst; [done|].
    apply Forall_cons in IH as [Hx ?], Hu as [? ?], Hv as [? ?], Hw as [? ?]. constructor; eauto.
  - destruct v as [| | | | | | |o']; try done. destruct w as [| | | | | | |o'']; try done.
    pose proof Hu as [_ HN]%keys_once_obj. pose proof Hv as [_ HN']%keys_once_obj.
    pose proof Hw as [_ HN'']%keys_once_obj.
    rewrite equals_obj in * by done. intros k Hk. specialize (H k Hk). specialize (H' k Hk).
    destruct (decide (k ∈ o.*1)) as [Hin|].
    + rewrite Forall_forall in IH.
      apply (IH _ (elem_assoc _ _ Hin) (assoc k o')); try done; by apply keys_once_assoc.
    + rewrite (assoc_notin k o) in * by done. apply equals_undefined in H. by rewrite H in H'.
Qed.

#[global] Arguments keys_once _ : simpl never.
#[global] Arguments equals _ _ : simpl never.

(** ** Setoid rewriting

    [v ≡ w] for values with each key once; the pages respect it. *)

#[global] Instance jsval_equiv : Equiv jsval := λ v w,
  keys_once v = true ∧ keys_once w = true ∧ equals v w = true.

#[global] Instance jsval_equiv_sym : Symmetric (≡@{jsval}).
Proof. intros v w (Hv & Hw & H). split_and!; [done..|]. by apply equals_sym. Qed.

#[global] Instance jsval_equiv_trans : Transitive (≡@{jsval}).
Proof.
  intros u v w (Hu & Hv & H) (_ & Hw & H'). split_and!; [done..|]. by apply (equals_trans u v w).
Qed.

#[global] Instance equals_proper : Proper ((≡) ==> (≡) ==> (=)) equals.
Proof.
  intros v v' Hv w w' Hw.
  assert (∀ v v' w w', v ≡ v' → w ≡ w' → equals v w = true → equals v' w' = true) as Himp.
  { clear. intros v v' w w' Hv Hw H.
    assert (v ≡ w) as Hvw by (split_and!; [apply Hv|apply Hw|done]).
    assert (v' ≡ w') as Hvw' by (rewrite <-Hv, <-Hw; done). apply Hvw'. }
  destruct (equals v w) eqn:E, (equals v' w') eqn:E'; try done.
  - by rewrite (Himp v v' w w') in E'.
  - rewrite (Himp v' v w' w) in E; [done|by symmetry..|done].
Qed.

#[global] Instance assoc_proper k : is_private k = false →
  Proper ((λ o o', Obj o ≡ Obj o') ==> (≡@{jsval})) (assoc k).
Proof.
  intros Hk o o' (Ho & Ho' & H). split_and!; [by apply keys_once_assoc..|].
  apply keys_once_obj in Ho as [_ ?], Ho' as [_ ?]. by apply equals_obj.
Qed.

(** [o[k] = v] *)
Lemma obj_set_equiv k v v' o o' :
  v ≡ v' → Obj o ≡ Obj o' → Obj (obj_set k v o) ≡ Obj (obj_set k v' o').
Proof.
  intros (Hv & Hv' & H) (Ho & Ho' & HH). split_and!; [by apply keys_once_obj_set..|].
  pose proof Ho as [_ HN]%keys_once_obj. pose proof Ho' as [_ HN']%keys_once_obj.
  rewrite equals_obj in * by (try apply obj_set_keys; done).
  intros k' Hk'. destruct (decide (k' = k)) as [->|Hne].
  - by rewrite !assoc_obj_set.
  - rewrite !assoc_obj_set_ne by done. by apply HH.
Qed.

End AngularEquals.
