(* ===== verification/ClientDetail.v ===== *)
(** The page of a client, [ClientDetailCtrl] of clients.js: what it shows of a client, the
    handlers of its inputs, the watches, [save] and [importFile].

    The page edits [clientEdit], a copy of the client.  The type of access, the protocol, the
    algorithms and the switches are variables of their own, which [updateProperties] sets
    from the client and [save] writes back.  A turn is a handler and the digest that follows
    it. *)

From S2P Require Import Prelude JsString Uri JsValue AngularEquals.
Import JsString Uri JsValue AngularEquals.

Module ClientDetail.

Abbreviation object := (list (string * jsval)).

(** ** What the page shows *)

Record detail := mkDetail {
  original : object;            (* the client of the route *)
  client : object;              (* $scope.client *)
  clientEdit : object;
  protocols : list string;
  accessType : string;
  protocol : jsval;
  signatureAlgorithm : jsval;
  nameIdFormat : jsval;
  samlXmlKeyNameTranformer : jsval;
  userInfoSignedResponseAlg : jsval;
  requestObjectSignatureAlg : jsval;
  requestObjectRequired : jsval;
  switches : object;            (* samlServerSignature and the other twelve, by name *)
  newRedirectUri : jsval;
  newWebOrigin : jsval;
  changed : bool;
  importing : bool;
  dialogs : nat;                (* calls of Dialog.confirm *)
  lastEdit : option jsval;      (* what the watches saw last *)
  lastUri : option jsval;
  lastOrigin : option jsval
}.

Definition eta_detail (d : detail) : detail :=
  mkDetail (original d) (client d) (clientEdit d) (protocols d) (accessType d) (protocol d)
    (signatureAlgorithm d) (nameIdFormat d) (samlXmlKeyNameTranformer d)
    (userInfoSignedResponseAlg d) (requestObjectSignatureAlg d) (requestObjectRequired d)
    (switches d) (newRedirectUri d) (newWebOrigin d) (changed d) (importing d) (dialogs d)
    (lastEdit d) (lastUri d) (lastOrigin d).

#[global] Instance set_client : Field client := ltac:(mk_field eta_detail client).
#[global] Instance set_clientEdit : Field clientEdit := ltac:(mk_field eta_detail clientEdit).
#[global] Instance set_accessType : Field accessType := ltac:(mk_field eta_detail accessType).
#[global] Instance set_protocol : Field protocol := ltac:(mk_field eta_detail protocol).
#[global] Instance set_signatureAlgorithm : Field signatureAlgorithm := ltac:(mk_field eta_detail signatureAlgorithm).
#[global] Instance set_nameIdFormat : Field nameIdFormat := ltac:(mk_field eta_detail nameIdFormat).
#[global] Instance set_samlXmlKeyNameTranformer : Field samlXmlKeyNameTranformer := ltac:(mk_field eta_detail samlXmlKeyNameTranformer).
#[global] Instance set_userInfoSignedResponseAlg : Field userInfoSignedResponseAlg := ltac:(mk_field eta_detail userInfoSignedResponseAlg).
#[global] Instance set_requestObjectSignatureAlg : Field requestObjectSignatureAlg := ltac:(mk_field eta_detail requestObjectSignatureAlg).
#[global] Instance set_requestObjectRequired : Field requestObjectRequired := ltac:(mk_field eta_detail requestObjectRequired).
#[global] Instance set_switches : Field switches := ltac:(mk_field eta_detail switches).
#[global] Instance set_newRedirectUri : Field newRedirectUri := ltac:(mk_field eta_detail newRedirectUri).
#[global] Instance set_newWebOrigin : Field newWebOrigin := ltac:(mk_field eta_detail newWebOrigin).
#[global] Instance set_changed : Field changed := ltac:(mk_field eta_detail changed).
#[global] Instance set_importing : Field importing := ltac:(mk_field eta_detail importing).
#[global] Instance set_dialogs : Field dialogs := ltac:(mk_field eta_detail dialogs).
#[global] Instance set_lastEdit : Field lastEdit := ltac:(mk_field eta_detail lastEdit).
#[global] Instance set_lastUri : Field lastUri := ltac:(mk_field eta_detail lastUri).
#[global] Instance set_lastOrigin : Field lastOrigin := ltac:(mk_field eta_detail lastOrigin).

Definition accessTypes : list string := ["confidential"; "public"; "bearer-only"].
Definition signatureAlgorithms : list string := ["RSA_SHA1"; "RSA_SHA256"; "RSA_SHA512"; "DSA_SHA1"].
Definition nameIdFormats : list string := ["username"; "email"; "transient"; "persistent"].
Definition xmlKeyNameTranformers : list string := ["NONE"; "KEY_ID"; "CERT_SUBJECT"].

(** The attributes that hold a switch as text, with the variable of the page, in the order
    of [updateProperties] and of [save]. *)
Definition switchTable : list (string * string) :=
  [("saml.server.signature", "samlServerSignature");
   ("saml.server.signature.keyinfo.ext", "samlServerSignatureEnableKeyInfoExtension");
   ("saml.assertion.signature", "samlAssertionSignature");
   ("saml.client.signature", "samlClientSignature");
   ("saml.encrypt", "samlEncrypt");
   ("saml.authnstatement", "samlAuthnStatement");
   ("saml.onetimeuse.condition", "samlOneTimeUseCondition");
   ("saml_force_name_id_format", "samlForceNameIdFormat");
   ("saml.multivalued.roles", "samlMultiValuedRoles");
   ("saml.force.post.binding", "samlForcePostBinding");
   ("exclude.session.state.from.auth.response", "excludeSessionStateFromAuthResponse");
   ("tls.client.certificate.bound.access.tokens", "tlsClientCertificateBoundAccessTokens");
   ("display.on.consent.screen", "displayOnConsentScreen")].

(** The variables the controller starts with; two of the thirteen are undefined. *)
Definition initialSwitches : object :=
  (λ v, (v, Bool false)) <$>
    ["samlAuthnStatement"; "samlOneTimeUseCondition"; "samlMultiValuedRoles"; "samlServerSignature";
     "samlServerSignatureEnableKeyInfoExtension"; "samlAssertionSignature"; "samlClientSignature";
     "samlEncrypt"; "samlForcePostBinding"; "samlForceNameIdFormat";
     "tlsClientCertificateBoundAccessTokens"].

(** ** Clients *)

Definition attributes (c : object) : object :=
  match assoc "attributes" c with Obj a => a | _ => [] end.

(** [c.attributes[k] = v] *)
Definition setAttribute (k : string) (v : jsval) (c : object) : object :=
  obj_set "attributes" (Obj (obj_set k v (attributes c))) c.

(** [if (!c.attributes) { c.attributes = {}; }] *)
Definition withAttributes (c : object) : object :=
  if truthy (assoc "attributes" c) then c else obj_set "attributes" (Obj []) c.

Definition accessTypeOf (c : object) : string :=
  if truthy (assoc "bearerOnly" c) then "bearer-only"
  else if truthy (assoc "publicClient" c) then "public" else "confidential".

(** [protocols[protocols.indexOf(c.protocol)]], and the first protocol without one. *)
Definition protocolOf (protocols : list string) (c : object) : jsval :=
  let p := assoc "protocol" c in
  if truthy p then
    match list_find (λ q, strict_eq (Str q) p = true) protocols with
    | Some (_, q) => Str q
    | None => Undefined
    end
  else match protocols with q :: _ => Str q | [] => Undefined end.

(** A chain of [if (attribute == option) variable = option]. *)
Definition chosen (eq : jsval → jsval → bool) (options : list string) (attribute old : jsval) : jsval :=
  match list_find (λ o, eq attribute (Str o) = true) options with
  | Some (_, o) => Str o
  | None => old
  end.

(** [if (attribute) variable = (attribute == "true")] *)
Definition readSwitch (a : object) (sw : object) (av : string * string) : object :=
  let x := assoc av.1 a in
  if truthy x then obj_set av.2 (Bool (loose_eq x (Str "true"))) sw else sw.

Definition orElse (x : jsval) (s : string) : jsval := if is_nullish x then Str s else x.

Definition updateProperties (d : detail) : detail :=
  let c := withAttributes (client d) in
  let a := attributes c in
  d <| client := c |>
    <| accessType := accessTypeOf c |>
    <| protocol := protocolOf (protocols d) c |>
    <| signatureAlgorithm :=
         chosen loose_eq signatureAlgorithms (assoc "saml.signature.algorithm" a) (signatureAlgorithm d) |>
    <| nameIdFormat :=
         chosen loose_eq nameIdFormats (assoc "saml_name_id_format" a) (nameIdFormat d) |>
    <| samlXmlKeyNameTranformer :=
         chosen strict_eq xmlKeyNameTranformers
           (assoc "saml.server.signature.keyinfo.xmlSigKeyInfoKeyNameTransformer" a)
           (samlXmlKeyNameTranformer d) |>
    <| userInfoSignedResponseAlg := orElse (assoc "user.info.response.signature.alg" a) "unsigned" |>
    <| requestObjectSignatureAlg := orElse (assoc "request.object.signature.alg" a) "any" |>
    <| requestObjectRequired := orElse (assoc "request.object.required" a) "not required" |>
    <| switches := foldl (readSwitch a) (switches d) switchTable |>.

(** The controller; [client] and [original] are one object, to which [updateProperties] may
    add its attributes before the copy is made. *)
Definition openPage (protos : list string) (c : object) : detail :=
  let d := updateProperties
    (mkDetail c c [] protos "" Undefined Undefined Undefined (Str "KEY_ID") Undefined Undefined
       Undefined initialSwitches Undefined Undefined false false 0 None None None) in
  mkDetail (client d) (client d) (client d) (protocols d) (accessType d) (protocol d)
    (signatureAlgorithm d) (nameIdFormat d) (samlXmlKeyNameTranformer d)
    (userInfoSignedResponseAlg d) (requestObjectSignatureAlg d) (requestObjectRequired d)
    (switches d) Undefined Undefined false false 0 None None None.

(** The answer of the converter: [clientEdit] becomes a copy of the client of the route, not
    of the one that was read. *)
Definition importFile (data : object) (d : detail) : detail :=
  updateProperties (d <| client := data |>)
    <| importing := true |> <| clientEdit := original d |>.

(** ** Handlers *)

Definition setEdit (k : string) (v : jsval) (d : detail) : detail :=
  d <| clientEdit ::= obj_set k v |>.

Definition setEditAttribute (k : string) (v : jsval) (d : detail) : detail :=
  d <| clientEdit ::= setAttribute k v |>.

Definition changeAccessType (d : detail) : detail :=
  if String.eqb (accessType d) "confidential" then
    setEdit "publicClient" (Bool false) (setEdit "bearerOnly" (Bool false) d)
  else if String.eqb (accessType d) "public" then
    setEdit "publicClient" (Bool true) (setEdit "bearerOnly" (Bool false) d)
  else if String.eqb (accessType d) "bearer-only" then
    setEdit "publicClient" (Bool false) (setEdit "bearerOnly" (Bool true) d)
  else d.

Definition changeProtocol (d : detail) : detail :=
  if loose_eq (protocol d) (Str "openid-connect") then setEdit "protocol" (Str "openid-connect") d
  else if loose_eq (protocol d) (Str "saml") then setEdit "protocol" (Str "saml") d
  else d.

Definition changeAlgorithm (d : detail) : detail :=
  setEditAttribute "saml.signature.algorithm" (signatureAlgorithm d) d.

Definition changeNameIdFormat (d : detail) : detail :=
  setEditAttribute "saml_name_id_format" (nameIdFormat d) d.

Definition changeSamlSigKeyNameTranformer (d : detail) : detail :=
  setEditAttribute "saml.server.signature.keyinfo.xmlSigKeyInfoKeyNameTransformer"
    (samlXmlKeyNameTranformer d) d.

(** [x === none ? null : x] *)
Definition nullFor (none : string) (x : jsval) : jsval :=
  if strict_eq x (Str none) then Null else x.

Definition changeUserInfoSignedResponseAlg (d : detail) : detail :=
  setEditAttribute "user.info.response.signature.alg"
    (nullFor "unsigned" (userInfoSignedResponseAlg d)) d.

Definition changeRequestObjectSignatureAlg (d : detail) : detail :=
  setEditAttribute "request.object.signature.alg"
    (nullFor "any" (requestObjectSignatureAlg d)) d.

Definition changeRequestObjectRequired (d : detail) : detail :=
  setEditAttribute "request.object.required"
    (nullFor "not required" (requestObjectRequired d)) d.

Definition switchChange (d : detail) : detail := d <| changed := true |>.

(** [list.push(x)] and [list.splice(index, 1)] on a list of [clientEdit]. *)
Definition onList (k : string) (f : list jsval → list jsval) : M detail unit :=
  d ← gets (λ d, assoc k (clientEdit d));
  match d with
  | Arr l => modify (setEdit k (Arr (f l)))
  | _ => throw TypeError
  end.

Definition deleteWebOrigin (index : nat) : M detail unit := onList "webOrigins" (delete index).
Definition deleteRedirectUri (index : nat) : M detail unit := onList "redirectUris" (delete index).

Definition addWebOrigin : M detail unit :=
  x ← gets newWebOrigin;
  onList "webOrigins" (λ l, l ++ [x]);;
  modify (λ d, d <| newWebOrigin := Str "" |>).

Definition addRedirectUri : M detail unit :=
  x ← gets newRedirectUri;
  onList "redirectUris" (λ l, l ++ [x]);;
  modify (λ d, d <| newRedirectUri := Str "" |>).

(** [x && x.length > 0] *)
Definition typed (x : jsval) : bool :=
  truthy x && match x with Str _ => true | Arr l => negb (bool_decide (l = [])) | _ => false end.

(** [if (variable == true) attribute = "true" else attribute = "false"] *)
Definition writeSwitch (sw : object) (c : object) (av : string * string) : object :=
  setAttribute av.1 (Str (if loose_eq (assoc av.2 sw) (Bool true) then "true" else "false")) c.

(** The statements of [save] before its test. *)
Definition saveEdit (d : detail) : object :=
  let c := foldl (writeSwitch (switches d)) (clientEdit d) switchTable in
  let c := obj_set "protocol" (protocol d) c in
  let c := setAttribute "saml.signature.algorithm" (signatureAlgorithm d) c in
  setAttribute "saml_name_id_format" (nameIdFormat d) c.

(** [!list || list.length == 0] *)
Definition emptyList (v : jsval) : bool :=
  negb (truthy v) || match v with Arr l => bool_decide (l = []) | _ => false end.

Definition needsRedirectUri (c : object) : bool :=
  negb (loose_eq (assoc "protocol" c) (Str "saml")) && negb (truthy (assoc "bearerOnly" c))
  && (truthy (assoc "standardFlowEnabled" c) || truthy (assoc "implicitFlowEnabled" c))
  && emptyList (assoc "redirectUris" c).

(** [save]: the body of the request, or [None] with the message that a redirect URI is
    missing. *)
Definition save : M detail (option object) :=
  uri ← gets newRedirectUri;
  when (typed uri) addRedirectUri;;
  origin ← gets newWebOrigin;
  when (typed origin) addWebOrigin;;
  modify (λ d, d <| clientEdit := saveEdit d |>);;
  gets (λ d, if needsRedirectUri (clientEdit d) then None else Some (clientEdit d)).

#[global] Arguments saveEdit _ : simpl never.
#[global] Arguments needsRedirectUri _ : simpl never.
#[global] Arguments accessTypeOf _ : simpl never.
#[global] Arguments attributes _ : simpl never.
#[global] Arguments chosen _ _ _ _ : simpl never.

(** ** Watches *)

Definition isChanged (d : detail) : bool :=
  negb (equals (Obj (client d)) (Obj (clientEdit d))) || typed (newRedirectUri d) || typed (newWebOrigin d).

Definition configureAuthorizationServices (d : detail) : detail :=
  let d :=
    if truthy (assoc "authorizationServicesEnabled" (clientEdit d)) then
      let d := if String.eqb (accessType d) "public" then d <| accessType := "confidential" |> else d in
      setEdit "serviceAccountsEnabled" (Bool true) (setEdit "publicClient" (Bool false) d)
    else if truthy (assoc "bearerOnly" (clientEdit d)) then
      setEdit "serviceAccountsEnabled" (Bool false) d
    else d in
  if truthy (assoc "authorizationServicesEnabled" (client d))
     && negb (truthy (assoc "authorizationServicesEnabled" (clientEdit d)))
  then d <| dialogs ::= S |> else d.

(** The second callback of the dialog. *)
Definition onDialogCancelled : detail → detail := setEdit "authorizationServicesEnabled" (Bool true).

(** A watch with [true]: whether the value differs from the one it saw last. *)
Definition dirty (last : option jsval) (v : jsval) : bool :=
  match last with None => true | Some w => negb (equals v w) end.

Definition watchEdit (d : detail) : detail :=
  if dirty (lastEdit d) (Obj (clientEdit d)) then
    let d := d <| lastEdit := Some (Obj (clientEdit d)) |> in
    configureAuthorizationServices (d <| changed := isChanged d |>)
  else d.

Definition watchUri (d : detail) : detail :=
  if dirty (lastUri d) (newRedirectUri d) then
    let d := d <| lastUri := Some (newRedirectUri d) |> in d <| changed := isChanged d |>
  else d.

Definition watchOrigin (d : detail) : detail :=
  if dirty (lastOrigin d) (newWebOrigin d) then
    let d := d <| lastOrigin := Some (newWebOrigin d) |> in d <| changed := isChanged d |>
  else d.

Definition clean (d : detail) : bool :=
  negb (dirty (lastEdit d) (Obj (clientEdit d))) && negb (dirty (lastUri d) (newRedirectUri d))
  && negb (dirty (lastOrigin d) (newWebOrigin d)).

(** A digest runs the watches until none of them fires; AngularJS gives up after ten
    repetitions. *)
Fixpoint digestLoop (ttl : nat) (d : detail) : option detail :=
  if clean d then Some d
  else match ttl with
       | 0 => None
       | S ttl => digestLoop ttl (watchOrigin (watchUri (watchEdit d)))
       end.

Definition digest (d : detail) : option detail := digestLoop 10 d.

(** ** Turns *)

(** What the administrator does: an input of [clientEdit] that the controller has no
    handler for, a choice, a switch, the text of a new URI, the buttons. *)
Inductive event :=
  | EditField (k : string) (v : jsval)
  | EditAttribute (k : string) (v : jsval)
  | SelectAccessType (t : string)
  | SelectProtocol (p : string)
  | SelectAlgorithm (a : string)
  | SelectNameIdFormat (f : string)
  | SelectKeyNameTransformer (t : string)
  | SelectUserInfoAlg (a : string)
  | SelectRequestObjectAlg (a : string)
  | SelectRequestObjectRequired (r : string)
  | ToggleSwitch (variable : string) (on : bool)
  | TypeRedirectUri (s : string)
  | TypeWebOrigin (s : string)
  | AddRedirectUri
  | AddWebOrigin
  | DeleteRedirectUri (index : nat)
  | DeleteWebOrigin (index : nat)
  | CancelDialog
  | Save.

(** The buttons that add to a list test the length of the text first. *)
Definition handle (e : event) : M detail unit :=
  match e with
  | EditField k v => modify (setEdit k v)
  | EditAttribute k v => modify (setEditAttribute k v)
  | SelectAccessType t => modify (λ d, changeAccessType (d <| accessType := t |>))
  | SelectProtocol p => modify (λ d, changeProtocol (d <| protocol := Str p |>))
  | SelectAlgorithm a => modify (λ d, changeAlgorithm (d <| signatureAlgorithm := Str a |>))
  | SelectNameIdFormat f => modify (λ d, changeNameIdFormat (d <| nameIdFormat := Str f |>))
  | SelectKeyNameTransformer t =>
      modify (λ d, changeSamlSigKeyNameTranformer (d <| samlXmlKeyNameTranformer := Str t |>))
  | SelectUserInfoAlg a =>
      modify (λ d, changeUserInfoSignedResponseAlg (d <| userInfoSignedResponseAlg := Str a |>))
  | SelectRequestObjectAlg a =>
      modify (λ d, changeRequestObjectSignatureAlg (d <| requestObjectSignatureAlg := Str a |>))
  | SelectRequestObjectRequired r =>
      modify (λ d, changeRequestObjectRequired (d <| requestObjectRequired := Str r |>))
  | ToggleSwitch x b => modify (λ d, switchChange (d <| switches ::= obj_set x (Bool b) |>))
  | TypeRedirectUri s => modify (λ d, d <| newRedirectUri := Str s |>)
  | TypeWebOrigin s => modify (λ d, d <| newWebOrigin := Str s |>)
  | AddRedirectUri => x ← gets newRedirectUri; when (typed x) addRedirectUri
  | AddWebOrigin => x ← gets newWebOrigin; when (typed x) addWebOrigin
  | DeleteRedirectUri i => deleteRedirectUri i
  | DeleteWebOrigin i => deleteWebOrigin i
  | CancelDialog => modify onDialogCancelled
  | Save => save;; mret tt
  end.

(** The digest runs also after a handler that threw; [None] is AngularJS giving up. *)
Definition turn (e : event) (d : detail) : option detail := digest (handle e d).2.

Fixpoint turns (es : list event) (d : detail) : option detail :=
  match es with
  | [] => Some d
  | e :: es => d ← turn e d; turns es d
  end.

(** The page as the administrator finds it, after its first digest. *)
Definition visit (protos : list string) (c : object) (es : list event) : option detail :=
  d ← digest (openPage protos c); turns es d.

(** The attributes that belong to a variable of the page. *)
Definition ownAttributes : list string :=
  switchTable.*1 ++
  ["saml.signature.algorithm"; "saml_name_id_format";
   "saml.server.signature.keyinfo.xmlSigKeyInfoKeyNameTransformer";
   "user.info.response.signature.alg"; "request.object.signature.alg"; "request.object.required"].

(** The inputs that are bound to [clientEdit] itself keep to what has no variable, and a
    choice is one of the options. *)
Definition allowed (e : event) : bool :=
  match e with
  | EditField k v =>
      bool_decide (k ∉ ["attributes"; "bearerOnly"; "publicClient"; "protocol"]) && keys_once v
  | EditAttribute k v => bool_decide (k ∉ ownAttributes) && keys_once v
  | SelectAccessType t => bool_decide (t ∈ accessTypes)
  | SelectAlgorithm a => bool_decide (a ∈ signatureAlgorithms)
  | SelectNameIdFormat f => bool_decide (f ∈ nameIdFormats)
  | SelectKeyNameTransformer t => bool_decide (t ∈ xmlKeyNameTranformers)
  | _ => true
  end.

(** ** Reading what was written *)

(** Comparisons of constants, and closed propositions by evaluating their decision. *)
Ltac constants :=
  repeat match goal with
    | |- context [String.eqb ?a ?b] =>
        let r := eval vm_compute in (String.eqb a b) in change (String.eqb a b) with r
    end; cbv iota.

Ltac decided := apply (bool_decide_unpack _); vm_compute; exact I.

Lemma attributes_obj_set k v c : k ≠ "attributes" → attributes (obj_set k v c) = attributes c.
Proof. intros Hk. unfold attributes. by rewrite assoc_obj_set_ne. Qed.

Lemma attributes_setAttribute k v c : attributes (setAttribute k v c) = obj_set k v (attributes c).
Proof. unfold setAttribute, attributes at 1. by rewrite assoc_obj_set. Qed.

Lemma assoc_setAttribute k k' v c : k ≠ "attributes" → assoc k (setAttribute k' v c) = assoc k c.
Proof. intros Hk. unfold setAttribute. by rewrite assoc_obj_set_ne. Qed.

Lemma accessTypeOf_obj_set k v c :
  k ≠ "bearerOnly" → k ≠ "publicClient" → accessTypeOf (obj_set k v c) = accessTypeOf c.
Proof. intros. unfold accessTypeOf. by rewrite !assoc_obj_set_ne by done. Qed.

Lemma accessTypeOf_setAttribute k v c : accessTypeOf (setAttribute k v c) = accessTypeOf c.
Proof. by apply accessTypeOf_obj_set. Qed.

Create Rewrite HintDb client.
#[export] Hint Rewrite assoc_obj_set attributes_setAttribute accessTypeOf_setAttribute : client.
#[export] Hint Rewrite assoc_obj_set_ne attributes_obj_set assoc_setAttribute accessTypeOf_obj_set
  using (done || set_solver) : client.

(** Setting a field to the value it has. *)
Lemma obj_set_id k v (o : object) : assoc k o = v → v ≠ Undefined → obj_set k v o = o.
Proof.
  intros <-. induction o as [|[k' w] o IH]; simpl; [done|].
  destruct (String.eqb_spec k k') as [->|]; [done|]. intros Hv. by rewrite IH.
Qed.

Lemma keys_once_attributes c : keys_once (Obj c) = true → keys_once (Obj (attributes c)) = true.
Proof.
  intros Hc. apply (keys_once_assoc "attributes") in Hc. unfold attributes. by case_match.
Qed.

Lemma keys_once_setAttribute k v c :
  keys_once (Obj c) = true → keys_once v = true → keys_once (Obj (setAttribute k v c)) = true.
Proof.
  intros Hc Hv. apply keys_once_obj_set; [done|].
  apply keys_once_obj_set; [by apply keys_once_attributes|done].
Qed.

Lemma keys_once_withAttributes c : keys_once (Obj c) = true → keys_once (Obj (withAttributes c)) = true.
Proof. intros. unfold withAttributes. case_match; [done|]. by apply keys_once_obj_set. Qed.

Create HintDb client discriminated.
#[export] Hint Resolve keys_once_obj_set keys_once_setAttribute keys_once_attributes
  keys_once_withAttributes : client.

(** Truth, lists and text depend on a value only up to [angular.equals]. *)
Lemma truthy_equals v w : equals v w = true → truthy v = truthy w.
Proof. intros H. destruct v; try (by apply equals_scalar in H as <-); by destruct w. Qed.

Lemma typed_equals v w : equals v w = true → typed v = typed w.
Proof.
  intros H. destruct v as [| | | | | |l|o]; try (by apply equals_scalar in H as <-); destruct w as [| | | | | |l'|o']; try done.
  apply equals_arr in H. unfold typed. simpl. by inversion H.
Qed.

Lemma truthy_equiv k c c' : is_private k = false →
  Obj c ≡ Obj c' → truthy (assoc k c) = truthy (assoc k c').
Proof. intros Hk Hc. apply truthy_equals. apply (assoc_proper k Hk c c' Hc). Qed.

(** ** Authorization services *)

(** What [configureAuthorizationServices] makes of [clientEdit]. *)
Definition authorizationEdit (c : object) : object :=
  if truthy (assoc "authorizationServicesEnabled" c) then
    obj_set "serviceAccountsEnabled" (Bool true) (obj_set "publicClient" (Bool false) c)
  else if truthy (assoc "bearerOnly" c) then obj_set "serviceAccountsEnabled" (Bool false) c
  else c.

Lemma configure_edit d :
  clientEdit (configureAuthorizationServices d) = authorizationEdit (clientEdit d).
Proof.
  unfold configureAuthorizationServices, authorizationEdit, setEdit.
  repeat (case_match; simpl; try done).
Qed.

Lemma authorizationEdit_idem c : authorizationEdit (authorizationEdit c) = authorizationEdit c.
Proof.
  unfold authorizationEdit.
  destruct (truthy (assoc "authorizationServicesEnabled" c)) eqn:E.
  - autorewrite with client. rewrite E. rewrite (obj_set_id "publicClient") by (by autorewrite with client).
    by rewrite obj_set_id by (by autorewrite with client).
  - destruct (truthy (assoc "bearerOnly" c)) eqn:E'; [|by rewrite E, E'].
    autorewrite with client. rewrite E, E'. by rewrite obj_set_id by (by autorewrite with client).
Qed.

(** Authorization services need a service account, and a client that can keep a secret. *)
Definition authorized (c : object) : Prop :=
  truthy (assoc "authorizationServicesEnabled" c) = true →
  truthy (assoc "serviceAccountsEnabled" c) = true ∧ truthy (assoc "publicClient" c) = false.

Lemma authorizationEdit_authorized c : authorized (authorizationEdit c).
Proof.
  unfold authorized, authorizationEdit.
  destruct (truthy (assoc "authorizationServicesEnabled" c)) eqn:E.
  - by autorewrite with client.
  - destruct (truthy (assoc "bearerOnly" c)); autorewrite with client; by rewrite E.
Qed.

Lemma authorized_equiv c c' : Obj c ≡ Obj c' → authorized c → authorized c'.
Proof. intros H. unfold authorized. by rewrite !(λ k Hk, truthy_equiv k c c' Hk H). Qed.

Lemma authorizationEdit_accessType c :
  accessTypeOf (authorizationEdit c) =
    if truthy (assoc "authorizationServicesEnabled" c)
    then if String.eqb (accessTypeOf c) "public" then "confidential" else accessTypeOf c
    else accessTypeOf c.
Proof.
  unfold authorizationEdit. destruct (truthy (assoc "authorizationServicesEnabled" c)).
  - autorewrite with client. unfold accessTypeOf. autorewrite with client. simpl.
    by destruct (truthy (assoc "bearerOnly" c)), (truthy (assoc "publicClient" c)).
  - destruct (truthy (assoc "bearerOnly" c)); by autorewrite with client.
Qed.

(** ** What the page keeps *)

(** The variables of the page agree with [clientEdit], and objects have their keys once. *)
Record coherent (d : detail) : Prop := {
  client_once : keys_once (Obj (client d)) = true;
  edit_once : keys_once (Obj (clientEdit d)) = true;
  uri_once : keys_once (newRedirectUri d) = true;
  origin_once : keys_once (newWebOrigin d) = true;
  access_agrees : accessType d = accessTypeOf (clientEdit d);
  transformer_agrees :
    samlXmlKeyNameTranformer d =
      chosen strict_eq xmlKeyNameTranformers
        (assoc "saml.server.signature.keyinfo.xmlSigKeyInfoKeyNameTransformer" (attributes (clientEdit d)))
        (Str "KEY_ID");
  userInfo_agrees :
    userInfoSignedResponseAlg d =
      orElse (assoc "user.info.response.signature.alg" (attributes (clientEdit d))) "unsigned";
  requestAlg_agrees :
    requestObjectSignatureAlg d =
      orElse (assoc "request.object.signature.alg" (attributes (clientEdit d))) "any";
  requestRequired_agrees :
    requestObjectRequired d =
      orElse (assoc "request.object.required" (attributes (clientEdit d))) "not required";
  protocol_text : protocol d = Undefined ∨ ∃ p, protocol d = Str p;
  algorithm_known :
    signatureAlgorithm d = Undefined ∨ ∃ a, a ∈ signatureAlgorithms ∧ signatureAlgorithm d = Str a;
  format_known : nameIdFormat d = Undefined ∨ ∃ f, f ∈ nameIdFormats ∧ nameIdFormat d = Str f
}.

(** What the watches saw last is also well-formed. *)
Definition watched (d : detail) : Prop :=
  (∀ v, lastEdit d = Some v → keys_once v = true) ∧
  (∀ v, lastUri d = Some v → keys_once v = true) ∧
  (∀ v, lastOrigin d = Some v → keys_once v = true).

(** What holds while a digest runs: a value a watch does not fire for is one it has dealt
    with. *)
Definition pending (d : detail) : Prop :=
  (dirty (lastEdit d) (Obj (clientEdit d)) = false → authorized (clientEdit d)) ∧
  (clean d = true → isChanged d = true → changed d = true).

Lemma clean_dirty d :
  clean d = true ↔
    dirty (lastEdit d) (Obj (clientEdit d)) = false ∧ dirty (lastUri d) (newRedirectUri d) = false ∧
    dirty (lastOrigin d) (newWebOrigin d) = false.
Proof. unfold clean. rewrite !andb_true_iff, !negb_true_iff. tauto. Qed.

Lemma dirty_equiv last v : keys_once v = true → (∀ w, last = Some w → keys_once w = true) →
  dirty last v = false → ∃ w, last = Some w ∧ v ≡ w.
Proof.
  intros Hv Hl. destruct last as [w|]; simpl; [|done]. intros H%negb_false_iff.
  exists w. split_and!; [done|]. by split_and!; [|apply Hl|].
Qed.

Lemma dirty_refl v : keys_once v = true → dirty (Some v) v = false.
Proof. intros Hv. simpl. by rewrite equals_refl. Qed.

(** [isChanged] respects [angular.equals]. *)
Lemma isChanged_equiv d d' :
  keys_once (Obj (client d)) = true → client d' = client d →
  Obj (clientEdit d) ≡ Obj (clientEdit d') →
  newRedirectUri d ≡ newRedirectUri d' → newWebOrigin d ≡ newWebOrigin d' →
  isChanged d = isChanged d'.
Proof.
  intros Hc Hcl He Hu Ho. unfold isChanged. rewrite Hcl.
  rewrite (typed_equals _ _ (proj2 (proj2 Hu))), (typed_equals _ _ (proj2 (proj2 Ho))).
  assert (Obj (client d) ≡ Obj (client d)) as Hr by (split_and!; [done..|by apply equals_refl]).
  by rewrite (equals_proper _ _ Hr _ _ He).
Qed.

(** ** One round of the watches *)

Definition round (d : detail) : detail := watchOrigin (watchUri (watchEdit d)).

Lemma configure_shape d :
  configureAuthorizationServices d =
    d <| accessType := accessType (configureAuthorizationServices d) |>
      <| clientEdit := authorizationEdit (clientEdit d) |>
      <| dialogs := dialogs (configureAuthorizationServices d) |>.
Proof.
  rewrite <-configure_edit. destruct d. unfold configureAuthorizationServices, setEdit. simpl.
  repeat case_match; reflexivity.
Qed.

Lemma coherent_configure d : coherent d → coherent (configureAuthorizationServices d).
Proof.
  intros [].
  assert (accessType (configureAuthorizationServices d) = accessTypeOf (authorizationEdit (clientEdit d))) as Ha.
  { rewrite authorizationEdit_accessType, <-access_agrees0.
    unfold configureAuthorizationServices, setEdit. repeat (case_match; simpl; try done). }
  assert (keys_once (Obj (authorizationEdit (clientEdit d))) = true).
  { unfold authorizationEdit. repeat case_match; auto with client. }
  assert (attributes (authorizationEdit (clientEdit d)) = attributes (clientEdit d)) as Hat.
  { unfold authorizationEdit. repeat case_match; by autorewrite with client. }
  rewrite configure_shape, Ha. constructor; simpl; by rewrite ?Hat.
Qed.

Lemma coherent_round d : coherent d → coherent (round d).
Proof.
  intros Hd. unfold round.
  assert (coherent (watchEdit d)) as H1.
  { unfold watchEdit. case_match; [|done]. apply coherent_configure. by destruct Hd. }
  assert (coherent (watchUri (watchEdit d))) as H2.
  { unfold watchUri. case_match; [|done]. by destruct H1. }
  unfold watchOrigin. case_match; [|done]. by destruct H2.
Qed.

(** What a round does to the fields the watches read. *)
Lemma round_fields d :
  client (round d) = client d ∧
  newRedirectUri (round d) = newRedirectUri d ∧ newWebOrigin (round d) = newWebOrigin d ∧
  clientEdit (round d) =
    (if dirty (lastEdit d) (Obj (clientEdit d)) then authorizationEdit (clientEdit d) else clientEdit d) ∧
  lastEdit (round d) =
    (if dirty (lastEdit d) (Obj (clientEdit d)) then Some (Obj (clientEdit d)) else lastEdit d) ∧
  lastUri (round d) = (if dirty (lastUri d) (newRedirectUri d) then Some (newRedirectUri d) else lastUri d) ∧
  lastOrigin (round d) = (if dirty (lastOrigin d) (newWebOrigin d) then Some (newWebOrigin d) else lastOrigin d).
Proof.
  unfold round, watchEdit. destruct (dirty (lastEdit d) _); [rewrite configure_shape|];
    unfold watchUri; simpl; (destruct (dirty (lastUri d) _); unfold watchOrigin; simpl;
      destruct (dirty (lastOrigin d) _); by split_and!).
Qed.

Lemma watched_round d : coherent d → watched d → watched (round d).
Proof.
  intros [] (He & Hu & Ho). destruct (round_fields d) as (_ & _ & _ & _ & El & Eu & Eo).
  unfold watched. rewrite El, Eu, Eo. clear El Eu Eo.
  split_and!; destruct (dirty _ _); (assumption || by intros ? [= <-]).
Qed.

(** After a round only the watch of [clientEdit] can fire again, after two rounds none. *)
Lemma round_dirty d : coherent d →
  dirty (lastUri (round d)) (newRedirectUri (round d)) = false ∧
  dirty (lastOrigin (round d)) (newWebOrigin (round d)) = false.
Proof.
  intros []. destruct (round_fields d) as (_ & -> & -> & _ & _ & -> & ->).
  split; [destruct (dirty (lastUri d) _) eqn:E|destruct (dirty (lastOrigin d) _) eqn:E];
    (assumption || by apply dirty_refl).
Qed.

Lemma two_rounds_clean d : coherent d → clean (round (round d)) = true.
Proof.
  intros Hd. pose proof (coherent_round d Hd) as Hr. apply clean_dirty. split; [|by apply round_dirty].
  destruct (round_fields (round d)) as (_ & _ & _ & -> & -> & _).
  destruct (dirty (lastEdit (round d)) _) eqn:E; [|done].
  assert (authorizationEdit (clientEdit (round d)) = clientEdit (round d)) as ->.
  { destruct (round_fields d) as (_ & _ & _ & He & Hl & _). rewrite He, Hl in *.
    destruct (dirty (lastEdit d) _) eqn:E'; [apply authorizationEdit_idem|congruence]. }
  apply dirty_refl, Hr.
Qed.

(** The digest always ends, after two rounds at most. *)
Lemma digestLoop_fuel n d d' : digestLoop n d = Some d' → digestLoop (S n) d = Some d'.
Proof.
  revert d. induction n as [|n IH]; intros d; simpl; destruct (clean d); try done.
  intros H. by apply IH in H.
Qed.

Lemma digest_rounds d : coherent d →
  digest d = Some (if clean d then d else if clean (round d) then round d else round (round d)).
Proof.
  intros Hd. assert (digestLoop 2 d = Some (if clean d then d else if clean (round d) then round d else round (round d))) as H.
  { cbn [digestLoop]. fold (round d) (round (round d)). rewrite (two_rounds_clean d Hd).
    by destruct (clean d), (clean (round d)). }
  unfold digest. by do 8 apply digestLoop_fuel in H.
Qed.

(** ** The watches deal with every change *)

(** [changed] after a round in which a watch fired, at the value that watch saw. *)
Lemma round_changed d : clean d = false →
  ∃ e, (e = clientEdit d ∨ e = clientEdit (round d)) ∧
    changed (round d) = isChanged (d <| clientEdit := e |>).
Proof.
  rewrite <-not_true_iff_false, clean_dirty. intros Hc.
  unfold round, watchEdit. destruct (dirty (lastEdit d) _) eqn:E1; [rewrite configure_shape|];
    unfold watchUri; simpl; (destruct (dirty (lastUri d) _) eqn:E2; unfold watchOrigin; simpl;
      destruct (dirty (lastOrigin d) _) eqn:E3; simpl); try (by destruct Hc; split_and!);
    first [ exists (clientEdit d); split; [by left|by destruct d]
          | exists (authorizationEdit (clientEdit d)); split; [by right|by destruct d] ].
Qed.

Lemma pending_round d : coherent d → watched d → pending d → pending (round d).
Proof.
  intros Hd Hw Hp. destruct (clean d) eqn:Hcl.
  { assert (round d = d) as ->; [|exact Hp]. apply clean_dirty in Hcl as (E1 & E2 & E3).
    unfold round, watchEdit. rewrite E1. unfold watchUri. rewrite E2. unfold watchOrigin. by rewrite E3. }
  destruct Hp as [Ha _], (round_fields d) as (Hc & Hu & Ho & He & Hl & _). split.
  - intros _. rewrite He. destruct (dirty (lastEdit d) _) eqn:E; [apply authorizationEdit_authorized|by apply Ha].
  - intros (E1 & _)%clean_dirty Hchanged. destruct (round_changed d Hcl) as (e & Hee & ->).
    pose proof (coherent_round d Hd) as Hr.
    rewrite <-Hchanged. apply isChanged_equiv; simpl; rewrite ?Hu, ?Ho.
    + apply Hd.
    + done.
    + assert (Obj (clientEdit (round d)) ≡ Obj (clientEdit (round d))) as Hrefl
        by (split_and!; [apply Hr..|apply equals_refl, Hr]).
      destruct Hee as [->| ->]; [|done].
      destruct (dirty (lastEdit d) (Obj (clientEdit d))) eqn:E; [|by rewrite He in *].
      rewrite Hl in E1. apply negb_false_iff in E1. symmetry. split_and!; [apply Hr|apply Hd|done].
    + split_and!; [apply Hd..|apply equals_refl, Hd].
    + split_and!; [apply Hd..|apply equals_refl, Hd].
Qed.

(** ** The switches, written and read *)

Definition switchText (sw : object) (v : string) : jsval :=
  Str (if loose_eq (assoc v sw) (Bool true) then "true" else "false").

Section switches_lemmas.
Context (sw : object).

Lemma writeSwitches_assoc l c k : k ≠ "attributes" → assoc k (foldl (writeSwitch sw) c l) = assoc k c.
Proof.
  intros Hk. revert c. induction l as [|av l IH]; intros c; simpl; [done|].
  rewrite IH. unfold writeSwitch. by autorewrite with client.
Qed.

Lemma writeSwitches_once l c :
  keys_once (Obj c) = true → keys_once (Obj (foldl (writeSwitch sw) c l)) = true.
Proof.
  revert c. induction l as [|av l IH]; intros c Hc; simpl; [done|].
  apply IH. unfold writeSwitch. by apply keys_once_setAttribute.
Qed.

Lemma writeSwitches_other l c a :
  a ∉ l.*1 → assoc a (attributes (foldl (writeSwitch sw) c l)) = assoc a (attributes c).
Proof.
  revert c. induction l as [|av l IH]; intros c Ha; simpl; [done|].
  apply not_elem_of_cons in Ha as [? ?]. rewrite IH by done. unfold writeSwitch.
  by autorewrite with client.
Qed.

Lemma writeSwitches_own l c a v :
  NoDup l.*1 → (a, v) ∈ l → assoc a (attributes (foldl (writeSwitch sw) c l)) = switchText sw v.
Proof.
  revert c. induction l as [|av l IH]; intros c; csimpl; [by intros _ ?%not_elem_of_nil|].
  intros [Hn HN]%NoDup_cons [<-|Hin]%elem_of_cons; [|by apply IH].
  rewrite writeSwitches_other by done. unfold writeSwitch. by autorewrite with client.
Qed.
End switches_lemmas.

Lemma readSwitches_other a l sw v :
  v ∉ l.*2 → assoc v (foldl (readSwitch a) sw l) = assoc v sw.
Proof.
  revert sw. induction l as [|av l IH]; intros sw Hv; simpl; [done|].
  apply not_elem_of_cons in Hv as [? ?]. rewrite IH by done. unfold readSwitch.
  case_match; by autorewrite with client.
Qed.

Lemma readSwitches_own a l sw k v :
  NoDup l.*2 → (k, v) ∈ l → truthy (assoc k a) = true →
  assoc v (foldl (readSwitch a) sw l) = Bool (loose_eq (assoc k a) (Str "true")).
Proof.
  revert sw. induction l as [|av l IH]; intros sw; csimpl; [by intros _ ?%not_elem_of_nil|].
  intros [Hn HN]%NoDup_cons [<-|Hin]%elem_of_cons Ht; [|by apply IH].
  rewrite readSwitches_other by done. unfold readSwitch. simpl. rewrite Ht. apply assoc_obj_set.
Qed.

Lemma switchTable_NoDup : NoDup switchTable.*1 ∧ NoDup switchTable.*2.
Proof. split; decided. Qed.

Lemma saveEdit_assoc d k :
  k ≠ "attributes" → k ≠ "protocol" → assoc k (saveEdit d) = assoc k (clientEdit d).
Proof. intros. unfold saveEdit. autorewrite with client. by apply writeSwitches_assoc. Qed.

Lemma saveEdit_other d a :
  a ∉ switchTable.*1 → a ≠ "saml.signature.algorithm" → a ≠ "saml_name_id_format" →
  assoc a (attributes (saveEdit d)) = assoc a (attributes (clientEdit d)).
Proof. intros. unfold saveEdit. autorewrite with client. by apply writeSwitches_other. Qed.

Lemma saveEdit_switch d a v :
  (a, v) ∈ switchTable → assoc a (attributes (saveEdit d)) = switchText (switches d) v.
Proof.
  intros Hin.
  assert (a ∈ switchTable.*1) as Ha by (apply list_elem_of_fmap; by exists (a, v)).
  assert (a ≠ "saml.signature.algorithm").
  { intros ->. revert Ha. decided. }
  assert (a ≠ "saml_name_id_format").
  { intros ->. revert Ha. decided. }
  unfold saveEdit. autorewrite with client. apply writeSwitches_own; [apply switchTable_NoDup|done].
Qed.

(** ** Handlers keep the page coherent *)

(** What a handler leaves to the digest. *)
Definition follows (d0 d : detail) : Prop :=
  coherent d ∧ client d = client d0 ∧ lastEdit d = lastEdit d0 ∧ lastUri d = lastUri d0 ∧
  lastOrigin d = lastOrigin d0 ∧ (changed d0 = true → changed d = true).

Ltac coherence :=
  match goal with H : coherent _ |- _ => destruct H end;
  unfold setEdit, setEditAttribute in *;
  constructor; simpl; autorewrite with client; auto with client.

Lemma coherent_setEdit k v d :
  k ∉ ["attributes"; "bearerOnly"; "publicClient"] → keys_once v = true →
  coherent d → coherent (setEdit k v d).
Proof.
  intros Hk Hv Hd. apply not_elem_of_cons in Hk as [? Hk]. apply not_elem_of_cons in Hk as [? Hk].
  apply not_elem_of_cons in Hk as [? _]. coherence.
Qed.

Lemma coherent_setEditAttribute k v d :
  k ∉ ["saml.server.signature.keyinfo.xmlSigKeyInfoKeyNameTransformer";
       "user.info.response.signature.alg"; "request.object.signature.alg"; "request.object.required"] →
  keys_once v = true → coherent d → coherent (setEditAttribute k v d).
Proof.
  intros Hk Hv Hd. rewrite !not_elem_of_cons in Hk. destruct Hk as (? & ? & ? & ? & _). coherence.
Qed.

Lemma coherent_changeAccessType t d :
  t ∈ accessTypes → coherent d → coherent (changeAccessType (d <| accessType := t |>)).
Proof.
  intros Ht Hd. unfold accessTypes in Ht. rewrite !elem_of_cons, elem_of_nil in Ht.
  destruct d, Hd; simpl in *. unfold changeAccessType, setEdit.
  destruct Ht as [->|[->|[->|[]]]]; simpl; constants; constructor; simpl; autorewrite with client;
    auto with client; unfold accessTypeOf; by autorewrite with client.
Qed.

Lemma orElse_nullFor none a : orElse (nullFor none (Str a)) none = Str a.
Proof. unfold nullFor. simpl. by destruct (String.eqb_spec a none) as [->|]. Qed.

Lemma keys_once_nullFor none a : keys_once (nullFor none (Str a)) = true.
Proof. unfold nullFor. by case_match. Qed.

Lemma chosen_own eq l o old : (∀ a b, eq (Str a) (Str b) = String.eqb a b) →
  o ∈ l → chosen eq l (Str o) old = Str o.
Proof.
  intros Heq Ho. unfold chosen. destruct (list_find _ l) as [[i o']|] eqn:E.
  - apply list_find_Some in E as (_ & E & _). rewrite Heq in E. by apply String.eqb_eq in E as ->.
  - apply list_find_None in E. rewrite Forall_forall in E. destruct (E o Ho).
    rewrite Heq. apply String.eqb_refl.
Qed.

(** The choices that have an attribute of their own. *)
Lemma coherent_changeChoices d a :
  coherent d →
  coherent (changeUserInfoSignedResponseAlg (d <| userInfoSignedResponseAlg := Str a |>)) ∧
  coherent (changeRequestObjectSignatureAlg (d <| requestObjectSignatureAlg := Str a |>)) ∧
  coherent (changeRequestObjectRequired (d <| requestObjectRequired := Str a |>)) ∧
  (a ∈ xmlKeyNameTranformers →
   coherent (changeSamlSigKeyNameTranformer (d <| samlXmlKeyNameTranformer := Str a |>))) ∧
  (a ∈ signatureAlgorithms → coherent (changeAlgorithm (d <| signatureAlgorithm := Str a |>))) ∧
  (a ∈ nameIdFormats → coherent (changeNameIdFormat (d <| nameIdFormat := Str a |>))).
Proof.
  intros Hd.
  unfold changeUserInfoSignedResponseAlg, changeRequestObjectSignatureAlg, changeRequestObjectRequired,
    changeSamlSigKeyNameTranformer, changeAlgorithm, changeNameIdFormat.
  split_and!; intros; coherence; rewrite ?orElse_nullFor; auto using keys_once_nullFor with client;
    try (symmetry; by apply chosen_own); eauto.
Qed.

Lemma coherent_saveEdit d : coherent d → coherent (d <| clientEdit := saveEdit d |>).
Proof.
  intros Hd. assert (keys_once (Obj (saveEdit d)) = true) as Hs.
  { destruct Hd. unfold saveEdit. repeat apply keys_once_setAttribute; try apply keys_once_obj_set.
    - by apply writeSwitches_once.
    - by destruct protocol_text0 as [->|[? ->]].
    - by destruct algorithm_known0 as [->|(? & _ & ->)].
    - by destruct format_known0 as [->|(? & _ & ->)]. }
  destruct Hd. constructor; simpl; try done.
  { unfold accessTypeOf. by rewrite !saveEdit_assoc. }
  all: rewrite saveEdit_other; [done|decided|done..].
Qed.

Lemma follows_with d0 d d' :
  follows d0 d → coherent d' → client d' = client d → lastEdit d' = lastEdit d →
  lastUri d' = lastUri d → lastOrigin d' = lastOrigin d → (changed d = true → changed d' = true) →
  follows d0 d'.
Proof. intros (_ & ? & ? & ? & ? & ?) ??????. repeat (split; [by etrans || done|]). auto. Qed.

Ltac following := intros; eapply follows_with; [eassumption|..|done]; [|done..].

Lemma preserves_onList d0 k f :
  k ∉ ["attributes"; "bearerOnly"; "publicClient"] →
  (∀ l, Forall (λ v, keys_once v = true) l → Forall (λ v, keys_once v = true) (f l)) →
  preserves (follows d0) (onList k f).
Proof.
  intros Hk Hf d Hd. unfold onList. run_io. pose proof Hd as (Hc & _).
  destruct (assoc k (clientEdit d)) eqn:E; try done. simpl. eapply follows_with; [exact Hd| |done..].
  apply coherent_setEdit; [done| |done]. apply keys_once_arr, Hf, keys_once_arr. rewrite <-E.
  apply keys_once_assoc, Hc.
Qed.

Lemma preserves_adds d0 : preserves (follows d0) addRedirectUri ∧ preserves (follows d0) addWebOrigin.
Proof.
  split; intros d Hd; pose proof Hd as ([] & _).
  - unfold addRedirectUri. rewrite bind_gets.
    apply (preserves_bind (follows d0)); [|intros _; apply preserves_modify|done].
    + apply preserves_onList; [decided|]. intros l Hl. apply Forall_app. auto.
    + following. by destruct H as ([] & _).
  - unfold addWebOrigin. rewrite bind_gets.
    apply (preserves_bind (follows d0)); [|intros _; apply preserves_modify|done].
    + apply preserves_onList; [decided|]. intros l Hl. apply Forall_app. auto.
    + following. by destruct H as ([] & _).
Qed.

Lemma preserves_save d0 : preserves (follows d0) save.
Proof.
  destruct (preserves_adds d0) as [Hu Ho]. unfold save.
  preserve ltac:(following); try done.
  destruct H as (H & _). by apply coherent_saveEdit.
Qed.

Lemma coherent_changeProtocol d p :
  coherent d → coherent (changeProtocol (d <| protocol := Str p |>)).
Proof.
  intros Hd. assert (coherent (d <| protocol := Str p |>)) as Hp.
  { destruct Hd. constructor; simpl; eauto. }
  unfold changeProtocol. repeat case_match; [apply coherent_setEdit..|]; (decided || done).
Qed.

Lemma follows_handle_choice d0 d e :
  follows d0 d → allowed e = true →
  match e with
  | SelectAccessType _ | SelectProtocol _ | SelectAlgorithm _ | SelectNameIdFormat _
  | SelectKeyNameTransformer _ | SelectUserInfoAlg _ | SelectRequestObjectAlg _
  | SelectRequestObjectRequired _ => True
  | _ => False
  end → follows d0 (handle e d).2.
Proof.
  intros Hf He Hk. pose proof Hf as (Hc & Hfr).
  destruct e; try done; apply (bool_decide_eq_true_1 _) in He || clear He; simpl; clear Hk.
  - pose proof (coherent_changeAccessType _ _ He Hc) as Hc'.
    unfold changeAccessType in *; simpl in *; repeat case_match; by eapply follows_with.
  - pose proof (coherent_changeProtocol _ p Hc) as Hc'.
    unfold changeProtocol in *; simpl in *; repeat case_match; by eapply follows_with.
  - eapply follows_with; [exact Hf|by apply coherent_changeChoices|done..].
  - eapply follows_with; [exact Hf|by apply coherent_changeChoices|done..].
  - eapply follows_with; [exact Hf|by apply coherent_changeChoices|done..].
  - eapply follows_with; [exact Hf|by apply coherent_changeChoices|done..].
  - eapply follows_with; [exact Hf|by apply coherent_changeChoices|done..].
  - eapply follows_with; [exact Hf|by apply coherent_changeChoices|done..].
Qed.

Lemma preserves_handle d0 e : allowed e = true → preserves (follows d0) (handle e).
Proof.
  intros He d Hf. destruct (preserves_adds d0) as [Hu Ho]. pose proof Hf as (Hc & _).
  destruct e; try (by apply follows_handle_choice).
  - apply andb_true_iff in He as [He%bool_decide_eq_true_1 Hv].
    eapply follows_with; [exact Hf| |done..]. apply coherent_setEdit; [set_solver|done..].
  - apply andb_true_iff in He as [He%bool_decide_eq_true_1 Hv].
    eapply follows_with; [exact Hf| |done..]. apply coherent_setEditAttribute; [|done..].
    unfold ownAttributes in He. set_solver.
  - eapply follows_with; [exact Hf| |done..]. by destruct Hc.
  - eapply follows_with; [exact Hf| |done..]. by destruct Hc.
  - eapply follows_with; [exact Hf| |done..]. by destruct Hc.
  - apply (preserves_bind (follows d0)); [by intros ?|intros x; by apply preserves_when|done].
  - apply (preserves_bind (follows d0)); [by intros ?|intros x; by apply preserves_when|done].
  - apply preserves_onList; [decided| |done]. intros. by apply Forall_delete.
  - apply preserves_onList; [decided| |done]. intros. by apply Forall_delete.
  - eapply follows_with; [exact Hf| |done..]. apply coherent_setEdit; [decided|done..].
  - apply (preserves_bind (follows d0)); [apply preserves_save|intros _; by intros ?|done].
Qed.

(** ** A visit to the page *)

(** Between two turns: the watches have seen everything, and everything they saw is dealt
    with. *)
Definition settled (d : detail) : Prop :=
  coherent d ∧ watched d ∧ clean d = true ∧ authorized (clientEdit d) ∧
  (isChanged d = true → changed d = true).

Lemma digest_settles d : coherent d → watched d → pending d → ∃ d', digest d = Some d' ∧ settled d'.
Proof.
  intros Hc Hw Hp. eexists. split; [by apply digest_rounds|].
  pose proof (coherent_round d Hc) as Hc1. pose proof (watched_round d Hc Hw) as Hw1.
  pose proof (pending_round d Hc Hw Hp) as Hp1.
  assert (∀ x, coherent x → watched x → pending x → clean x = true → settled x) as Hset.
  { intros x ?? [Ha Hch] Hcl. split_and!; try done; [|by apply Hch].
    apply clean_dirty in Hcl as [? _]. by apply Ha. }
  destruct (clean d) eqn:E; [by apply Hset|]. destruct (clean (round d)) eqn:E1; [by apply Hset|].
  apply Hset; [by apply coherent_round|by apply watched_round|by apply pending_round|by apply two_rounds_clean].
Qed.

(** A handler leaves the digest what it needs. *)
Lemma follows_pending d d' : settled d → follows d d' → watched d' ∧ pending d'.
Proof.
  intros (Hc & Hw & Hcl & Ha & Hch) (Hc' & Ecl & El & Eu & Eo & Hcc).
  assert (watched d') as Hw' by (unfold watched in *; by rewrite El, Eu, Eo). split; [done|].
  pose proof Hw as (Hl1 & Hl2 & Hl3). apply clean_dirty in Hcl as (D1 & D2 & D3).
  apply dirty_equiv in D1 as (e & E1 & Q1); [|apply Hc|done].
  apply dirty_equiv in D2 as (u & E2 & Q2); [|apply Hc|done].
  apply dirty_equiv in D3 as (o & E3 & Q3); [|apply Hc|done].
  split.
  - intros D. rewrite El in D. apply dirty_equiv in D as (e' & E' & Q'); [|apply Hc'|done].
    simplify_eq. apply (authorized_equiv (clientEdit d)); [by etrans|done].
  - intros (D1 & D2 & D3)%clean_dirty Hi. apply Hcc, Hch. rewrite <-Hi.
    rewrite El in D1. rewrite Eu in D2. rewrite Eo in D3.
    apply dirty_equiv in D1 as (e' & ? & ?); [|apply Hc'|done].
    apply dirty_equiv in D2 as (u' & ? & ?); [|apply Hc'|done].
    apply dirty_equiv in D3 as (o' & ? & ?); [|apply Hc'|done]. simplify_eq.
    apply isChanged_equiv; [apply Hc|done|by etrans..].
Qed.

Lemma turn_settles e d : allowed e = true → settled d → ∃ d', turn e d = Some d' ∧ settled d'.
Proof.
  intros He Hs. pose proof Hs as (Hc & _).
  assert (follows d (handle e d).2) as Hf by (apply (preserves_handle d e He); by split_and!).
  destruct (follows_pending _ _ Hs Hf) as [Hw Hp]. apply digest_settles; [apply Hf|done..].
Qed.

Lemma chosen_known eq l x :
  chosen eq l x Undefined = Undefined ∨ ∃ o, o ∈ l ∧ chosen eq l x Undefined = Str o.
Proof.
  unfold chosen. destruct (list_find _ l) as [[i o]|] eqn:E; [|by left].
  right. exists o. split; [|done]. apply list_find_Some in E as (E & _). by eapply list_elem_of_lookup_2.
Qed.

Lemma protocolOf_text protos c : protocolOf protos c = Undefined ∨ ∃ p, protocolOf protos c = Str p.
Proof. unfold protocolOf. repeat case_match; eauto. Qed.

Lemma openPage_settles protos c :
  keys_once (Obj c) = true → ∃ d, digest (openPage protos c) = Some d ∧ settled d.
Proof.
  intros Hc. apply digest_settles.
  - constructor; cbn -[keys_once withAttributes accessTypeOf attributes chosen orElse protocolOf];
      auto using chosen_known, protocolOf_text with client.
  - by split_and!.
  - by split.
Qed.

Lemma turns_settle es d :
  forallb allowed es = true → settled d → ∃ d', turns es d = Some d' ∧ settled d'.
Proof.
  revert d. induction es as [|e es IH]; intros d; simpl; [eauto|].
  intros [He Hes]%andb_true_iff Hs. destruct (turn_settles e d He Hs) as (d1 & -> & Hs1). simpl. by apply IH.
Qed.

Lemma visit_settles protos c es :
  keys_once (Obj c) = true → forallb allowed es = true →
  ∃ d, visit protos c es = Some d ∧ settled d.
Proof.
  intros Hc Hes. destruct (openPage_settles protos c Hc) as (d & Hd & Hs).
  unfold visit. rewrite Hd. simpl. by apply turns_settle.
Qed.

Lemma accessTypeOf_known c : accessTypeOf c ∈ accessTypes.
Proof. unfold accessTypeOf, accessTypes. repeat case_match; set_solver. Qed.

(** C37: Whatever an administrator does on the page of a client, the digests end, and the page
    stays in agreement with the client that is edited: the type of access is that of
    [clientEdit], a client with authorization services has a service account and is not
    public, and [changed] is set whenever [clientEdit] differs from the client or text for a
    new URI waits. *)
Theorem client_page_consistent protos c es :
  keys_once (Obj c) = true → forallb allowed es = true →
  ∃ d, visit protos c es = Some d ∧
    accessType d = accessTypeOf (clientEdit d) ∧ accessType d ∈ accessTypes ∧
    (truthy (assoc "authorizationServicesEnabled" (clientEdit d)) = true →
     truthy (assoc "serviceAccountsEnabled" (clientEdit d)) = true ∧ accessType d ≠ "public") ∧
    (isChanged d = true → changed d = true).
Proof.
  intros Hc Hes. destruct (visit_settles protos c es Hc Hes) as (d & Hd & Hco & _ & _ & Ha & Hch).
  exists d. rewrite (access_agrees d Hco). split_and!; [done..|apply accessTypeOf_known| |done].
  intros [Hs Hp]%Ha. split; [done|]. unfold accessTypeOf. rewrite Hp. by case_match.
Qed.

(** ** What is saved *)

(** The page after a list took the text that waited for it. *)
Definition lists_only (d d1 : detail) : Prop :=
  d1 = d <| clientEdit := clientEdit d1 |> <| newRedirectUri := newRedirectUri d1 |>
         <| newWebOrigin := newWebOrigin d1 |> ∧
  ∀ k, k ≠ "redirectUris" → k ≠ "webOrigins" → assoc k (clientEdit d1) = assoc k (clientEdit d).

Lemma lists_only_trans d d1 d2 : lists_only d d1 → lists_only d1 d2 → lists_only d d2.
Proof.
  intros [E1 H1] [E2 H2]. split.
  - rewrite E2, E1 at 1. by destruct d, d2.
  - intros k ??. rewrite H2, H1; done.
Qed.

Lemma adds_lists_only d d1 :
  (when (typed (newRedirectUri d)) addRedirectUri d = (Returns tt, d1) → lists_only d d1) ∧
  (when (typed (newWebOrigin d)) addWebOrigin d = (Returns tt, d1) → lists_only d d1).
Proof.
  unfold addRedirectUri, addWebOrigin, onList, setEdit. run_io.
  split.
  - destruct (typed (newRedirectUri d)); simpl; [|intros [= <-]; split; [by destruct d|done]].
    destruct (assoc "redirectUris" (clientEdit d)); simpl; try done.
    intros [= <-]. split; [by destruct d|]. intros. simpl. by autorewrite with client.
  - destruct (typed (newWebOrigin d)); simpl; [|intros [= <-]; split; [by destruct d|done]].
    destruct (assoc "webOrigins" (clientEdit d)); simpl; try done.
    intros [= <-]. split; [by destruct d|]. intros. simpl. by autorewrite with client.
Qed.

Lemma save_body d body d' :
  save d = (Returns (Some body), d') →
  ∃ d1, body = saveEdit d1 ∧ lists_only d d1 ∧ needsRedirectUri body = false.
Proof.
  unfold save. rewrite bind_gets, bind_returns. intros ([] & d1 & H1 & H).
  rewrite bind_gets, bind_returns in H. destruct H as ([] & d2 & H2 & H).
  rewrite bind_modify in H. apply (f_equal fst) in H.
  change (Returns (if needsRedirectUri (saveEdit d2) then None else Some (saveEdit d2)) = Returns (Some body)) in H.
  exists d2. remember (saveEdit d2) as b eqn:Eb in *. destruct (needsRedirectUri b) eqn:E; [done|].
  injection H as <-. split_and!; [done| |done].
  exact (lists_only_trans d d1 d2 (proj1 (adds_lists_only d d1) H1) (proj2 (adds_lists_only d1 d2) H2)).
Qed.

(** What the page shows of a client that was saved. *)
Lemma openPage_saveEdit protos d :
  let b := saveEdit d in let p := openPage protos b in
  accessType p = accessTypeOf (clientEdit d) ∧
  (∀ q, protocol d = Str q → q ≠ "" → q ∈ protos → protocol p = protocol d) ∧
  (signatureAlgorithm d = Undefined ∨ (∃ a, a ∈ signatureAlgorithms ∧ signatureAlgorithm d = Str a) →
   signatureAlgorithm p = signatureAlgorithm d) ∧
  (nameIdFormat d = Undefined ∨ (∃ f, f ∈ nameIdFormats ∧ nameIdFormat d = Str f) →
   nameIdFormat p = nameIdFormat d) ∧
  (∀ a v, (a, v) ∈ switchTable → assoc v (switches p) = Bool (loose_eq (assoc v (switches d)) (Bool true))) ∧
  samlXmlKeyNameTranformer p =
    chosen strict_eq xmlKeyNameTranformers
      (assoc "saml.server.signature.keyinfo.xmlSigKeyInfoKeyNameTransformer" (attributes (clientEdit d)))
      (Str "KEY_ID") ∧
  userInfoSignedResponseAlg p =
    orElse (assoc "user.info.response.signature.alg" (attributes (clientEdit d))) "unsigned" ∧
  requestObjectSignatureAlg p =
    orElse (assoc "request.object.signature.alg" (attributes (clientEdit d))) "any" ∧
  requestObjectRequired p =
    orElse (assoc "request.object.required" (attributes (clientEdit d))) "not required".
Proof.
  intros b p.
  assert (withAttributes b = b) as Hw.
  { unfold withAttributes, b, saveEdit, setAttribute at 1. by rewrite assoc_obj_set. }
  subst p. unfold openPage, updateProperties. cbn -[accessTypeOf protocolOf chosen attributes switchTable foldl].
  rewrite Hw. split_and!.
  - unfold accessTypeOf, b. by rewrite !saveEdit_assoc.
  - intros q Hq Hne Hin. unfold protocolOf.
    assert (assoc "protocol" b = Str q) as -> by (unfold b, saveEdit; by autorewrite with client).
    rewrite (proj2 (truthy_str q) Hne), Hq. apply (chosen_own (λ x y, strict_eq y x) protos q Undefined); [|done].
    intros x y. apply String.eqb_sym.
  - assert (assoc "saml.signature.algorithm" (attributes b) = signatureAlgorithm d) as ->
      by (unfold b, saveEdit; by autorewrite with client).
    intros [->|(a & Ha & ->)]; [done|]. by apply chosen_own.
  - assert (assoc "saml_name_id_format" (attributes b) = nameIdFormat d) as ->
      by (unfold b, saveEdit; by autorewrite with client).
    intros [->|(a & Ha & ->)]; [done|]. by apply chosen_own.
  - intros a v Hin. pose proof (saveEdit_switch d a v Hin) as Ha.
    rewrite (readSwitches_own _ _ _ a v); [|apply switchTable_NoDup|done|]; unfold b; rewrite Ha;
      unfold switchText; by destruct (loose_eq (assoc v (switches d)) _).
  - unfold b. by rewrite saveEdit_other; [|decided|..].
  - unfold b. by rewrite saveEdit_other; [|decided|..].
  - unfold b. by rewrite saveEdit_other; [|decided|..].
  - unfold b. by rewrite saveEdit_other; [|decided|..].
Qed.

(** C38: Saving a client and opening it again shows what the page showed: the type of access, the
    protocol, the algorithms and formats and every switch; the fields that the page does not
    treat are sent as they were edited, and a client that needs a redirect URI is not sent
    without one. *)
Theorem client_save_roundtrip protos c es d d' body :
  keys_once (Obj c) = true → forallb allowed es = true → visit protos c es = Some d →
  save d = (Returns (Some body), d') →
  let p := openPage protos body in
  accessType p = accessType d ∧
  (∀ q, protocol d = Str q → q ≠ "" → q ∈ protos → protocol p = protocol d) ∧
  signatureAlgorithm p = signatureAlgorithm d ∧ nameIdFormat p = nameIdFormat d ∧
  samlXmlKeyNameTranformer p = samlXmlKeyNameTranformer d ∧
  userInfoSignedResponseAlg p = userInfoSignedResponseAlg d ∧
  requestObjectSignatureAlg p = requestObjectSignatureAlg d ∧
  requestObjectRequired p = requestObjectRequired d ∧
  (∀ a v, (a, v) ∈ switchTable → assoc v (switches p) = Bool (loose_eq (assoc v (switches d)) (Bool true))) ∧
  (∀ k, k ∉ ["attributes"; "protocol"; "redirectUris"; "webOrigins"] → assoc k body = assoc k (clientEdit d)) ∧
  needsRedirectUri body = false.
Proof.
  intros Hc Hes Hv Hsave p.
  destruct (visit_settles protos c es Hc Hes) as (d0 & Hd0 & Hco & _). rewrite Hv in Hd0. injection Hd0 as <-.
  destruct (save_body _ _ _ Hsave) as (d1 & -> & [Ed1 Hk] & Hneed).
  assert (protocol d1 = protocol d ∧ signatureAlgorithm d1 = signatureAlgorithm d ∧
          nameIdFormat d1 = nameIdFormat d ∧ switches d1 = switches d) as (Ep & Es & En & Esw)
    by (rewrite Ed1; by split_and!).
  destruct (openPage_saveEdit protos d1) as (H1 & H2 & H3 & H4 & H5 & H6 & H7 & H8 & H9).
  fold p in H1, H2, H3, H4, H5, H6, H7, H8, H9.
  rewrite Ep in H2. rewrite Es in H3. rewrite En in H4. rewrite Esw in H5.
  assert (attributes (clientEdit d1) = attributes (clientEdit d)) as Hat
    by (unfold attributes; by rewrite Hk).
  rewrite Hat in H6, H7, H8, H9.
  destruct Hco. split_and!; try done.
  - rewrite H1, access_agrees0. unfold accessTypeOf. by rewrite !Hk.
  - by apply H3.
  - by apply H4.
  - by rewrite H6.
  - by rewrite H7.
  - by rewrite H8.
  - by rewrite H9.
  - intros k Hin. rewrite !not_elem_of_cons in Hin. destruct Hin as (? & ? & ? & ? & _).
    rewrite saveEdit_assoc by done. by apply Hk.
Qed.

(** ** Where the page does not do what it means to *)

(** Once authorization services are switched off, the dialog that asks whether to do so opens
    at every later change of [clientEdit]. *)
Theorem dialog_at_every_change d :
  truthy (assoc "authorizationServicesEnabled" (client d)) = true →
  truthy (assoc "authorizationServicesEnabled" (clientEdit d)) = false →
  dirty (lastEdit d) (Obj (clientEdit d)) = true →
  dialogs (watchEdit d) = S (dialogs d).
Proof.
  intros Hc He Hd. unfold watchEdit. rewrite Hd. unfold configureAuthorizationServices, setEdit. simpl.
  rewrite He. destruct (truthy (assoc "bearerOnly" (clientEdit d))); simpl; autorewrite with client;
    by rewrite Hc, He.
Qed.

(** A switch sets [changed], and the next change of [clientEdit] computes [changed] from
    [clientEdit] alone: an edit that is undone makes the page forget the switch, and its
    button is disabled. *)
Theorem switch_forgotten :
  Forall (λ v,
    ∃ d, visit ["openid-connect"; "saml"] [("name", Str "shop")]
           [ToggleSwitch v true; EditField "name" (Str "shops"); EditField "name" (Str "shop")] = Some d ∧
      assoc v (switches d) = Bool true ∧ changed d = false) switchTable.*2.
Proof.
  unfold switchTable. csimpl.
  repeat (constructor; [eexists; split; [vm_compute; reflexivity|]; by split|]). constructor.
Qed.

(** A description that is imported on this page is shown, but the client that is sent is the
    one the page was opened for, with what the variables took from the description. *)
Theorem import_saves_original data d d' body k :
  save (importFile data d) = (Returns (Some body), d') →
  k ∉ ["attributes"; "protocol"; "redirectUris"; "webOrigins"] → assoc k body = assoc k (original d).
Proof.
  intros (d1 & -> & [_ Hk] & _)%save_body Hin. rewrite !not_elem_of_cons in Hin.
  destruct Hin as (? & ? & ? & ? & _). rewrite saveEdit_assoc by done. by apply Hk.
Qed.

End ClientDetail.
