(* ===== verification/ClientScopes.v ===== *)
(** Client scopes and protocol mappers of clients.js: the lists of [ClientClientScopesSetupCtrl]
    and [ClientScopesRealmDefaultCtrl] with the counters of their requests, the lists of
    [ClientClientScopesEvaluateCtrl], the built-in mappers of [AddBuiltinProtocolMapperCtrl] and
    [ClientScopeAddBuiltinProtocolMapperCtrl], the defaults of a new mapper, and
    [exportClient]. *)

From S2P Require Import Prelude JsString Uri JsValue JsText RealmImport.
Import JsString Uri JsValue JsText RealmImport.

Module ClientScopes.

(** ** Scopes *)

Record clientScope := mkClientScope { s_id : string; s_name : string; s_protocol : string }.

#[global] Instance clientScope_eq_dec : EqDecision clientScope.
Proof. solve_decision. Defined.

(** [for (var j ...) if (scopeName === list[j].name) available = false;] *)
Fixpoint unlessNamed (scopeName : string) (list : list clientScope) (available : bool) : bool :=
  match list with
  | [] => available
  | s :: list => unlessNamed scopeName list (if String.eqb scopeName (s_name s) then false else available)
  end.

(** The loop that fills [availableClientScopes]; [fits] is the test of the protocol, which
    the page of the realm does not have. *)
Fixpoint availableClientScopes (fits : clientScope → bool) (defaults optionals clientScopes : list clientScope) :
    list clientScope :=
  match clientScopes with
  | [] => []
  | s :: rest =>
      let available := unlessNamed (s_name s) optionals (unlessNamed (s_name s) defaults (fits s)) in
      (if available then [s] else []) ++ availableClientScopes fits defaults optionals rest
  end.

Definition availableForClient (protocol : string) : list clientScope → list clientScope → list clientScope → list clientScope :=
  availableClientScopes (λ s, String.eqb (s_protocol s) protocol).

Definition availableForRealm : list clientScope → list clientScope → list clientScope → list clientScope :=
  availableClientScopes (λ _, true).

(** ** The requests of the setup pages *)

(** The four buttons: whether scopes are added or removed, and from which list. *)
Inductive button := AddDefault | DeleteDefault | AddOptional | DeleteOptional.

#[global] Instance button_eq_dec : EqDecision button.
Proof. solve_decision. Defined.

(** [toAdd] and [toRemove] are not declared: they are properties of the window, shared by the
    two buttons of a kind, by both pages and by every visit. *)
Definition adds (b : button) : bool :=
  match b with AddDefault | AddOptional => true | _ => false end.

Definition isDefault (b : button) : bool :=
  match b with AddDefault | DeleteDefault => true | _ => false end.

(** The server's assignments: the list and the scope. *)
Definition assignment : Type := bool * string.

Record setup := mkSetup {
  toAdd : Z;
  toRemove : Z;
  requests : list (button * string);        (* without an answer *)
  server : list assignment;
  shown : list assignment                   (* the lists of the page *)
}.

Definition eta_setup (s : setup) : setup :=
  mkSetup (toAdd s) (toRemove s) (requests s) (server s) (shown s).

#[global] Instance set_toAdd : Field toAdd := ltac:(mk_field eta_setup toAdd).
#[global] Instance set_toRemove : Field toRemove := ltac:(mk_field eta_setup toRemove).
#[global] Instance set_requests : Field requests := ltac:(mk_field eta_setup requests).
#[global] Instance set_server : Field server := ltac:(mk_field eta_setup server).
#[global] Instance set_shown : Field shown := ltac:(mk_field eta_setup shown).

Definition counter (kind : bool) (s : setup) : Z := if kind then toAdd s else toRemove s.

Definition setCounter (kind : bool) (z : Z) (s : setup) : setup :=
  if kind then s <| toAdd := z |> else s <| toRemove := z |>.

(** A click with the scopes that are selected. *)
Definition click (b : button) (selected : list string) (s : setup) : setup :=
  (setCounter (adds b) (Z.of_nat (length selected)) s)
    <| requests ::= (λ r, r ++ ((λ id, (b, id)) <$> selected)) |>.

(** What the server makes of a request. *)
Definition serve (r : button * string) (l : list assignment) : list assignment :=
  if adds r.1 then (isDefault r.1, r.2) :: l else filter (λ a, a ≠ (isDefault r.1, r.2)) l.

(** The answer to the request at [index]; [$route.reload] shows what the server has.  There is
    no callback for an error. *)
Definition onAnswer (index : nat) (ok : bool) (s : setup) : setup * bool :=
  match requests s !! index with
  | None => (s, false)
  | Some r =>
      let s := s <| requests ::= delete index |> in
      if ok then
        let s := s <| server ::= serve r |> in
        let n := (counter (adds r.1) s - 1)%Z in
        let s := setCounter (adds r.1) n s in
        if (n =? 0)%Z then (s <| shown := server s |>, true) else (s, false)
      else (s, false)
  end.

(** How many requests of a kind wait. *)
Definition waiting (kind : bool) (s : setup) : nat :=
  length (filter (λ r, adds r.1 = kind) (requests s)).

(** Clicks that wait for the requests of their kind, and answers that are all good. *)
Inductive orderly : setup → setup → Prop :=
  | orderly_click b selected s :
      waiting (adds b) s = 0 → selected ≠ [] → orderly s (click b selected s)
  | orderly_answer index s :
      index < length (requests s) → orderly s (onAnswer index true s).1.

(** ** The page that evaluates scopes *)

Record evaluation := mkEvaluation {
  available : list clientScope;
  assigned : list clientScope;
  scopeParam : string;
  effective : list clientScope
}.

(** [var index = l.indexOf(x); if (index > -1) l.splice(index, 1);] *)
Definition spliceOut (x : clientScope) (l : list clientScope) : list clientScope :=
  match list_find (λ y, y = x) l with
  | Some (i, _) => delete i l
  | None => l
  end.

(** [updateState], without the answer of the last evaluation, which it clears. *)
Definition updateState (defaults available assigned : list clientScope) : evaluation :=
  mkEvaluation available assigned
    (foldl (λ p s, p +:+ " " +:+ s_name s) "openid" assigned)
    (defaults ++ assigned).

Definition openEvaluation (defaults optionals : list clientScope) : evaluation :=
  updateState defaults optionals [].

Definition addAppliedClientScope (defaults selected : list clientScope) (e : evaluation) : evaluation :=
  let '(av, asg) := foldl (λ '(av, asg) s, (spliceOut s av, asg ++ [s])) (available e, assigned e) selected in
  updateState defaults av asg.

Definition deleteAppliedClientScope (defaults selected : list clientScope) (e : evaluation) : evaluation :=
  let '(av, asg) := foldl (λ '(av, asg) s, (av ++ [s], spliceOut s asg)) (available e, assigned e) selected in
  updateState defaults av asg.

(** What is selected is what the two lists offer. *)
Inductive evaluation_step (defaults : list clientScope) (e : evaluation) : evaluation → Prop :=
  | evaluation_add selected : NoDup selected → selected ⊆ available e →
      evaluation_step defaults e (addAppliedClientScope defaults selected e)
  | evaluation_delete selected : NoDup selected → selected ⊆ assigned e →
      evaluation_step defaults e (deleteAppliedClientScope defaults selected e).

(** ** Built-in mappers *)

Record mapper := mkMapper { m_name : string; m_protocolMapper : string }.

#[global] Instance mapper_eq_dec : EqDecision mapper.
Proof. solve_decision. Defined.

(** [serverInfo.builtinProtocolMappers] is one object for the whole console: the service
    [ServerInfo] fills it once.  The state of the pages is what it holds. *)
Abbreviation builtins := (string → list mapper).

(** The two loops: the first built-in mapper that equals a mapper of the client is spliced out
    of the list itself. *)
Definition dropMapper (l : list mapper) (m : mapper) : list mapper :=
  match list_find (λ x, m_name x = m_name m ∧ m_protocolMapper x = m_protocolMapper m) l with
  | Some (i, _) => delete i l
  | None => l
  end.

(** [updateMappers], with the answer to its query: the shared object after it, whose list for
    the protocol is what the page offers. *)
Definition updateMappers (protocol : string) (clientMappers : list mapper) (b : builtins) : builtins :=
  λ p, if String.eqb p protocol then foldl dropMapper (b p) clientMappers else b p.

(** [add]: the mappers that are checked. *)
Definition addMappers (isChecked : mapper → bool) (mappers : list mapper) : list mapper :=
  filter (λ m, isChecked m = true) mappers.

(** [client.protocol == null ? 'openid-connect' : client.protocol] *)
Definition protocolOr (p : jsval) : jsval := if is_nullish p then Str "openid-connect" else p.

(** ** A new mapper *)

(** The watch of [model.mapperType] in [ClientProtocolMapperCreateCtrl]; [properties] is
    [None] unless it is an array, and a property its name and default value. *)
Definition defaultConfig (properties : option (list (jsval * jsval))) : list (string * jsval) :=
  foldl (λ config p,
    if truthy p.1 && truthy p.2 then obj_set (to_string p.1) p.2 config else config)
    [] (default [] properties).

(** ** Export *)

Definition exportMapper (m : jsval) : jsval :=
  match m with Obj o => Obj (obj_del "id" o) | v => v end.

Definition exportClient (client : list (string * jsval)) : list (string * jsval) :=
  let copy := obj_del "id" client in
  match assoc "protocolMappers" copy with
  | Arr l => obj_set "protocolMappers" (Arr (exportMapper <$> l)) copy
  | _ => copy
  end.

(** ** Which scopes are available *)

Lemma unlessNamed_spec n l b : unlessNamed n l b = b && bool_decide (n ∉ s_name <$> l).
Proof.
  revert b. induction l as [|s l IH]; intros b; simpl.
  - by rewrite andb_true_r.
  - rewrite IH. destruct (String.eqb_spec n (s_name s)) as [->|Hne].
    + symmetry. apply andb_false_iff. right. apply bool_decide_eq_false_2. set_solver.
    + f_equal. apply bool_decide_ext. set_solver.
Qed.

(** A scope is available exactly when it fits and neither list has its name. *)
Theorem availableClientScopes_spec fits defaults optionals scopes s :
  s ∈ availableClientScopes fits defaults optionals scopes ↔
    s ∈ scopes ∧ fits s = true ∧ (s_name s ∉ s_name <$> defaults) ∧ (s_name s ∉ s_name <$> optionals).
Proof.
  induction scopes as [|x scopes IH]; cbn [availableClientScopes].
  - split; [by intros ?%not_elem_of_nil|intros [?%not_elem_of_nil _]; done].
  - rewrite elem_of_app, IH, elem_of_cons, !unlessNamed_spec.
    destruct (fits x && bool_decide (s_name x ∉ s_name <$> defaults)
              && bool_decide (s_name x ∉ s_name <$> optionals)) eqn:E.
    + rewrite !andb_true_iff, !bool_decide_eq_true in E. rewrite list_elem_of_singleton. naive_solver.
    + rewrite <-not_true_iff_false, !andb_true_iff, !bool_decide_eq_true in E.
      rewrite elem_of_nil. naive_solver.
Qed.

(** ** The counters *)

Lemma counter_setCounter kind kind' z s :
  counter kind (setCounter kind' z s) = if bool_decide (kind = kind') then z else counter kind s.
Proof. by destruct kind, kind'. Qed.

Lemma setCounter_fields kind z s :
  requests (setCounter kind z s) = requests s ∧ server (setCounter kind z s) = server s ∧
  shown (setCounter kind z s) = shown s.
Proof. by destruct kind. Qed.

(** The requests of a kind that wait after one of them was answered. *)
Lemma waiting_delete kind index r s :
  requests s !! index = Some r →
  waiting kind s = waiting kind (s <| requests ::= delete index |>) + (if bool_decide (adds r.1 = kind) then 1 else 0).
Proof.
  intros Hr. unfold waiting. simpl. rewrite (delete_Permutation _ _ _ Hr) at 1.
  rewrite filter_cons. destruct (decide _) as [?|?]; simpl;
    [rewrite bool_decide_eq_true_2 by done|rewrite bool_decide_eq_false_2 by done]; lia.
Qed.

Lemma waiting_click kind b selected s :
  waiting kind (click b selected s) =
    waiting kind s + (if bool_decide (adds b = kind) then length selected else 0).
Proof.
  unfold waiting, click. simpl. rewrite (proj1 (setCounter_fields _ _ _)), filter_app, length_app. f_equal.
  induction selected as [|x l IH]; csimpl; [by case_match|]. rewrite filter_cons. simpl.
  destruct (decide _) as [?|?]; csimpl; rewrite IH;
    [rewrite !bool_decide_eq_true_2 by done|rewrite !bool_decide_eq_false_2 by done]; done.
Qed.

Lemma waiting_none s : requests s = [] ↔ ∀ kind, waiting kind s = 0.
Proof.
  unfold waiting. split; [by intros ->|]. intros H. destruct (requests s) as [|r l]; [done|].
  specialize (H (adds r.1)). rewrite filter_cons in H. by destruct (decide _).
Qed.

(** While requests of a kind wait, the counter is their number; when none waits at all, the
    page shows what the server has. *)
Definition counted (s : setup) : Prop :=
  (∀ kind, 0 < waiting kind s → counter kind s = Z.of_nat (waiting kind s)) ∧
  (requests s = [] → shown s = server s).

(** What an answer does, by the counter of its kind. *)
Lemma onAnswer_spec index r s :
  requests s !! index = Some r →
  let s' := (onAnswer index true s).1 in
  (∀ kind, waiting kind s = waiting kind s' + (if bool_decide (adds r.1 = kind) then 1 else 0)) ∧
  (∀ kind, counter kind s' = counter kind s - (if bool_decide (adds r.1 = kind) then 1 else 0))%Z ∧
  ((onAnswer index true s).2 = true ↔ counter (adds r.1) s = 1%Z) ∧
  (counter (adds r.1) s = 1%Z → shown s' = server s') ∧
  (counter (adds r.1) s ≠ 1%Z → shown s' = shown s).
Proof.
  intros Hr. pose proof (λ k, waiting_delete k index r s Hr) as Hw.
  unfold onAnswer. rewrite Hr.
  set (s1 := s <| requests ::= delete index |>) in *. set (s2 := s1 <| server ::= serve r |>).
  assert (∀ k, counter k s2 = counter k s) as Hc by (by intros []).
  rewrite Hc. set (n := (counter (adds r.1) s - 1)%Z).
  destruct (setCounter_fields (adds r.1) n s2) as (E1 & E2 & E3).
  assert (∀ k, counter k (setCounter (adds r.1) n s2) =
    counter k s - (if bool_decide (adds r.1 = k) then 1 else 0))%Z as Hcs.
  { intros k. rewrite counter_setCounter, Hc. unfold n.
    destruct (decide (k = adds r.1)) as [->|Hne].
    - by rewrite !bool_decide_eq_true_2 by done.
    - rewrite !bool_decide_eq_false_2 by done. lia. }
  assert (∀ k x, requests x = requests (setCounter (adds r.1) n s2) →
    waiting k s = waiting k x + (if bool_decide (adds r.1 = k) then 1 else 0)) as Hws.
  { intros k x Hx. rewrite Hw. f_equal. unfold waiting. by rewrite Hx, E1. }
  destruct (Z.eqb_spec n 0); cbn [fst snd].
  - split; [by intros; apply Hws|]. split; [intros k; rewrite <-Hcs; by destruct k|]. split; [by split; [lia|]|].
    split; [done|lia].
  - split; [by intros; apply Hws|]. split; [done|]. split; [by split; [|lia]|]. split; [lia|done].
Qed.

Lemma counted_orderly s s' : counted s → orderly s s' → counted s'.
Proof.
  intros Hx Ho. destruct Ho as [b selected x Hb Hsel|index x Hi]; destruct Hx as [Hn Hs].
  - split.
    + intros kind. rewrite waiting_click. unfold click. simpl.
      assert (∀ f y, counter kind (y <| requests ::= f |>) = counter kind y) as -> by (by destruct kind).
      rewrite counter_setCounter. destruct (decide (kind = adds b)) as [->|Hne].
      * rewrite !bool_decide_eq_true_2, Hb by done. done.
      * rewrite !bool_decide_eq_false_2 by done. rewrite Nat.add_0_r. apply Hn.
    + intros H. unfold click in H. simpl in H. apply app_eq_nil in H as [_ H]. by destruct selected.
  - destruct (lookup_lt_is_Some_2 _ _ Hi) as [r Hr].
    destruct (onAnswer_spec index r x Hr) as (Hw & Hc & _ & Hre & _). split.
    + intros kind Hk. rewrite Hc. specialize (Hn kind). rewrite Hw in Hn.
      destruct (bool_decide _); lia.
    + intros H0. apply Hre. pose proof (proj1 (waiting_none _) H0) as Hz.
      specialize (Hn (adds r.1)). rewrite Hw, Hz, bool_decide_eq_true_2 in Hn by done. simpl in Hn. lia.
Qed.

(** C39: On the pages that assign client scopes, when a button is not used again while requests of its
    kind wait and the server accepts them, the page is reloaded exactly by the answer after
    which no request of that kind waits, and once nothing waits it shows what the server has. *)
Theorem setup_counters s0 s :
  requests s0 = [] → shown s0 = server s0 → rtc orderly s0 s →
  (requests s = [] → shown s = server s) ∧
  ∀ index r, requests s !! index = Some r →
    (onAnswer index true s).2 = true ↔ waiting (adds r.1) (onAnswer index true s).1 = 0.
Proof.
  intros H0 H1 Hs. assert (counted s) as [Hn Hsh].
  { assert (counted s0) as Hc by (split; [intros k; unfold waiting; rewrite H0; simpl; lia|done]).
    clear H0 H1. induction Hs; eauto using counted_orderly. }
  split; [done|]. intros index r Hr. destruct (onAnswer_spec index r s Hr) as (Hw & _ & -> & _).
  specialize (Hn (adds r.1)). specialize (Hw (adds r.1)). rewrite bool_decide_eq_true_2 in Hw by done. lia.
Qed.

(** Two buttons that add share a counter: used one after the other before the answers, the
    page is reloaded too early and stays behind the server. *)
Theorem overlapping_adds :
  let s := click AddDefault ["a"; "b"] (mkSetup 0 0 [] [] []) in
  let s := (onAnswer 0 true s).1 in
  let s := click AddOptional ["c"] s in
  let s := (onAnswer 1 true s).1 in
  let s := (onAnswer 0 true s).1 in
  requests s = [] ∧ (true, "b") ∈ server s ∧ (true, "b") ∉ shown s.
Proof. vm_compute. split_and!; [done|set_solver..]. Qed.

Fixpoint answers (l : list (nat * bool)) (s : setup) : setup :=
  match l with
  | [] => s
  | (index, ok) :: l => answers l (onAnswer index ok s).1
  end.

Definition only (kind : bool) (s : setup) : Prop := Forall (λ r, adds r.1 = kind) (requests s).

Lemma onAnswer_refused index s r : requests s !! index = Some r →
  onAnswer index false s = (s <| requests ::= delete index |>, false).
Proof. intros Hr. unfold onAnswer. by rewrite Hr. Qed.

Lemma only_waiting kind s : only kind s → waiting kind s = length (requests s).
Proof.
  unfold only, waiting. intros H. f_equal. induction H as [|r l Hr _ IH]; [done|].
  rewrite filter_cons. destruct (decide _); [by rewrite IH|done].
Qed.

Lemma only_answer kind index ok s : only kind s → only kind (onAnswer index ok s).1.
Proof.
  intros Hs. unfold onAnswer. destruct (requests s !! index) as [r|]; [|done].
  assert (Forall (λ r, adds r.1 = kind) (delete index (requests s))) by (by apply Forall_delete).
  destruct ok; [|done]. unfold only. case_match; cbn [fst]; [|by rewrite (proj1 (setCounter_fields _ _ _))].
  simpl. by rewrite (proj1 (setCounter_fields _ _ _)).
Qed.

(** A request that the server refuses leaves the counter above the number of requests that
    wait, and the page is not reloaded, whatever the other answers are. *)
Theorem refused_request_no_reload kind index r s l :
  only kind s → counter kind s = Z.of_nat (waiting kind s) → requests s !! index = Some r →
  shown (answers l (onAnswer index false s).1) = shown s.
Proof.
  intros Ho Hc Hr.
  assert (∀ l s, only kind s → (Z.of_nat (waiting kind s) < counter kind s)%Z → shown (answers l s) = shown s) as Hrun.
  { clear. induction l as [|[i ok] l IH]; intros s Ho Hlt; simpl; [done|].
    destruct (requests s !! i) as [r|] eqn:Hr; [|unfold onAnswer; rewrite Hr; by apply IH].
    assert (adds r.1 = kind) as Hk by exact (Forall_lookup_1 _ _ _ _ Ho Hr).
    pose proof (only_answer kind i ok s Ho) as Ho'. destruct ok.
    - destruct (onAnswer_spec i r s Hr) as (Hw & Hc & _ & _ & Hs). rewrite Hk in Hs.
      specialize (Hw kind). specialize (Hc kind). rewrite bool_decide_eq_true_2 in Hw, Hc by done.
      rewrite IH; [apply Hs; lia|done|lia].
    - rewrite (onAnswer_refused i s r Hr) in *. cbn [fst] in *. rewrite IH; [done..|].
      pose proof (waiting_delete kind i r s Hr) as Hw.
      assert (counter kind (s <| requests ::= delete i |>) = counter kind s) as -> by (by destruct kind). lia. }
  pose proof (only_answer kind index false s Ho) as Ho'.
  rewrite (onAnswer_refused index s r Hr) in *. cbn [fst] in *. rewrite Hrun; [done..|].
  pose proof (waiting_delete kind index r s Hr) as Hw.
  assert (adds r.1 = kind) as Hk by exact (Forall_lookup_1 _ _ _ _ Ho Hr).
  rewrite bool_decide_eq_true_2 in Hw by done.
  assert (counter kind (s <| requests ::= delete index |>) = counter kind s) as -> by (by destruct kind). lia.
Qed.

(** ** Evaluation *)

Lemma spliceOut_perm x l : x ∈ l → l ≡ₚ x :: spliceOut x l.
Proof.
  intros Hx. unfold spliceOut. destruct (list_find _ l) as [[i y]|] eqn:E.
  - apply list_find_Some in E as (Hi & -> & _). by apply delete_Permutation.
  - apply list_find_None in E. rewrite Forall_forall in E. by destruct (E x Hx).
Qed.

(** Moving a selection out of a list into another, either way round. *)
Lemma moves_perm selected from to :
  NoDup from → NoDup selected → selected ⊆ from →
  let '(f, t) := foldl (λ '(f, t) s, (spliceOut s f, t ++ [s])) (from, to) selected in
  f ++ t ≡ₚ from ++ to.
Proof.
  revert from to. induction selected as [|x l IH]; intros from to Hnd Hsel Hsub; simpl; [done|].
  assert (x ∈ from) as Hx by set_solver. pose proof (spliceOut_perm x from Hx) as Hp.
  apply NoDup_cons in Hsel as [Hxl Hl].
  assert (NoDup (spliceOut x from)) as Hn by (rewrite Hp in Hnd; by apply NoDup_cons in Hnd as [_ ?]).
  assert (l ⊆ spliceOut x from) as Hsub'.
  { intros y Hy. assert (y ∈ from) as Hyf by set_solver. rewrite Hp in Hyf. set_solver. }
  specialize (IH (spliceOut x from) (to ++ [x]) Hn Hl Hsub').
  destruct (foldl _ _ l) as [f t]. rewrite IH. etrans; [|by apply Permutation_app_tail; symmetry].
  rewrite app_assoc, <-Permutation_cons_append. done.
Qed.

Lemma moves_swap (selected : list clientScope) av asg :
  foldl (λ '(av, asg) s, (av ++ [s], spliceOut s asg)) (av, asg) selected =
  let '(f, t) := foldl (λ '(f, t) s, (spliceOut s f, t ++ [s])) (asg, av) selected in (t, f).
Proof. revert av asg. induction selected as [|x l IH]; intros av asg; simpl; [done|]. apply IH. Qed.

Definition evaluated (defaults optionals : list clientScope) (e : evaluation) : Prop :=
  available e ++ assigned e ≡ₚ optionals ∧
  e = updateState defaults (available e) (assigned e).

Lemma evaluation_step_keeps defaults optionals e e' :
  NoDup optionals → evaluated defaults optionals e → evaluation_step defaults e e' →
  evaluated defaults optionals e'.
Proof.
  intros Hnd [Hp He] Hs. rewrite <-Hp in Hnd. apply NoDup_app in Hnd as (Ha & _ & Hg).
  destruct Hs as [selected Hsel Hsub|selected Hsel Hsub].
  - unfold addAppliedClientScope. pose proof (moves_perm selected _ (assigned e) Ha Hsel Hsub) as Hm.
    destruct (foldl _ _ selected) as [f t]. split; [|done]. simpl. by rewrite Hm.
  - unfold deleteAppliedClientScope. rewrite moves_swap.
    pose proof (moves_perm selected _ (available e) Hg Hsel Hsub) as Hm.
    destruct (foldl _ _ selected) as [f t]. split; [|done]. simpl. by rewrite Permutation_app_comm, Hm, Permutation_app_comm.
Qed.

Lemma scopeParam_join names p :
  foldl (λ p s, p +:+ " " +:+ s_name s) p names = join " " (p :: (s_name <$> names)).
Proof.
  revert p. induction names as [|s l IH]; intros p; [done|]. cbn [foldl]. rewrite IH, !fmap_cons.
  rewrite (join_cons " " p) by done. destruct (s_name <$> l) as [|n ns] eqn:E; [done|].
  rewrite !join_cons by done. by rewrite !app_assoc_s.
Qed.

Lemma split_join_names p l :
  occurs " "%char p = false → Forall (λ s, occurs " "%char (s_name s) = false) l →
  split " " (join " " (p :: (s_name <$> l))) = p :: (s_name <$> l).
Proof.
  intros Hp Hl. revert p Hp. induction Hl as [|s l Hs Hl IH]; intros p Hp; [by apply split_no_sep|].
  rewrite fmap_cons, join_cons by done. change (" " +:+ ?x) with (String " "%char x).
  rewrite split_app by done. by rewrite (IH (s_name s) Hs).
Qed.

(** Every optional scope stays in exactly one of the two lists, the effective scopes are the
    default ones and those that are assigned, and the parameter [scope] names [openid] and the
    assigned ones, from which they can be read back when no name has a space. *)
Theorem evaluation_spec defaults optionals e :
  NoDup optionals → rtc (evaluation_step defaults) (openEvaluation defaults optionals) e →
  available e ++ assigned e ≡ₚ optionals ∧ effective e = defaults ++ assigned e ∧
  (Forall (λ s, occurs " "%char (s_name s) = false) (assigned e) →
   split " " (scopeParam e) = "openid" :: (s_name <$> assigned e)).
Proof.
  intros Hnd Hs. assert (evaluated defaults optionals e) as [Hp He].
  { assert (evaluated defaults optionals (openEvaluation defaults optionals)) as H0
      by (split; [simpl; by rewrite (right_id_L [] (++))|done]).
    induction Hs as [|x y z Hxy _ IH]; [done|]. by apply IH, (evaluation_step_keeps defaults optionals x). }
  split; [done|]. rewrite He. simpl. split; [done|]. intros Hf. rewrite scopeParam_join.
  by apply split_join_names.
Qed.

(** ** Built-in mappers *)

Lemma dropMapper_elem l m x : NoDup l → x ∈ dropMapper l m ↔ x ∈ l ∧ x ≠ m.
Proof.
  intros Hnd. unfold dropMapper. destruct (list_find _ l) as [[i y]|] eqn:E.
  - apply list_find_Some in E as (Hi & [H1 H2] & _).
    assert (y = m) as -> by (destruct y, m; simpl in *; congruence).
    pose proof (delete_Permutation _ _ _ Hi) as Hp. rewrite Hp in Hnd. apply NoDup_cons in Hnd as [Hm _].
    rewrite Hp at 2. set_solver.
  - apply list_find_None in E. rewrite Forall_forall in E. split; [|by intros [? _]].
    intros Hx. split; [done|]. intros ->. by apply (E m).
Qed.

Lemma dropMapper_NoDup l m : NoDup l → NoDup (dropMapper l m).
Proof.
  intros Hnd. unfold dropMapper. destruct (list_find _ l) as [[i y]|]; [|done].
  apply (sublist_NoDup _ l); [done|apply sublist_delete].
Qed.

Lemma dropMappers_elem l ms x : NoDup l → x ∈ foldl dropMapper l ms ↔ x ∈ l ∧ x ∉ ms.
Proof.
  revert l. induction ms as [|m ms IH]; intros l Hnd; simpl.
  - rewrite elem_of_nil. tauto.
  - rewrite IH by (by apply dropMapper_NoDup). rewrite dropMapper_elem by done. set_solver.
Qed.

(** The first page that asks offers the built-in mappers the client does not have. *)
Theorem updateMappers_spec protocol clientMappers (b : builtins) m :
  NoDup (b protocol) →
  m ∈ updateMappers protocol clientMappers b protocol ↔ m ∈ b protocol ∧ m ∉ clientMappers.
Proof. intros Hnd. unfold updateMappers. rewrite String.eqb_refl. by apply dropMappers_elem. Qed.

(** The list belongs to the whole console: what one client has is not offered to any client
    whose page is opened later. *)
Theorem builtin_mapper_lost protocol mappers1 mappers2 (b : builtins) m :
  NoDup (b protocol) → m ∈ mappers1 →
  m ∉ updateMappers protocol mappers2 (updateMappers protocol mappers1 b) protocol.
Proof.
  intros Hnd Hm. unfold updateMappers. rewrite String.eqb_refl.
  assert (NoDup (foldl dropMapper (b protocol) mappers1)) as Hn.
  { clear Hm. generalize (b protocol), Hnd. clear Hnd. induction mappers1 as [|x l IH]; intros l0 H0; simpl; [done|].
    by apply IH, dropMapper_NoDup. }
  rewrite !dropMappers_elem by done. tauto.
Qed.

(** ** A new mapper *)

(** A property of the type has its default value in the new mapper, unless that is falsy. *)
Theorem defaultConfig_spec l (n : string) v :
  NoDup l.*1 → n ≠ "" → (∀ k, k ∈ l.*1 → ∃ s, k = Str s) → (Str n, v) ∈ l →
  assoc n (defaultConfig (Some l)) = if truthy v then v else Undefined.
Proof.
  intros Hnd Hn Hstr Hin. unfold defaultConfig. simpl.
  assert (∀ c, assoc n c = Undefined →
    assoc n (foldl (λ config p, if truthy p.1 && truthy p.2 then obj_set (to_string p.1) p.2 config else config) c l)
    = if truthy v then v else Undefined) as H; [|by apply H].
  assert (∀ l c, (∀ k, k ∈ l.*1 → ∃ s, k = Str s) → Str n ∉ l.*1 →
    assoc n (foldl (λ config p, if truthy p.1 && truthy p.2 then obj_set (to_string p.1) p.2 config else config) c l)
    = assoc n c) as Hskip.
  { clear. induction l as [|[k w] l IH]; intros c Hs Hk; simpl; [done|].
    csimpl in *. apply not_elem_of_cons in Hk as [Hne Hk].
    destruct (Hs k) as [s ->]; [set_solver|]. rewrite IH by set_solver.
    case_match; [|done]. apply assoc_obj_set_ne. simpl. congruence. }
  induction l as [|[k w] l IH]; intros c Hc; [by apply not_elem_of_nil in Hin|].
  csimpl in *. apply NoDup_cons in Hnd as [Hk Hnd]. apply elem_of_cons in Hin as [[= <- <-]|Hin].
  - rewrite Hskip by set_solver. rewrite (proj2 (truthy_str n) Hn). simpl.
    destruct (truthy v); [apply assoc_obj_set|done].
  - apply IH; [done|set_solver|done|]. simpl; destruct (truthy k && truthy w); [|done]. destruct (Hstr k) as [s ->]; [set_solver|].
    rewrite assoc_obj_set_ne; [done|]. simpl. intros ->. apply Hk. apply list_elem_of_fmap. by exists (Str s, v).
Qed.

(** ** Export *)

(** An exported client has no id and neither have its mappers; its other fields are kept. *)
Theorem exportClient_spec client k :
  assoc "id" (exportClient client) = Undefined ∧
  (k ≠ "id" → k ≠ "protocolMappers" → assoc k (exportClient client) = assoc k client) ∧
  (∀ l, assoc "protocolMappers" client = Arr l →
     assoc "protocolMappers" (exportClient client) = Arr (exportMapper <$> l)) ∧
  (∀ o, assoc "id" (match exportMapper (Obj o) with Obj o => o | _ => [] end) = Undefined).
Proof.
  assert (∀ k c, k ≠ "id" → assoc k (obj_del "id" c) = assoc k c) as Hne.
  { intros k' c Hk. rewrite assoc_obj_del. by destruct (String.eqb_spec k' "id"). }
  assert (∀ c, assoc "id" (obj_del "id" c) = Undefined) as Hid by (intros c; by rewrite assoc_obj_del).
  unfold exportClient. split_and!; [|intros H1 H2|intros l Hl|intros o; simpl; apply Hid].
  - case_match; try apply Hid. rewrite assoc_obj_set_ne by done. apply Hid.
  - case_match; rewrite ?assoc_obj_set_ne by done; by apply Hne.
  - rewrite Hne, Hl by done. apply assoc_obj_set.
Qed.

End ClientScopes.
