(* ===== verification/ClientForms.v ===== *)
(** The other forms of clients.js: [CreateClientCtrl], [ClientScopeDetailCtrl], the choice of
    [ClientCredentialsCtrl], and the forms of its types ([ClientSignedJWTCtrl],
    [ClientX509Ctrl]). *)

From S2P Require Import Prelude JsString Uri JsValue JsText AngularEquals ClientDetail.
Import JsString Uri JsValue JsText AngularEquals ClientDetail.

Module ClientForms.

(** ** A new client *)

Record newClient := mkNew { n_client : object; n_protocol : jsval; n_importing : bool }.

Definition emptyClient : object :=
  [("enabled", Bool true); ("attributes", Obj []); ("redirectUris", Arr [])].

Definition firstProtocol (protocols : list string) : jsval :=
  match protocols with p :: _ => Str p | [] => Undefined end.

Definition openCreate (protocols : list string) : newClient :=
  mkNew emptyClient (firstProtocol protocols) false.

(** The answer of [ClientDescriptionConverter]. *)
Definition importDescription (data : object) (n : newClient) : newClient :=
  let p := assoc "protocol" data in
  mkNew data (if truthy p then p else n_protocol n) true.

Definition changeNewProtocol (n : newClient) : newClient :=
  if loose_eq (n_protocol n) (Str "openid-connect") then
    mkNew (obj_set "protocol" (Str "openid-connect") (n_client n)) (n_protocol n) (n_importing n)
  else if loose_eq (n_protocol n) (Str "saml") then
    mkNew (obj_set "protocol" (Str "saml") (n_client n)) (n_protocol n) (n_importing n)
  else n.

(** The body of [save]. *)
Definition saveNew (n : newClient) : object := obj_set "protocol" (n_protocol n) (n_client n).

(** [l.substring(l.lastIndexOf("/") + 1)], and the page the console goes to. *)
Definition createdId (location : string) : string :=
  substring_from location (lastIndexOf location "/" + 1).

Definition createdUrl (realm location : string) : string :=
  "/realms/" +:+ realm +:+ "/clients/" +:+ createdId location.

(** ** A client scope *)

Record scopePage := mkScopePage {
  resolved : object;                 (* clientScope *)
  edited : object;                   (* $scope.clientScope *)
  creating : bool;
  scopeProtocol : jsval;
  displayOnConsentScreen : jsval
}.

Definition consentAttribute : string := "display.on.consent.screen".

(** A scope that does not say is displayed. *)
Definition displayOf (c : object) : jsval :=
  let x := assoc consentAttribute (attributes c) in
  Bool (if truthy x then loose_eq x (Str "true") else true).

Definition openScope (protocols : list string) (c : object) : scopePage :=
  let create := negb (truthy (assoc "name" c)) in
  let e := withAttributes (if create then [] else c) in
  mkScopePage c e create (protocolOf protocols e) (displayOf e).

Definition scopeChanged (p : scopePage) : bool := negb (equals (Obj (edited p)) (Obj (resolved p))).

(** The body of [save], for a new scope and for one that is there. *)
Definition saveScope (p : scopePage) : object :=
  let c := obj_set "protocol" (scopeProtocol p) (edited p) in
  setAttribute consentAttribute
    (Str (if loose_eq (displayOnConsentScreen p) (Bool true) then "true" else "false")) c.

(** The callback of [ClientScope.update]. *)
Definition onScopeUpdated (p : scopePage) : scopePage :=
  mkScopePage (edited p) (edited p) (creating p) (scopeProtocol p) (displayOnConsentScreen p).

(** ** The authenticator of a client *)

Definition partialOf (t : string) : string :=
  if String.eqb t "client-secret" then "client-credentials-secret.html"
  else if String.eqb t "client-jwt" then "client-credentials-jwt.html"
  else if String.eqb t "client-secret-jwt" then "client-credentials-secret-jwt.html"
  else if String.eqb t "client-x509" then "client-credentials-x509.html"
  else "client-credentials-generic.html".

Record credentials := mkCredentials {
  savedType : string;                (* client.clientAuthenticatorType *)
  shownType : string;                (* $scope.client.clientAuthenticatorType *)
  partial : string;
  updates : list string;             (* the types in requests without an answer *)
  serverType : string
}.

Definition openCredentials (t : string) : credentials := mkCredentials t t (partialOf t) [] t.

(** A choice, with the watch. *)
Definition selectType (t : string) (c : credentials) : credentials :=
  if String.eqb t (shownType c) then c
  else mkCredentials (savedType c) t (partial c)
         (updates c ++ (if String.eqb t (savedType c) then [] else [t])) (serverType c).

(** The server accepts an update; the callback copies what is shown by then. *)
Definition onUpdated (index : nat) (c : credentials) : credentials :=
  match updates c !! index with
  | None => c
  | Some t =>
      mkCredentials (shownType c) (shownType c) (partialOf (shownType c)) (delete index (updates c)) t
  end.

Inductive patient : credentials → credentials → Prop :=
  | patient_select t c : updates c = [] → patient c (selectType t c)
  | patient_answer index c : patient c (onUpdated index c).

(** ** The forms of two types *)

(** [ClientSignedJWTCtrl]: the switch, and [client.attributes] as [save] sends it. *)
Definition openJwt (c : object) : object :=
  readSwitch (attributes c) [] ("use.jwks.url", "useJwksUrl").

Definition saveJwt (sw c : object) : object := writeSwitch sw c ("use.jwks.url", "useJwksUrl").

(** [ClientX509Ctrl]: the client, its copy and [changed]; [None] is the message that the
    subject is empty. *)
Record x509 := mkX509 { x_client : object; x_copy : object; x_changed : bool }.

Definition subject : string := "x509.subjectdn".

Definition openX509 (c : object) : x509 := mkX509 c c false.

Definition watchX509 (x : x509) : x509 :=
  mkX509 (x_client x) (x_copy x)
    (if equals (Obj (x_client x)) (Obj (x_copy x)) then x_changed x else true).

Definition typeSubject (s : string) (x : x509) : x509 :=
  watchX509 (mkX509 (setAttribute subject (Str s) (x_client x)) (x_copy x) (x_changed x)).

Definition saveX509 (x : x509) : option object :=
  if truthy (assoc subject (attributes (x_client x))) then Some (x_client x) else None.

Definition savedX509 (x : x509) : x509 := mkX509 (x_client x) (x_client x) false.

(** The URL that [reset] goes to is that of the page. *)
Definition resetX509 (x : x509) : x509 :=
  watchX509 (mkX509 (setAttribute subject (assoc subject (attributes (x_copy x))) (x_client x))
               (x_copy x) (x_changed x)).

(** ** Theorems *)

Lemma find_last_app c s t : find_last c t = None → find_last c (s +:+ String c t) = Some (String.length s).
Proof.
  intros Ht. induction s as [|a s IH].
  - rewrite app_nil_l. cbn [find_last]. rewrite Ht. by rewrite Ascii.eqb_refl.
  - rewrite app_cons. cbn [find_last]. by rewrite IH.
Qed.

(** The console goes from the answer to a new client to the page of that client. *)
Theorem createdId_spec base id :
  find_last "/" id = None → createdId (base +:+ "/" +:+ id) = id.
Proof.
  intros Hid. unfold createdId, lastIndexOf.
  change (base +:+ "/" +:+ id) with (base +:+ String "/" id). rewrite find_last_app by done.
  assert (base +:+ String "/" id = (base +:+ "/") +:+ id) as -> by (by rewrite app_assoc_s).
  etrans; [|apply (substring_from_app (base +:+ "/") id)]. f_equal.
  unfold length_s. rewrite length_app_s. simpl. lia.
Qed.

(** An imported description is sent as it is but for the protocol, which is the one of the
    description where it has one. *)
Theorem imported_client data n k :
  assoc k (saveNew (importDescription data n)) =
    if String.eqb k "protocol" then js_or (assoc "protocol" data) (n_protocol n) else assoc k data.
Proof.
  unfold saveNew, importDescription, js_or. simpl. destruct (String.eqb_spec k "protocol") as [->|].
  - by rewrite assoc_obj_set.
  - by rewrite assoc_obj_set_ne.
Qed.

(** A scope that was saved opens with the same switch and protocol, and unchanged. *)
Theorem scope_save_roundtrip protocols p q :
  keys_once (Obj (edited p)) = true → truthy (assoc "name" (edited p)) = true →
  scopeProtocol p = Str q → q ≠ "" → q ∈ protocols →
  let p' := openScope protocols (saveScope p) in
  displayOnConsentScreen p' = Bool (loose_eq (displayOnConsentScreen p) (Bool true)) ∧
  scopeProtocol p' = scopeProtocol p ∧ scopeChanged p' = false.
Proof.
  intros Hk Hname Hq Hne Hin p'.
  assert (assoc "name" (saveScope p) = assoc "name" (edited p)) as Hn
    by (unfold saveScope; by autorewrite with client).
  assert (withAttributes (saveScope p) = saveScope p) as Hw.
  { unfold withAttributes, saveScope, setAttribute at 1. by rewrite assoc_obj_set. }
  assert (assoc "protocol" (saveScope p) = Str q) as Hp
    by (unfold saveScope; by autorewrite with client).
  unfold p', openScope, scopeChanged. rewrite Hn, Hname. simpl. rewrite Hw. split_and!.
  - unfold displayOf, saveScope. rewrite attributes_setAttribute, assoc_obj_set.
    by destruct (loose_eq (displayOnConsentScreen p) _).
  - unfold protocolOf. rewrite Hp, (proj2 (truthy_str q) Hne), Hq.
    apply (chosen_own (λ x y, strict_eq y x) protocols q Undefined); [|done].
    intros x y. apply String.eqb_sym.
  - apply negb_false_iff, equals_refl. unfold saveScope. rewrite Hq. auto with client.
Qed.

(** A scope without attributes opens as if it had been changed: the copy gets an empty object
    of attributes, and the original does not. *)
Theorem scope_opens_changed protocols c :
  keys_once (Obj c) = true → truthy (assoc "name" c) = true → assoc "attributes" c = Undefined →
  scopeChanged (openScope protocols c) = true.
Proof.
  intros Hc Hn Ha. unfold scopeChanged, openScope. rewrite Hn. simpl.
  unfold withAttributes. rewrite Ha. simpl. apply negb_true_iff, not_true_iff_false. intros H.
  pose proof Hc as [_ HN]%keys_once_obj.
  rewrite equals_obj in H by (try apply obj_set_keys; done). specialize (H "attributes" eq_refl).
  by rewrite assoc_obj_set, Ha in H.
Qed.

(** The type that is shown is the one the server has, as long as every choice waits for the
    answer to the one before it. *)
Theorem authenticator_agrees t c :
  rtc patient (openCredentials t) c → updates c = [] →
  serverType c = shownType c ∧ savedType c = shownType c ∧ partial c = partialOf (shownType c).
Proof.
  intros Hs.
  assert ((updates c = [] ∧ serverType c = shownType c ∧ savedType c = shownType c ∧
           partial c = partialOf (shownType c)) ∨ updates c = [shownType c]) as H; [|by destruct H as [(_ & ?)|H]; [|rewrite H]].
  assert ((updates (openCredentials t) = [] ∧ serverType (openCredentials t) = shownType (openCredentials t) ∧
           savedType (openCredentials t) = shownType (openCredentials t) ∧
           partial (openCredentials t) = partialOf (shownType (openCredentials t))) ∨
          updates (openCredentials t) = [shownType (openCredentials t)]) as H0 by (by left).
  revert H0. induction Hs as [x|x y z Hxy _ IH]; [done|]. intros Hx. apply IH. clear IH.
  destruct Hxy as [t' x Hu|index x].
  - destruct Hx as [(_ & ? & ? & ?)|Hx]; [|by rewrite Hu in Hx]. unfold selectType.
    destruct (String.eqb_spec t' (shownType x)); [by left|]. right. simpl. rewrite Hu.
    destruct (String.eqb_spec t' (savedType x)); [congruence|done].
  - destruct Hx as [(Hu & ? & ? & ?)|Hx]; unfold onUpdated.
    + rewrite Hu. by left.
    + rewrite Hx. destruct index as [|[|]]; simpl; [left; by split_and!|by right..].
Qed.

(** A choice that is taken back before the answer is not sent: the page shows the old type and
    the server keeps the new one. *)
Theorem authenticator_taken_back t t' :
  t ≠ t' →
  let c := onUpdated 0 (selectType t (selectType t' (openCredentials t))) in
  updates c = [] ∧ shownType c = t ∧ serverType c = t'.
Proof.
  intros Hne. unfold selectType. simpl. destruct (String.eqb_spec t' t); [congruence|]. simpl.
  destruct (String.eqb_spec t t'); [done|]. by rewrite String.eqb_refl.
Qed.

(** The switch of the signed JWT is read back. *)
Theorem jwt_roundtrip sw c :
  assoc "useJwksUrl" (openJwt (saveJwt sw c)) = Bool (loose_eq (assoc "useJwksUrl" sw) (Bool true)).
Proof.
  unfold openJwt, saveJwt, readSwitch, writeSwitch. simpl. rewrite attributes_setAttribute, assoc_obj_set.
  by destruct (loose_eq (assoc _ sw) _).
Qed.

(** [reset] puts the subject back and leaves [changed] set. *)
Theorem x509_reset_stays_changed s c :
  keys_once (Obj c) = true → assoc subject (attributes c) ≠ Str s →
  let x := resetX509 (typeSubject s (openX509 c)) in
  x_changed x = true ∧ assoc subject (attributes (x_client x)) = assoc subject (attributes c).
Proof.
  intros Hc Hs x. unfold x, resetX509, watchX509, typeSubject. simpl. split.
  - destruct (equals (Obj (setAttribute subject (Str s) c)) (Obj c)) eqn:E; [|by case_match].
    exfalso. apply Hs. apply equals_obj with (k := "attributes") in E; cycle 1.
    { apply obj_set_keys. by apply keys_once_obj in Hc as [_ ?]. }
    { by apply keys_once_obj in Hc as [_ ?]. }
    { done. }
    unfold setAttribute in E. rewrite assoc_obj_set in E. pose proof (keys_once_attributes c Hc) as Ha.
    unfold attributes in *. destruct (assoc "attributes" c) as [| | | | | | |a]; try done.
    apply equals_obj with (k := subject) in E; cycle 1.
    { apply obj_set_keys. by apply keys_once_obj in Ha as [_ ?]. }
    { by apply keys_once_obj in Ha as [_ ?]. }
    { done. }
    rewrite assoc_obj_set in E. by apply equals_scalar in E.
  - by rewrite attributes_setAttribute, assoc_obj_set.
Qed.

End ClientForms.
