(* ===== verification/PolicyPages.v ===== *)
(** The pages of policies and permissions: the service [PolicyController] of
    authz-controller.js, and the state it keeps in [policyViewState] while the user leaves a
    page to create or look at an associated policy and comes back.

    A delegate is the object a controller passes to [PolicyController.onInit]; the delegates of
    the pages from which a policy can be added are here, the others in AuthzSelections. *)

From S2P Require Import Prelude JsString Uri JsValue JsText RealmImport AngularEquals.
Import JsString Uri JsValue JsText RealmImport AngularEquals.

Module PolicyPages.

Abbreviation object := (list (string * jsval)).

(** ** URLs *)

(** The search of a URL: what is after the first question mark and before a hash. *)
Definition searchOf (url : string) : string :=
  let u := hd "" (split "#" url) in
  match find_s "?" u with Some n => drop_s (S n) u | None => "" end.

Definition pathOf (url : string) : string := hd "" (split "?" (hd "" (split "#" url))).

(** [$route.current.params[k] != null], for a parameter of the search. *)
Definition hasParam (k url : string) : bool :=
  existsb (λ w, String.eqb (hd "" (split "=" w)) k) (split "&" (searchOf url)).

Definition isNewAssociatedPolicy (url : string) : bool := hasParam "new_policy" url.
Definition isBackNewAssociatedPolicy (url : string) : bool := hasParam "back" url.

(** [$route.current.params.id]: the last segment of the path, which the route of a new policy
    has as [create]. *)
Definition policyId (url : string) : option string :=
  match split "/" (pathOf url) !! 9 with
  | Some "create" | None => None
  | Some id => Some id
  end.

(** [previousUrl] of [addPolicy] and [detailPolicy], from [window.location.href]. *)
Definition previousUrl (href : string) : string :=
  let url := substring_from href (indexOf href "/realms") in
  if (indexOf url "back=true" =? -1)%Z
  then url +:+ (if (indexOf url "?" =? -1)%Z then "?" else "&") +:+ "back=true"
  else url.

(** ** State *)

(** A page is [$scope] with the services it shares with the other pages: [state] is
    [policyViewState.state], [undefined] until a page sets it, since the factory puts its object
    into [model]; [view] is [viewState.state]; [url] is what [$location] has; [policy0] is the
    variable [policy] the watch compares with; [sent] has the bodies of the requests. *)
Record page := mkPage {
  state : jsval;
  view : jsval;
  url : string;
  scope : object;
  policy0 : object;
  sent : list object;
  messages : list string
}.

Definition eta_page (p : page) : page :=
  mkPage (state p) (view p) (url p) (scope p) (policy0 p) (sent p) (messages p).

#[global] Instance set_state : Field state := ltac:(mk_field eta_page state).
#[global] Instance set_view : Field view := ltac:(mk_field eta_page view).
#[global] Instance set_url : Field url := ltac:(mk_field eta_page url).
#[global] Instance set_scope : Field scope := ltac:(mk_field eta_page scope).
#[global] Instance set_policy0 : Field policy0 := ltac:(mk_field eta_page policy0).
#[global] Instance set_sent : Field sent := ltac:(mk_field eta_page sent).
#[global] Instance set_messages : Field messages := ltac:(mk_field eta_page messages).

(** [$scope.k], [$scope.k = v], [policyViewState.state.k] and its assignment. *)
Definition getScope (k : string) : M page jsval := gets (λ p, assoc k (scope p)).
Definition setScope (k : string) (v : jsval) : M page unit := modify (λ p, p <| scope ::= obj_set k v |>).
Definition getState (k : string) : M page jsval := gets state ≫= λ s, lift (getp s k).

(** [v.k = w] *)
Definition putp (v : jsval) (k : string) (w : jsval) : outcome jsval :=
  match v with
  | Undefined | Null => Throws TypeError
  | Obj o => Returns (Obj (obj_set k w o))
  | _ => Returns v
  end.

Definition setState (k : string) (v : jsval) : M page unit :=
  gets state ≫= λ s, lift (putp s k v) ≫= λ s', modify (λ p, p <| state := s' |>).

(** [$scope.policy.k] and its assignment. *)
Definition getPolicy (k : string) : M page jsval := getScope "policy" ≫= λ v, lift (getp v k).
Definition setPolicy (k : string) (w : jsval) : M page unit :=
  getScope "policy" ≫= λ v, lift (putp v k w) ≫= setScope "policy".

(** [delete $scope.policy.k] *)
Definition deletePolicy (k : string) : M page unit :=
  getScope "policy" ≫= λ v,
  match v with
  | Undefined | Null => throw TypeError
  | Obj o => setScope "policy" (Obj (obj_del k o))
  | _ => mret tt
  end.

(** [$location.url(v)], which reads the URL when [v] is [undefined]. *)
Definition goTo (v : jsval) : M page unit :=
  match v with
  | Undefined => mret tt
  | v => modify (λ p, p <| url := to_string v |>)
  end.

Definition notify (m : string) : M page unit := modify (λ p, p <| messages ::= (λ l, l ++ [m]) |>).

Definition send : M page unit :=
  getScope "policy" ≫= λ v,
  modify (λ p, p <| sent ::= (λ l, l ++ [match v with Obj o => o | _ => [] end]) |>).

(** ** Delegates *)

(** A function a delegate does not have is one that does nothing.  [onInitCreate] and
    [onInitUpdate] are given an object and change it. *)
Record delegate := mkDelegate {
  getPolicyType : string;
  isPermission : bool;
  onInitDelegate : M page unit;
  onInitCreate : object → M page object;
  onInitUpdate : object → M page object;
  onCreate : M page unit;
  onUpdate : M page unit;
  onSaveState : M page unit;
  onRestoreState : M page unit
}.

Section controller.
Context (console realm client : string).

(** [window.location.href]: the URL of [$location] is after the hash of the console's. *)
Definition href (p : page) : string := console +:+ "#" +:+ url p.

Definition base : string := "/realms/" +:+ realm +:+ "/clients/" +:+ client +:+ "/authz/resource-server/".

(** [PolicyController.onInit] up to the answer to [ResourceServer.get]. *)
Definition onInit (d : delegate) : M page unit :=
  gets state ≫= λ s, gets url ≫= λ u,
  when ((negb (truthy s) || negb (isBackNewAssociatedPolicy u)) && negb (isNewAssociatedPolicy u))
    (modify (λ p, p <| state := Obj [] |>)) ≫= λ _,
  getState "previousPage" ≫= λ previousPage,
  when (negb (truthy previousPage)) (setState "previousPage" (Obj [])) ≫= λ _,
  setScope "historyBackOnSaveOrCancel" (Bool (isNewAssociatedPolicy u)) ≫= λ _,
  onInitDelegate d.

(** What [addPolicy] and [detailPolicy] do before they leave the page. *)
Definition keepState (d : delegate) : M page unit :=
  (getScope "policy" ≫= setState "policy") ≫= λ _,
  onSaveState d ≫= λ _,
  getScope "selectedPolicies" ≫= λ selected,
  when (truthy selected) (setState "selectedPolicies" selected) ≫= λ _,
  gets href ≫= λ h, setState "previousUrl" (Str (previousUrl h)).

Definition addPolicy (d : delegate) (type : string) : M page unit :=
  keepState d ≫= λ _, goTo (Str (base +:+ "policy/" +:+ type +:+ "/create?new_policy=true")).

Definition detailPolicy (d : delegate) (type id : string) : M page unit :=
  keepState d ≫= λ _, goTo (Str (base +:+ "policy/" +:+ type +:+ "/" +:+ id +:+ "?new_policy=true")).

(** [policyViewState.state = {}] with what outlives it. *)
Definition resetState (previousPage : jsval) : M page unit :=
  getState "rootUrl" ≫= λ rootUrl,
  modify (λ p, p <| state := Obj [] |>) ≫= λ _,
  setState "previousPage" previousPage ≫= λ _, setState "rootUrl" rootUrl.

(** [restoreState], up to the answer to its query; the result is the name it asks for. *)
Definition restoreState : M page (option (jsval * jsval)) :=
  let restore k := getState "policy" ≫= λ v, lift (getp v k) ≫= setPolicy k in
  restore "name" ≫= λ _, restore "description" ≫= λ _,
  restore "decisionStrategy" ≫= λ _, restore "logic" ≫= λ _,
  getState "selectedPolicies" ≫= λ selected,
  setScope "selectedPolicies" (if truthy selected then selected else Arr []) ≫= λ _,
  setScope "changed" (Bool true) ≫= λ _,
  getState "previousPage" ≫= λ previousPage,
  getState "newPolicyName" ≫= λ newPolicyName,
  if truthy newPolicyName then mret (Some (previousPage, newPolicyName))
  else resetState previousPage ≫= λ _, mret None.

(** The answer to the query of [restoreState]: [response] are the policies found. *)
Definition pushNamed (response : object) : M page unit :=
  getState "newPolicyName" ≫= λ name,
  when (loose_eq (assoc "name" response) name)
    (getScope "selectedPolicies" ≫= λ selected,
     match selected with
     | Arr l => setScope "selectedPolicies" (Arr (l ++ [Obj (obj_set "text" (assoc "name" response) response)]))
     | _ => throw TypeError
     end).

Definition onFound (previousPage : jsval) (response : list object) : M page unit :=
  for_each pushNamed response ≫= λ _, resetState previousPage.

(** The policy of a page that creates one. *)
Definition newPolicy (d : delegate) : object :=
  [("type", Str (getPolicyType d)); ("config", Obj []); ("logic", Str "POSITIVE");
   ("decisionStrategy", Str "UNANIMOUS")].

(** The answer to [ResourceServer.get] without an [id]; [scope.policy] is a copy made before
    [onInitCreate] is given the original. *)
Definition initCreate (d : delegate) : M page (option (jsval * jsval)) :=
  setScope "create" (Bool true) ≫= λ _,
  gets url ≫= λ u,
  getScope "historyBackOnSaveOrCancel" ≫= λ h,
  setScope "changed" (Bool (truthy h || isBackNewAssociatedPolicy u)) ≫= λ _,
  gets view ≫= λ v,
  when (negb (is_nullish v) && negb (is_nullish (optp v "previousUrl")))
    (setScope "previousUrl" (optp v "previousUrl") ≫= λ _,
     setState "rootUrl" (optp v "previousUrl") ≫= λ _,
     modify (λ p, p <| view := Obj [] |>)) ≫= λ _,
  setScope "policy" (Obj (newPolicy d)) ≫= λ _,
  modify (λ p, p <| policy0 := newPolicy d |>) ≫= λ _,
  if isBackNewAssociatedPolicy u then onRestoreState d ≫= λ _, restoreState
  else onInitCreate d (newPolicy d) ≫= λ o, modify (λ p, p <| policy0 := o |>) ≫= λ _, mret None.

(** The answer to [service.get]. *)
Definition initUpdate (d : delegate) (data : object) : M page (option (jsval * jsval)) :=
  setScope "originalPolicy" (Obj data) ≫= λ _,
  gets url ≫= λ u,
  getScope "historyBackOnSaveOrCancel" ≫= λ h,
  setScope "changed" (Bool (truthy h || isBackNewAssociatedPolicy u)) ≫= λ _,
  setScope "policy" (Obj data) ≫= λ _,
  modify (λ p, p <| policy0 := data |>) ≫= λ _,
  if isBackNewAssociatedPolicy u then onRestoreState d ≫= λ _, restoreState
  else onInitUpdate d data ≫= λ o, setScope "policy" (Obj o) ≫= λ _, mret None.

(** The watch of [policy]. *)
Definition watchPolicy : M page unit :=
  getScope "policy" ≫= λ v, gets policy0 ≫= λ o,
  when (negb (equals v (Obj o))) (setScope "changed" (Bool true)).

(** [checkNameAvailability], with the answer [found] to its search. *)
Definition checkNameAvailability (found : jsval) (onSuccess : M page unit) : M page unit :=
  getPolicy "name" ≫= λ name,
  match name with
  | Str s =>
      if String.eqb (trim s) "" then mret tt
      else getPolicy "id" ≫= λ id,
        if truthy found && truthy (optp found "id") && negb (loose_eq (optp found "id") id)
        then notify "Name already in use by another policy or permission, please choose another one."
        else onSuccess
  | v => if truthy v then throw TypeError else mret tt
  end.

(** What [save] of a new policy does with the answer [data] to the request. *)
Definition onCreated (d : delegate) (data : jsval) : M page unit :=
  getScope "historyBackOnSaveOrCancel" ≫= λ h,
  getPolicy "type" ≫= λ type,
  getPolicy "name" ≫= λ name,
  let back := setState "newPolicyName" name ≫= λ _, getState "previousUrl" ≫= goTo in
  let own kind := lift (getp data "id") ≫= λ id,
    goTo (Str (base +:+ kind +:+ "/" +:+ to_string type +:+ "/" +:+ to_string id)) in
  if isPermission d then
    getState "rootUrl" ≫= λ rootUrl,
    (if truthy h || negb (is_nullish rootUrl)
     then if is_nullish rootUrl then back else goTo rootUrl
     else own "permission") ≫= λ _, notify "The permission has been created."
  else
    (if truthy h then back else own "policy") ≫= λ _, notify "The policy has been created.".

Definition saveCreate (d : delegate) (found data : jsval) : M page unit :=
  checkNameAvailability found (onCreate d ≫= λ _, send ≫= λ _, onCreated d data).

Definition resetCreate (d : delegate) : M page unit :=
  getScope "historyBackOnSaveOrCancel" ≫= λ h,
  let previous := getState "previousUrl" ≫= goTo in
  if isPermission d then
    getState "rootUrl" ≫= λ rootUrl,
    if truthy h || negb (is_nullish rootUrl)
    then if is_nullish rootUrl then previous else goTo rootUrl
    else goTo (Str (base +:+ "permission/"))
  else if truthy h then previous else goTo (Str (base +:+ "policy/")).

(** [save] of a policy that exists; [$route.reload] opens the page of the URL in any case. *)
Definition onUpdated (d : delegate) : M page unit :=
  getScope "historyBackOnSaveOrCancel" ≫= λ h,
  getPolicy "type" ≫= λ type, getPolicy "id" ≫= λ id,
  let kind := if isPermission d then "permission" else "policy" in
  (if truthy h then getState "previousUrl" ≫= goTo
   else goTo (Str (base +:+ kind +:+ "/" +:+ to_string type +:+ "/" +:+ to_string id))) ≫= λ _,
  notify (if isPermission d then "The permission has been updated." else "The policy has been updated.").

Definition saveUpdate (d : delegate) (found : jsval) : M page unit :=
  checkNameAvailability found (onUpdate d ≫= λ _, send ≫= λ _, onUpdated d).

Definition resetUpdate (d : delegate) (data : object) : M page unit :=
  getScope "historyBackOnSaveOrCancel" ≫= λ h,
  if truthy h then getState "previousUrl" ≫= goTo
  else onInitUpdate d data ≫= λ o, setScope "policy" (Obj o) ≫= λ _, setScope "changed" (Bool false).

(** The router opens a page with a scope of its own. *)
Definition visit (d : delegate) : M page unit := modify (λ p, p <| scope := [] |>) ≫= λ _, onInit d.
End controller.

(** ** The pages from which a policy can be added *)

(** [for (i = 0; i < list.length; i++) policies.push(list[i].id)] *)
Definition idsOf (selected : jsval) : outcome (list jsval) :=
  match selected with
  | Arr l => mapM (λ x, getp x "id") l
  | Undefined | Null => Throws TypeError
  | Str _ => Throws NotModelled
  | _ => Returns []
  end.

(** [policyViewState.state.previousPage.name = name] *)
Definition namePreviousPage (name : string) : M page unit :=
  getState "previousPage" ≫= λ v, lift (putp v "name" (Str name)) ≫= setState "previousPage".

(** The policies of a policy that exists, when they have been loaded. *)
Definition withText (o : object) : object := obj_set "text" (assoc "name" o) o.

Definition onAssociatedPolicies (policies : list object) : M page unit :=
  setScope "selectedPolicies" (Arr ((λ o, Obj (withText o)) <$> policies)).

(** ResourceServerPolicyAggregateDetailCtrl *)
Definition aggregateBody : M page unit :=
  getScope "selectedPolicies" ≫= λ v, lift (idsOf v) ≫= λ ids,
  setPolicy "policies" (Arr ids) ≫= λ _, deletePolicy "config".

Definition aggregateDelegate : delegate :=
  mkDelegate "aggregate" false (mret tt)
    (λ o, namePreviousPage "authz-add-aggregated-policy" ≫= λ _, mret o) mret
    aggregateBody aggregateBody (mret tt) (mret tt).

(** ResourceServerPolicyResourceDetailCtrl *)
Definition applyToResourceType : M page unit :=
  getScope "applyToResourceTypeFlag" ≫= λ flag,
  if truthy flag then setScope "selectedResource" Null else setPolicy "resourceType" Null.

Definition resourceOfBody : M page unit :=
  getScope "selectedResource" ≫= λ r,
  if truthy r && truthy (optp r "_id") then setPolicy "resources" (Arr [optp r "_id"])
  else deletePolicy "resources".

Definition resourceInitUpdate (policy : object) : M page object :=
  (if truthy (assoc "resourceType" policy) then setScope "applyToResourceTypeFlag" (Bool true)
   else setScope "selectedResource" (Obj [])) ≫= λ _, mret policy.

(** The answer with the resources of the permission. *)
Definition onPermissionResources (resources : list object) : M page unit :=
  match resources with
  | r :: _ => setScope "selectedResource" (Obj (withText r))
  | [] => throw TypeError
  end.

Definition resourceInitCreate (policy : object) : M page object :=
  namePreviousPage "authz-add-resource-permission" ≫= λ _,
  setScope "selectedResource" Null ≫= λ _, setScope "selectedPolicies" Null ≫= λ _, mret policy.

Definition resourceOnUpdate : M page unit := resourceOfBody ≫= λ _, aggregateBody.

(** The loop over [selectedPolicies] when they are set. *)
Definition optionalPolicies : M page unit :=
  getScope "selectedPolicies" ≫= λ v,
  lift (if truthy v then idsOf v else Returns []) ≫= λ ids,
  setPolicy "policies" (Arr ids) ≫= λ _, deletePolicy "config".

Definition resourceOnCreate : M page unit := resourceOfBody ≫= λ _, optionalPolicies.

(** [policyViewState.state.k = $scope.k] and back. *)
Definition keepVar (k : string) : M page unit := getScope k ≫= setState k.
Definition restoreVar (k : string) : M page unit := getState k ≫= setScope k.

Definition resourceSaveState : M page unit :=
  keepVar "selectedResource" ≫= λ _, keepVar "applyToResourceTypeFlag".

Definition resourceRestoreState : M page unit :=
  restoreVar "selectedResource" ≫= λ _, restoreVar "applyToResourceTypeFlag" ≫= λ _,
  getState "policy" ≫= λ v, lift (getp v "resourceType") ≫= setPolicy "resourceType".

Definition resourceDelegate : delegate :=
  mkDelegate "resource" true (mret tt) resourceInitCreate resourceInitUpdate
    resourceOnCreate resourceOnUpdate resourceSaveState resourceRestoreState.

(** ResourceServerPolicyScopeDetailCtrl *)
Definition scopeIdOf (x : jsval) : outcome jsval :=
  getp x "id" ≫= λ id, Returns (if truthy id then id else x).

Definition scopesOfBody : M page unit :=
  getScope "selectedScopes" ≫= λ v,
  match v with
  | Arr l => lift (mapM scopeIdOf l) ≫= λ ids, setPolicy "scopes" (Arr ids)
  | _ => throw TypeError
  end.

Definition scopeResource (otherwise : M page unit) : M page unit :=
  getScope "selectedResource" ≫= λ r,
  if is_nullish r then otherwise else setPolicy "resources" (Arr [optp r "_id"]).

Definition scopeOnUpdate : M page unit :=
  scopeResource (setPolicy "resources" (Arr [])) ≫= λ _, scopesOfBody ≫= λ _, optionalPolicies.

Definition scopeOnCreate : M page unit :=
  scopeResource (mret tt) ≫= λ _, scopesOfBody ≫= λ _, optionalPolicies.

Definition scopeSaveState : M page unit :=
  keepVar "selectedScopes" ≫= λ _, keepVar "selectedResource" ≫= λ _, keepVar "resourceScopes".

Definition scopeRestoreState : M page unit :=
  restoreVar "selectedScopes" ≫= λ _, restoreVar "selectedResource" ≫= λ _, restoreVar "resourceScopes".

Definition scopeDelegate : delegate :=
  mkDelegate "scope" true (mret tt)
    (λ o, namePreviousPage "authz-add-scope-permission" ≫= λ _, mret o) mret
    scopeOnCreate scopeOnUpdate scopeSaveState scopeRestoreState.

(** [selectResource]: the scopes selected for another resource go. *)
Definition selectResource : M page unit := setScope "selectedScopes" Null.

(** The answers to the requests of [onInitUpdate]: with a resource the identifiers of the
    scopes are selected, without one the scopes. *)
Definition onPolicyScopes (withResource : bool) (scopes : list object) : M page unit :=
  setScope "selectedScopes"
    (Arr ((λ o, if withResource then assoc "id" o else Obj (withText o)) <$> scopes)).

Definition onScopeGiven (data : object) : M page unit :=
  getPolicy "scopes" ≫= λ scopes,
  when (negb (truthy scopes)) (setScope "selectedScopes" (Arr [])) ≫= λ _,
  getScope "selectedScopes" ≫= λ v,
  match v with
  | Arr l => setScope "selectedScopes" (Arr (l ++ [Obj (withText data)]))
  | _ => throw TypeError
  end.

(** ** URLs that come back *)

Lemma split_app_all c s t : split c (s +:+ String c t) = split c s ++ split c t.
Proof.
  induction s as [|a s IH]; [rewrite app_nil_l|rewrite app_cons]; cbn [split].
  - by rewrite Ascii.eqb_refl.
  - rewrite IH. destruct (Ascii.eqb c a); [done|].
    destruct (split c s) eqn:E; [by apply split_nonempty in E | done].
Qed.

Lemma hd_split_absent c s : occurs c s = false → hd "" (split c s) = s.
Proof. intros H. by rewrite split_no_sep. Qed.

(** An occurrence does not straddle a character it does not have. *)
Lemma starts_with_straddle c p s t :
  occurs c p = false → starts_with p s = false → starts_with p (s +:+ String c t) = false.
Proof.
  revert p. induction s as [|a s IH]; intros [|b p] Hc Hs; try done.
  - simpl in *. apply orb_false_iff in Hc as [Hb _]. by rewrite Ascii.eqb_sym, Hb.
  - rewrite app_cons. simpl in *. apply orb_false_iff in Hc as [_ Hc].
    apply andb_false_iff in Hs as [->|Hs]; [done|]. by rewrite IH, andb_false_r.
Qed.

Lemma find_s_after c p s t :
  occurs c p = false → p ≠ "" → find_s p s = None →
  find_s p (s +:+ String c t) = (λ n, String.length s + S n) <$> find_s p t.
Proof.
  intros Hc Hp. induction s as [|a s IH]; intros Hs.
  - rewrite app_nil_l. cbn [find_s].
    pose proof (starts_with_straddle c p "" t Hc ltac:(by destruct p)) as E. rewrite app_nil_l in E.
    rewrite E. by destruct (find_s p t).
  - rewrite app_cons. cbn [find_s] in *.
    destruct (starts_with p (String a s)) eqn:E; [done|].
    pose proof (starts_with_straddle c p (String a s) t Hc E) as E'. rewrite app_cons in E'. rewrite E'.
    destruct (find_s p s) eqn:F; [done|]. rewrite IH by done. by destruct (find_s p t).
Qed.

Lemma indexOf_none s p : (indexOf s p =? -1)%Z = bool_decide (find_s p s = None).
Proof. unfold indexOf. destruct (find_s p s); [by apply Z.eqb_neq; lia | done]. Qed.

Lemma find_s_zero p s : starts_with p s = true → find_s p s = Some 0.
Proof. intros H. destruct s; cbn [find_s]; by rewrite H. Qed.

(** The URL after the hash, of a console whose own URL does not have [/realms]. *)
Lemma own_url console u :
  find_s "/realms" console = None → starts_with "/realms" u = true →
  substring_from (console +:+ "#" +:+ u) (indexOf (console +:+ "#" +:+ u) "/realms") = u.
Proof.
  intros Hc Hu. unfold indexOf. change (console +:+ "#" +:+ u) with (console +:+ String "#" u).
  rewrite (find_s_after "#" "/realms" console u), (find_s_zero _ u) by done. simpl.
  change (String "#" u) with ("#" +:+ u). rewrite <- app_assoc_s.
  replace (Z.of_nat (String.length console + 1)) with (length_s (console +:+ "#"))
    by (unfold length_s; rewrite length_app_s; done).
  apply substring_from_app.
Qed.

Definition withBack (u : string) : string :=
  if (indexOf u "back=true" =? -1)%Z
  then u +:+ (if (indexOf u "?" =? -1)%Z then "?" else "&") +:+ "back=true" else u.

Lemma find_s_char_app c s t n :
  find_s (String c "") s = Some n → find_s (String c "") (s +:+ t) = Some n.
Proof.
  revert n. induction s as [|a s IH]; intros n; [done|]. rewrite app_cons. simpl.
  destruct (Ascii.eqb c a); [done|]. simpl. intros (m & Hm & ->)%fmap_Some. by rewrite (IH m).
Qed.

Lemma find_s_char_bound c s n : find_s (String c "") s = Some n → S n ≤ String.length s.
Proof.
  revert n. induction s as [|a s IH]; intros n; [done|]. simpl.
  destruct (Ascii.eqb c a); simpl; [intros [= <-]; lia|].
  intros (m & Hm & ->)%fmap_Some. specialize (IH m Hm). lia.
Qed.

Lemma find_s_char_none c s : find_s (String c "") s = None → occurs c s = false.
Proof.
  induction s as [|a s IH]; [done|]. simpl. destruct (Ascii.eqb c a); [done|].
  intros ?%fmap_None. by apply IH.
Qed.

(** Going back keeps the parameters of the URL and adds [back]. *)
Lemma hasParam_withBack k u :
  k ≠ "" → occurs "#" u = false → find_s "back=true" u = None →
  hasParam k (withBack u) = hasParam k u || String.eqb "back" k.
Proof.
  intros Hk Hh Hb. unfold withBack. rewrite !indexOf_none, Hb. cbn -[searchOf hasParam].
  assert (∀ t, occurs "#" t = false → hd "" (split "#" (u +:+ t)) = u +:+ t) as Hd.
  { intros t Ht. apply hd_split_absent. by rewrite occurs_app, Hh. }
  unfold hasParam, searchOf. destruct (find_s "?" u) as [n|] eqn:Hq; case_bool_decide; simplify_eq;
    rewrite Hd, hd_split_absent by done.
  - rewrite (find_s_char_app _ _ _ n), Hq by done.
    rewrite drop_s_app_le by (by eapply find_s_char_bound).
    change ("&" +:+ "back=true") with (String "&" "back=true").
    rewrite split_app_all, existsb_app. simpl. by rewrite orb_false_r.
  - apply find_s_char_none in Hq as Hq'. change ("?" +:+ "back=true") with (String "?" "back=true").
    rewrite find_s_first_char, Hq by done. change (String "?" "back=true") with ("?" +:+ "back=true").
    rewrite <- app_assoc_s.
    replace (S (String.length u)) with (String.length (u +:+ "?")) by (rewrite length_app_s; simpl; lia).
    rewrite drop_s_app. simpl. rewrite !orb_false_r. destruct (String.eqb_spec "" k); [by subst|done].
Qed.

(** The page has the parameter when its URL has the text, as every URL of the console does. *)
Definition plainUrl (u : string) : Prop :=
  starts_with "/realms" u = true ∧ occurs "#" u = false ∧
  (find_s "back=true" u = None ∨ hasParam "back" u = true).

Lemma isBack_withBack u : plainUrl u → isBackNewAssociatedPolicy (withBack u) = true.
Proof.
  intros (_ & Hh & Hb). unfold isBackNewAssociatedPolicy.
  destruct (find_s "back=true" u) eqn:E.
  - destruct Hb as [?|Hb]; [done|]. unfold withBack. by rewrite indexOf_none, E.
  - rewrite hasParam_withBack, orb_true_r by done. done.
Qed.

Lemma isNew_withBack u : plainUrl u → isNewAssociatedPolicy (withBack u) = isNewAssociatedPolicy u.
Proof.
  intros (_ & Hh & Hb). unfold isNewAssociatedPolicy.
  destruct (find_s "back=true" u) eqn:E.
  - unfold withBack. by rewrite indexOf_none, E.
  - rewrite hasParam_withBack by done. apply orb_false_r.
Qed.

Lemma previousUrl_own console u :
  find_s "/realms" console = None → plainUrl u → previousUrl (console +:+ "#" +:+ u) = withBack u.
Proof. intros Hc (Hu & _). unfold previousUrl. by rewrite own_url. Qed.

(** ** Leaving a page and coming back *)

(** What a page has to come back with: the variables of the scope and the fields of the
    policy, besides those every page restores. *)
Class Restoring (d : delegate) (vars fields : list string) : Prop := {
  vars_own : vars ## ["policy"; "selectedPolicies"; "previousUrl"; "previousPage"; "newPolicyName";
                      "rootUrl"; "historyBackOnSaveOrCancel"; "changed"];
  onInitDelegate_nothing p : onInitDelegate d p = (Returns tt, p);
  onSaveState_saves p st :
    state p = Obj st →
    ∃ st', onSaveState d p = (Returns tt, p <| state := Obj st' |>) ∧
      ∀ k, assoc k st' = if bool_decide (k ∈ vars) then assoc k (scope p) else assoc k st;
  onRestoreState_restores p st o q :
    state p = Obj st → assoc "policy" st = Obj o → assoc "policy" (scope p) = Obj q →
    ∃ sc q', onRestoreState d p = (Returns tt, p <| scope := sc |>) ∧
      assoc "policy" sc = Obj q' ∧
      (∀ k, assoc k q' = if bool_decide (k ∈ fields) then assoc k o else assoc k q) ∧
      (∀ k, k ≠ "policy" → assoc k sc = if bool_decide (k ∈ vars) then assoc k st else assoc k (scope p))
}.

Ltac by_key :=
  intros;
  repeat match goal with
    | |- context [bool_decide (?k ∈ _)] => case_bool_decide
    | H : _ ∈ [] |- _ => by apply not_elem_of_nil in H
    | H : _ ∈ _ :: _ |- _ => apply elem_of_cons in H as [->|H]
    | H : _ ∉ _ :: _ |- _ => apply not_elem_of_cons in H as [? H]
    end; simpl;
  repeat first [rewrite assoc_obj_set | rewrite assoc_obj_set_ne by done]; try done.

#[global] Instance aggregate_restoring : Restoring aggregateDelegate [] [].
Proof.
  split; [set_solver|done|..]; intros.
  - destruct p; simplify_eq/=. eexists. split; [done|]. by_key.
  - destruct p; simplify_eq/=. eexists _, q. split; [done|]. split; [done|]. split; by_key.
Qed.

#[global] Instance resource_restoring :
  Restoring resourceDelegate ["selectedResource"; "applyToResourceTypeFlag"] ["resourceType"].
Proof.
  split; [set_solver|done|..]; intros.
  - destruct p; simplify_eq/=. eexists. split; [done|]. by_key.
  - destruct p as [? ? ? sc ? ? ?]; simplify_eq/=.
    unfold resourceRestoreState, restoreVar, getState, setScope, setPolicy, getScope. run_io.
    rewrite H0. simpl. rewrite !assoc_obj_set_ne by done. rewrite H1. simpl.
    eexists _, _. split; [done|]. rewrite assoc_obj_set. split; [done|]. split; by_key.
Qed.

#[global] Instance scope_restoring :
  Restoring scopeDelegate ["selectedScopes"; "selectedResource"; "resourceScopes"] [].
Proof.
  split; [set_solver|done|..]; intros.
  - destruct p; simplify_eq/=. eexists. split; [done|]. by_key.
  - destruct p as [? ? ? sc ? ? ?]; simplify_eq/=.
    unfold scopeRestoreState, restoreVar, getState, setScope. run_io.
    eexists _, q. split; [done|]. simpl. rewrite !assoc_obj_set_ne by done. split; [done|]. split; by_key.
Qed.

(** The delegate of a page on which an associated policy is created: it leaves alone what the
    first page kept.  [away st u] is a page opened for it while [st] is kept. *)
Definition away (st : object) (u : string) (p : page) : Prop :=
  url p = u ∧ assoc "historyBackOnSaveOrCancel" (scope p) = Bool true ∧
  ∃ st', state p = Obj st' ∧ ∀ k, k ∉ ["previousPage"; "rootUrl"] → assoc k st' = assoc k st.

Class Associated (d : delegate) : Prop := {
  not_permission : isPermission d = false;
  onInitDelegate_away st u : preserves (away st u) (onInitDelegate d);
  onInitCreate_away st u o : preserves (away st u) (onInitCreate d o);
  onInitUpdate_away st u o : preserves (away st u) (onInitUpdate d o);
  onCreate_away st u : preserves (away st u) (onCreate d);
  onUpdate_away st u : preserves (away st u) (onUpdate d)
}.

Lemma setScope_away st u k v : k ≠ "historyBackOnSaveOrCancel" → preserves (away st u) (setScope k v).
Proof.
  intros Hk p (? & Hh & ?). split; [done|]. split; [|done]. simpl. by rewrite assoc_obj_set_ne.
Qed.

Lemma getScope_away st u k : preserves (away st u) (getScope k).
Proof. by intros p. Qed.

Lemma getState_away st u k : preserves (away st u) (getState k).
Proof. apply preserves_bind; [by intros p|]. intros v. apply preserves_lift. Qed.

Lemma setState_away st u k v : k ∈ ["previousPage"; "rootUrl"] → preserves (away st u) (setState k v).
Proof.
  intros Hk p (? & Hh & st' & Hst & Hag). unfold setState. run_io. rewrite Hst. simpl.
  split; [done|]. split; [done|]. eexists. split; [done|]. intros k' Hk'.
  rewrite assoc_obj_set_ne; [by apply Hag|]. by intros ->.
Qed.

Lemma getPolicy_away st u k : preserves (away st u) (getPolicy k).
Proof. apply preserves_bind; [by intros p|]. intros v. apply preserves_lift. Qed.

Lemma setPolicy_away st u k v : preserves (away st u) (setPolicy k v).
Proof.
  apply preserves_bind; [by intros p|]. intros w. apply preserves_bind; [apply preserves_lift|].
  intros w'. by apply setScope_away.
Qed.

Lemma deletePolicy_away st u k : preserves (away st u) (deletePolicy k).
Proof.
  apply preserves_bind; [by intros p|]. intros []; try (by intros p).
  by apply setScope_away.
Qed.

#[export] Hint Resolve getScope_away getState_away getPolicy_away setPolicy_away deletePolicy_away : kc.
#[export] Hint Extern 1 (preserves (away _ _) (setScope _ _)) => apply setScope_away; done : kc.
#[export] Hint Extern 1 (preserves (away _ _) (setState _ _)) => apply setState_away; set_solver : kc.

Ltac stays_away := simpl; preserve ltac:(try (by intros; hnf in *; done)).

#[global] Instance aggregate_associated : Associated aggregateDelegate.
Proof. split; [done|..]; unfold aggregateDelegate, aggregateBody, namePreviousPage; stays_away. Qed.

Lemma getState_eq p st k : state p = Obj st → getState k p = (Returns (assoc k st), p).
Proof. intros H. unfold getState. run_io. by rewrite H. Qed.

Lemma setState_eq p st k v :
  state p = Obj st → setState k v p = (Returns tt, p <| state := Obj (obj_set k v st) |>).
Proof. intros H. unfold setState. run_io. rewrite H. by destruct p. Qed.

Lemma setPolicy_eq p q k v :
  assoc "policy" (scope p) = Obj q →
  setPolicy k v p = (Returns tt, p <| scope ::= obj_set "policy" (Obj (obj_set k v q)) |>).
Proof. intros H. unfold setPolicy, getScope, setScope. run_io. rewrite H. by destruct p. Qed.

Lemma bind_run {S A B} (m : M S A) (f : A → M S B) s a s' :
  m s = (Returns a, s') → (m ≫= f) s = f a s'.
Proof. intros H. unfold mbind, M_bind. by rewrite H. Qed.

(** The variable that says that the page was opened for an associated policy. *)
Definition history : string := "historyBackOnSaveOrCancel".

Section round_trip.
Context (console realm client : string).
Context (d : delegate) (vars fields : list string) `{!Restoring d vars fields}.

(** What is kept of a page [p] over the state [st]. *)
Record kept (p : page) (st st' : object) : Prop := {
  kept_policy : assoc "policy" st' = assoc "policy" (scope p);
  kept_previousUrl : assoc "previousUrl" st' = Str (previousUrl (href console p));
  kept_selected : assoc "selectedPolicies" st' =
    if truthy (assoc "selectedPolicies" (scope p)) then assoc "selectedPolicies" (scope p)
    else assoc "selectedPolicies" st;
  kept_vars k : k ∈ vars → assoc k st' = assoc k (scope p);
  kept_others k : k ∉ "policy" :: "previousUrl" :: "selectedPolicies" :: vars → assoc k st' = assoc k st
}.

Lemma keepState_spec p st :
  state p = Obj st →
  ∃ st', keepState console d p = (Returns tt, p <| state := Obj st' |>) ∧ kept p st st'.
Proof.
  intros Hst. unfold keepState.
  set (st0 := obj_set "policy" (assoc "policy" (scope p)) st).
  rewrite (bind_run _ _ _ tt (p <| state := Obj st0 |>))
    by (unfold getScope; rewrite bind_gets; by apply setState_eq).
  destruct (onSaveState_saves (d := d) (p <| state := Obj st0 |>) st0) as (st1 & Hs & Hst1);
    [done|]. rewrite (bind_run _ _ _ _ _ Hs). clear Hs.
  assert (Hv : ∀ k, k ∈ ["policy"; "selectedPolicies"; "previousUrl"; "newPolicyName"] → k ∉ vars).
  { intros k Hk Hin. apply (vars_own (Restoring := _) (d := d) k Hin). set_solver. }
  unfold getScope, setState. run_io.
  destruct (truthy (assoc "selectedPolicies" (scope p))) eqn:E; simpl.
  all: eexists; split; [by destruct p|]; split; simpl; rewrite ?E; intros; unfold st0 in *;
    repeat first [rewrite assoc_obj_set | rewrite assoc_obj_set_ne by set_solver]; try done;
    rewrite Hst1; rewrite ?bool_decide_eq_false_2 by set_solver; rewrite ?bool_decide_eq_true_2 by done;
    repeat first [rewrite assoc_obj_set | rewrite assoc_obj_set_ne by set_solver]; done.
Qed.

Definition commonFields : list string := ["name"; "description"; "decisionStrategy"; "logic"].

(** The scope after [restoreState]: [o] is the policy that was kept, [q] the one of the page. *)
Record restored (st o q sc sc' : object) : Prop := {
  restored_policy : ∃ q', assoc "policy" sc' = Obj q' ∧
    ∀ k, assoc k q' = if bool_decide (k ∈ commonFields) then assoc k o else assoc k q;
  restored_selected : assoc "selectedPolicies" sc' =
    if truthy (assoc "selectedPolicies" st) then assoc "selectedPolicies" st else Arr [];
  restored_changed : assoc "changed" sc' = Bool true;
  restored_others k : k ∉ ["policy"; "selectedPolicies"; "changed"] → assoc k sc' = assoc k sc
}.

Definition resetTo (st : object) : jsval :=
  Obj [("previousPage", assoc "previousPage" st); ("rootUrl", assoc "rootUrl" st)].

Lemma resetState_eq p st pp :
  state p = Obj st →
  resetState pp p = (Returns tt, p <| state := Obj [("previousPage", pp); ("rootUrl", assoc "rootUrl" st)] |>).
Proof.
  intros Hst. unfold resetState. rewrite (bind_run _ _ _ _ _ (getState_eq _ _ _ Hst)). by destruct p.
Qed.

Lemma restoreState_spec p st o q :
  state p = Obj st → assoc "policy" st = Obj o → assoc "policy" (scope p) = Obj q →
  ∃ sc, restored st o q (scope p) sc ∧
    restoreState p =
      if truthy (assoc "newPolicyName" st)
      then (Returns (Some (assoc "previousPage" st, assoc "newPolicyName" st)), p <| scope := sc |>)
      else (Returns None, p <| scope := sc |> <| state := resetTo st |>).
Proof.
  intros Hst Ho Hq. unfold restoreState, getState, setPolicy, setScope, getScope, resetState, setState.
  destruct p as [s v u sc ? ? ?]; simpl in *; subst s. run_io.
  repeat (progress rewrite ?Ho, ?Hq, ?assoc_obj_set; simpl).
  eexists. split; [|cbv [upd set_scope set_state]; simpl; by destruct (truthy (assoc "newPolicyName" st))].
  split; simpl.
  - eexists. rewrite !assoc_obj_set_ne, assoc_obj_set by done. split; [done|]. unfold commonFields. by_key.
  - by_key.
  - by_key.
  - by_key.
Qed.

(** The page opens again, for a new policy or for one that exists; [b] is the policy it starts
    from. *)
Inductive opens : M page (option (jsval * jsval)) → object → Prop :=
  | opens_create : opens (initCreate d) (newPolicy d)
  | opens_update data : opens (initUpdate d data) data.

Definition comeBack (open : M page (option (jsval * jsval))) (response : list object) : M page unit :=
  visit d ≫= λ _, open ≫= λ asked,
  match asked with Some (previousPage, _) => onFound previousPage response | None => mret tt end.

Lemma visit_back p st :
  state p = Obj st → isBackNewAssociatedPolicy (url p) = true →
  ∃ p' st', visit d p = (Returns tt, p') ∧ url p' = url p ∧
    assoc history (scope p') = Bool (isNewAssociatedPolicy (url p)) ∧ state p' = Obj st' ∧
    (∀ k, k ≠ "previousPage" → assoc k st' = assoc k st).
Proof.
  intros Hst Hb. unfold visit, onInit. rewrite bind_modify.
  destruct p as [s v u sc o l m]; simpl in *; subst s. unfold getState, setState, setScope.
  run_io. rewrite Hb. simpl. destruct (isNewAssociatedPolicy u); simpl.
  all: destruct (truthy (assoc "previousPage" st)); simpl; rewrite (onInitDelegate_nothing (d := d)).
  all: eexists _, _; split; [done|]; split; [done|]; split; [done|]; split; [done|]; intros; simpl;
    rewrite ?assoc_obj_set_ne by done; done.
Qed.

Lemma opens_back open b p st :
  opens open b → state p = Obj st → isBackNewAssociatedPolicy (url p) = true →
  ∃ p' st', open p = (onRestoreState d ≫= λ _, restoreState) p' ∧ url p' = url p ∧
    assoc "policy" (scope p') = Obj b ∧ assoc history (scope p') = assoc history (scope p) ∧
    state p' = Obj st' ∧ (∀ k, k ≠ "rootUrl" → assoc k st' = assoc k st).
Proof.
  intros Hop Hst Hb. destruct p as [s v u sc o l m]; simpl in *; subst s.
  destruct Hop; unfold initCreate, initUpdate, setScope, getScope, setState.
  - run_io. rewrite Hb.
    destruct (negb (is_nullish v) && negb (is_nullish (optp v "previousUrl"))); simpl.
    all: eexists _, _; split; [done|]; split; [done|]; split; [by simpl; rewrite ?assoc_obj_set|];
      split; [by simpl; rewrite ?assoc_obj_set_ne|];
      split; [done|]; intros; simpl; rewrite ?assoc_obj_set_ne by done; done.
  - run_io. rewrite Hb. eexists _, _. split; [done|]. split; [done|].
    split; [by simpl; rewrite assoc_obj_set|]. split; [by simpl; rewrite ?assoc_obj_set_ne|]. done.
Qed.

Definition namedLike (name : jsval) (o : object) : bool := loose_eq (assoc "name" o) name.

Lemma pushNamed_eq p st sel r :
  state p = Obj st → assoc "selectedPolicies" (scope p) = Arr sel →
  pushNamed r p = (Returns tt,
    if namedLike (assoc "newPolicyName" st) r
    then p <| scope ::= obj_set "selectedPolicies" (Arr (sel ++ [Obj (withText r)])) |> else p).
Proof.
  intros Hst Hsel. unfold pushNamed. rewrite (bind_run _ _ _ _ _ (getState_eq _ _ _ Hst)).
  unfold namedLike. destruct (loose_eq _ _); [|done]. unfold getScope. run_io. by rewrite Hsel.
Qed.

Lemma onFound_spec p st pp sel response :
  state p = Obj st → assoc "selectedPolicies" (scope p) = Arr sel →
  ∃ sc, onFound pp response p =
      (Returns tt, p <| scope := sc |> <| state := Obj [("previousPage", pp); ("rootUrl", assoc "rootUrl" st)] |>) ∧
    assoc "selectedPolicies" sc =
      Arr (sel ++ ((λ o, Obj (withText o)) <$>
        List.filter (namedLike (assoc "newPolicyName" st)) response)) ∧
    ∀ k, k ≠ "selectedPolicies" → assoc k sc = assoc k (scope p).
Proof.
  intros Hst. unfold onFound.
  enough (∀ p, state p = Obj st → assoc "selectedPolicies" (scope p) = Arr sel → ∃ sc,
    for_each pushNamed response p = (Returns tt, p <| scope := sc |>) ∧
    assoc "selectedPolicies" sc =
      Arr (sel ++ ((λ o, Obj (withText o)) <$> List.filter (namedLike (assoc "newPolicyName" st)) response)) ∧
    ∀ k, k ≠ "selectedPolicies" → assoc k sc = assoc k (scope p)) as HL.
  { intros Hsel. destruct (HL p Hst Hsel) as (sc & Hr & Hs & Ho). exists sc.
    rewrite (bind_run _ _ _ _ _ Hr), (resetState_eq _ st) by done. done. }
  clear p Hst. revert sel. induction response as [|r l IH]; intros sel p Hst Hsel.
  - exists (scope p). simpl. rewrite (right_id_L [] (++)). by destruct p.
  - cbn [for_each List.filter].
    rewrite (bind_run _ _ _ _ _ (pushNamed_eq _ _ _ r Hst Hsel)).
    destruct (namedLike (assoc "newPolicyName" st) r); [|apply (IH sel p Hst Hsel)].
    destruct (IH (sel ++ [Obj (withText r)])
      (p <| scope ::= obj_set "selectedPolicies" (Arr (sel ++ [Obj (withText r)])) |>))
      as (sc & Hr & Hs & Ho); [done|simpl; apply assoc_obj_set|].
    exists sc. split; [etrans; [apply Hr|by destruct p]|].
    split; [by rewrite Hs, <- (assoc_L (++))|]. intros k Hk. rewrite Ho by done. simpl.
    by rewrite assoc_obj_set_ne.
Qed.

(** The page a user comes back to. *)
Record cameBack (p p' : page) (st o b : object) (response : list object) : Prop := {
  back_url : url p' = url p;
  back_policy : ∃ q, assoc "policy" (scope p') = Obj q ∧
    ∀ k, assoc k q = if bool_decide (k ∈ commonFields ++ fields) then assoc k o else assoc k b;
  back_selected : ∀ sel, assoc "selectedPolicies" st = Arr sel →
    assoc "selectedPolicies" (scope p') =
      Arr (sel ++ (if truthy (assoc "newPolicyName" st)
                   then (λ r, Obj (withText r)) <$> List.filter (namedLike (assoc "newPolicyName" st)) response
                   else []));
  back_empty : truthy (assoc "selectedPolicies" st) = false →
    assoc "selectedPolicies" (scope p') =
      Arr (if truthy (assoc "newPolicyName" st)
           then (λ r, Obj (withText r)) <$> List.filter (namedLike (assoc "newPolicyName" st)) response
           else []);
  back_changed : assoc "changed" (scope p') = Bool true;
  back_history : assoc history (scope p') = Bool (isNewAssociatedPolicy (url p));
  back_vars k : k ∈ vars → assoc k (scope p') = assoc k st;
  back_clean : ∃ st', state p' = Obj st' ∧ st'.*1 = ["previousPage"; "rootUrl"]
}.

Lemma comeBack_spec open b p st o response :
  opens open b → state p = Obj st → isBackNewAssociatedPolicy (url p) = true →
  assoc "policy" st = Obj o → 
  (truthy (assoc "selectedPolicies" st) = true → ∃ sel, assoc "selectedPolicies" st = Arr sel) →
  ∃ p', comeBack open response p = (Returns tt, p') ∧ cameBack p p' st o b response.
Proof.
  intros Hop Hst Hb Ho Hsel.
  destruct (visit_back p st Hst Hb) as (p1 & st1 & Hr1 & Hu1 & Hh1 & Hst1 & Heq1).
  rewrite <- Hu1 in Hb.
  destruct (opens_back _ _ p1 st1 Hop Hst1 Hb) as (p2 & st2 & Hr2 & Hu2 & Hp2 & Hh2 & Hst2 & Heq2).
  assert (Heq : ∀ k, k ∉ ["previousPage"; "rootUrl"] → assoc k st2 = assoc k st).
  { intros k Hk. rewrite Heq2, Heq1 by set_solver. done. }
  destruct (onRestoreState_restores (d := d) p2 st2 o b) as (sc & q & Hr3 & Hq & Hqk & Hsc);
    [done|by rewrite Heq by set_solver|done|].
  destruct (restoreState_spec (p2 <| scope := sc |>) st2 o q) as (sc' & [Hpol Hs Hc Hoth] & Hr4);
    [done|by rewrite Heq by set_solver|done|].
  assert (∃ sel0, assoc "selectedPolicies" sc' = Arr sel0 ∧
    (∀ sel, assoc "selectedPolicies" st = Arr sel → sel0 = sel) ∧
    (truthy (assoc "selectedPolicies" st) = false → sel0 = [])) as (sel0 & Hsel0 & Hsame & Hnone).
  { rewrite Hs, Heq by set_solver. destruct (truthy (assoc "selectedPolicies" st)) eqn:E.
    - destruct (Hsel eq_refl) as [sel ->]. exists sel. split; [done|]. by split; [intros ? [= ->]|].
    - exists []. split; [done|]. split; [|done]. intros sel Hv. by rewrite Hv in E. }
  assert (assoc history sc' = Bool (isNewAssociatedPolicy (url p))) as Hhist.
  { rewrite Hoth by set_solver. simpl. rewrite Hsc by done.
    rewrite bool_decide_eq_false_2 by (intros Hin; apply (vars_own (d := d) _ Hin); set_solver).
    by rewrite Hh2, Hh1. }
  assert (Hpol' : ∃ q0, assoc "policy" sc' = Obj q0 ∧
    ∀ k, assoc k q0 = if bool_decide (k ∈ commonFields ++ fields) then assoc k o else assoc k b).
  { destruct Hpol as (q0 & ? & Hq0). exists q0. split; [done|]. intros k. rewrite Hq0, Hqk.
    repeat case_bool_decide; set_solver. }
  assert (Hvars : ∀ k, k ∈ vars → k ∉ ["policy"; "selectedPolicies"; "changed"; "previousPage"; "rootUrl"]).
  { clear -Restoring0. intros k Hk Hin. apply (vars_own (d := d) k Hk). set_solver. }
  assert (Hvars' : ∀ k, k ∈ vars → assoc k sc' = assoc k st).
  { intros k Hk. specialize (Hvars k Hk). rewrite Hoth by set_solver. simpl. rewrite Hsc by set_solver.
    rewrite bool_decide_eq_true_2 by done. apply Heq. set_solver. }
  unfold comeBack. rewrite (bind_run _ _ _ _ _ Hr1).
  rewrite (bind_run _ _ _ _ _ Hr3) in Hr2. rewrite Hr4 in Hr2. rewrite (Heq "newPolicyName") in Hr2 by set_solver.
  destruct (truthy (assoc "newPolicyName" st)) eqn:En; rewrite (bind_run _ _ _ _ _ Hr2).
  - destruct (onFound_spec (p2 <| scope := sc |> <| scope := sc' |>) st2 (assoc "previousPage" st2) sel0 response)
      as (sc3 & Hr5 & Hs3 & Ho3); [done..|].
    eexists. split; [exact Hr5|]. split; simpl; rewrite ?Ho3 by done; try done.
    + by rewrite Hu2, Hu1.
    + intros sel Hv. rewrite Hs3, (Hsame sel), En, (Heq "newPolicyName") by (done || set_solver). done.
    + intros Hv. rewrite Hs3, (Hnone Hv), En, (Heq "newPolicyName") by (done || set_solver). done.
    + intros k Hk. rewrite Ho3 by (specialize (Hvars k Hk); set_solver). by apply Hvars'.
    + by eexists.
  - eexists. split; [done|]. split; simpl; try done.
    + by rewrite Hu2, Hu1.
    + intros sel Hv. by rewrite Hsel0, (Hsame sel), En, (right_id_L [] (++)) by done.
    + intros Hv. by rewrite Hsel0, (Hnone Hv), En.
    + by eexists.
Qed.
End round_trip.

(** *** The page of the associated policy *)

Lemma preserves_known {A B} (P : page → Prop) (f : page → A) (k : A → M page B) a :
  (∀ p, P p → f p = a) → preserves P (k a) → preserves P (gets f ≫= k).
Proof. intros Hf Hk p Hp. rewrite bind_gets, (Hf p Hp). by apply Hk. Qed.

(** What happens on the page: it opens, the answers come, the user fills it in. *)
Inductive onNewPage (d : delegate) : page → page → Prop :=
  | new_visit p : onNewPage d p (visit d p).2
  | new_create p : onNewPage d p (initCreate d p).2
  | new_update data p : onNewPage d p (initUpdate d data p).2
  | new_edit sc p : assoc "historyBackOnSaveOrCancel" sc = Bool true → onNewPage d p (p <| scope := sc |>)
  | new_onCreate p : onNewPage d p (onCreate d p).2
  | new_onUpdate p : onNewPage d p (onUpdate d p).2.

Section associated.
Context (d : delegate) `{!Associated d}.
Context (st : object) (u : string).
Hypothesis (Hnew : isNewAssociatedPolicy u = true) (Hback : isBackNewAssociatedPolicy u = false).

Lemma visit_away p st' :
  url p = u → state p = Obj st' → (∀ k, k ∉ ["previousPage"; "rootUrl"] → assoc k st' = assoc k st) →
  away st u (visit d p).2.
Proof using Associated0 Hback Hnew.
  intros Hu Hst Hag. unfold visit, onInit. rewrite bind_modify.
  destruct p as [s v u' sc o l m]; simpl in *; subst s u'. rewrite !bind_gets. simpl.
  rewrite Hnew, andb_false_r. cbn [when]. rewrite bind_ret.
  unfold getState at 1. rewrite bind_bind, bind_gets. cbn [state upd set_scope getp]. rewrite bind_lift.
  destruct (truthy (assoc "previousPage" st')); cbn [negb when]; [rewrite bind_ret|
    erewrite bind_run by (by apply setState_eq)].
  all: unfold setScope; rewrite bind_modify; apply (onInitDelegate_away (d := d)).
  all: split; [done|]; split; [by apply assoc_obj_set|]; eexists; split; [done|]; intros;
    rewrite ?assoc_obj_set_ne by set_solver; by apply Hag.
Qed.

Lemma initCreate_away : preserves (away st u) (initCreate d).
Proof using Associated0 Hback Hnew.
  unfold initCreate. apply preserves_bind; [by apply setScope_away|]. intros _.
  eapply preserves_known; [by intros p [Hu _]; exact Hu|]. rewrite Hback. pose proof (onInitCreate_away (d := d) st u).
  preserve ltac:(by intros ? (? & ? & ?)).
Qed.

Lemma initUpdate_away data : preserves (away st u) (initUpdate d data).
Proof using Associated0 Hback Hnew.
  unfold initUpdate. apply preserves_bind; [by apply setScope_away|]. intros _.
  eapply preserves_known; [by intros p [Hu _]; exact Hu|]. rewrite Hback. pose proof (onInitUpdate_away (d := d) st u).
  preserve ltac:(by intros ? (? & ? & ?)).
Qed.

Lemma onNewPage_away p p' : rtc (onNewPage d) p p' → away st u p → away st u p'.
Proof using Associated0 Hback Hnew.
  induction 1 as [|p p' p'' Hs _ IH]; [done|]. intros Ha. apply IH. destruct Hs.
  - destruct Ha as (? & _ & st' & ? & ?). by eapply visit_away.
  - by apply initCreate_away.
  - by apply initUpdate_away.
  - by destruct Ha as (? & _ & ?).
  - by apply (onCreate_away (d := d)).
  - by apply (onUpdate_away (d := d)).
Qed.
End associated.

(** The ways back: the user cancels, updates the policy or creates it; the second argument is
    the name of the new policy. *)
Inductive leaves (realm client : string) (d : delegate) (p : page) : M page unit → jsval → Prop :=
  | leaves_resetCreate : leaves realm client d p (resetCreate realm client d) Undefined
  | leaves_resetUpdate data : leaves realm client d p (resetUpdate d data) Undefined
  | leaves_updated q :
      assoc "policy" (scope p) = Obj q → leaves realm client d p (onUpdated realm client d) Undefined
  | leaves_created q name data :
      assoc "policy" (scope p) = Obj q → assoc "name" q = Str name → name ≠ "" →
      leaves realm client d p (onCreated realm client d data) (Str name).

Lemma leaves_spec realm client d `{!Associated d} st u p m name previous :
  leaves realm client d p m name → away st u p → assoc "previousUrl" st = previous →
  ∃ p' st', m p = (Returns tt, p') ∧
    url p' = (if is_undefined previous then u else to_string previous) ∧ state p' = Obj st' ∧
    (∀ k, k ∉ ["previousPage"; "rootUrl"; "newPolicyName"] → assoc k st' = assoc k st) ∧
    assoc "newPolicyName" st' = js_or name (assoc "newPolicyName" st).
Proof.
  intros Hl (Hu & Hh & st' & Hst & Hag) Hp. pose proof (not_permission (d := d)) as Hd.
  assert (assoc "previousUrl" st' = previous) as Hp' by (by rewrite Hag by set_solver).
  assert (∀ p, goTo previous p = (Returns tt, p <| url := if is_undefined previous then url p else to_string previous |>))
    as Hgo by (intros []; by destruct previous).
  destruct p as [s v u' sc o l ms]; simpl in *; subst s u'.
  destruct Hl as [|data|q Hq|q name data Hq Hname Hne]; simpl in *;
    unfold resetCreate, resetUpdate, onUpdated, onCreated, getPolicy, getScope, getState, setState, notify;
    rewrite ?Hd; run_io; rewrite ?Hh; simpl; rewrite ?Hq; simpl; rewrite ?Hname, ?assoc_obj_set_ne, ?Hp' by done;
    simpl; rewrite Hgo; simpl; eexists _, _; (split; [done|]); (split; [done|]); (split; [done|]).
  1-3: split; [intros; by apply Hag; set_solver | by rewrite Hag by set_solver].
  split; [intros; rewrite assoc_obj_set_ne by set_solver; by apply Hag; set_solver|].
  rewrite assoc_obj_set. unfold js_or. by rewrite (proj2 (truthy_str name)).
Qed.

Lemma hasParam_only x k q :
  occurs "?" x = false → occurs "#" x = false → occurs "#" q = false → occurs "&" q = false →
  hasParam k (x +:+ String "?" q) = String.eqb (hd "" (split "=" q)) k.
Proof.
  intros Hx Hx' Hq Hq'. unfold hasParam, searchOf.
  rewrite hd_split_absent by (by rewrite occurs_app, Hx'; simpl).
  rewrite find_s_first_char by done. change (String "?" q) with ("?" +:+ q). rewrite <- app_assoc_s.
  replace (S (String.length x)) with (String.length (x +:+ "?")) by (rewrite length_app_s; simpl; lia).
  rewrite drop_s_app, split_no_sep by done. simpl. apply orb_false_r.
Qed.

(** A segment of a path. *)
Definition segment (s : string) : bool := negb (occurs "?" s) && negb (occurs "#" s).

Lemma segment_app s t : segment (s +:+ t) = segment s && segment t.
Proof. unfold segment. rewrite !occurs_app. by destruct (occurs "?" s), (occurs "?" t), (occurs "#" s), (occurs "#" t). Qed.

Section composed.
Context (console realm client : string).
Context (d : delegate) (vars fields : list string) `{!Restoring d vars fields}.
Context (d' : delegate) `{!Associated d'}.

(** [addPolicy] and [detailPolicy] go to a path with [new_policy]. *)
Definition leaveFor (path : string) : M page unit :=
  keepState console d ≫= λ _, goTo (Str (path +:+ "?new_policy=true")).

Lemma addPolicy_leaves type p :
  addPolicy console realm client d type p = leaveFor (base realm client +:+ "policy/" +:+ type +:+ "/create") p.
Proof. unfold addPolicy, leaveFor. by rewrite !app_assoc_s. Qed.

Lemma detailPolicy_leaves type id p :
  detailPolicy console realm client d type id p =
  leaveFor (base realm client +:+ "policy/" +:+ type +:+ "/" +:+ id) p.
Proof. unfold detailPolicy, leaveFor. by rewrite !app_assoc_s. Qed.

(** The shared state of a page that was opened, or come back to: nothing of an earlier
    trip is left in it. *)
Definition tidy (st : object) : Prop :=
  truthy (assoc "newPolicyName" st) = false ∧ truthy (assoc "selectedPolicies" st) = false.

(** The policies selected on a page: a list, or nothing yet ([null] on the page of a new
    permission for resources, [undefined] on others). *)
Definition selects (v : jsval) (sel : list jsval) : Prop :=
  v = Arr sel ∨ truthy v = false ∧ sel = [].

(** What the user finds on coming back: the policy as it was being edited over the one the page
    opens with, the policies that were selected and the new one, the variables of the page. *)
Record finds (p p' : page) (o b : object) (sel : list jsval) (name : jsval) (response : list object) : Prop := {
  finds_url : url p' = withBack (url p);
  finds_policy : ∃ q, assoc "policy" (scope p') = Obj q ∧
    ∀ k, assoc k q = if bool_decide (k ∈ commonFields ++ fields) then assoc k o else assoc k b;
  finds_selected : assoc "selectedPolicies" (scope p') =
    Arr (sel ++ (if truthy name then (λ r, Obj (withText r)) <$> List.filter (namedLike name) response else []));
  finds_vars k : k ∈ vars → assoc k (scope p') = assoc k (scope p);
  finds_changed : assoc "changed" (scope p') = Bool true;
  finds_history : assoc history (scope p') = Bool (isNewAssociatedPolicy (url p));
  finds_clean : ∃ st, state p' = Obj st ∧ st.*1 = ["previousPage"; "rootUrl"]
}.

Lemma round_trip p st o sel path p2 m name open b response :
  find_s "/realms" console = None → plainUrl (url p) → segment path = true →
  state p = Obj st → tidy st →
  assoc "policy" (scope p) = Obj o → selects (assoc "selectedPolicies" (scope p)) sel →
  rtc (onNewPage d') (visit d' (leaveFor path p).2).2 p2 →
  leaves realm client d' p2 m name → opens d open b →
  ∃ p', (m ≫= λ _, comeBack d open response) p2 = (Returns tt, p') ∧ finds p p' o b sel name response.
Proof.
  intros Hc Hu [Hp Hp']%andb_true_iff Hst [Hnm Hns] Ho Hsel Hsteps Hl Hop.
  apply negb_true_iff in Hp, Hp'.
  assert (∀ k, hasParam k (path +:+ "?new_policy=true") = String.eqb "new_policy" k) as Hpar.
  { intros k. by apply (hasParam_only path k "new_policy=true"). }
  destruct (keepState_spec console d vars fields p st Hst) as (st1 & Hk & [Hkp Hku Hks Hkv Hko]).
  unfold leaveFor in Hsteps. rewrite (bind_run _ _ _ _ _ Hk) in Hsteps.
  pose proof (Hpar "new_policy") as Hn1. pose proof (Hpar "back") as Hn2.
  apply (onNewPage_away d' st1 (path +:+ "?new_policy=true") Hn1 Hn2) in Hsteps;
    [|by apply (visit_away d' st1 _ Hn1 Hn2 _ st1)].
  unfold href in Hku. rewrite previousUrl_own in Hku by done.
  destruct (leaves_spec _ _ d' _ _ _ _ _ _ Hl Hsteps Hku) as (p3 & st3 & Hr3 & Hu3 & Hst3 & Hag & Hn3).
  rewrite (bind_run _ _ _ _ _ Hr3).
  assert (selects (assoc "selectedPolicies" st3) sel) as Hsel3.
  { rewrite Hag, Hks by set_solver. destruct Hsel as [->|[-> ->]]; [by left|by right]. }
  assert (assoc "newPolicyName" st3 = name ∨ truthy name = false ∧ truthy (assoc "newPolicyName" st3) = false) as Hn.
  { assert ("newPolicyName" ∉ vars) by (intros Hin; apply (vars_own (d := d) _ Hin); set_solver).
    rewrite Hn3, Hko by set_solver. unfold js_or. destruct (truthy name); auto. }
  destruct (comeBack_spec d vars fields open b p3 st3 o response) as (p4 & Hr4 & [Hbu Hbp Hbs Hbe Hbc Hbh Hbv Hbz]).
  - done.
  - done.
  - rewrite Hu3. by apply isBack_withBack.
  - by rewrite Hag, Hkp by set_solver.
  - destruct Hsel3 as [->|[-> _]]; [by exists sel|done].
  - exists p4. split; [done|]. split; try done.
    + by rewrite Hbu, Hu3.
    + destruct Hsel3 as [Hsel3|[Hsel3 ->]]; [rewrite (Hbs sel Hsel3)|rewrite (Hbe Hsel3)];
        destruct Hn as [->|[-> ->]]; done.
    + intros k Hk'. rewrite Hbv, Hag, Hkv by (done || (pose proof (vars_own (d := d) k Hk'); set_solver)). done.
    + rewrite Hbh, Hu3. cbn [is_undefined to_string]. by rewrite isNew_withBack.
Qed.

(** The user leaves the page: to add a policy of a type, or to look at a selected one. *)
Inductive departs : M page unit → Prop :=
  | departs_add type :
      segment type = true → departs (addPolicy console realm client d type)
  | departs_detail type id :
      segment type = true → segment id = true → departs (detailPolicy console realm client d type id).

Lemma departs_leaveFor leave p :
  segment realm = true → segment client = true → departs leave →
  ∃ path, segment path = true ∧ leave p = leaveFor path p.
Proof.
  intros Hr Hc [type Ht|type id Ht Hi]; eexists; (split; [|apply addPolicy_leaves || apply detailPolicy_leaves]);
    unfold base; rewrite !segment_app, ?Hr, ?Hc, ?Ht, ?Hi; done.
Qed.
End composed.


(** [Policies.delete], once the deletion is confirmed and answered, and [$scope.remove]. *)
Definition removed (realm client : string) (d : delegate) : M page unit :=
  goTo (Str (base realm client +:+ (if isPermission d then "permission" else "policy"))) ≫= λ _,
  notify (if isPermission d then "The permission has been deleted." else "The policy has been deleted.").

(** Removing the policy that was looked at does not come back to the page that was left, but
    goes to the list of policies, with what the page had kept still in the shared state. *)
Theorem removed_goes_to_list realm client d `{!Associated d} p :
  (removed realm client d p).1 = Returns tt ∧ state (removed realm client d p).2 = state p ∧
  url (removed realm client d p).2 = base realm client +:+ "policy".
Proof.
  unfold removed. rewrite (not_permission (d := d)). unfold notify. cbn [goTo].
  rewrite bind_modify. by destruct p.
Qed.

(** On the page of an associated policy a third one is added, or looked at, and the user comes
    back to the second: what the first page kept is gone, and with it the URL of the first page.
    Leaving the second page in any of its ways stays on it. *)
Theorem nested_policy_strands console realm client d vars fields d' p st o sel leave p2 m name open b response
    p3 m' name' :
  Restoring d vars fields → Associated d → Associated d' →
  find_s "/realms" console = None → plainUrl (url p) → isNewAssociatedPolicy (url p) = true →
  segment realm = true → segment client = true →
  state p = Obj st → tidy st →
  assoc "policy" (scope p) = Obj o → selects (assoc "selectedPolicies" (scope p)) sel →
  departs console realm client d leave →
  rtc (onNewPage d') (visit d' (leave p).2).2 p2 →
  leaves realm client d' p2 m name → opens d open b →
  (m ≫= λ _, comeBack d open response) p2 = (Returns tt, p3) →
  leaves realm client d p3 m' name' →
  ∃ p4, m' p3 = (Returns tt, p4) ∧ url p4 = withBack (url p).
Proof.
  intros ? ? ? Hc Hu Hn Hr Hcl Hst Ht Ho Hsel Hd Hsteps Hl Hop Hback Hl'.
  destruct (departs_leaveFor _ _ _ d leave p Hr Hcl Hd) as (path & Hp & Hpath). rewrite Hpath in Hsteps.
  destruct (round_trip console realm client d vars fields d' p st o sel path p2 m name open b response)
    as (p' & Hrun & [Hurl _ _ _ _ Hh (st' & Hst' & Hkeys)]); [done..|].
  rewrite Hback in Hrun. injection Hrun as <-. rewrite Hn in Hh.
  destruct (leaves_spec realm client d st' (withBack (url p)) p3 m' name' Undefined Hl') as (p4 & _ & Hm & Hu4 & _).
  - split; [done|]. split; [done|]. by exists st'.
  - apply assoc_notin. rewrite Hkeys. set_solver.
  - by exists p4.
Qed.

(** A console that starts on the page of an associated policy, which a reload of the browser
    does, has no state to read: the page does not open. *)
Theorem reload_new_policy_throws d p :
  state p = Undefined → isNewAssociatedPolicy (url p) = true → (visit d p).1 = Throws TypeError.
Proof.
  intros Hst Hn. unfold visit, onInit. rewrite bind_modify.
  destruct p as [s v u sc o l m]; simpl in *; subst s. rewrite !bind_gets. simpl.
  by rewrite Hn.
Qed.

Lemma restoreState_none p st :
  state p = Obj st → assoc "policy" st = Undefined → (restoreState p).1 = Throws TypeError.
Proof. intros Hst Hp. unfold restoreState, getState. run_io. rewrite Hst. simpl. by rewrite Hp. Qed.

(** So does one that starts on a page that was come back to. *)
Theorem reload_back_throws d open b response p :
  d ∈ [aggregateDelegate; resourceDelegate; scopeDelegate] → opens d open b →
  state p = Undefined → isBackNewAssociatedPolicy (url p) = true → isNewAssociatedPolicy (url p) = false →
  (comeBack d open response p).1 = Throws TypeError.
Proof.
  intros Hd Hop Hst Hb Hn. unfold comeBack, visit, onInit.
  destruct p as [s v u sc o l m]; simpl in *; subst s. rewrite bind_bind, bind_modify.
  unfold getState, setState, setScope. run_io. rewrite Hn. simpl.
  assert (onInitDelegate d = mret tt) as -> by (by repeat (apply elem_of_cons in Hd as [->|Hd]); [..|apply not_elem_of_nil in Hd]).
  set (p1 := upd scope _ _).
  assert (Hst1 : state p1 = Obj [("previousPage", Obj [])]) by done.
  assert (Hu1 : isBackNewAssociatedPolicy (url p1) = true) by done. clearbody p1. simpl.
  destruct (opens_back d _ _ _ _ Hop Hst1 Hu1) as (p2 & st2 & -> & _ & Hpol & _ & Hst2 & Hag).
  assert (assoc "policy" st2 = Undefined) as Hp by (by rewrite Hag).
  enough (((onRestoreState d ≫= λ _, restoreState) p2).1 = Throws TypeError) as H.
  { by destruct ((onRestoreState d ≫= λ _, restoreState) p2) as [[] ?]; simplify_eq/=. }
  repeat (apply elem_of_cons in Hd as [->|Hd]); [| | |by apply not_elem_of_nil in Hd].
  - by eapply restoreState_none.
  - destruct p2; simplify_eq/=. unfold resourceRestoreState, restoreVar, getState, setScope, restoreState.
    run_io. by repeat (progress rewrite ?Hp, ?assoc_obj_set_ne by done; simpl).
  - destruct p2; simplify_eq/=. unfold scopeRestoreState, restoreVar, getState, setScope, restoreState.
    run_io. by repeat (progress rewrite ?Hp, ?assoc_obj_set_ne by done; simpl).
Qed.

(** The answer to the query of a page that was left again takes away what has been kept since:
    whatever the user does on the other page, it stays. *)
Theorem late_answer_strands realm client d `{!Associated d} pp response p sel st u0 p2 m name :
  state p = Obj st → assoc "selectedPolicies" (scope p) = Arr sel →
  isNewAssociatedPolicy u0 = true → isBackNewAssociatedPolicy u0 = false →
  rtc (onNewPage d) (visit d ((onFound pp response p).2 <| url := u0 |>)).2 p2 →
  leaves realm client d p2 m name →
  ∃ p', m p2 = (Returns tt, p') ∧ url p' = u0.
Proof.
  intros Hst Hsel Hn Hb Hsteps Hl.
  destruct (onFound_spec p st pp sel response Hst Hsel) as (sc & Hf & _ & _). rewrite Hf in Hsteps.
  apply (onNewPage_away d [] u0 Hn Hb) in Hsteps;
    [|by eapply (visit_away d [] u0 Hn Hb); [done|done|]; intros k Hk; apply assoc_notin; set_solver].
  destruct (leaves_spec _ _ d _ _ _ _ _ _ Hl Hsteps eq_refl) as (p' & st' & Hr & Hu & _).
  by exists p'.
Qed.

Lemma onCreated_sent realm client d data l : preserves (λ p, sent p = l) (onCreated realm client d data).
Proof.
  unfold onCreated, notify, goTo, setState, getState, getPolicy, getScope. cbv zeta.
  preserve ltac:(by intros [] <-).
Qed.

(** [save]: a blank name sends nothing, a name that another policy has is refused, and any
    other is sent once the delegate has put together its body. *)
Theorem save_checks_name d found data p o s body :
  assoc "policy" (scope p) = Obj o → assoc "name" o = Str s →
  onCreate d p = (Returns tt, body) → sent body = sent p →
  ∀ realm client,
    sent (saveCreate realm client d found data p).2 =
      if String.eqb (trim s) "" ||
         (truthy found && truthy (optp found "id") && negb (loose_eq (optp found "id") (assoc "id" o)))
      then sent p
      else sent p ++ [match assoc "policy" (scope body) with Obj o' => o' | _ => [] end].
Proof.
  intros Hp Hn Hc Hs realm client. unfold saveCreate, checkNameAvailability, getPolicy, getScope.
  rewrite bind_bind, bind_gets, Hp. cbn [getp]. rewrite bind_lift, Hn.
  destruct (String.eqb (trim s) ""); [done|]. rewrite bind_bind, bind_gets, Hp. cbn [getp]. rewrite bind_lift.
  destruct (truthy found && truthy (optp found "id") && negb (loose_eq (optp found "id") (assoc "id" o))); [done|].
  rewrite (bind_run _ _ _ _ _ Hc). unfold send. rewrite bind_bind. unfold getScope. rewrite bind_gets, bind_modify.
  cbn [orb]. rewrite <- Hs. set (p1 := upd sent _ body).
  replace (sent body ++ _) with (sent p1) by done. by apply (onCreated_sent realm client d data (sent p1) p1).
Qed.

(** [previousUrl] looks for the first [/realms] of the whole URL, and the console of a realm
    whose name starts so has one before the hash: the way back is not a page of the console. *)
Theorem realm_name_breaks_return u :
  let previous := previousUrl ("https://sso.example.com/auth/admin/realms-dev/console/" +:+ "#" +:+ u) in
  pathOf previous = "/realms-dev/console/" ∧ isBackNewAssociatedPolicy previous = false.
Proof.
  intros previous. subst previous. unfold previousUrl.
  set (rest := "/realms-dev/console/" +:+ "#" +:+ u).
  change ("https://sso.example.com/auth/admin/realms-dev/console/" +:+ "#" +:+ u)
    with ("https://sso.example.com/auth/admin" +:+ rest).
  change (indexOf ("https://sso.example.com/auth/admin" +:+ rest) "/realms")
    with (length_s "https://sso.example.com/auth/admin").
  rewrite substring_from_app.
  assert (∀ t, pathOf (rest +:+ t) = "/realms-dev/console/" ∧ isBackNewAssociatedPolicy (rest +:+ t) = false) as H.
  { intros t. unfold rest. rewrite !app_assoc_s.
    unfold pathOf, isBackNewAssociatedPolicy, hasParam, searchOf.
    change ("#" +:+ u +:+ t) with (String "#" (u +:+ t)). by rewrite split_app. }
  destruct (indexOf rest "back=true" =? -1)%Z; [apply H|]. specialize (H ""). by rewrite app_nil_r in H.
Qed.

End PolicyPages.
