(* ===== verification/AuthzSelections.v ===== *)
(** The pages of the policies of authz-controller.js that select users, clients, roles or
    groups, and the pages of rules, script and time policies: how a selection is made, how the
    selection of a policy that exists is loaded answer by answer, what is saved, and the
    delegates of [PolicyController] these pages are. *)

From S2P Require Import Prelude JsString Uri JsValue JsText RealmImport AngularEquals PolicyPages.
Import JsString Uri JsValue JsText RealmImport AngularEquals PolicyPages.

Module AuthzSelections.

(** ** Selecting and removing *)

Definition idOf (o : object) : jsval := assoc "id" o.

(** [selectUser], [selectClient], [selectPolicy]: [x] is what the search box has. *)
Definition select (x : jsval) (l : list object) : list object :=
  match x with
  | Obj o =>
      if negb (truthy (idOf o)) then l
      else if existsb (λ y, loose_eq (idOf y) (idOf o)) l then l else l ++ [o]
  | _ => l
  end.

(** [for (i = 0; i < angular.copy(list).length; i++) if (p(list[i])) list.splice(i, 1);] which
    goes on after it has removed an element, one step further; every round raises [i], so as
    many rounds as the list is long are enough. *)
Fixpoint spliceLoop (fuel i : nat) (p : object → bool) (l : list object) : list object :=
  match fuel with
  | 0 => l
  | S fuel =>
      match l !! i with
      | Some x => spliceLoop fuel (S i) p (if p x then delete i l else l)
      | None => l
      end
  end.

(** [removePolicy] compares the identifiers, [removeFromList] of the page of users the objects. *)
Definition removePolicy (l : list object) (policy : object) : list object :=
  spliceLoop (length l) 0 (λ x, loose_eq (idOf policy) (idOf x)) l.

Definition removeUser (l : list object) (user : object) : list object :=
  spliceLoop (length l) 0 (λ x, bool_decide (user = x)) l.

(** [var index = l.indexOf(x); if (index != -1) l.splice(index, 1);] of the pages of clients,
    roles and groups. *)
Definition removeFromList (l : list object) (x : object) : list object :=
  match list_find (λ y, y = x) l with Some (i, _) => delete i l | None => l end.

(** ** Loading a selection *)

(** [loaded] is the variable of [onInitUpdate] the answers are pushed to, [selected] the list of
    the scope; [dirty] says that another field of the policy differs from what the server has. *)
Record selection := mkSelection {
  loaded : list object;
  selected : list object;
  changed : bool;
  dirty : bool
}.

Definition same (l l' : list object) : bool := equals (Arr (Obj <$> l)) (Arr (Obj <$> l')).

(** The watch of the list, which runs when the list is another one. *)
Definition watchSelected (before s : selection) : selection :=
  if same (selected before) (selected s) then s
  else mkSelection (loaded s) (selected s) (negb (same (selected s) (loaded s))) (dirty s).

(** The page opens: the watch runs once. *)
Definition openSelection : selection := mkSelection [] [] false false.

(** [selectedUsers.push(data); $scope.selectedUsers = angular.copy(selectedUsers);] *)
Definition onLoaded (data : object) (s : selection) : selection :=
  let l := loaded s ++ [data] in
  watchSelected s (mkSelection l l (changed s) (dirty s)).

Definition doSelect (x : jsval) (s : selection) : selection :=
  watchSelected s (mkSelection (loaded s) (select x (selected s)) (changed s) (dirty s)).

Definition doRemove (x : object) (s : selection) : selection :=
  watchSelected s (mkSelection (loaded s) (removeFromList (selected s) x) (changed s) (dirty s)).

(** Another field is edited, and the watch of the policy sets [changed]. *)
Definition editField (s : selection) : selection := mkSelection (loaded s) (selected s) true true.

(** [onCreate] and [onUpdate]: the identifiers are saved. *)
Definition selectionBody (s : selection) : list jsval := idOf <$> selected s.

(** ** Roles *)

(** [roles] are the roles of the realm, which are offered beside the roles of the client that is
    selected, [clientRoles]; they and the clients are there when their answers have come.
    [loadedRoles] is the variable of [onInitUpdate] the answers are pushed to. *)
Record rolePage := mkRolePage {
  roles : option (list object);
  clients : option (list object);
  loadedRoles : list object;
  selectedRoles : list object;
  clientRoles : option (list object);
  selectedClient : option object
}.

(** A role of the policy has its identifier and [required]. *)
Definition requiredOf (roles : list object) (id v : jsval) : jsval :=
  foldl (λ v r, if loose_eq (idOf r) id then Bool (truthy (assoc "required" r)) else v) v roles.

Definition containerOf (cs : list object) (data : object) : object :=
  foldl (λ o c, if loose_eq (idOf c) (assoc "containerId" o)
                then obj_set "container" (Obj [("name", assoc "clientId" c)]) o else o) data cs.

(** The answer to [RoleById.get]; [$scope.clients.length] throws before the clients are known. *)
Definition onRole (policyRoles : list object) (data : object) (p : rolePage) : outcome rolePage :=
  let data := match requiredOf policyRoles (idOf data) Undefined with
              | Undefined => data | v => obj_set "required" v data end in
  match clients p with
  | None => Throws TypeError
  | Some cs =>
      let l := loadedRoles p ++ [containerOf cs data] in
      Returns (mkRolePage (roles p) (clients p) l l (clientRoles p) (selectedClient p))
  end.

Definition onClients (cs : list object) (p : rolePage) : rolePage :=
  mkRolePage (roles p) (Some cs) (loadedRoles p) (selectedRoles p) (clientRoles p) (selectedClient p).

Definition onRealmRoles (data : list object) (p : rolePage) : rolePage :=
  mkRolePage (Some data) (clients p) (loadedRoles p) (selectedRoles p) (clientRoles p) (selectedClient p).

Definition openRoles : rolePage := mkRolePage None None [] [] None None.

Definition hasId (id : jsval) (l : list object) : bool := existsb (λ y, loose_eq (idOf y) id) l.

Definition selectRole (role : object) (p : rolePage) : rolePage :=
  if negb (truthy (idOf role)) || hasId (idOf role) (selectedRoles p) then p
  else mkRolePage (roles p) (clients p) (loadedRoles p) (selectedRoles p ++ [role])
         (List.filter (λ r, negb (loose_eq (idOf r) (idOf role))) <$> clientRoles p) (selectedClient p).

Definition removeRole (role : object) (p : rolePage) : rolePage :=
  let offered := match clientRoles p, selectedClient p with
    | Some l, Some c => Some (if loose_eq (idOf c) (assoc "containerId" role) then l ++ [role] else l)
    | cr, _ => cr
    end in
  mkRolePage (roles p) (clients p) (loadedRoles p) (removeFromList (selectedRoles p) role) offered (selectedClient p).

(** The check box of a role that is selected; [shared] says that the role is the object which the
    roles of the realm have. *)
Definition requireRole (role : object) (required shared : bool) (p : rolePage) : rolePage :=
  let tick r := if bool_decide (r = role) then obj_set "required" (Bool required) r else r in
  mkRolePage (if shared then List.map tick <$> roles p else roles p) (clients p) (loadedRoles p)
    (tick <$> selectedRoles p) (clientRoles p) (selectedClient p).

(** [selectClient]: without a client there is nothing to offer, with one its roles are asked for. *)
Definition chooseClient (c : option object) (p : rolePage) : rolePage :=
  mkRolePage (roles p) (clients p) (loadedRoles p) (selectedRoles p)
    (match c with None => Some [] | Some _ => clientRoles p end) c.

(** The answer names the client that is selected by then. *)
Definition onClientRoles (data : list object) (p : rolePage) : outcome rolePage :=
  let fresh := List.filter (λ r, negb (hasId (idOf r) (selectedRoles p))) data in
  match selectedClient p with
  | Some c => Returns (mkRolePage (roles p) (clients p) (loadedRoles p) (selectedRoles p)
      (Some (obj_set "container" (Obj [("name", assoc "clientId" c)]) <$> fresh)) (selectedClient p))
  | None => match fresh with
            | [] => Returns (mkRolePage (roles p) (clients p) (loadedRoles p) (selectedRoles p) (Some []) None)
            | _ => Throws TypeError
            end
  end.

(** The body: [required] is sent when it holds. *)
Definition roleBodyOf (r : object) : object :=
  ("id", idOf r) :: (if truthy (assoc "required" r) then [("required", assoc "required" r)] else []).

Definition rolesBody (p : rolePage) : list object := roleBodyOf <$> selectedRoles p.

Definition hasRealmRole (p : rolePage) : bool :=
  existsb (λ r, negb (truthy (assoc "clientRole" r))) (selectedRoles p).
Definition hasClientRole (p : rolePage) : bool :=
  existsb (λ r, truthy (assoc "clientRole" r)) (selectedRoles p).

(** ** The selection is a set *)

(** Every object has an identifier, and no two the same. *)
Definition identified (l : list object) : Prop :=
  Forall (λ o, ∃ s, idOf o = Str s ∧ s ≠ "") l ∧ NoDup (idOf <$> l).

Lemma loose_eq_strings a b : loose_eq (Str a) (Str b) = bool_decide (a = b).
Proof. unfold loose_eq. simpl. destruct (String.eqb_spec a b); by case_bool_decide. Qed.

Lemma loose_eq_ids l x y :
  identified l → x ∈ l → y ∈ l → loose_eq (idOf x) (idOf y) = bool_decide (idOf x = idOf y).
Proof.
  intros [HF _] Hx Hy. rewrite Forall_forall in HF.
  destruct (HF x Hx) as (a & Ha & _), (HF y Hy) as (b & Hb & _). rewrite Ha, Hb, loose_eq_strings.
  apply bool_decide_ext. naive_solver.
Qed.

Lemma identified_inj l x y : identified l → x ∈ l → y ∈ l → idOf x = idOf y → x = y.
Proof.
  intros [_ HN] Hx Hy He. apply list_elem_of_lookup in Hx as [i Hi], Hy as [j Hj].
  assert (i = j) as ->; [|congruence].
  eapply NoDup_lookup; [exact HN| |]; rewrite list_lookup_fmap; [by rewrite Hi|by rewrite Hj, He].
Qed.

Lemma identified_NoDup l : identified l → NoDup l.
Proof. intros [_ HN]. by eapply NoDup_fmap_1. Qed.

Lemma hasId_spec id l s :
  Forall (λ o, ∃ s, idOf o = Str s ∧ s ≠ "") l → id = Str s → hasId id l = true ↔ id ∈ (idOf <$> l).
Proof.
  intros HF ->. unfold hasId. rewrite existsb_exists, list_elem_of_fmap. rewrite Forall_forall in HF.
  split; intros (x & Hx).
  - destruct Hx as [Hx He]. apply list_elem_of_In in Hx. exists x. split; [|done].
    destruct (HF x Hx) as (a & Ha & _). rewrite Ha, loose_eq_strings in *. by apply bool_decide_eq_true in He as ->.
  - destruct Hx as [He Hx]. exists x. split; [by apply list_elem_of_In|].
    by rewrite <- He, loose_eq_strings, bool_decide_eq_true_2.
Qed.

Theorem select_spec x s l :
  identified l → idOf x = Str s → s ≠ "" →
  identified (select (Obj x) l) ∧
  idOf <$> select (Obj x) l = (idOf <$> l) ++ (if bool_decide (idOf x ∈ (idOf <$> l)) then [] else [idOf x]).
Proof.
  intros [HF HN] Hx Hs. unfold select. rewrite Hx. rewrite (proj2 (truthy_str s) Hs). simpl.
  pose proof (hasId_spec (Str s) l s HF eq_refl) as Hid. unfold hasId in Hid.
  destruct (existsb _ l); case_bool_decide as Hin;
    [|by destruct Hin; apply Hid|by apply Hid in Hin|].
  - by rewrite (right_id_L [] (++)).
  - rewrite fmap_app. simpl. rewrite Hx. split; [|done]. split.
    + apply Forall_app. split; [done|]. constructor; [by exists s|done].
    + rewrite fmap_app. simpl. rewrite Hx. apply NoDup_app. split; [done|].
      split; [set_solver|apply NoDup_singleton].
Qed.

(** *** Removing *)

Lemma spliceLoop_none p fuel pre rest :
  Forall (λ x, p x = false) rest → spliceLoop fuel (length pre) p (pre ++ rest) = pre ++ rest.
Proof.
  intros HF. revert fuel pre. induction HF as [|x rest Hx HF IH]; intros [|fuel] pre; try done; simpl.
  - by rewrite lookup_app_r, Nat.sub_diag by done.
  - rewrite list_lookup_middle, Hx by done.
    replace (S (length pre)) with (length (pre ++ [x])) by (rewrite length_app; simpl; lia).
    rewrite (cons_middle x pre rest), (assoc_L (++)). apply IH.
Qed.

(** When one element is to go, going on after it skips nothing that matters. *)
Lemma spliceLoop_filter p fuel pre rest :
  length rest ≤ fuel →
  (∀ x y l1 l2, rest = l1 ++ x :: l2 → y ∈ l2 → p x = true → p y = false) →
  spliceLoop fuel (length pre) p (pre ++ rest) = pre ++ List.filter (λ x, negb (p x)) rest.
Proof.
  revert fuel pre. induction rest as [|x rest IH]; intros fuel pre Hf Hone.
  - apply (spliceLoop_none p fuel pre []). constructor.
  - simpl in Hf. destruct fuel as [|fuel]; [lia|]. simpl. rewrite list_lookup_middle by done.
    assert (∀ a b l1 l2, rest = l1 ++ a :: l2 → b ∈ l2 → p a = true → p b = false) as Hrest.
    { intros a b l1 l2 -> Hb. by apply (Hone a b (x :: l1) l2). }
    destruct (p x) eqn:Hx; simpl.
    + assert (Forall (λ y, p y = false) rest) as Hno.
      { apply Forall_forall. intros y Hy. by apply (Hone x y [] rest). }
      rewrite delete_middle.
      assert (List.filter (λ y, negb (p y)) rest = rest) as ->.
      { clear -Hno. induction Hno as [|y l Hy _ IHl]; [done|]. simpl. by rewrite Hy, IHl. }
      destruct rest as [|y rest].
      * destruct fuel; simpl; [done|]. by rewrite lookup_ge_None_2 by (rewrite length_app; simpl; lia).
      * replace (S (length pre)) with (length (pre ++ [y])) by (rewrite length_app; simpl; lia).
        rewrite (cons_middle y pre rest), (assoc_L (++)). apply spliceLoop_none. by apply Forall_cons in Hno as [_ ?].
    + replace (S (length pre)) with (length (pre ++ [x])) by (rewrite length_app; simpl; lia).
      rewrite (cons_middle x pre rest), (assoc_L (++)), IH by (done || lia). by rewrite <- (assoc_L (++)).
Qed.

Lemma filter_ne_delete {A} `{EqDecision A} (l : list A) x :
  NoDup l →
  match list_find (λ y, y = x) l with Some (i, _) => delete i l | None => l end =
  List.filter (λ y, negb (bool_decide (y = x))) l.
Proof.
  induction 1 as [|y l Hy HN IH]; [done|]. simpl. destruct (decide (y = x)) as [->|Hne]; simpl.
  - rewrite bool_decide_eq_true_2 by done. simpl. clear IH HN.
    induction l as [|z l IH]; [done|]. simpl. apply not_elem_of_cons in Hy as [? ?].
    rewrite bool_decide_eq_false_2 by done. simpl. by rewrite <- IH.
  - rewrite bool_decide_eq_false_2 by done. simpl. rewrite <- IH.
    by destruct (list_find (λ y, y = x) l) as [[]|].
Qed.

(** The three ways of removing an element of the list do the same, and remove that one. *)
Theorem removals_agree l x :
  identified l → x ∈ l →
  let rest := List.filter (λ y, negb (bool_decide (y = x))) l in
  removePolicy l x = rest ∧ removeUser l x = rest ∧ removeFromList l x = rest.
Proof.
  intros Hl Hx rest. apply identified_NoDup in Hl as HN.
  assert (∀ p : object → bool, (∀ y, y ∈ l → p y = bool_decide (y = x)) →
    spliceLoop (length l) 0 p l = rest) as Hloop.
  { intros p Hp. etrans; [apply (spliceLoop_filter p (length l) [] l); [done|]|].
    - intros a b l1 l2 -> Hb Ha. rewrite Hp in Ha by set_solver. apply bool_decide_eq_true in Ha as ->.
      rewrite Hp by set_solver. apply bool_decide_eq_false. intros ->.
      apply NoDup_app in HN as (_ & _ & [? _]%NoDup_cons). done.
    - simpl. subst rest. clear -Hp. induction l as [|y l IH]; [done|]. simpl. rewrite Hp by set_solver.
      rewrite IH by set_solver. done. }
  split; [|split].
  - apply Hloop. intros y Hy. rewrite (loose_eq_ids l) by done. apply bool_decide_ext.
    split; [|by intros ->]. intros He. by eapply identified_inj.
  - apply Hloop. intros y Hy. apply bool_decide_ext. by split.
  - by apply filter_ne_delete.
Qed.

(** ** Loading *)

Definition loads (xs : list object) (s : selection) : selection := foldl (λ s x, onLoaded x s) s xs.

Lemma same_refl l : Forall (λ o, keys_once (Obj o) = true) l → same l l = true.
Proof.
  intros HF. apply equals_refl, keys_once_arr. by apply Forall_fmap.
Qed.

Lemma same_length l l' : same l l' = true → length l = length l'.
Proof. intros H%equals_arr%Forall2_length. by rewrite !length_fmap in H. Qed.

Ltac watched := unfold onLoaded, doSelect, doRemove, watchSelected; by destruct (same _ _).

Lemma onLoaded_lists x s :
  loaded (onLoaded x s) = loaded s ++ [x] ∧ selected (onLoaded x s) = loaded s ++ [x] ∧
  dirty (onLoaded x s) = dirty s.
Proof. watched. Qed.

Lemma doSelect_lists x s :
  loaded (doSelect x s) = loaded s ∧ selected (doSelect x s) = select x (selected s) ∧
  dirty (doSelect x s) = dirty s.
Proof. watched. Qed.

Lemma doRemove_lists x s :
  loaded (doRemove x s) = loaded s ∧ selected (doRemove x s) = removeFromList (selected s) x ∧
  dirty (doRemove x s) = dirty s.
Proof. watched. Qed.

Lemma loads_lists xs s :
  loaded (loads xs s) = loaded s ++ xs ∧
  (xs ≠ [] → selected (loads xs s) = loaded s ++ xs) ∧ dirty (loads xs s) = dirty s.
Proof.
  unfold loads. revert s. induction xs as [|x xs IH]; intros s; simpl.
  - by rewrite (right_id_L [] (++)).
  - destruct (IH (onLoaded x s)) as (Hl & Hs & Hd).
    destruct (onLoaded_lists x s) as (Hl' & Hs' & Hd'). rewrite Hl', <- (assoc_L (++)) in *. split; [done|]. split; [|by rewrite Hd].
    intros _. destruct xs; [done|]. by apply Hs.
Qed.

Lemma loads_changed xs s :
  Forall (λ o, keys_once (Obj o) = true) (loaded s ++ xs) → xs ≠ [] → selected s = loaded s →
  changed (loads xs s) = false.
Proof.
  unfold loads. intros HF Hne Heq. revert s HF Heq. induction xs as [|x xs IH]; intros s HF Heq; [done|]. simpl.
  rewrite cons_middle, (assoc_L (++)) in HF.
  assert (changed (onLoaded x s) = false) as Hc.
  { unfold onLoaded, watchSelected. simpl. destruct (same (selected s) (loaded s ++ [x])) eqn:E.
    - apply same_length in E. rewrite Heq, length_app in E. simpl in E. lia.
    - simpl. rewrite same_refl; [done|]. by apply Forall_app in HF as [? _]. }
  destruct (onLoaded_lists x s) as (Hl & Hs & _).
  destruct xs as [|y xs]; [done|]. apply IH; [done|by rewrite Hl|by rewrite Hl, Hs].
Qed.

(** The users or clients of a policy, whichever way their answers are ordered: once they are
    all there the page saves what the policy has, and is not changed. *)
Theorem selection_loads ids xs :
  xs ≠ [] → (idOf <$> xs) ≡ₚ ids → Forall (λ o, keys_once (Obj o) = true) xs →
  selectionBody (loads xs openSelection) ≡ₚ ids ∧ changed (loads xs openSelection) = false.
Proof.
  intros Hne Hp HF. destruct (loads_lists xs openSelection) as (_ & Hs & _).
  unfold selectionBody. rewrite Hs by done. split; [done|]. by apply loads_changed.
Qed.

(** What has been selected while answers were still to come is lost with the next one, and
    what is saved then are the answers that have come. *)
Theorem late_load_drops_selection xs x y :
  selected (onLoaded y (doSelect x (loads xs openSelection))) = xs ++ [y].
Proof.
  destruct (loads_lists xs openSelection) as (Hl & _ & _).
  destruct (doSelect_lists x (loads xs openSelection)) as (Hl' & _ & _).
  destruct (onLoaded_lists y (doSelect x (loads xs openSelection))) as (_ & -> & _).
  by rewrite Hl', Hl.
Qed.

Lemma same_snoc l x : same l (l ++ [x]) = false.
Proof. apply not_true_iff_false. intros H%same_length. rewrite length_app in H. simpl in H. lia. Qed.

(** The watch of the list sets [changed] to whether the list differs, whatever else does: an
    answer, or a selection that is taken back, hides an edit of another field. *)
Theorem selection_hides_edit s x y a :
  selected s = loaded s → Forall (λ o, keys_once (Obj o) = true) (loaded s ++ [y]) →
  identified (loaded s) → idOf x = Str a → a ≠ "" → idOf x ∉ (idOf <$> loaded s) →
  (let t := onLoaded y (editField s) in dirty t = true ∧ changed t = false) ∧
  (let t := doRemove x (doSelect (Obj x) (editField s)) in dirty t = true ∧ changed t = false).
Proof.
  intros Heq HF Hid Hx Ha Hni. split; cbv zeta.
  - split; [by destruct (onLoaded_lists y (editField s)) as (_ & _ & ->)|].
    unfold onLoaded, watchSelected. simpl. by rewrite Heq, same_snoc, same_refl.
  - assert (select (Obj x) (loaded s) = loaded s ++ [x]) as Hsel.
    { unfold select. rewrite Hx, (proj2 (truthy_str a) Ha). simpl.
      destruct (existsb _ _) eqn:E; [|done]. destruct Hid as [HF' _].
      rewrite Hx in Hni. by apply (hasId_spec (Str a) _ a HF' eq_refl) in E. }
    assert (removeFromList (loaded s ++ [x]) x = loaded s) as Hrem.
    { unfold removeFromList. rewrite list_find_app_r.
      - simpl. rewrite decide_True by done. simpl. rewrite delete_middle. apply (right_id_L [] (++)).
      - apply list_find_None, Forall_forall. intros z Hz ->. apply Hni. by apply list_elem_of_fmap_2. }
    destruct (doSelect_lists (Obj x) (editField s)) as (Hl1 & Hs1 & Hd1).
    split; [destruct (doRemove_lists x (doSelect (Obj x) (editField s))) as (_ & _ & ->); by rewrite Hd1|].
    unfold doRemove, watchSelected at 1. simpl in *. rewrite Hl1, Hs1, Heq, Hsel, Hrem.
    destruct (same (loaded s ++ [x]) (loaded s)) eqn:E.
    + apply same_length in E. rewrite length_app in E. simpl in E. lia.
    + simpl. apply Forall_app in HF as [HF _]. by rewrite same_refl.
Qed.

(** ** Roles *)

(** An answer whose handler throws leaves the page as it is. *)
Definition roleAnswer (roles : list object) (p : rolePage) (data : object) : rolePage :=
  match onRole roles data p with Returns p' => p' | Throws _ => p end.

Lemma assoc_containerOf k cs data : k ≠ "container" → assoc k (containerOf cs data) = assoc k data.
Proof.
  intros Hk. unfold containerOf. revert data. induction cs as [|c cs IH]; intros data; simpl; [done|].
  rewrite IH. destruct (loose_eq _ _); [|done]. by rewrite assoc_obj_set_ne.
Qed.

Lemma requiredOf_spec roles r v :
  identified roles → r ∈ roles → requiredOf roles (idOf r) v = Bool (truthy (assoc "required" r)).
Proof.
  unfold requiredOf. intros Hid Hr. revert v.
  assert (∀ l v, l ⊆ roles → r ∉ l →
    foldl (λ v r', if loose_eq (idOf r') (idOf r) then Bool (truthy (assoc "required" r')) else v) v l = v) as Hno.
  { induction l as [|x l IH]; intros v Hl Hx; [done|]. simpl.
    rewrite (loose_eq_ids roles) by set_solver. rewrite bool_decide_eq_false_2.
    - apply IH; set_solver.
    - intros He. apply Hx. rewrite (identified_inj roles x r) by set_solver. set_solver. }
  apply identified_NoDup in Hid as HN.
  apply list_elem_of_split in Hr as (l1 & l2 & ->). intros v. rewrite foldl_app. simpl.
  rewrite (loose_eq_ids (l1 ++ r :: l2)) by set_solver. rewrite bool_decide_eq_true_2 by done.
  apply Hno; [set_solver|]. by apply NoDup_app in HN as (_ & _ & [? _]%NoDup_cons).
Qed.

(** What the page saves for a role of the policy. *)
Definition roleSaved (r : object) : object :=
  ("id", idOf r) :: (if truthy (assoc "required" r) then [("required", Bool true)] else []).

Lemma roleAnswer_body roles cs p x r :
  identified roles → clients p = Some cs → r ∈ roles → idOf x = idOf r →
  clients (roleAnswer roles p x) = Some cs ∧
  loadedRoles (roleAnswer roles p x) = selectedRoles (roleAnswer roles p x) ∧
  ∃ y, loadedRoles (roleAnswer roles p x) = loadedRoles p ++ [y] ∧ roleBodyOf y = roleSaved r.
Proof.
  intros Hid Hc Hr Hx. unfold roleAnswer, onRole.
  rewrite Hx, (requiredOf_spec roles r) by done. rewrite Hc. split; [done|]. split; [done|].
  eexists. split; [done|]. unfold roleBodyOf, roleSaved, idOf in *.
  rewrite !assoc_containerOf, assoc_obj_set_ne, assoc_obj_set, Hx by done.
  simpl. by destruct (truthy (assoc "required" r)).
Qed.

Lemma roleAnswers_body roles cs xs p :
  identified roles → clients p = Some cs → Forall (λ x, idOf x ∈ (idOf <$> roles)) xs →
  ∃ rs, Forall2 (λ x r, r ∈ roles ∧ idOf x = idOf r) xs rs ∧
    roleBodyOf <$> loadedRoles (foldl (roleAnswer roles) p xs) = (roleBodyOf <$> loadedRoles p) ++ (roleSaved <$> rs) ∧
    (xs ≠ [] → selectedRoles (foldl (roleAnswer roles) p xs) = loadedRoles (foldl (roleAnswer roles) p xs)).
Proof.
  intros Hid Hc HF. revert p Hc. induction HF as [|x xs Hx HF IH]; intros p Hc.
  - exists []. split; [constructor|]. simpl. by rewrite (right_id_L [] (++)).
  - apply list_elem_of_fmap in Hx as (r & Hxr & Hr).
    destruct (roleAnswer_body roles cs p x r Hid Hc Hr Hxr) as (Hc' & Hsel & y & Hl & Hy).
    destruct (IH (roleAnswer roles p x) Hc') as (rs & HF2 & Hb & Hs). exists (r :: rs). simpl.
    split; [by constructor|]. rewrite Hb, Hl, fmap_app. simpl. rewrite Hy, <- (assoc_L (++)). split; [done|].
    intros _. destruct xs; [simpl; congruence|]. by apply Hs.
Qed.

Lemma saved_permutation roles xs rs :
  identified roles → Forall2 (λ x r, r ∈ roles ∧ idOf x = idOf r) xs rs →
  (idOf <$> xs) ≡ₚ (idOf <$> roles) → rs ≡ₚ roles.
Proof.
  intros Hid HF Hp.
  assert (idOf <$> xs = idOf <$> rs) as Heq.
  { clear Hp. induction HF as [|x r xs rs [_ He] _ IH]; [done|]. csimpl. by rewrite He, IH. }
  assert (rs ⊆ roles) as Hsub.
  { clear Heq Hp. induction HF as [|x r xs rs [? _] _ IH]; set_solver. }
  rewrite Heq in Hp. apply submseteq_length_Permutation.
  - apply NoDup_submseteq; [|set_solver]. eapply NoDup_fmap_1. rewrite Hp. apply Hid.
  - apply Permutation_length in Hp. rewrite !length_fmap in Hp. lia.
Qed.

(** C28: The page of a role policy whose clients are there before its roles saves what the policy
    has, with the roles that are required, in whatever order their answers come. *)
Theorem role_policy_roundtrip roles cs xs :
  xs ≠ [] → identified roles → (idOf <$> xs) ≡ₚ (idOf <$> roles) →
  rolesBody (foldl (roleAnswer roles) (onClients cs openRoles) xs) ≡ₚ (roleSaved <$> roles).
Proof.
  intros Hne Hid Hp.
  destruct (roleAnswers_body roles cs xs (onClients cs openRoles) Hid eq_refl) as (rs & HF & Hb & Hs).
  { apply Forall_forall. intros x Hx. rewrite <- Hp. by apply list_elem_of_fmap_2. }
  unfold rolesBody. rewrite Hs, Hb by done. simpl. by rewrite (saved_permutation roles xs rs).
Qed.

(** A role whose answer comes before the clients is not shown, and saving the page takes it
    from the policy. *)
Theorem role_before_clients_lost roles cs early late :
  late ≠ [] → identified roles → Forall (λ x, idOf x ∈ (idOf <$> roles)) late →
  let p := foldl (roleAnswer roles) (onClients cs (foldl (roleAnswer roles) openRoles early)) late in
  idOf <$> rolesBody p = idOf <$> late.
Proof.
  intros Hne Hid HF p.
  assert (foldl (roleAnswer roles) openRoles early = openRoles) as Hearly.
  { induction early as [|x l IH]; [done|]. simpl. unfold roleAnswer at 2, onRole. simpl. exact IH. }
  subst p. rewrite Hearly.
  destruct (roleAnswers_body roles cs late (onClients cs openRoles) Hid eq_refl HF) as (rs & HF2 & Hb & Hs).
  unfold rolesBody. rewrite Hs, Hb by done. simpl. clear -HF2.
  induction HF2 as [|x r xs rs [_ He] _ IH]; [done|]. csimpl. by rewrite IH, He.
Qed.

(** *** What is offered and what is selected *)

Definition hasIds (l : list object) : Prop := Forall (λ r, ∃ s, idOf r = Str s ∧ s ≠ "") l.

(** No role of the client is offered that is selected. *)
Definition rolesApart (p : rolePage) : Prop :=
  ∀ l, clientRoles p = Some l → (idOf <$> l) ## (idOf <$> selectedRoles p).

(** A page and the roles of the policy whose answers are still to come. *)
Record roleRun := mkRoleRun { shown : rolePage; waiting : list object }.

Definition openRun (policyRoles : list object) : roleRun := mkRoleRun openRoles policyRoles.

(** An answer with the roles of a client; a handler that throws leaves the page as it is. *)
Definition clientRolesAnswer (p : rolePage) (data : list object) : rolePage :=
  match onClientRoles data p with Returns p' => p' | Throws _ => p end.

(** What the user does, and the answers to the requests of the page, in any order: the roles of
    the realm and the clients are asked for once, each role of the policy once, the roles of a
    client whenever one is selected. *)
Inductive roleStep (policyRoles : list object) : roleRun → roleRun → Prop :=
  | step_select p w role s : idOf role = Str s → s ≠ "" →
      roleStep policyRoles (mkRoleRun p w) (mkRoleRun (selectRole role p) w)
  | step_require p w role required shared :
      roleStep policyRoles (mkRoleRun p w) (mkRoleRun (requireRole role required shared p) w)
  | step_remove p w role : role ∈ selectedRoles p →
      roleStep policyRoles (mkRoleRun p w) (mkRoleRun (removeRole role p) w)
  | step_client p w c : roleStep policyRoles (mkRoleRun p w) (mkRoleRun (chooseClient c p) w)
  | step_client_roles p w data : hasIds data →
      roleStep policyRoles (mkRoleRun p w) (mkRoleRun (clientRolesAnswer p data) w)
  | step_realm_roles p w data : roles p = None →
      roleStep policyRoles (mkRoleRun p w) (mkRoleRun (onRealmRoles data p) w)
  | step_clients p w cs : clients p = None →
      roleStep policyRoles (mkRoleRun p w) (mkRoleRun (onClients cs p) w)
  | step_role p w1 w2 r data : idOf data = idOf r →
      roleStep policyRoles (mkRoleRun p (w1 ++ r :: w2)) (mkRoleRun (roleAnswer policyRoles p data) (w1 ++ w2)).

Lemma filter_ids_apart (l : list object) x s :
  hasIds l → idOf x = Str s →
  ∀ i, i ∈ (idOf <$> List.filter (λ r, negb (loose_eq (idOf r) (idOf x))) l) → i ∈ (idOf <$> l) ∧ i ≠ idOf x.
Proof.
  intros HF Hx i (r & -> & Hr)%list_elem_of_fmap. apply list_elem_of_In, filter_In in Hr as [Hr%list_elem_of_In Hne].
  split; [by apply list_elem_of_fmap_2|]. unfold hasIds in HF. rewrite Forall_forall in HF. destruct (HF r Hr) as (a & Ha & _).
  rewrite Ha, Hx, loose_eq_strings in *. apply negb_true_iff, bool_decide_eq_false in Hne. congruence.
Qed.

Lemma Forall_List_filter {A} (P : A → Prop) f (l : list A) : Forall P l → Forall P (List.filter f l).
Proof. induction 1; simpl; [done|]. destruct (f _); by try constructor. Qed.

Lemma removeFromList_ids l x :
  identified l → x ∈ l →
  identified (removeFromList l x) ∧ (idOf <$> removeFromList l x) ⊆ (idOf <$> l) ∧
  idOf x ∉ (idOf <$> removeFromList l x).
Proof.
  intros Hid Hx. apply identified_NoDup in Hid as HN. unfold removeFromList. rewrite filter_ne_delete by done.
  assert (∀ y, y ∈ List.filter (λ y, negb (bool_decide (y = x))) l ↔ y ∈ l ∧ y ≠ x) as Hf.
  { intros y. rewrite list_elem_of_In, filter_In, <- list_elem_of_In, negb_true_iff, bool_decide_eq_false. done. }
  split; [split|split].
  - apply Forall_List_filter, Hid.
  - destruct Hid as [_ HNi]. clear -HNi. induction l as [|y l IH]; [done|]. csimpl in *.
    apply NoDup_cons in HNi as [Hy HNi]. destruct (negb _); [|by apply IH]. csimpl. constructor; [|by apply IH].
    intros (z & Hz & Hin)%list_elem_of_fmap. apply Hy. rewrite Hz. apply list_elem_of_fmap_2.
    by apply list_elem_of_In, filter_In in Hin as [?%list_elem_of_In _].
  - intros i (y & -> & [? _]%Hf)%list_elem_of_fmap. by apply list_elem_of_fmap_2.
  - intros (y & He & [Hy Hne]%Hf)%list_elem_of_fmap. apply Hne. by eapply identified_inj.
Qed.

(** Every selected role has an identifier of its own, every role of the client that is offered
    has one, and the roles of the policy are either loaded or still to come. *)
Record sound (s : roleRun) : Prop := {
  sound_selected : identified (selectedRoles (shown s));
  sound_offered : ∀ l, clientRoles (shown s) = Some l → hasIds l;
  sound_loaded : identified (loadedRoles (shown s) ++ waiting s)
}.

Lemma identified_snoc l x s :
  identified l → idOf x = Str s → s ≠ "" → idOf x ∉ (idOf <$> l) → identified (l ++ [x]).
Proof.
  intros [HF HN] Hx Hs Hni. split.
  - apply Forall_app. split; [done|]. constructor; [by exists s|done].
  - rewrite fmap_app. apply NoDup_app. split; [done|]. split; [set_solver|apply NoDup_singleton].
Qed.

Lemma identified_app_l l k : identified (l ++ k) → identified l.
Proof. intros [[HF _]%Forall_app HN]. split; [done|]. rewrite fmap_app in HN. by apply NoDup_app in HN as [? _]. Qed.

Lemma identified_ids l l' : idOf <$> l = idOf <$> l' → identified l → identified l'.
Proof.
  intros He [HF HN]. split; [|by rewrite <- He].
  assert (Forall (λ i, ∃ s, i = Str s ∧ s ≠ "") (idOf <$> l')) as HF'.
  { rewrite <- He. by apply Forall_fmap. }
  rewrite Forall_fmap in HF'. exact HF'.
Qed.

Lemma selectRole_cases p role s :
  identified (selectedRoles p) → idOf role = Str s → s ≠ "" →
  selectRole role p = p ∨
  (idOf role ∉ (idOf <$> selectedRoles p)) ∧
  selectRole role p = mkRolePage (roles p) (clients p) (loadedRoles p) (selectedRoles p ++ [role])
    (List.filter (λ r, negb (loose_eq (idOf r) (idOf role))) <$> clientRoles p) (selectedClient p).
Proof.
  intros [HF _] Hr Hs. unfold selectRole. rewrite Hr, (proj2 (truthy_str s) Hs). cbn [negb orb].
  pose proof (hasId_spec (Str s) (selectedRoles p) s HF eq_refl) as Hh.
  destruct (hasId (Str s) (selectedRoles p)); [by left|]. right. split; [|done]. by intros Hin%Hh.
Qed.

Lemma selectRole_apart p role s :
  identified (selectedRoles p) → (∀ l, clientRoles p = Some l → hasIds l) →
  idOf role = Str s → s ≠ "" → rolesApart p → rolesApart (selectRole role p).
Proof.
  intros Hid Hof Hr Hs Hap. destruct (selectRole_cases p role s Hid Hr Hs) as [->|[Hni ->]]; [done|].
  intros l (l0 & Hl0 & ->)%fmap_Some. specialize (Hap _ Hl0). specialize (Hof _ Hl0).
  intros i Hi. pose proof (filter_ids_apart l0 role s Hof Hr i Hi) as [Hi' Hne]. simpl.
  rewrite fmap_app, elem_of_app. csimpl. rewrite list_elem_of_singleton. intros [Hin|?]; [by apply (Hap i)|done].
Qed.

Lemma offered_removeRole p role l :
  clientRoles (removeRole role p) = Some l →
  ∃ l0, clientRoles p = Some l0 ∧ (l = l0 ∨ l = l0 ++ [role]).
Proof.
  unfold removeRole. simpl. destruct (clientRoles p) as [l0|]; [|done]. intros Hl. exists l0. split; [done|].
  destruct (selectedClient p); simplify_eq; [|by left]. case_match; auto.
Qed.

Lemma removeRole_apart p role :
  identified (selectedRoles p) → role ∈ selectedRoles p → rolesApart p → rolesApart (removeRole role p).
Proof.
  intros Hid Hr Hap. destruct (removeFromList_ids _ _ Hid Hr) as (_ & Hsub & Hni).
  intros l (l0 & Hl0 & Hl)%offered_removeRole. specialize (Hap _ Hl0).
  change (selectedRoles (removeRole role p)) with (removeFromList (selectedRoles p) role).
  destruct Hl as [->| ->]; [|rewrite fmap_app; simpl]; set_solver.
Qed.

Lemma requireRole_ids p role required shared :
  idOf <$> selectedRoles (requireRole role required shared p) = idOf <$> selectedRoles p.
Proof.
  unfold requireRole. simpl. rewrite <- list_fmap_compose. apply list_fmap_ext. intros _ r _. simpl.
  case_bool_decide; [|done]. by apply assoc_obj_set_ne.
Qed.

(** An answer with the roles of a client offers those that are not selected. *)
Lemma clientRoles_fresh data p p' :
  onClientRoles data p = Returns p' →
  ∃ c, p' = mkRolePage (roles p) (clients p) (loadedRoles p) (selectedRoles p)
    (Some (obj_set "container" c <$> List.filter (λ r, negb (hasId (idOf r) (selectedRoles p))) data)) (selectedClient p).
Proof.
  unfold onClientRoles. destruct (selectedClient p) as [c|]; [intros [= <-]; by eexists|].
  destruct (List.filter _ data); [|done]. intros [= <-]. by exists Null.
Qed.

Lemma onClientRoles_apart p data p' :
  identified (selectedRoles p) → hasIds data → onClientRoles data p = Returns p' →
  rolesApart p' ∧ ∀ l, clientRoles p' = Some l → hasIds l.
Proof.
  intros [Hid _] HF (c & ->)%clientRoles_fresh.
  assert (∀ r, idOf (obj_set "container" c r) = idOf r) as Hi by (intros; by apply assoc_obj_set_ne).
  split; intros l [= <-].
  - intros i (r & -> & Hr)%list_elem_of_fmap Hin. simpl in Hin. apply list_elem_of_fmap in Hr as (r0 & -> & Hr0).
    apply list_elem_of_In, filter_In in Hr0 as [Hr0%list_elem_of_In Hno]. rewrite Hi in Hin.
    unfold hasIds in HF. rewrite Forall_forall in HF. destruct (HF r0 Hr0) as (a & Ha & _). rewrite Ha in *.
    apply (hasId_spec (Str a) _ a Hid eq_refl) in Hin. by rewrite Hin in Hno.
  - apply Forall_fmap, Forall_List_filter. eapply Forall_impl; [done|]. simpl. intros r. by rewrite Hi.
Qed.

(** The answer with a role of the policy: the page has the roles that are loaded, and this one. *)
Lemma roleAnswer_cases policyRoles p data :
  roleAnswer policyRoles p data = p ∨
  ∃ x, idOf x = idOf data ∧
    roleAnswer policyRoles p data =
      mkRolePage (roles p) (clients p) (loadedRoles p ++ [x]) (loadedRoles p ++ [x]) (clientRoles p) (selectedClient p).
Proof.
  unfold roleAnswer, onRole. destruct (clients p) as [cs|]; [|by left]. right. eexists. split; [|done].
  unfold idOf. rewrite assoc_containerOf by done. case_match; try done; by apply assoc_obj_set_ne.
Qed.

Lemma roleAnswer_sound policyRoles p w1 w2 r data :
  sound (mkRoleRun p (w1 ++ r :: w2)) → idOf data = idOf r →
  sound (mkRoleRun (roleAnswer policyRoles p data) (w1 ++ w2)).
Proof.
  intros [Hsel Hof Hlo] Hd. simpl in *.
  assert (identified ((loadedRoles p ++ [r]) ++ w1 ++ w2)) as Hl'.
  { destruct Hlo as [HF HN]. unfold identified.
    assert ((loadedRoles p ++ [r]) ++ w1 ++ w2 ≡ₚ loadedRoles p ++ w1 ++ r :: w2) as -> by solve_Permutation. done. }
  destruct (roleAnswer_cases policyRoles p data) as [->|(x & Hx & ->)].
  - split; simpl; [done..|]. rewrite <- (assoc_L (++)) in Hl'. destruct Hl' as [HF HN]. split.
    + apply Forall_app in HF as [? [_ ?]%Forall_app]. by apply Forall_app.
    + rewrite !fmap_app in *. eapply sublist_NoDup; [exact HN|]. apply sublist_app; [done|]. by apply sublist_inserts_l.
  - assert (identified ((loadedRoles p ++ [x]) ++ w1 ++ w2)) as Hx'.
    { eapply identified_ids; [|exact Hl']. rewrite !fmap_app. simpl. by rewrite Hx, Hd. }
    split; simpl; [by eapply identified_app_l|done..].
Qed.

Lemma roleStep_sound policyRoles s s' : roleStep policyRoles s s' → sound s → sound s'.
Proof.
  intros Hs. destruct Hs as [p w role s Hr Hs|p w role req sh|p w role Hr|p w c|p w data HF|p w data _|p w cs _|p w1 w2 r data Hd];
    [..|by intros; eapply roleAnswer_sound]; intros [Hsel Hof Hlo]; simpl in *.
  - destruct (selectRole_cases p role s Hsel Hr Hs) as [->|[Hni ->]]; [done|]. split; simpl; [| |done].
    + by eapply identified_snoc.
    + intros l (l0 & Hl0 & ->)%fmap_Some. by apply Forall_List_filter, Hof.
  - split; simpl; [|done..]. eapply identified_ids; [symmetry; apply (requireRole_ids p role req sh)|done].
  - split; simpl; [by apply removeFromList_ids| |done]. intros l (l0 & Hl0 & Hl)%offered_removeRole.
    destruct Hl as [->| ->]; [by apply Hof|]. apply Forall_app. split; [by apply Hof|].
    constructor; [|done]. exact (proj1 (Forall_forall _ _) (proj1 Hsel) role Hr).
  - split; simpl; [done| |done]. destruct c; [done|]. intros l [= <-]. constructor.
  - unfold clientRolesAnswer. destruct (onClientRoles data p) as [p'|] eqn:E; [|done].
    destruct (onClientRoles_apart p data p' Hsel HF E) as [_ Hof'].
    apply clientRoles_fresh in E as (c & ->). by split.
  - by split.
  - by split.
Qed.

Lemma roleSteps_sound policyRoles s s' : rtc (roleStep policyRoles) s s' → sound s → sound s'.
Proof. induction 1; eauto using roleStep_sound. Qed.

Lemma openRun_sound policyRoles : identified policyRoles → sound (openRun policyRoles).
Proof. intros. split; simpl; [split; constructor|done..]. Qed.

(** Once no answer with a role of the policy is to come, no step offers what is selected. *)
Lemma roleStep_apart policyRoles s s' :
  roleStep policyRoles s s' → sound s → waiting s = [] → rolesApart (shown s) → rolesApart (shown s') ∧ waiting s' = [].
Proof.
  intros Hs. destruct Hs as [p w role s Hr Hs|p w role req sh|p w role Hr|p w c|p w data HF|p w data _|p w cs _|p w1 w2 r data Hd];
    intros [Hsel Hof Hlo] Hw Hap; simpl in *; [split; [|exact Hw]..|by destruct w1]; try done.
  - by eapply selectRole_apart.
  - intros l Hl. rewrite requireRole_ids. by apply Hap.
  - by apply removeRole_apart.
  - destruct c; [done|]. intros l [= <-]. set_solver.
  - unfold clientRolesAnswer. destruct (onClientRoles data p) as [p'|] eqn:E; [|done]. by eapply onClientRoles_apart.
Qed.

Lemma roleSteps_apart policyRoles s s' :
  rtc (roleStep policyRoles) s s' → sound s → waiting s = [] → rolesApart (shown s) → rolesApart (shown s').
Proof.
  induction 1 as [|s s1 s2 Hs _ IH]; [done|]. intros Hok Hw Hap.
  destruct (roleStep_apart policyRoles s s1 Hs Hok Hw Hap) as [? ?]. eauto using roleStep_sound.
Qed.

(** The roles of the realm that are offered are the answer's, whatever is selected. *)
Lemma roleStep_realm policyRoles s s' l :
  roleStep policyRoles s s' → roles (shown s) = Some l →
  ∃ l', roles (shown s') = Some l' ∧ idOf <$> l' = idOf <$> l.
Proof.
  intros Hs. destruct Hs as [p w role s Hr Hs|p w role req sh|p w role Hr|p w c|p w data HF|p w data Hn|p w cs _|p w1 w2 r data Hd];
    simpl; intros Hl; try (by exists l).
  - exists l. unfold selectRole. by destruct (_ || _).
  - destruct sh; rewrite Hl; simpl; [|by eexists]. eexists. split; [done|].
    rewrite <- list_fmap_compose. apply list_fmap_ext. intros _ r _. simpl.
    case_bool_decide; [|done]. by apply assoc_obj_set_ne.
  - exists l. unfold clientRolesAnswer. destruct (onClientRoles data p) eqn:E; [|done].
    by apply clientRoles_fresh in E as (c & ->).
  - congruence.
  - exists l. by destruct (roleAnswer_cases policyRoles p data) as [->|(x & _ & ->)].
Qed.

Lemma roleSteps_realm policyRoles s s' l :
  rtc (roleStep policyRoles) s s' → roles (shown s) = Some l →
  ∃ l', roles (shown s') = Some l' ∧ idOf <$> l' = idOf <$> l.
Proof.
  intros Hs. revert l. induction Hs as [|s s1 s2 Hs _ IH]; intros l Hl; [by exists l|].
  destruct (roleStep_realm policyRoles s s1 l Hs Hl) as (l1 & Hl1 & <-). by apply IH.
Qed.

(** C40: The page of a role policy, over everything the user does and every order of the answers.
    No role is ever selected twice. The answer with the roles of a client offers none that is
    selected; and from a state in which the answers with the roles of the policy have all come
    and no role of the client is both offered and selected, which is so before a client has been
    asked for, none ever is. The roles of the realm are offered whether they are selected or not. *)
Theorem roles_stay_apart policyRoles s s' :
  identified policyRoles → rtc (roleStep policyRoles) (openRun policyRoles) s → rtc (roleStep policyRoles) s s' →
  identified (selectedRoles (shown s)) ∧
  (∀ data p', hasIds data → onClientRoles data (shown s) = Returns p' → rolesApart p') ∧
  (waiting s = [] → clientRoles (shown s) = None ∨ rolesApart (shown s) → rolesApart (shown s')) ∧
  (∀ l, roles (shown s) = Some l → ∃ l', roles (shown s') = Some l' ∧ idOf <$> l' = idOf <$> l).
Proof.
  intros Hid Hrun Hmore. pose proof (roleSteps_sound _ _ _ Hrun (openRun_sound _ Hid)) as Hok.
  split; [apply Hok|]. split; [|split].
  - intros data p' HF E. by eapply onClientRoles_apart; [apply Hok|..].
  - intros Hw Hap. eapply roleSteps_apart; [done..|]. destruct Hap as [Hn|?]; [|done]. intros l Hl. congruence.
  - intros l Hl. by eapply roleSteps_realm.
Qed.

(** The answer with a role of the policy that comes when the roles of its client are offered
    leaves the role offered and selected. *)
Theorem late_role_is_offered policyRoles p cs l r data :
  clients p = Some cs → clientRoles p = Some l → r ∈ l → idOf data = idOf r →
  ¬ rolesApart (roleAnswer policyRoles p data).
Proof.
  intros Hc Hl Hr Hd Hap.
  destruct (roleAnswer_cases policyRoles p data) as [E|(x & Hx & E)].
  - unfold roleAnswer, onRole in E. rewrite Hc in E. apply (f_equal (length ∘ loadedRoles)) in E.
    simpl in E. rewrite length_app in E. simpl in E. lia.
  - rewrite E in Hap. apply (Hap l Hl (idOf r)); [by apply list_elem_of_fmap_2|]. simpl.
    rewrite fmap_app, <- Hd, <- Hx. set_solver.
Qed.

(** ** The delegates *)

(** [$scope.policy.k = ids; delete $scope.policy.config;] with the identifiers of a list. *)
Definition idsBody (list key : string) : M page unit :=
  getScope list ≫= λ v, lift (idsOf v) ≫= λ ids, setPolicy key (Arr ids) ≫= λ _, deletePolicy "config".

(** ResourceServerPolicyUserDetailCtrl and ResourceServerPolicyClientDetailCtrl *)
Definition userDelegate : delegate :=
  mkDelegate "user" false (setScope "selectedUsers" (Arr [])) mret mret
    (idsBody "selectedUsers" "users") (idsBody "selectedUsers" "users") (mret tt) (mret tt).

Definition clientDelegate : delegate :=
  mkDelegate "client" false (setScope "selectedClients" (Arr [])) mret mret
    (idsBody "selectedClients" "clients") (idsBody "selectedClients" "clients") (mret tt) (mret tt).

(** ResourceServerPolicyRoleDetailCtrl *)
Definition roleOf (r : jsval) : outcome jsval :=
  getp r "id" ≫= λ id, getp r "required" ≫= λ required,
  Returns (Obj (("id", id) :: (if truthy required then [("required", required)] else []))).

Definition roleBody : M page unit :=
  getScope "selectedRoles" ≫= λ v,
  match v with
  | Arr l => lift (mapM roleOf l) ≫= λ roles, setPolicy "roles" (Arr roles) ≫= λ _, deletePolicy "config"
  | _ => throw TypeError
  end.

Definition roleDelegate : delegate :=
  mkDelegate "role" false (setScope "selectedRoles" (Arr [])) mret mret roleBody roleBody (mret tt) (mret tt).

(** ResourceServerPolicyGroupDetailCtrl *)
Definition groupBody : M page unit :=
  (getScope "selectedGroups" ≫= setPolicy "groups") ≫= λ _, deletePolicy "config".

Definition groupDelegate : delegate :=
  mkDelegate "group" false (setScope "tree" (Arr []))
    (λ o, setScope "selectedGroups" (Arr []) ≫= λ _, mret o)
    (λ o, setScope "selectedGroups" (assoc "groups" o) ≫= λ _, mret o)
    groupBody groupBody (mret tt) (mret tt).

Definition selectGroup (group : object) : M page unit :=
  getScope "selectedGroups" ≫= λ v,
  match v with
  | Arr l =>
      lift (mapM (λ g, getp g "id") l) ≫= λ ids,
      if existsb (λ id, loose_eq id (idOf group)) ids then mret tt
      else setScope "selectedGroups" (Arr (l ++ [Obj [("id", idOf group); ("path", assoc "path" group)]])) ≫= λ _,
           setScope "changed" (Bool true)
  | _ => throw TypeError
  end.

(** The watches of [selectedGroups]: that of a policy that exists compares with a variable that
    is not declared. *)
Definition watchGroupsCreate : M page unit :=
  getScope "selectedGroups" ≫= λ v, gets url ≫= λ u,
  setScope "changed" (Bool (negb (equals v (Arr [])) || isNewAssociatedPolicy u)).

Definition watchGroupsUpdate : M page unit :=
  getScope "changed" ≫= λ c, when (truthy c) (throw ReferenceError).

(** ResourceServerPolicyJSDetailCtrl *)
Definition jsDelegate : delegate :=
  mkDelegate "js" false (mret tt) mret mret (deletePolicy "config") (deletePolicy "config") (mret tt) (mret tt).

(** ResourceServerPolicyTimeDetailCtrl *)
Definition timeFields : list string :=
  ["dayMonth"; "dayMonthEnd"; "month"; "monthEnd"; "year"; "yearEnd"; "hour"; "hourEnd"; "minute"; "minuteEnd"].

Definition parseFields (policy : object) : object :=
  foldl (λ o k, if truthy (assoc k o) then obj_set k (parseInt (assoc k o)) o else o) policy timeFields.

Definition timeDelegate : delegate :=
  mkDelegate "time" false (mret tt) mret (λ o, mret (parseFields o))
    (deletePolicy "config") (deletePolicy "config") (mret tt) (mret tt).

Definition isRequired (policy : jsval) : outcome bool :=
  if negb (truthy policy) then Returns true
  else
    v ← mapM (getp policy) ["notOnOrAfter"; "notBefore"; "dayMonth"; "month"; "year"; "hour"; "minute"];
    Returns (negb (existsb truthy v)).

(** ResourceServerPolicyDroolsDetailCtrl; [resolveModules] takes [config] from its argument. *)
Definition rulesDelegate : delegate :=
  mkDelegate "rules" false (setScope "drools" (Obj []))
    (λ o, mret (obj_set "scannerPeriodUnit" (Str "Hours") (obj_set "scannerPeriod" (Num 1) o)))
    (λ o, mret (obj_del "config" (obj_set "scannerPeriod" (parseInt (assoc "scannerPeriod" o)) o)))
    (deletePolicy "config") (deletePolicy "config") (mret tt) (mret tt).

Lemma idsBody_away st u list key : preserves (away st u) (idsBody list key).
Proof. unfold idsBody. stays_away. Qed.
Lemma roleBody_away st u : preserves (away st u) roleBody.
Proof. unfold roleBody. stays_away. Qed.
Lemma groupBody_away st u : preserves (away st u) groupBody.
Proof. unfold groupBody. stays_away. Qed.
#[export] Hint Resolve idsBody_away roleBody_away groupBody_away : kc.

(** A policy of any of these kinds can be created from another page. *)
Lemma delegates_associated d :
  d ∈ [userDelegate; clientDelegate; roleDelegate; groupDelegate; jsDelegate; timeDelegate; rulesDelegate;
       aggregateDelegate] → Associated d.
Proof.
  intros Hd. repeat (apply elem_of_cons in Hd as [->|Hd]; [|]); [..|by apply not_elem_of_nil in Hd];
    try (by apply aggregate_associated); (split; [done|..]); stays_away.
Qed.

(** The bodies of the delegates are those of the selections. *)
Lemma idsOf_selection l : idsOf (Arr (Obj <$> l)) = Returns (idOf <$> l).
Proof. simpl. induction l as [|o l IH]; [done|]. csimpl. unfold mbind, outcome_bind in *. simpl. by rewrite IH. Qed.

Lemma idsBody_selection list key l p q :
  assoc list (scope p) = Arr (Obj <$> l) → assoc "policy" (scope p) = Obj q →
  ∃ sc, idsBody list key p = (Returns tt, p <| scope := sc |>) ∧
    assoc "policy" sc = Obj (obj_del "config" (obj_set key (Arr (idOf <$> l)) q)).
Proof.
  intros Hl Hq. unfold idsBody. unfold getScope at 1. rewrite bind_gets, Hl, idsOf_selection, bind_lift.
  rewrite (bind_run _ _ _ _ _ (setPolicy_eq _ _ _ _ Hq)). unfold deletePolicy, getScope. rewrite bind_gets.
  cbn [scope upd set_scope]. rewrite assoc_obj_set. unfold setScope, modify.
  eexists. split; [by destruct p|]. simpl. by rewrite assoc_obj_set.
Qed.

(** The defaults of a new policy of rules are put into the object the scope has a copy of: the
    form does not have them, and differs from the object at once. *)
Theorem rules_defaults_lost p :
  isBackNewAssociatedPolicy (url p) = false → view p = Obj [] →
  let q := (watchPolicy (initCreate rulesDelegate p).2).2 in
  ∃ o, assoc "policy" (scope q) = Obj o ∧ assoc "scannerPeriod" o = Undefined ∧
    assoc "scannerPeriodUnit" o = Undefined ∧ assoc "changed" (scope q) = Bool true.
Proof.
  intros Hb Hv q. destruct p as [s v u sc o l m]; simpl in *; subst v q.
  unfold initCreate, watchPolicy, setScope, getScope. run_io. rewrite Hb. simpl. rewrite assoc_obj_set.
  simpl. rewrite !assoc_obj_set_ne, assoc_obj_set by done.
  eexists. split; [done|]. split; [done|]. split; [done|]. by rewrite assoc_obj_set.
Qed.

Lemma assoc_parse ks k o :
  NoDup ks →
  assoc k (foldl (λ o k, if truthy (assoc k o) then obj_set k (parseInt (assoc k o)) o else o) o ks) =
  if bool_decide (k ∈ ks) && truthy (assoc k o) then parseInt (assoc k o) else assoc k o.
Proof.
  intros HN. revert o. induction HN as [|x ks Hx HN IH]; intros o; simpl; [done|]. rewrite IH.
  destruct (decide (k = x)) as [->|Hne].
  - rewrite (bool_decide_eq_false_2 (x ∈ ks)), (bool_decide_eq_true_2 (x ∈ x :: ks)) by set_solver. simpl.
    destruct (truthy (assoc x o)); [by rewrite assoc_obj_set|done].
  - assert (assoc k (if truthy (assoc x o) then obj_set x (parseInt (assoc x o)) o else o) = assoc k o) as ->
      by (destruct (truthy _); [by rewrite assoc_obj_set_ne|done]).
    by rewrite (bool_decide_ext (k ∈ x :: ks) (k ∈ ks)) by set_solver.
Qed.

Lemma timeFields_NoDup : NoDup timeFields.
Proof. apply (bool_decide_unpack _). vm_compute. exact I. Qed.

Lemma Z_to_string_truthy n : (0 ≤ n)%Z → truthy (Str (Z_to_string n)) = true.
Proof.
  intros Hn. apply truthy_str. intros He. pose proof (parseInt_Z_to_string n Hn) as H. by rewrite He in H.
Qed.

Lemma equals_differ (o o' : object) k :
  assoc k o ≠ Undefined → is_private k = false → equals (assoc k o) (assoc k o') = false →
  equals (Obj o) (Obj o') = false.
Proof.
  intros Hu Hp He. apply not_true_iff_false. intros [HF _]%equals_members. rewrite Forall_forall in HF.
  assert (k ∈ o.*1) as Hin by (destruct (decide (k ∈ o.*1)); [done|by rewrite assoc_notin in Hu]).
  specialize (HF _ (elem_assoc _ _ Hin) Hp). simpl in HF. by rewrite HF in He.
Qed.

(** A time policy whose number the server has as a text is changed as soon as it is open. *)
Theorem time_policy_opens_changed p data k n :
  isBackNewAssociatedPolicy (url p) = false → k ∈ timeFields →
  assoc k data = Str (Z_to_string n) → (0 ≤ n)%Z →
  let q := (watchPolicy (initUpdate timeDelegate data p).2).2 in
  ∃ o, assoc "policy" (scope q) = Obj o ∧ assoc k o = Num n ∧ assoc "changed" (scope q) = Bool true.
Proof.
  intros Hb Hk Hd Hn q. destruct p as [s v u sc o l m]; simpl in *; subst q.
  assert (assoc k (parseFields data) = Num n) as Hnum.
  { unfold parseFields. rewrite assoc_parse by apply timeFields_NoDup.
    by rewrite bool_decide_eq_true_2, Hd, Z_to_string_truthy, parseInt_Z_to_string by done. }
  assert (equals (Obj (parseFields data)) (Obj data) = false) as He.
  { apply (equals_differ _ _ k); [by rewrite Hnum| |by rewrite Hnum, Hd].
    by repeat (apply elem_of_cons in Hk as [->|Hk]); [..|apply not_elem_of_nil in Hk]. }
  unfold initUpdate, watchPolicy, setScope, getScope. run_io. rewrite Hb. simpl. rewrite assoc_obj_set, He. simpl.
  exists (parseFields data). rewrite assoc_obj_set_ne, !assoc_obj_set by done. done.
Qed.

(** A time policy of which only the first hour of the day is given needs no other field until
    its page opens, which makes the hour a number that counts as missing. *)
Theorem midnight_is_required policy :
  assoc "hour" policy = Str "0" →
  (∀ k, k ∈ ["notOnOrAfter"; "notBefore"; "dayMonth"; "month"; "year"; "minute"] → assoc k policy = Undefined) →
  isRequired (Obj policy) = Returns false ∧ isRequired (Obj (parseFields policy)) = Returns true.
Proof.
  intros Hh Ho. unfold isRequired. cbn [truthy negb].
  assert (∀ k, assoc k policy = Undefined → assoc k (parseFields policy) = Undefined) as Hund.
  { intros k Hk. unfold parseFields. rewrite assoc_parse by apply timeFields_NoDup. rewrite Hk. by rewrite andb_false_r. }
  assert (assoc "hour" (parseFields policy) = Num 0) as Hhour.
  { unfold parseFields. rewrite assoc_parse by apply timeFields_NoDup. by rewrite Hh. }
  split; unfold mbind, outcome_bind, mapM; cbn [getp].
  - rewrite Hh, (Ho "notOnOrAfter"), (Ho "notBefore"), (Ho "dayMonth"), (Ho "month"), (Ho "year"),
      (Ho "minute") by (repeat constructor). reflexivity.
  - rewrite Hhour, (Hund "notOnOrAfter"), (Hund "notBefore"), (Hund "dayMonth"), (Hund "month"), (Hund "year"),
      (Hund "minute") by (apply Ho; repeat constructor). reflexivity.
Qed.

(** An edit of the groups of a policy that exists makes the watch throw. *)
Theorem group_watch_throws p :
  assoc "changed" (scope p) = Bool true → watchGroupsUpdate p = (Throws ReferenceError, p).
Proof. intros Hc. unfold watchGroupsUpdate, getScope. run_io. by rewrite Hc. Qed.

End AuthzSelections.
