(* ===== verification/AuthzResources.v ===== *)
(** The other pages of authz-controller.js: the lists of resources, scopes, policies and
    permissions with their details and the dialogs that delete them, the page of a resource with
    its attributes and URIs, the page of a scope, the evaluation of policies, and the switch of
    the permissions of a role, a client, a group, an identity provider or the users. *)

From S2P Require Import Prelude JsString Uri JsValue JsText RealmImport AngularEquals.
Import JsString Uri JsValue JsText RealmImport AngularEquals.

Module AuthzResources.

Abbreviation object := (list (string * jsval)).

(** ** Search boxes *)

(** The function [query] of a box: [None] when it answers by itself that nothing is found. *)
Definition searchName (realm client : string) (extra : object) (term : string) : option object :=
  if String.eqb (trim term) "" then None
  else Some ([("realm", Str realm); ("client", Str client)] ++ extra ++
             [("name", Str (trim term)); ("max", Num 20); ("first", Num 0)]).

Definition scopesUiSelect (realm client term : string) : option object :=
  searchName realm client [("deep", Bool false)] term.

Definition policiesUiSelect (realm client term : string) : option object :=
  searchName realm client [("permission", Bool false)] term.

Definition usersUiSelect (realm term : string) : option object :=
  if String.eqb (trim term) "" then None
  else Some [("realm", Str realm); ("search", Str (trim term)); ("max", Num 20)].

(** The box of clients filters the answer again, with the term as it was typed. *)
Definition clientResults (term : string) (response : list string) : list string :=
  List.filter (λ clientId, negb (indexOf clientId term =? -1)%Z) response.

(** ** Dialogs that delete *)

(** [names] are those of the permissions or policies that refer to what is deleted. *)
Definition references (consent : bool) (before after : string) (names : list string) : string :=
  if negb (bool_decide (names = [])) && negb consent
  then before +:+ "<ul>" +:+ foldr (λ n s, "<li><strong>" +:+ n +:+ "</strong></li>" +:+ s) "" names
       +:+ "</ul>" +:+ after
  else "".

Definition resourceReferences (consent : bool) : list string → string :=
  references consent "<p>This resource is referenced in some permissions:</p>"
    "<p>If you remove this resource, the permissions above will be affected and will not be associated with this resource anymore.</p>".

Definition policyReferences (consent : bool) : list string → string :=
  references consent "<p>This policy is being used by other policies:</p>"
    "<p>If you remove this policy, the policies above will be affected and will not be associated with this policy anymore.</p>".

Definition scopeReferences (consent : bool) : list string → string :=
  references consent "<p>This scope is referenced in some permissions:</p>"
    "<p>If you remove this scope, the permissions above will be affected and will not be associated with this scope anymore.</p>".

(** [AuthzDialog.confirmDeleteWithMsg]: the message is trusted as HTML. *)
Definition confirmDeleteWithMsg (name type msg : string) : string :=
  msg +:+ "Are you sure you want to permanently delete the " +:+ type +:+ " <strong>" +:+ name +:+ "</strong> ?".

(** ** Lists *)

(** An item of a list: [details] is [None] before its details are asked for, and then whether
    they are shown; [answers] of the two requests, one after the other, are still to come. *)
Record item := mkItem { details : option bool; answers : nat; contents : bool }.

Definition freshItem : item := mkItem None 0 false.

(** [loadDetails]; [n] requests follow each other on the pages of resources and scopes (2), one
    is made on those of policies and permissions. *)
Definition loadDetails (n : nat) (i : item) : item :=
  match details i with
  | Some loaded => mkItem (Some (negb loaded)) (answers i) (contents i)
  | None => mkItem (Some false) n (contents i)
  end.

Definition onDetails (i : item) : item :=
  match answers i with
  | 0 => i
  | 1 => mkItem (Some true) 0 true
  | S k => mkItem (details i) k (contents i)
  end.

(** [showDetails]: [event] is the local name of its target, [None] when no event is given. *)
Definition showDetails (n : nat) (event : option string) (which : option nat) (items : list item) :
    outcome (list item) :=
  match event with
  | None => Throws TypeError
  | Some name =>
      if String.eqb name "a" || String.eqb name "button" then Returns items
      else match which with
           | Some i => Returns (alter (loadDetails n) i items)
           | None => Returns (loadDetails n <$> items)
           end
  end.

(** The answer to [searchQuery]. *)
Definition onSearch (n : nat) (detailsFilter : bool) (response : list item) : list item * outcome unit :=
  if detailsFilter then
    match showDetails n None None response with
    | Returns items => (items, Returns tt)
    | Throws e => (response, Throws e)
    end
  else (response, Returns tt).

(** [PolicyProvider.query]: the providers of the two pages. *)
Definition isPermissionType (type : string) : bool := String.eqb type "resource" || String.eqb type "scope".
Definition policyProviders (types : list string) : list string := List.filter (λ t, negb (isPermissionType t)) types.
Definition permissionProviders (types : list string) : list string := List.filter isPermissionType types.

(** ** The page of a resource *)

Record resourcePage := mkResourcePage {
  resource : object;
  original : object;
  newUri : jsval;
  changed : bool
}.

Definition newResource : object := [("scopes", Arr []); ("attributes", Obj []); ("uris", Arr [])].

Definition openNew : resourcePage := mkResourcePage newResource newResource Undefined false.

(** The answer of the server; [uris] have no default. *)
Definition openResource (data : object) : resourcePage :=
  let data := if truthy (assoc "scopes" data) then data else obj_set "scopes" (Arr []) data in
  let data := if truthy (assoc "attributes" data) then data else obj_set "attributes" (Obj []) data in
  mkResourcePage data data Undefined false.

(** The watches of [resource] and of [newUri]. *)
Definition watchResource (p : resourcePage) : resourcePage :=
  mkResourcePage (resource p) (original p) (newUri p)
    (changed p || negb (equals (Obj (resource p)) (Obj (original p))) || truthy (newUri p)).

Definition setResource (k : string) (v : jsval) (p : resourcePage) : resourcePage :=
  mkResourcePage (obj_set k v (resource p)) (original p) (newUri p) (changed p).

Definition addUri (p : resourcePage) : outcome resourcePage :=
  match assoc "uris" (resource p) with
  | Arr l => Returns (mkResourcePage (obj_set "uris" (Arr (l ++ [newUri p])) (resource p)) (original p) (Str "") (changed p))
  | _ => Throws TypeError
  end.

Definition deleteUri (index : nat) (p : resourcePage) : outcome resourcePage :=
  match assoc "uris" (resource p) with
  | Arr l => Returns (setResource "uris" (Arr (delete index l)) p)
  | _ => Throws TypeError
  end.

Definition addAttribute (key : string) (value : jsval) (p : resourcePage) : outcome resourcePage :=
  match assoc "attributes" (resource p) with
  | Obj a => Returns (setResource "attributes" (Obj (obj_set key value a)) p)
  | _ => Throws TypeError
  end.

Definition removeAttribute (key : string) (p : resourcePage) : outcome resourcePage :=
  match assoc "attributes" (resource p) with
  | Obj a => Returns (setResource "attributes" (Obj (obj_del key a)) p)
  | _ => Throws TypeError
  end.

(** [value.toString().split(',')] *)
Definition splitValue (v : jsval) : outcome jsval :=
  if is_nullish v then Throws TypeError else Returns (Arr (Str <$> split "," (to_string v))).

Fixpoint splitAttributes (a : object) : outcome object :=
  match a with
  | [] => Returns []
  | (k, v) :: a => v' ← splitValue v; a' ← splitAttributes a; Returns ((k, v') :: a')
  end.

(** [delete $scope.resource.scopes[i].text] *)
Definition withoutText (v : jsval) : jsval :=
  match v with Obj o => Obj (obj_del "text" o) | v => v end.

Definition stripScopes (p : resourcePage) : resourcePage :=
  match assoc "scopes" (resource p) with
  | Arr l => setResource "scopes" (Arr (withoutText <$> l)) p
  | _ => p
  end.

(** What [save] sends once the name is found to be free: of a new resource, and of one that
    exists. *)
Definition saveNew (p : resourcePage) : outcome object :=
  p ← (if truthy (newUri p) then addUri p else Returns p);
  Returns (resource (stripScopes p)).

Definition saveResource (p : resourcePage) : outcome object :=
  p ← (if truthy (newUri p) then addUri p else Returns p);
  let p := stripScopes p in
  match assoc "attributes" (resource p) with
  | Obj a => a' ← splitAttributes a; Returns (obj_set "attributes" (Obj a') (resource p))
  | _ => Throws TypeError
  end.

(** [checkNameAvailability] of the pages of resources and scopes: [idKey] is [_id] or [id]. *)
Inductive nameCheck := Silent | InUse | Free.

Definition checkName (idKey : string) (o : object) (found : jsval) : outcome nameCheck :=
  match assoc "name" o with
  | Str s =>
      if String.eqb (trim s) "" then Returns Silent
      else if truthy found && truthy (optp found idKey) && negb (loose_eq (optp found idKey) (assoc idKey o))
      then Returns InUse else Returns Free
  | v => if truthy v then Throws TypeError else Returns Silent
  end.

(** ** The page of a scope *)

(** [data] is the answer the watch compares with, and [stored] what the server has. *)
Record scopePage := mkScopePage { scope : object; data : object; stored : object; scopeChanged : bool }.

Definition openScope (data : object) : scopePage := mkScopePage data data data false.

Definition editScope (o : object) (p : scopePage) : scopePage :=
  mkScopePage o (data p) (stored p) (scopeChanged p || negb (equals (Obj o) (Obj (data p)))).

(** [save], when the name is free and the server accepts. *)
Definition saveScope (p : scopePage) : scopePage := mkScopePage (scope p) (data p) (scope p) false.

(** ** The evaluation of policies *)

Record evaluation := mkEvaluation {
  resources : list object;               (* of [authzRequest] *)
  attributes : object;                   (* of its [context] *)
  entitlements : bool;
  userId : jsval;
  newAttribute : jsval;
  newResourceOf : jsval;
  newScopes : jsval;
  applyResourceType : bool
}.

Definition openEvaluation : evaluation := mkEvaluation [] [] false Undefined Undefined Undefined Undefined false.

Definition addContextAttribute (e : evaluation) : outcome (evaluation * bool) :=
  value ← getp (newAttribute e) "value";
  if negb (truthy value) then Returns (e, false)
  else
    key ← getp (newAttribute e) "key";
    Returns (mkEvaluation (resources e) (obj_set (to_string key) value (attributes e)) (entitlements e)
               (userId e) Undefined (newResourceOf e) (newScopes e) (applyResourceType e), true).

Definition removeContextAttribute (key : string) (e : evaluation) : evaluation :=
  mkEvaluation (resources e) (obj_del key (attributes e)) (entitlements e) (userId e) (newAttribute e)
    (newResourceOf e) (newScopes e) (applyResourceType e).

(** The attributes with a key of their own; that of the authentication method has values. *)
Definition defaultContextAttributes : list (string * string) :=
  [("custom", "Custom Attribute..."); ("kc.identity.authc.method", "Authentication Method");
   ("kc.realm.name", "Realm"); ("kc.time.date_time", "Date/Time (MM/dd/yyyy hh:mm:ss)");
   ("kc.client.network.ip_address", "Client IPv4 Address"); ("kc.client.network.host", "Client Host");
   ("kc.client.user_agent", "Client/User Agent")].

Definition getContextAttributeName (key : string) (e : evaluation) : outcome string :=
  match list_find (λ d, d.1 = key) defaultContextAttributes with
  | Some (_, (_, name)) => Returns name
  | None => name ← getp (assoc key (attributes e)) "name"; Returns (if truthy name then to_string name else key)
  end.

(** [!$scope.newScopes || (resource._id != null && $scope.newScopes.length > 0 && $scope.newScopes[0].id)] *)
Definition dropsScopes (r : object) (scopes : jsval) : bool :=
  negb (truthy scopes) ||
  match scopes with
  | Arr (s :: _) => negb (is_nullish (assoc "_id" r)) && truthy (optp s "id")
  | _ => false
  end.

Definition scopesOf (scopes : jsval) : list jsval := match scopes with Arr l => l | _ => [] end.

Definition objOf (v : jsval) : object := match v with Obj o => o | _ => [] end.

Definition addResource (e : evaluation) : evaluation :=
  let r := obj_del "text" (objOf (newResourceOf e)) in
  let scopes := if dropsScopes r (newScopes e) then [] else scopesOf (newScopes e) in
  let names := (λ s, js_or (optp s "name") s) <$> scopes in
  mkEvaluation (resources e ++ [obj_set "scopes" (Arr names) r]) (attributes e) (entitlements e) (userId e)
    (newAttribute e) Undefined Undefined (applyResourceType e).

Definition removeResource (index : nat) (e : evaluation) : evaluation :=
  mkEvaluation (delete index (resources e)) (attributes e) (entitlements e) (userId e) (newAttribute e)
    (newResourceOf e) (newScopes e) (applyResourceType e).

Definition setApplyToResourceType (e : evaluation) : evaluation :=
  mkEvaluation [] (attributes e) (entitlements e) (userId e) (newAttribute e) Undefined (newScopes e)
    (applyResourceType e).

(** [save], up to the request. *)
Definition evaluate (e : evaluation) : outcome evaluation :=
  if applyResourceType e then
    let r := if truthy (newResourceOf e) then newResourceOf e else Obj [] in
    let scopes := if dropsScopes (objOf r) (newScopes e) then [] else scopesOf (newScopes e) in
    match resources e with
    | [] => Throws TypeError
    | first :: rest =>
        Returns (mkEvaluation (obj_set "scopes" (Arr (withoutText <$> scopes)) first :: rest) (attributes e)
                   false (userId e) (newAttribute e) r (Arr scopes) true)
    end
  else Returns (mkEvaluation (resources e) (attributes e) false (userId e) (newAttribute e)
                  (newResourceOf e) (newScopes e) false).

Definition evaluateAll (e : evaluation) : evaluation :=
  mkEvaluation (resources e) (attributes e) true (userId e) (newAttribute e) (newResourceOf e) (newScopes e)
    (applyResourceType e).

Definition reevaluate (e : evaluation) : outcome evaluation :=
  if entitlements e then Returns (evaluateAll e) else evaluate e.

Definition selectEvaluated (user : jsval) (e : evaluation) : evaluation :=
  let id := optp user "id" in
  mkEvaluation (resources e) (attributes e) (entitlements e) (if truthy id then id else Str "") (newAttribute e)
    (newResourceOf e) (newScopes e) (applyResourceType e).

(** [reset] copies a variable that is not declared. *)
Definition resetEvaluation (e : evaluation) : outcome evaluation := Throws ReferenceError.

(** ** The switch of permissions *)

Definition getManageClientId (masterRealm realm : string) : string :=
  if String.eqb realm masterRealm then "master-realm" else "realm-management".

(** [shown] is [permissions.enabled] of the scope, which the switch and the answers set, and
    [waits] are the updates without an answer.  [update] returns an object that starts as what
    is sent and takes the answer; only the last one is in the scope. *)
Record switch := mkSwitch { shown : bool; onServer : bool; waits : list bool }.

Definition toggle (v : bool) (s : switch) : switch :=
  if Bool.eqb v (shown s) then s else mkSwitch v (onServer s) (waits s ++ [v]).

(** The answer to the first of them; an error leaves the object as it was sent. *)
Definition onUpdate (ok : bool) (s : switch) : switch :=
  match waits s with
  | [] => s
  | v :: rest => mkSwitch (shown s) (if ok then v else onServer s) rest
  end.

(** ** Attributes *)

(** What the server has for an attribute: texts without a comma, at least one. *)
Definition plainValue (v : jsval) : Prop :=
  ∃ l, v = Arr (Str <$> l) ∧ l ≠ [] ∧ Forall (λ s, occurs "," s = false) l.

Lemma splitValue_plain v : plainValue v → splitValue v = Returns v.
Proof.
  intros (l & -> & Hl & HF). unfold splitValue. simpl. do 3 f_equal.
  rewrite <- list_fmap_compose. unfold compose. simpl. rewrite list_fmap_id. by rewrite (split_join "," l).
Qed.

Lemma splitAttributes_plain a : Forall (λ kv, plainValue kv.2) a → splitAttributes a = Returns a.
Proof.
  induction 1 as [|[k v] a Hv HF IH]; [done|]. simpl in *. unfold mbind, outcome_bind in *.
  by rewrite splitValue_plain, IH.
Qed.

Lemma stripScopes_attributes p : assoc "attributes" (resource (stripScopes p)) = assoc "attributes" (resource p).
Proof. unfold stripScopes, setResource. destruct (assoc "scopes" (resource p)); try done. simpl. by rewrite assoc_obj_set_ne. Qed.

Lemma saveResource_eq p a :
  truthy (newUri p) = false → assoc "attributes" (resource p) = Obj a →
  saveResource p = a' ← splitAttributes a; Returns (obj_set "attributes" (Obj a') (resource (stripScopes p))).
Proof.
  intros Hu Ha. unfold saveResource. rewrite Hu. unfold mbind, outcome_bind at 1.
  by rewrite stripScopes_attributes, Ha.
Qed.

(** Saving a resource whose attributes are as the server has them sends them as they are. *)
Theorem resource_attributes_roundtrip data a :
  assoc "attributes" data = Obj a → Forall (λ kv, plainValue kv.2) a →
  ∃ o, saveResource (openResource data) = Returns o ∧ assoc "attributes" o = Obj a.
Proof.
  intros Ha HF.
  assert (assoc "attributes" (resource (openResource data)) = Obj a) as Ha'.
  { unfold openResource. destruct (truthy (assoc "scopes" data)); simpl; rewrite ?assoc_obj_set_ne, Ha by done; simpl;
      by rewrite ?assoc_obj_set_ne, Ha by done. }
  rewrite (saveResource_eq _ a), splitAttributes_plain by done. eexists. split; [done|]. apply assoc_obj_set.
Qed.

(** Others it changes: a text with a comma becomes two, and no text at all an empty one. *)
Theorem attribute_commas a b :
  occurs "," a = false → occurs "," b = false →
  splitValue (Arr [Str (a +:+ String "," b)]) = Returns (Arr [Str a; Str b]) ∧
  splitValue (Arr []) = Returns (Arr [Str ""]).
Proof.
  intros Ha Hb. split; [|done]. unfold splitValue. simpl. by rewrite split_app, split_no_sep by done.
Qed.

(** The same attribute is one text in a new resource and several in one that exists. *)
Theorem new_resource_keeps_text key a b :
  occurs "," a = false → occurs "," b = false →
  let typed := Str (a +:+ String "," b) in
  (p ← addAttribute key typed openNew; saveNew p) =
    Returns (obj_set "attributes" (Obj [(key, typed)]) newResource) ∧
  (p ← addAttribute key typed (openResource newResource); saveResource p) =
    Returns (obj_set "attributes" (Obj [(key, Arr [Str a; Str b])]) newResource).
Proof.
  intros Ha Hb typed. subst typed. split; [done|].
  change (addAttribute key _ (openResource newResource)) with
    (Returns (setResource "attributes" (Obj [(key, Str (a +:+ String "," b))]) (openResource newResource))).
  unfold mbind at 1, outcome_bind at 1. erewrite saveResource_eq by done.
  unfold splitAttributes, splitValue. simpl. by rewrite split_app, split_no_sep by done.
Qed.

(** A resource the server has no URIs of cannot be given one. *)
Theorem first_uri_throws data u :
  assoc "uris" data = Undefined → u ≠ "" →
  let p := openResource data in
  saveResource (mkResourcePage (resource p) (original p) (Str u) true) = Throws TypeError.
Proof.
  intros Hu Hne p.
  assert (assoc "uris" (resource p) = Undefined) as Hp;
    [|unfold saveResource; cbn [newUri]; rewrite (proj2 (truthy_str u) Hne); unfold addUri; cbn [resource];
      by rewrite Hp].
  subst p. unfold openResource. destruct (truthy (assoc "scopes" data)); destruct (truthy (assoc "attributes" _)); simpl;
    by rewrite ?assoc_obj_set_ne, Hu by done.
Qed.

(** ** Scopes *)

(** A scope that has been saved cannot be given back what it had when its page opened: the
    watch still compares with that, and the page is not changed. *)
Theorem scope_not_restored original edited :
  keys_once (Obj original) = true → equals (Obj edited) (Obj original) = false →
  let p := editScope original (saveScope (editScope edited (openScope original))) in
  scope p = original ∧ equals (Obj (stored p)) (Obj (scope p)) = false ∧ scopeChanged p = false.
Proof. intros Hk He p. split; [done|]. split; [done|]. simpl. by rewrite equals_refl. Qed.

(** ** Lists *)

(** The answers with the details show them, however often the user clicked in between. *)
Lemma clicks_keep_answers n k i :
  details i ≠ None →
  details (Nat.iter k (loadDetails n) i) ≠ None ∧ answers (Nat.iter k (loadDetails n) i) = answers i ∧
  contents (Nat.iter k (loadDetails n) i) = contents i.
Proof.
  intros Hi. induction k as [|k IH]; [done|]. simpl. destruct IH as (Hd & Ha & Hc). unfold loadDetails at 1 3 5.
  destruct (details (Nat.iter k (loadDetails n) i)); [|done]. done.
Qed.

Theorem details_come k :
  let clicked := Nat.iter k (loadDetails 2) (loadDetails 2 freshItem) in
  onDetails (onDetails clicked) = mkItem (Some true) 0 true ∧
  loadDetails 2 (loadDetails 2 (onDetails (onDetails clicked))) = onDetails (onDetails clicked).
Proof.
  intros clicked. destruct (clicks_keep_answers 2 k (loadDetails 2 freshItem)) as (Hd & Ha & Hc); [done|].
  fold clicked in Hd, Ha, Hc. destruct clicked as [d a c]. simpl in *. subst a c. done.
Qed.

(** A second click shows the details before any of them is there. *)
Theorem details_shown_early : loadDetails 2 (loadDetails 2 freshItem) = mkItem (Some true) 2 false.
Proof. done. Qed.

(** With the filter for details every search throws: [showDetails] is called without an event. *)
Theorem details_filter_throws n response : onSearch n true response = (response, Throws TypeError).
Proof. done. Qed.

(** The two pages share the providers between them. *)
Theorem providers_partition types : (policyProviders types ++ permissionProviders types) ≡ₚ types.
Proof.
  unfold policyProviders, permissionProviders. induction types as [|t l IH]; [done|]. simpl.
  destruct (isPermissionType t); simpl; [by rewrite <- Permutation_middle, IH|by rewrite IH].
Qed.

(** The names of permissions are put into the message as they are, and the dialog trusts it as
    HTML. *)
Theorem delete_message_verbatim before after names name n type :
  n ∈ names → ∃ a b, confirmDeleteWithMsg name type (references false before after names) = a +:+ n +:+ b.
Proof.
  intros Hn. unfold confirmDeleteWithMsg, references.
  destruct (bool_decide (names = [])) eqn:E; [by apply bool_decide_eq_true in E as ->; apply not_elem_of_nil in Hn|].
  cbn [negb andb].
  assert (∃ a b, foldr (λ n s, "<li><strong>" +:+ n +:+ "</strong></li>" +:+ s) "" names = a +:+ n +:+ b) as (a & b & ->).
  { clear E. induction names as [|x l IH]; [by apply not_elem_of_nil in Hn|]. cbn [foldr].
    apply elem_of_cons in Hn as [->|Hn]; [by eexists _, _|]. destruct (IH Hn) as (a & b & ->).
    exists ("<li><strong>" +:+ x +:+ "</strong></li>" +:+ a), b. by rewrite !app_assoc_s. }
  exists (before +:+ "<ul>" +:+ a). eexists. by rewrite !app_assoc_s.
Qed.

(** A space after the name of a client hides it: the server is asked for the name alone, and
    its answer is filtered by what was typed. *)
Theorem client_search_space term response :
  Forall (λ c, occurs " " c = false) response → clientResults (term +:+ " ") response = [].
Proof.
  induction 1 as [|c l Hc HF IH]; [done|]. simpl. rewrite IH. unfold indexOf.
  by rewrite (find_s_None_occurs " ") by (done || (rewrite occurs_app; simpl; by rewrite orb_true_r)).
Qed.

(** ** Evaluation *)

(** A resource that is added has the names of its scopes; when it is one of the server's, scopes
    chosen as objects of the server are dropped. *)
Theorem addResource_spec e o l names :
  newResourceOf e = Obj o → newScopes e = Arr l →
  Forall2 (λ s n, optp s "name" = Str n ∧ n ≠ "") l names →
  ∃ r, resources (addResource e) = resources e ++ [r] ∧ assoc "text" r = Undefined ∧
    assoc "scopes" r = Arr (if negb (is_nullish (assoc "_id" o)) && truthy (optp (hd Null l) "id")
                            then [] else Str <$> names) ∧
    (∀ k, k ∉ ["text"; "scopes"] → assoc k r = assoc k o).
Proof.
  intros Hr Hs HF. unfold addResource. rewrite Hr, Hs. cbn [objOf resources scopesOf].
  assert (dropsScopes (obj_del "text" o) (Arr l) =
    negb (is_nullish (assoc "_id" o)) && truthy (optp (hd Null l) "id")) as ->.
  { unfold dropsScopes. rewrite assoc_obj_del. simpl. destruct l; [by rewrite andb_false_r|done]. }
  assert ((λ s, js_or (optp s "name") s) <$> l = Str <$> names) as Hnames.
  { clear -HF. induction HF as [|s n l names [Hn Hne] _ IH]; [done|]. csimpl. rewrite IH. unfold js_or. by rewrite Hn, (proj2 (truthy_str n) Hne). }
  eexists. split; [done|]. split; [by rewrite assoc_obj_set_ne, assoc_obj_del|]. split.
  - rewrite assoc_obj_set. destruct (_ && _); [done|]. by rewrite Hnames.
  - intros k Hk. rewrite assoc_obj_set_ne, assoc_obj_del by set_solver.
    destruct (String.eqb_spec k "text"); [set_solver|done].
Qed.

(** Evaluating by a type of resource needs a resource to have been given: right after the
    switch there is none. *)
Theorem evaluate_by_type_throws e :
  applyResourceType e = true → evaluate (setApplyToResourceType e) = Throws TypeError.
Proof. intros H. unfold evaluate. simpl. by rewrite H. Qed.

(** An attribute that has been added has a name to be shown under. *)
Theorem added_attribute_named e e' key :
  addContextAttribute e = Returns (e', true) → optp (newAttribute e) "key" = Str key →
  ∃ name, getContextAttributeName key e' = Returns name.
Proof.
  unfold addContextAttribute. destruct (newAttribute e) as [| | | | | | |o] eqn:Hn; try done; simpl.
  destruct (truthy (assoc "value" o)) eqn:Hv; simpl; [|done].
  intros [= <-] Hk. change (assoc "key" o = Str key) in Hk. rewrite Hk. unfold getContextAttributeName. cbn [attributes to_string].
  destruct (list_find (λ d : string * string, d.1 = key) defaultContextAttributes) as [[? [? ?]]|]; [by eexists|].
  rewrite assoc_obj_set.
  destruct (assoc "value" o); try done; simpl; by eexists.
Qed.

(** ** The switch *)

(** The user sets it, and updates are answered. *)
Inductive switchStep : switch → switch → Prop :=
  | switch_toggle v s : switchStep s (toggle v s)
  | switch_answer s : switchStep s (onUpdate true s).

Definition lastWanted (s : switch) : bool := List.last (waits s) (onServer s).

Lemma switch_last s s' : switchStep s s' → shown s = lastWanted s → shown s' = lastWanted s'.
Proof.
  unfold lastWanted. intros [v t|t] H.
  - unfold toggle. destruct (Bool.eqb v (shown t)); [done|]. simpl. by rewrite last_last.
  - unfold onUpdate. destruct (waits t) as [|w rest] eqn:E; [by rewrite E|]. simpl in *.
    rewrite H. destruct rest as [|x rest]; [done|]. clear. revert x. induction rest; intros; [done|]. simpl in *. auto.
Qed.

(** When no update waits any more the switch shows what the server has. *)
Theorem switch_settles b s :
  rtc switchStep (mkSwitch b b []) s → waits s = [] → shown s = onServer s.
Proof.
  intros Hs Hw. assert (shown s = lastWanted s) as ->; [|unfold lastWanted; by rewrite Hw].
  remember (mkSwitch b b []) as s0 eqn:E0.
  assert (shown s0 = lastWanted s0) as H0 by (by subst).
  clear E0 Hw. induction Hs as [|x y z Hxy _ IH]; [done|]. apply IH. by eapply switch_last.
Qed.

(** An update that fails leaves the switch where the user put it. *)
Theorem switch_after_error b : let s := onUpdate false (toggle (negb b) (mkSwitch b b [])) in
  waits s = [] ∧ shown s = negb b ∧ onServer s = b.
Proof. by destruct b. Qed.

End AuthzResources.
