(* ===== verification/UserStorage.v ===== *)
(** User storage providers and group membership in users.js: the settings of
    [GenericUserStorageCtrl] and [LDAPUserStorageCtrl] with their watches, the mappers of
    [LDAPMapperCtrl] and [LDAPMapperCreateCtrl], the list of [UserFederationCtrl], and the tree
    of groups of [UserGroupMembershipCtrl]. *)

From S2P Require Import Prelude JsString Uri JsValue JsText AngularEquals.
Import JsString Uri JsValue JsText AngularEquals.

Set Warnings "-register-all".

Module UserStorage.

Abbreviation object := (list (string * jsval)).

(** ** Settings *)

(** A setting is an array of one text. *)
Definition one (v : jsval) : jsval := Arr [v].

(** [v[0]], of an array. *)
Definition first (v : jsval) : jsval := match v with Arr (x :: _) => x | _ => Undefined end.

(** [if (!config[k]) config[k] = [v];] *)
Definition fill (config : object) (kv : string * string) : object :=
  if truthy (assoc kv.1 config) then config else obj_set kv.1 (one (Str kv.2)) config.

(** A property of a provider: its name and its default value. *)
Abbreviation property := (string * jsval)%type.

Definition defaultOf (p : property) : jsval := one (if truthy p.2 then p.2 else Str "").

(** The loops over [properties]: a new provider gets every default, one that exists what it
    lacks; the generic page gives it an empty text there, the others the default. *)
Definition setProperties (props : list property) (config : object) : object :=
  foldl (λ c p, obj_set p.1 (defaultOf p) c) config props.

Definition fillEmpty (props : list property) (config : object) : object :=
  foldl (λ c p, if truthy (assoc p.1 c) then c else obj_set p.1 (one (Str "")) c) config props.

Definition fillProperties (props : list property) (config : object) : object :=
  foldl (λ c p, if truthy (assoc p.1 c) then c else obj_set p.1 (defaultOf p) c) config props.

Definition cacheDefaults : list (string * string) :=
  [("cachePolicy", "DEFAULT"); ("evictionDay", ""); ("evictionHour", ""); ("evictionMinute", ""); ("maxLifespan", "")].

Definition syncDefaults : list (string * string) := [("fullSyncPeriod", "-1"); ("changedSyncPeriod", "-1")].

Definition setAll (config : object) (kvs : list (string * string)) : object :=
  foldl (λ c kv, obj_set kv.1 (one (Str kv.2)) c) config kvs.

(** The page: its settings, those the watch compares with, the switches of the two periods, and
    the vendor that was seen last. *)
Record storage := mkStorage {
  config : object;
  saved : object;
  fullSyncEnabled : bool;
  changedSyncEnabled : bool;
  showSync : bool;
  lastVendor : jsval;
  changed : bool
}.

(** [config[k] && config[k][0] > 0] *)
Definition isPositive (v : jsval) : bool :=
  match to_number (first v) with Some z => (0 <? z)%Z | None => false end.

Definition importShown (c : object) : bool :=
  if truthy (assoc "importEnabled" c) then loose_eq (first (assoc "importEnabled" c)) (Str "true") else true.

(** [initUserStorageSettings] of the generic page. *)
Definition genericCreate (synchronizable : bool) (props : list property) : storage :=
  let c := setAll [] [("priority", "0"); ("enabled", "true")] in
  let c := if synchronizable then setAll c syncDefaults else c in
  let c := setProperties props (setAll c cacheDefaults) in
  mkStorage c c false false (synchronizable && importShown c) Undefined true.

Definition genericEdit (synchronizable : bool) (props : list property) (config : object) : storage :=
  let full := isPositive (assoc "fullSyncPeriod" config) in
  let part := isPositive (assoc "changedSyncPeriod" config) in
  let c := if synchronizable then foldl fill config syncDefaults else config in
  let c := foldl fill (fill c ("enabled", "true")) cacheDefaults in
  let c := fillEmpty props (fill c ("priority", "0")) in
  mkStorage c c full part (synchronizable && importShown c) Undefined false.

(** That of the page of LDAP; [config['vendor'][0]] throws when there is no vendor. *)
Definition withVendor (c : object) (full part changed : bool) : outcome storage :=
  if is_nullish (assoc "vendor" c) then Throws TypeError
  else Returns (mkStorage c c full part (importShown c) (first (assoc "vendor" c)) changed).

Definition DEFAULT_BATCH_SIZE : string := "1000".

Definition ldapCreate (props : list property) : outcome storage :=
  let c := setAll [] [("enabled", "true"); ("priority", "0")] in
  let c := setAll (setAll (setAll c syncDefaults) cacheDefaults) [("batchSizeForSync", DEFAULT_BATCH_SIZE)] in
  withVendor (setProperties props c) false false true.

Definition ldapEdit (props : list property) (config : object) : outcome storage :=
  let full := isPositive (assoc "fullSyncPeriod" config) in
  let part := isPositive (assoc "changedSyncPeriod" config) in
  let c := fill (fill (fill config ("fullSyncPeriod", "-1")) ("enabled", "true")) ("changedSyncPeriod", "-1") in
  let c := fill (fill (foldl fill c cacheDefaults) ("priority", "0")) ("importEnabled", "true") in
  withVendor (fillProperties props c) full part false.

(** [config[k][0] = v] *)
Definition setFirst (k : string) (v : jsval) (c : object) : outcome object :=
  match assoc k c with
  | Arr l => Returns (obj_set k (Arr (v :: tail l)) c)
  | Undefined | Null => Throws TypeError
  | _ => Returns c
  end.

Definition withConfig (c : object) (s : storage) : storage :=
  mkStorage c (saved s) (fullSyncEnabled s) (changedSyncEnabled s) (showSync s) (lastVendor s) (changed s).

(** The switches of the periods, with their watches. *)
Definition setFullSync (on : bool) (s : storage) : outcome storage :=
  if Bool.eqb on (fullSyncEnabled s) then Returns s
  else c ← setFirst "fullSyncPeriod" (Str (if on then "604800" else "-1")) (config s);
       Returns (mkStorage c (saved s) on (changedSyncEnabled s) (showSync s) (lastVendor s) true).

Definition setChangedSync (on : bool) (s : storage) : outcome storage :=
  if Bool.eqb on (changedSyncEnabled s) then Returns s
  else c ← setFirst "changedSyncPeriod" (Str (if on then "86400" else "-1")) (config s);
       Returns (mkStorage c (saved s) (fullSyncEnabled s) on (showSync s) (lastVendor s) true).

Definition vendorToUUID (vendor : jsval) : jsval :=
  assoc (to_string vendor)
    [("rhds", Str "nsuniqueid"); ("tivoli", Str "uniqueidentifier"); ("edirectory", Str "guid");
     ("ad", Str "objectGUID"); ("other", Str "entryUUID")].

(** What another vendor sets. *)
Definition vendorSettings (vendor : jsval) (c : object) : outcome object :=
  let ad := strict_eq vendor (Str "ad") in
  c ← setFirst "usernameLDAPAttribute" (Str (if ad then "cn" else "uid")) c;
  c ← setFirst "userObjectClasses"
        (Str (if ad then "person, organizationalPerson, user" else "inetOrgPerson, organizationalPerson")) c;
  c ← setFirst "rdnLDAPAttribute" (first (assoc "usernameLDAPAttribute" c)) c;
  setFirst "uuidLDAPAttribute" (vendorToUUID vendor) c.

(** The watch of the settings. *)
Definition watchInstance (s : storage) : outcome storage :=
  let dirty := changed s || negb (equals (Obj (config s)) (Obj (saved s))) in
  let vendor := first (assoc "vendor" (config s)) in
  if equals vendor (lastVendor s) then
    Returns (mkStorage (config s) (saved s) (fullSyncEnabled s) (changedSyncEnabled s) (showSync s) (lastVendor s) dirty)
  else
    c ← vendorSettings vendor (config s);
    Returns (mkStorage c (saved s) (fullSyncEnabled s) (changedSyncEnabled s) (showSync s) vendor dirty).

(** [save] of the page of LDAP, up to the request. *)
Definition saveLdap (s : storage) : object :=
  let batch := assoc "batchSizeForSync" (config s) in
  if negb (truthy batch) || negb (truthy (parseInt (first batch)))
  then obj_set "batchSizeForSync" (one (Str DEFAULT_BATCH_SIZE)) (config s)
  else match setFirst "batchSizeForSync" (Str (to_string (parseInt batch))) (config s) with
       | Returns c => c
       | Throws _ => config s
       end.

(** [$scope.ldapVendors] *)
Definition ldapVendors (profile : string) : list string :=
  if String.eqb profile "community" then ["ad"; "rhds"; "tivoli"; "edirectory"; "other"] else ["ad"; "rhds"].

(** ** Mappers *)

Definition openMapper (props : list property) (config : object) : object := fillProperties props config.

(** The watch of [mapperType]. *)
Definition chooseMapperType (props : list property) : object := fillProperties props [].

Definition saveMapper (type : option string) (provider : string) (c : object) : option object :=
  id ← type;
  Some [("config", Obj c); ("providerId", Str id);
        ("providerType", Str "org.keycloak.storage.ldap.mappers.LDAPStorageMapper"); ("parentId", Str provider)].

(** ** The list of providers *)

Definition isProviderEnabled (config : object) : bool :=
  negb (truthy (assoc "enabled" config)) || loose_eq (first (assoc "enabled" config)) (Str "true").

Definition getInstancePriority (config : object) : outcome jsval :=
  if is_nullish (assoc "priority" config) then Throws TypeError else Returns (first (assoc "priority" config)).

(** ** Groups *)

Inductive group := Group (id path : string) (subGroups : list group).

Definition g_path (g : group) : string := match g with Group _ p _ => p end.
Definition g_subs (g : group) : list group := match g with Group _ _ l => l end.

(** [removeGroupMember]: the loop ends at the group it removes, and otherwise goes into the
    subgroups of each. *)
Fixpoint removeIn (member : string) (g : group) : group :=
  match g with
  | Group id path subs =>
      Group id path
        ((fix loop (l : list group) : list group :=
            match l with
            | [] => []
            | x :: l' => if String.eqb member (g_path x) then l' else removeIn member x :: loop l'
            end) subs)
  end.

Fixpoint removeGroupMember (groups : list group) (member : string) : list group :=
  match groups with
  | [] => []
  | x :: l => if String.eqb member (g_path x) then l else removeIn member x :: removeGroupMember l member
  end.

(** The answer with the memberships of the user. *)
Definition joinable (groups : list group) (memberships : list string) : list group :=
  foldl removeGroupMember groups memberships.

Definition isLeaf (id : string) (g : group) : bool := negb (String.eqb id "realm") && bool_decide (g_subs g = []).

Definition getGroupClass (collapsed : bool) (g : group) : string :=
  match g with
  | Group id _ subs =>
      if String.eqb id "realm" then "pficon pficon-users"
      else if isLeaf id g then "normal" else if collapsed then "collapsed" else "expanded"
  end.

(** ** Filling in *)

(** [c'] is [c] with what it lacks of some keys: nothing that is set is changed. *)
Definition extends (keys : list string) (c c' : object) : Prop :=
  (∀ k, truthy (assoc k c) = true → assoc k c' = assoc k c) ∧
  (∀ k, k ∈ keys → truthy (assoc k c') = true) ∧
  (∀ k, k ∉ keys → assoc k c' = assoc k c).

Lemma extends_nil c : extends [] c c.
Proof. split; [done|]. split; [|done]. intros k Hk. by apply not_elem_of_nil in Hk. Qed.

Lemma settings_extends_trans ks1 ks2 c c1 c2 : extends ks1 c c1 → extends ks2 c1 c2 → extends (ks1 ++ ks2) c c2.
Proof.
  intros (Ha & Hb & Hc) (Ha' & Hb' & Hc'). split; [|split].
  - intros k Hk. rewrite Ha'; [by apply Ha|]. by rewrite Ha.
  - intros k [Hk|Hk]%elem_of_app; [|by apply Hb'].
    destruct (decide (k ∈ ks2)); [by apply Hb'|]. rewrite Hc' by done. by apply Hb.
  - intros k Hk. rewrite Hc', Hc by set_solver. done.
Qed.

Lemma extends_set k v c : truthy (assoc k c) = false → truthy v = true → extends [k] c (obj_set k v c).
Proof.
  intros Hk Hv. split; [|split].
  - intros k' Hk'. rewrite assoc_obj_set_ne; [done|]. by intros ->; rewrite Hk in Hk'.
  - intros k' ->%list_elem_of_singleton. by rewrite assoc_obj_set.
  - intros k' Hk'. rewrite assoc_obj_set_ne; [done|]. set_solver.
Qed.

Lemma extends_here k c : truthy (assoc k c) = true → extends [k] c c.
Proof. intros Hk. split; [done|]. split; [|done]. by intros k' ->%list_elem_of_singleton. Qed.

Lemma fill_extends c kv : extends [kv.1] c (fill c kv).
Proof.
  unfold fill. destruct (truthy (assoc kv.1 c)) eqn:E; [by apply extends_here|by apply extends_set].
Qed.

Lemma foldl_extends {A} (key : A → string) f l c :
  (∀ c x, extends [key x] c (f c x)) → extends (key <$> l) c (foldl f c l).
Proof.
  intros Hf. revert c. induction l as [|x l IH]; intros c; [apply extends_nil|]. simpl.
  apply (settings_extends_trans [key x] (key <$> l) _ (f c x)); [apply Hf|apply IH].
Qed.

Lemma fills_extend l c : extends l.*1 c (foldl fill c l).
Proof. apply (foldl_extends fst). intros. apply fill_extends. Qed.

Lemma fillEmpty_extends props c : extends props.*1 c (fillEmpty props c).
Proof.
  apply (foldl_extends fst). intros c' x.
  destruct (truthy (assoc x.1 c')) eqn:E; [by apply extends_here|by apply extends_set].
Qed.

Lemma fillProperties_extends props c : extends props.*1 c (fillProperties props c).
Proof.
  apply (foldl_extends fst). intros c' x.
  destruct (truthy (assoc x.1 c')) eqn:E; [by apply extends_here|by apply extends_set].
Qed.

(** What the pages complete of a provider that exists. *)
Definition genericKeys (synchronizable : bool) (props : list property) : list string :=
  (if synchronizable then syncDefaults.*1 else []) ++ ["enabled"] ++ cacheDefaults.*1 ++ ["priority"] ++ props.*1.

Definition ldapKeys (props : list property) : list string :=
  ["fullSyncPeriod"] ++ ["enabled"] ++ ["changedSyncPeriod"] ++ cacheDefaults.*1 ++ ["priority"] ++ ["importEnabled"] ++ props.*1.

Lemma genericEdit_extends synchronizable props c :
  extends (genericKeys synchronizable props) c (config (genericEdit synchronizable props c)).
Proof.
  unfold genericEdit, genericKeys. cbn [config]. eapply settings_extends_trans.
  { instantiate (1 := if synchronizable then foldl fill c syncDefaults else c).
    destruct synchronizable; [apply fills_extend|apply extends_nil]. }
  eapply settings_extends_trans; [apply (fill_extends _ ("enabled", "true"))|].
  eapply settings_extends_trans; [apply (fills_extend cacheDefaults)|].
  eapply settings_extends_trans; [apply (fill_extends _ ("priority", "0"))|]. apply fillEmpty_extends.
Qed.

Lemma ldapEdit_extends props c s : ldapEdit props c = Returns s → extends (ldapKeys props) c (config s).
Proof.
  unfold ldapEdit, ldapKeys, withVendor. case_match; [done|]. intros [= <-]. cbn [config].
  eapply settings_extends_trans; [apply (fill_extends _ ("fullSyncPeriod", "-1"))|].
  eapply settings_extends_trans; [apply (fill_extends _ ("enabled", "true"))|].
  eapply settings_extends_trans; [apply (fill_extends _ ("changedSyncPeriod", "-1"))|].
  eapply settings_extends_trans; [apply (fills_extend cacheDefaults)|].
  eapply settings_extends_trans; [apply (fill_extends _ ("priority", "0"))|].
  eapply settings_extends_trans; [apply (fill_extends _ ("importEnabled", "true"))|]. apply fillProperties_extends.
Qed.

(** A page of a provider that exists opens with every setting it shows, changes none that the
    provider has, and opens unchanged. *)
Theorem storage_page_complete synchronizable props c :
  extends (genericKeys synchronizable props) c (config (genericEdit synchronizable props c)) ∧
  changed (genericEdit synchronizable props c) = false ∧
  ∀ s, ldapEdit props c = Returns s → extends (ldapKeys props) c (config s) ∧ changed s = false.
Proof.
  split; [apply genericEdit_extends|]. split; [done|]. intros s Hs. split; [by apply ldapEdit_extends|].
  unfold ldapEdit, withVendor in Hs. by case_match; simplify_eq.
Qed.

(** ** Watches *)

Lemma setFirst_arr k v c l : assoc k c = Arr l → setFirst k v c = Returns (obj_set k (Arr (v :: tail l)) c).
Proof. intros H. unfold setFirst. by rewrite H. Qed.

(** The switches say whether the periods are positive. *)
Definition periodsAgree (s : storage) : Prop :=
  fullSyncEnabled s = isPositive (assoc "fullSyncPeriod" (config s)) ∧
  changedSyncEnabled s = isPositive (assoc "changedSyncPeriod" (config s)) ∧
  (∃ l, assoc "fullSyncPeriod" (config s) = Arr l) ∧ (∃ l, assoc "changedSyncPeriod" (config s) = Arr l).

Theorem sync_switches_agree s on :
  periodsAgree s →
  (∃ s', setFullSync on s = Returns s' ∧ fullSyncEnabled s' = on ∧ periodsAgree s') ∧
  (∃ s', setChangedSync on s = Returns s' ∧ changedSyncEnabled s' = on ∧ periodsAgree s').
Proof.
  intros (Hf & Hc & (lf & Hlf) & (lc & Hlc)). split.
  - unfold setFullSync. destruct (Bool.eqb on (fullSyncEnabled s)) eqn:E.
    + apply eqb_prop in E as ->. exists s. split; [done|]. split; [done|]. split_and!; eauto.
    + rewrite (setFirst_arr _ _ _ lf) by done. eexists. split; [done|]. split; [done|].
      unfold periodsAgree. simpl. rewrite !assoc_obj_set, !assoc_obj_set_ne by done.
      split_and!; [by destruct on|done|eauto|eauto].
  - unfold setChangedSync. destruct (Bool.eqb on (changedSyncEnabled s)) eqn:E.
    + apply eqb_prop in E as ->. exists s. split; [done|]. split; [done|]. split_and!; eauto.
    + rewrite (setFirst_arr _ _ _ lc) by done. eexists. split; [done|]. split; [done|].
      unfold periodsAgree. simpl. rewrite !assoc_obj_set, !assoc_obj_set_ne by done.
      split_and!; [done|by destruct on|eauto|eauto].
Qed.

(** A period of one's own does not come back with the switch. *)
Theorem sync_period_lost s p :
  assoc "fullSyncPeriod" (config s) = one (Str p) → fullSyncEnabled s = true →
  ∃ s', (setFullSync false s ≫= setFullSync true) = Returns s' ∧
    assoc "fullSyncPeriod" (config s') = one (Str "604800").
Proof.
  intros Hp He.
  assert (∃ s1, setFullSync false s = Returns s1 ∧ fullSyncEnabled s1 = false ∧
    assoc "fullSyncPeriod" (config s1) = one (Str "-1")) as (s1 & -> & He1 & Hp1).
  { unfold setFullSync. rewrite He. simpl. rewrite (setFirst_arr _ _ _ [Str p]) by done. eexists. split; [done|].
    split; [done|]. simpl. by rewrite assoc_obj_set. }
  unfold mbind, outcome_bind, setFullSync. rewrite He1. simpl. rewrite (setFirst_arr _ _ _ [Str "-1"]) by done.
  eexists. split; [done|]. simpl. by rewrite assoc_obj_set.
Qed.

Definition ldapArrays : list string :=
  ["usernameLDAPAttribute"; "userObjectClasses"; "rdnLDAPAttribute"; "uuidLDAPAttribute"].

(** Another vendor sets what depends on it, and once: the watch that runs because of it finds
    nothing to do, so the digest ends. *)
Theorem vendor_watch_settles s v rest :
  assoc "vendor" (config s) = Arr (Str v :: rest) → lastVendor s ≠ Str v →
  Forall (λ k, ∃ x l, assoc k (config s) = Arr (x :: l)) ldapArrays →
  ∃ s', watchInstance s = Returns s' ∧ lastVendor s' = Str v ∧
    first (assoc "usernameLDAPAttribute" (config s')) = Str (if String.eqb v "ad" then "cn" else "uid") ∧
    first (assoc "rdnLDAPAttribute" (config s')) = first (assoc "usernameLDAPAttribute" (config s')) ∧
    first (assoc "uuidLDAPAttribute" (config s')) = vendorToUUID (Str v) ∧
    (∀ k, k ∉ ldapArrays → assoc k (config s') = assoc k (config s)) ∧
    ∃ s'', watchInstance s' = Returns s'' ∧ config s'' = config s' ∧ lastVendor s'' = Str v.
Proof.
  intros Hv Hl HF. unfold ldapArrays in HF. rewrite !Forall_cons in HF.
  destruct HF as ((x1 & l1 & H1) & (x2 & l2 & H2) & (x3 & l3 & H3) & (x4 & l4 & H4) & _).
  assert (equals (Str v) (lastVendor s) = false) as Hne.
  { destruct (lastVendor s); try done. cbn [equals strict_eq]. apply String.eqb_neq. congruence. }
  unfold watchInstance at 1. rewrite Hv. cbn [first]. rewrite Hne. unfold vendorSettings.
  assert (strict_eq (Str v) (Str "ad") = String.eqb v "ad") as -> by done.
  rewrite (setFirst_arr _ _ _ (x1 :: l1)) by done. cbn [mbind outcome_bind].
  rewrite (setFirst_arr _ _ _ (x2 :: l2)) by (by rewrite assoc_obj_set_ne). cbn [mbind outcome_bind].
  rewrite (setFirst_arr _ _ _ (x3 :: l3)) by (by rewrite !assoc_obj_set_ne). cbn [mbind outcome_bind].
  rewrite (setFirst_arr _ _ _ (x4 :: l4)) by (by rewrite !assoc_obj_set_ne). cbn [mbind outcome_bind].
  eexists. split; [done|]. cbn [config lastVendor tail]. split; [done|].
  repeat first [rewrite assoc_obj_set | rewrite assoc_obj_set_ne by done]. split; [done|]. split; [done|].
  split; [done|]. split.
  - intros k Hk. unfold ldapArrays in Hk. rewrite !not_elem_of_cons in Hk. destruct_and!.
    by rewrite !assoc_obj_set_ne by done.
  - unfold watchInstance. cbn [config lastVendor]. rewrite !assoc_obj_set_ne, Hv by done. cbn [first].
    rewrite (equals_refl (Str v)) by done. by eexists.
Qed.

(** The page of a provider that exists keeps what was set by hand for its vendor. *)
Theorem open_keeps_vendor_settings props c s :
  ldapEdit props c = Returns s → (∃ v, first (assoc "vendor" (config s)) = Str v) →
  ∃ s', watchInstance s = Returns s' ∧ config s' = config s.
Proof.
  unfold ldapEdit, withVendor. case_match; [done|]. intros [= <-] (v & Hv). unfold watchInstance.
  cbn [config lastVendor] in *. rewrite Hv, (equals_refl (Str v)) by done. by eexists.
Qed.

(** The size of a batch is saved as a number other than zero, whatever was typed. *)
Theorem batch_size_saved s x :
  assoc "batchSizeForSync" (config s) = one (Str x) →
  ∃ n, n ≠ 0%Z ∧ assoc "batchSizeForSync" (saveLdap s) = one (Str (Z_to_string n)) ∧
    (parseInt (Str x) = Num n ∨ n = 1000%Z).
Proof.
  intros Hb. unfold saveLdap. rewrite Hb. cbn [one truthy negb orb first].
  destruct (truthy (parseInt (Str x))) eqn:Ht; cbn [negb].
  - change (parseInt (one (Str x))) with (parseInt (Str x)).
    destruct (parseInt (Str x)) as [| | |n| | | |] eqn:Hp; try (by unfold parseInt, of_number in Hp; case_match).
    exists n. split; [by intros ->|]. rewrite (setFirst_arr _ _ _ [Str x]) by done.
    rewrite assoc_obj_set. split; [done|by left].
  - exists 1000%Z. split; [done|]. rewrite assoc_obj_set. split; [done|by right].
Qed.

(** ** The tree of groups *)

Lemma group_ind' (P : group → Prop) :
  (∀ id path subs, Forall P subs → P (Group id path subs)) → ∀ g, P g.
Proof.
  intros H. fix IH 1. intros [id path subs]. apply H.
  induction subs as [|x l IHl]; constructor; [apply IH | exact IHl].
Qed.

(** The paths of the groups of a tree, and of those at and below a path. *)
Fixpoint pathsOf (g : group) : list string :=
  match g with Group _ p subs => p :: flat_map pathsOf subs end.

Fixpoint below (m : string) (g : group) : list string :=
  if String.eqb m (g_path g) then pathsOf g else match g with Group _ _ subs => flat_map (below m) subs end.

Definition paths (l : list group) : list string := flat_map pathsOf l.
Definition allBelow (m : string) (l : list group) : list string := flat_map (below m) l.

Lemma removeIn_eq m id path subs : removeIn m (Group id path subs) = Group id path (removeGroupMember subs m).
Proof. simpl. f_equal. induction subs as [|x l IH]; [done|]. simpl. by rewrite IH. Qed.

Lemma paths_cons x l : paths (x :: l) = pathsOf x ++ paths l.
Proof. done. Qed.

Lemma allBelow_none m l : Forall (λ g, m ∉ pathsOf g → below m g = []) l → m ∉ paths l → allBelow m l = [].
Proof.
  induction 1 as [|x l Hx HF IH]; [done|]. rewrite paths_cons, not_elem_of_app. intros [Hm Hm'].
  simpl. by rewrite Hx, IH.
Qed.

Lemma below_none m g : m ∉ pathsOf g → below m g = [].
Proof.
  induction g as [id path subs IH] using group_ind'. cbn [pathsOf below g_path]. intros [Hne Hm]%not_elem_of_cons.
  destruct (String.eqb_spec m path); [done|]. by apply allBelow_none.
Qed.

Lemma remove_paths m l :
  Forall (λ g, NoDup (pathsOf g) → m ≠ g_path g → pathsOf g ≡ₚ pathsOf (removeIn m g) ++ below m g) l →
  NoDup (paths l) → paths l ≡ₚ paths (removeGroupMember l m) ++ allBelow m l.
Proof.
  induction 1 as [|x l Hx HF IH]; [done|]. rewrite paths_cons. intros (Hxn & Hd & Hl)%NoDup_app.
  simpl. destruct (String.eqb_spec m (g_path x)) as [->|Hne].
  - assert (below (g_path x) x = pathsOf x) as -> by (destruct x; simpl; by rewrite String.eqb_refl).
    rewrite (allBelow_none (g_path x) l), (right_id_L [] (++)); [apply Permutation_app_comm| |].
    + apply Forall_forall. intros g _. apply below_none.
    + apply Hd. destruct x; simpl; set_solver.
  - rewrite paths_cons. unfold allBelow in *. rewrite (Hx Hxn Hne) at 1. rewrite (IH Hl) at 1.
    rewrite <- !(assoc_L (++)). f_equiv. rewrite !(assoc_L (++)). f_equiv. apply Permutation_app_comm.
Qed.

Lemma removeIn_paths m g :
  NoDup (pathsOf g) → m ≠ g_path g → pathsOf g ≡ₚ pathsOf (removeIn m g) ++ below m g.
Proof.
  induction g as [id path subs IH] using group_ind'. intros [Hp Hn]%NoDup_cons Hne.
  rewrite removeIn_eq. cbn [pathsOf below g_path] in *. destruct (String.eqb_spec m path); [done|].
  simpl. constructor. by apply remove_paths.
Qed.

(** Taking a group from the tree takes the groups below it too, and nothing else. *)
Lemma removeGroupMember_paths groups m :
  NoDup (paths groups) → paths groups ≡ₚ paths (removeGroupMember groups m) ++ allBelow m groups.
Proof. apply remove_paths, Forall_forall. intros g _. apply removeIn_paths. Qed.

Lemma below_self m g : m ∈ pathsOf g → m ∈ below m g.
Proof.
  induction g as [id path subs IH] using group_ind'. cbn [pathsOf below g_path].
  destruct (String.eqb_spec m path) as [->|Hne]; [intros _; set_solver|].
  intros [?|Hm]%elem_of_cons; [done|]. induction IH as [|x l Hx _ IHl]; [by apply not_elem_of_nil in Hm|].
  cbn [flat_map] in *. apply elem_of_app in Hm as [Hm|Hm]; apply elem_of_app; auto.
Qed.

Lemma allBelow_self m l : m ∈ paths l → m ∈ allBelow m l.
Proof.
  induction l as [|x l IH]; [done|]. rewrite paths_cons. simpl.
  rewrite !elem_of_app. intros [?|?]; [left; by apply below_self|right; by apply IH].
Qed.

Lemma removeGroupMember_NoDup groups m :
  NoDup (paths groups) → NoDup (paths (removeGroupMember groups m)) ∧
  paths (removeGroupMember groups m) ⊆ paths groups ∧ paths (removeGroupMember groups m) ## allBelow m groups.
Proof.
  intros HN. pose proof (removeGroupMember_paths groups m HN) as HP. rewrite HP in HN.
  apply NoDup_app in HN as (HN & HD & _). split; [done|]. split; [|done].
  intros q Hq. rewrite HP. by apply elem_of_app; left.
Qed.

Lemma joinable_none groups memberships m :
  NoDup (paths groups) → m ∈ memberships → m ∉ paths (joinable groups memberships).
Proof.
  intros HN Hm. unfold joinable. revert groups HN.
  assert (∀ ms gs, NoDup (paths gs) → paths (foldl removeGroupMember gs ms) ⊆ paths gs) as Hsub.
  { induction ms as [|x ms IH]; intros gs Hgs; [done|]. simpl.
    destruct (removeGroupMember_NoDup gs x Hgs) as (Hgs' & Hs & _). etrans; [by apply IH|done]. }
  induction memberships as [|x ms IH]; intros gs Hgs; [by apply not_elem_of_nil in Hm|]. simpl.
  destruct (removeGroupMember_NoDup gs x Hgs) as (Hgs' & Hs & HD).
  apply elem_of_cons in Hm as [->|Hm]; [|by apply IH]. intros Hin%Hsub; [|done].
  apply (HD x Hin), allBelow_self, Hs, Hin.
Qed.

(** C36: The tree that offers groups to join: taking out a group the user is in takes out the groups
    below it and nothing else, and when all are taken out none the user is in is left. *)
Theorem group_tree_spec groups memberships :
  NoDup (paths groups) →
  (∀ m, paths groups ≡ₚ paths (removeGroupMember groups m) ++ allBelow m groups) ∧
  (∀ m, m ∈ memberships → m ∉ paths (joinable groups memberships)).
Proof.
  intros HN. split; [intros m; by apply removeGroupMember_paths|]. intros m Hm. by apply joinable_none.
Qed.

(** Groups below one the user is in cannot be joined, whether or not the user is in them. *)
Theorem subgroups_not_joinable groups m q :
  NoDup (paths groups) → q ∈ allBelow m groups → q ∉ paths (joinable groups [m]).
Proof. intros HN Hq Hin. destruct (removeGroupMember_NoDup groups m HN) as (_ & _ & HD). by apply (HD q). Qed.

End UserStorage.
