(* ===== verification/AdminShared.v ===== *)
(** Services the pages of the admin console share (services.js): the dialogs of [Dialog] and
    [CopyDialog] and [ServerInfo], with the order of [listProviderIds]; and the list of groups
    (groups.js), whose answers may overtake each other. *)

From Stdlib Require Import Sorted.
From stdpp Require Import sorting.
From S2P Require Import Prelude JsString Uri JsValue JsText ClientForms.
Import JsString Uri JsValue JsText.

Module AdminShared.

(** ** Dialogs *)

(** The text of a node, as [innerHTML] has it. *)
Fixpoint escapeHtml (s : string) : string :=
  match s with
  | "" => ""
  | String a s =>
      (if Ascii.eqb a "&" then "&amp;" else if Ascii.eqb a "<" then "&lt;"
       else if Ascii.eqb a ">" then "&gt;" else String a "") +:+ escapeHtml s
  end.

(** [c.toUpperCase()], of a letter of ASCII. *)
Definition upper (a : ascii) : ascii :=
  let n := nat_of_ascii a in if (97 <=? n) && (n <=? 122) then ascii_of_nat (n - 32) else a.

Definition capitalized (s : string) : string := match s with "" => "" | String a s => String (upper a) s end.

(** A dialog: its title, its message and the labels of its buttons. *)
Record dialog := mkDialog { title : string; message : string; labels : list string }.

Definition confirmDelete (name type : string) : dialog :=
  mkDialog ("Delete " +:+ escapeHtml (capitalized type))
    ("Are you sure you want to permanently delete the " +:+ type +:+ " " +:+ name +:+ "?") ["Delete"; "Cancel"].

Definition confirmGenerateKeys (name : string) : dialog :=
  mkDialog "Generate new keys for realm"
    ("Are you sure you want to permanently generate new keys for " +:+ name +:+ "?") ["Generate Keys"; "Cancel"].

Definition confirm (t m : string) : dialog := mkDialog t m [t; "Cancel"].

Definition dialogMessage (t m : string) : dialog := mkDialog t m ["Ok"].

(** [CopyDialog.open]: the name that is suggested. *)
Definition suggestedName (suggested : string) : string := "Copy of " +:+ suggested.

(** ** ServerInfo *)

(** A provider of an SPI: its identifier and its order. *)
Abbreviation provider := (string * Z)%type.

Record serverInfo := mkServerInfo { providers : list (string * list provider); disabledFeatures : list string }.

(** [info] is one object, empty until the first answer; the promise resolves with that answer. *)
Record infoState := mkInfo { info : option serverInfo; resolved : bool }.

Definition noInfo : infoState := mkInfo None false.

(** [copyInfo], with the answer to the first request or to [reload]. *)
Definition copyInfo (data : serverInfo) (first : bool) (s : infoState) : infoState :=
  mkInfo (Some data) (first || resolved s).

(** The function that compares: -1, 1 or 0. *)
Definition compareIds (a b : provider) : Z :=
  if (a.2 =? b.2)%Z then
    match String.compare a.1 b.1 with Lt => -1 | Gt => 1 | Eq => 0 end
  else if (b.2 <? a.2)%Z then -1 else if (a.2 <? b.2)%Z then 1 else 0.

Definition before (a b : provider) : Prop := (compareIds a b ≤ 0)%Z.

#[global] Instance before_dec : RelDecision before := λ a b, Z_le_dec _ _.

(** [ids.sort(...)], which leaves the identifiers in an order the function agrees with. *)
Definition sortProviders (l : list provider) : list provider := merge_sort before l.

Definition listProviderIds (spi : string) (s : infoState) : outcome (list string) :=
  match info s with
  | None => Throws TypeError
  | Some i =>
      match list_find (λ p, p.1 = spi) (providers i) with
      | Some (_, (_, l)) => Returns (sortProviders l).*1
      | None => Throws TypeError
      end
  end.

Definition featureEnabled (feature : string) (s : infoState) : outcome bool :=
  match info s with
  | None => Throws TypeError
  | Some i => Returns (negb (bool_decide (feature ∈ disabledFeatures i)))
  end.

(** ** The list of groups *)

(** A query is its search and its first group; [shown] is the query whose answer the list is of. *)
Abbreviation query := (string * Z)%type.

Record groupList := mkGroupList {
  searchTerms : string;
  currentPage : Z;
  shown : option query;
  waiting : list query
}.

Definition pageSize : Z := 20.

Definition refreshGroups (search : string) (g : groupList) : groupList :=
  mkGroupList (searchTerms g) (currentPage g) (shown g)
    (waiting g ++ [(search, currentPage g * pageSize - pageSize)%Z]).

(** The watch of [currentPage]. *)
Definition setPage (n : Z) (g : groupList) : groupList :=
  let g' := mkGroupList (searchTerms g) n (shown g) (waiting g) in
  if (n =? currentPage g)%Z then g' else refreshGroups (searchTerms g) g'.

Definition openGroups : groupList := refreshGroups "" (mkGroupList "" 1 None []).

Definition typeSearch (t : string) (g : groupList) : groupList :=
  mkGroupList t (currentPage g) (shown g) (waiting g).

(** [searchGroup] and [clearSearch] refresh the list before the watch does so once more. *)
Definition searchGroup (g : groupList) : groupList :=
  let g' := refreshGroups (searchTerms g) (mkGroupList (searchTerms g) 1 (shown g) (waiting g)) in
  if (currentPage g =? 1)%Z then g' else refreshGroups (searchTerms g) g'.

Definition clearSearch (g : groupList) : groupList :=
  let g' := refreshGroups "" (mkGroupList "" 1 (shown g) (waiting g)) in
  if (currentPage g =? 1)%Z then g' else refreshGroups "" g'.

(** The answer to the query at [index]. *)
Definition onGroups (index : nat) (g : groupList) : groupList :=
  match waiting g !! index with
  | Some q => mkGroupList (searchTerms g) (currentPage g) (Some q) (delete index (waiting g))
  | None => g
  end.

(** [Math.ceil(groupsCount.count / $scope.pageSize)] *)
Definition numberOfPages (count : Z) : Z := ((count + (pageSize - 1)) / pageSize)%Z.

(** [isDisabled] of the buttons, and where [edit] goes. *)
Definition isDisabled (currentNode : option string) : bool :=
  match currentNode with None => true | Some id => String.eqb id "realm" end.

Definition editGroup (realm id : string) : option string :=
  if String.eqb id "realm" then None else Some ("/realms/" +:+ realm +:+ "/groups/" +:+ id).

(** [GroupCreateCtrl.save]: the parent whose child [GroupChildren.save] makes of the group, or
    none when [Groups.save] makes it a group of the realm; and where the answer leads. *)
Definition createdUnder (parentId : string) : option string :=
  if String.eqb parentId "realm" then None else Some parentId.

Definition onGroupCreated (realm location : string) : string :=
  "/realms/" +:+ realm +:+ "/groups/" +:+ ClientForms.createdId location.

(** ** What the dialogs show *)

Theorem escapeHtml_safe s : occurs "<" (escapeHtml s) = false ∧ occurs ">" (escapeHtml s) = false.
Proof.
  induction s as [|a s [IH1 IH2]]; [done|]. cbn [escapeHtml]. rewrite !occurs_app, IH1, IH2.
  destruct (Ascii.eqb a "&"); [done|]. destruct (Ascii.eqb_spec a "<") as [|Hl]; [done|].
  destruct (Ascii.eqb_spec a ">") as [|Hg]; [done|]. simpl. rewrite !orb_false_r.
  split; by apply Ascii.eqb_neq.
Qed.

(** ** The order of the providers *)

Lemma before_spec a b :
  before a b ↔ (b.2 < a.2)%Z ∨ a.2 = b.2 ∧ String.le a.1 b.1.
Proof.
  unfold before, compareIds. destruct (Z.eqb_spec a.2 b.2) as [E|E].
  - unfold String.le, String.leb. rewrite Is_true_true.
    destruct (String.compare a.1 b.1); split; try done; try lia; intros [?|[_ ?]]; lia || done.
  - destruct (Z.ltb_spec b.2 a.2), (Z.ltb_spec a.2 b.2); split; lia || (intros [?|[? _]]; lia).
Qed.

#[global] Instance before_trans : Transitive before.
Proof.
  intros a b c. rewrite !before_spec. intros [H1|[H1 H1']] [H2|[H2 H2']]; try (left; lia).
  right. split; [congruence|]. by etrans.
Qed.

#[global] Instance before_total : Total before.
Proof.
  intros a b. rewrite !before_spec. destruct (Z.lt_total a.2 b.2) as [?|[?|?]]; [auto| |auto].
  destruct (total String.le a.1 b.1); auto.
Qed.

#[global] Instance before_antisym : AntiSymm (=) before.
Proof.
  intros [a n] [b m]. rewrite !before_spec. simpl. intros [H1|[H1 H1']] [H2|[H2 H2']]; try lia.
  f_equal; [|done]. by apply (anti_symm String.le).
Qed.

(** The providers are listed by descending order and then by name, and every way of sorting by
    the function gives this list. *)
Theorem listProviderIds_spec spi l s i :
  info s = Some i → list_find (λ p, p.1 = spi) (providers i) = Some (0, (spi, l)) →
  ∃ ids, listProviderIds spi s = Returns ids.*1 ∧ ids ≡ₚ l ∧ StronglySorted before ids ∧
    ∀ ids', ids' ≡ₚ l → Sorted before ids' → ids' = ids.
Proof.
  intros Hi Hl. exists (sortProviders l). unfold listProviderIds, sortProviders. rewrite Hi, Hl. split; [done|].
  split; [apply merge_sort_Permutation|]. split; [apply StronglySorted_merge_sort; apply _|].
  intros ids' Hp Hs. eapply (Sorted_unique before); [done|apply Sorted_merge_sort; apply _|].
  rewrite Hp. symmetry. apply merge_sort_Permutation.
Qed.

(** The functions are there once the promise has resolved, and stay. *)
Theorem info_ready (datas : list serverInfo) d s :
  resolved (foldl (λ s d, copyInfo d false s) (copyInfo d true s) datas) = true ∧
  ∃ i, info (foldl (λ s d, copyInfo d false s) (copyInfo d true s) datas) = Some i ∧ i = List.last datas d.
Proof.
  induction datas as [|x l IH] using rev_ind; [by split; eauto|]. rewrite foldl_app. simpl.
  destruct IH as [IH _]. rewrite IH. split; [done|]. eexists. split; [done|]. by rewrite last_last.
Qed.

(** ** Answers that overtake each other *)

Inductive groupStep : groupList → groupList → Prop :=
  | group_page n g : groupStep g (setPage n g)
  | group_type t g : groupStep g (typeSearch t g)
  | group_search g : groupStep g (searchGroup g)
  | group_clear g : groupStep g (clearSearch g)
  | group_answer g : groupStep g (onGroups 0 g).

(** The last query is for the page that is shown. *)
Definition asksForPage (g : groupList) : Prop :=
  ∃ search, List.last (Some <$> waiting g) (shown g) = Some (search, currentPage g * pageSize - pageSize)%Z.

Lemma last_snoc_some {A} (l : list A) x d : List.last (Some <$> (l ++ [x])) d = Some x.
Proof. rewrite fmap_app. simpl. by rewrite last_last. Qed.

Lemma groupStep_asks g g' : groupStep g g' → asksForPage g → asksForPage g'.
Proof.
  unfold asksForPage. intros Hs [q Hq]. destruct Hs as [n g|t g|g|g|g].
  - unfold setPage. destruct (Z.eqb_spec n (currentPage g)) as [->|]; [by exists q|].
    eexists. simpl. by rewrite last_snoc_some.
  - by exists q.
  - unfold searchGroup. destruct (currentPage g =? 1)%Z; eexists; simpl; by rewrite last_snoc_some.
  - unfold clearSearch. destruct (currentPage g =? 1)%Z; eexists; simpl; by rewrite last_snoc_some.
  - exists q. unfold onGroups. destruct (waiting g) as [|x l] eqn:E; [simpl; by rewrite E|]. simpl in *. rewrite <- Hq.
    destruct l as [|y l]; [done|]. clear. revert y. induction l; intros; [done|]. simpl in *. auto.
Qed.

(** When the answers come in the order of the queries, the list ends up with the page that is
    current. *)
Theorem groups_in_order g :
  rtc groupStep openGroups g → waiting g = [] →
  ∃ search, shown g = Some (search, currentPage g * pageSize - pageSize)%Z.
Proof.
  intros Hs Hw. assert (asksForPage g) as [q Hq].
  { assert (asksForPage openGroups) as H0 by (by eexists). revert H0.
    induction Hs as [|x y z Hxy _ IH]; [done|]. intros H0. by apply IH, (groupStep_asks x). }
  exists q. by rewrite Hw in Hq.
Qed.

(** When they do not, it does not: nothing tells which query an answer is for. *)
Theorem groups_overtaken :
  let g := onGroups 0 (onGroups 1 (setPage 2 openGroups)) in
  waiting g = [] ∧ currentPage g = 2%Z ∧ shown g = Some ("", 0%Z).
Proof. done. Qed.

(** Every group is on one of the pages. *)
Theorem group_pages_cover count i :
  (0 ≤ i < count)%Z →
  ∃ n, (1 ≤ n ≤ numberOfPages count)%Z ∧ (n * pageSize - pageSize ≤ i < n * pageSize)%Z.
Proof.
  intros Hi. exists (i / pageSize + 1)%Z. unfold numberOfPages, pageSize.
  pose proof (Z.div_mod i 20). pose proof (Z.mod_pos_bound i 20).
  pose proof (Z.div_mod (count + 19) 20). pose proof (Z.mod_pos_bound (count + 19) 20). 
  replace (20 - 1)%Z with 19%Z by lia. lia.
Qed.

(** A group created goes to its page, from the location the server answers with. *)
Theorem created_group_page realm server id :
  find_last "/" id = None →
  onGroupCreated realm (server +:+ "/" +:+ id) = "/realms/" +:+ realm +:+ "/groups/" +:+ id.
Proof. intros Hid. unfold onGroupCreated. by rewrite ClientForms.createdId_spec. Qed.

End AdminShared.
