(* ===== verification/IdentityProviders.v ===== *)
(** The identity providers of a realm (realm.js): [RealmIdentityProviderCtrl], which shows the
    list of providers, creates one and edits one, with its imports and its watches;
    [RealmIdentityProviderExportCtrl]; and the pages of the mappers, whose form is the one the
    configuration of an execution has too. *)

From S2P Require Import Prelude JsString Uri JsValue JsText AngularEquals AdminServices AdminRoutes AuthzRoutes RealmLists ClientForms AdminShared.
Import JsString Uri JsValue JsText AngularEquals.

Module IdentityProviders.

Abbreviation object := (list (string * jsval)).

(** ** Opening the page *)

(** The scope, with the resolved [instance] it is compared to. *)
Record page := mkPage {
  instance : object;
  identityProvider : object;
  newIdentityProvider : bool;
  changed : bool;
  fromUrl : string;                 (* fromUrl.data *)
  importUrl : bool;
  importFile : bool;
  files : option (list string)      (* null once a file is imported *)
}.

Definition eta_page (p : page) : page :=
  mkPage (instance p) (identityProvider p) (newIdentityProvider p) (changed p) (fromUrl p) (importUrl p)
    (importFile p) (files p).

#[global] Instance set_identityProvider : Field identityProvider := ltac:(mk_field eta_page identityProvider).
#[global] Instance set_changed : Field changed := ltac:(mk_field eta_page changed).

(** The provider of an instance, by the loop without [break]: the last that fits. *)
Definition providerOf {A} (id : A → string) (providerId : string) (ps : list A) : option A :=
  foldl (λ found p, if String.eqb (id p) providerId then Some p else found) None ps.

(** A provider to create, from the identifier of its factory, [undefined] on the page of the
    list. *)
Definition newProvider (factory : jsval) : object :=
  [("config", Obj [("useJwksUrl", Str "true")]); ("alias", factory); ("providerId", factory);
   ("enabled", Bool true); ("authenticateByDefault", Bool false);
   ("firstBrokerLoginFlowAlias", Str "first broker login")].

(** The flows offered, and those after a login: first the empty one. *)
Definition authFlows (flows : list RealmLists.flow) : list RealmLists.flow :=
  filter (λ f, RealmLists.f_provider f = "basic-flow") flows.

Definition postBrokerAuthFlows (flows : list RealmLists.flow) : list string :=
  "" :: (RealmLists.f_alias <$> authFlows flows).

Definition postBroker : string := "postBrokerLoginFlowAlias".

Definition defaultPostBroker (o : object) : object :=
  if truthy (assoc postBroker o) then o else obj_set postBroker (Str "") o.

Definition hasAlias (o : object) : bool := truthy (assoc "alias" o).

Definition openPage (factory : jsval) (inst : object) : page :=
  mkPage inst (defaultPostBroker (if hasAlias inst then inst else newProvider factory))
    (negb (hasAlias inst)) (negb (hasAlias inst)) "" false false (Some []).

(** The deep watch of [identityProvider], which runs in the first digest and after every
    change. *)
Definition watchProvider (p : page) : page :=
  if equals (Obj (identityProvider p)) (Obj (instance p)) then p else p <| changed := true |>.

(** ** The configuration *)

(** [config[k] = v] for the entries of [data], in their order. *)
Definition merge (data config : object) : object := foldl (λ c kv, obj_set kv.1 kv.2 c) config data.

(** [setConfig]: to write to [undefined] throws, and nothing is written without entries. *)
Definition setConfig (data o : object) : outcome object :=
  match data, assoc "config" o with
  | [], _ => Returns o
  | _, Obj c => Returns (obj_set "config" (Obj (merge data c)) o)
  | _, (Undefined | Null) => Throws TypeError
  | _, _ => Returns o
  end.

(** [initSamlProvider], which the page of SAML calls before its first digest. *)
Definition nameIdFormats : list (string * string) :=
  [("urn:oasis:names:tc:SAML:2.0:nameid-format:persistent", "Persistent");
   ("urn:oasis:names:tc:SAML:1.1:nameid-format:emailAddress", "Email");
   ("urn:oasis:names:tc:SAML:2.0:nameid-format:kerberos", "Kerberos");
   ("urn:oasis:names:tc:SAML:1.1:nameid-format:X509SubjectName", "X.509 Subject Name");
   ("urn:oasis:names:tc:SAML:1.1:nameid-format:WindowsDomainQualifiedName", "Windows Domain Qualified Name");
   ("urn:oasis:names:tc:SAML:1.1:nameid-format:unspecified", "Unspecified")].

Definition signatureAlgorithms : list string := ["RSA_SHA1"; "RSA_SHA256"; "RSA_SHA512"; "DSA_SHA1"].

Definition xmlKeyNameTranformers : list string := ["NONE"; "KEY_ID"; "CERT_SUBJECT"].

Definition nth_str (l : list string) (i : nat) : jsval := from_option Str Undefined (l !! i).

Definition initSamlProvider (p : page) : outcome page :=
  if hasAlias (instance p) then Returns p
  else o ← setConfig [("nameIDPolicyFormat", nth_str nameIdFormats.*1 0);
                      ("signatureAlgorithm", nth_str signatureAlgorithms 1);
                      ("samlXmlKeyNameTranformer", nth_str xmlKeyNameTranformers 1)] (identityProvider p);
       Returns (p <| identityProvider := o |>).

(** ** Imports *)

Definition withImport (url : string) (iu ifl : bool) (fs : option (list string)) (p : page) : page :=
  mkPage (instance p) (identityProvider p) (newIdentityProvider p) (changed p) url iu ifl fs.

Definition onFileSelect (fs : list string) (p : page) : page :=
  withImport (fromUrl p) (importUrl p) true (Some fs) p.

Definition clearFileSelect (p : page) : page := withImport (fromUrl p) false false None p.

(** A text for the URL, with the watch that follows when it is another one. *)
Definition typeUrl (s : string) (p : page) : page :=
  if String.eqb s (fromUrl p) then p
  else withImport s (negb (String.eqb s "")) (importFile p) (files p) p.

Inductive notification := Success (message : string) | Error (message : string).

(** What a button does: an error shown, or requests, each with its body. *)
Inductive action := Refused (message : string) | Requests (l : list (string * object)).

Definition importConfigUrl (authUrl realm : string) : string :=
  authUrl +:+ "/admin/realms/" +:+ realm +:+ "/identity-provider/import-config".

Definition noAlias : string := "You must specify an alias".

Definition uploadFile (authUrl realm : string) (factory : jsval) (p : page) : outcome action :=
  if negb (hasAlias (identityProvider p)) then Returns (Refused noAlias)
  else match files p with
       | None => Throws TypeError
       | Some fs =>
           Returns (Requests ((λ f, (importConfigUrl authUrl realm, [("providerId", factory); ("file", Str f)])) <$> fs))
       end.

Definition importFrom (authUrl realm : string) (factory : jsval) (p : page) : action :=
  if negb (hasAlias (identityProvider p)) then Refused noAlias
  else Requests [(importConfigUrl authUrl realm, [("fromUrl", Str (fromUrl p)); ("providerId", factory)])].

(** The answers, with the watch of the digest that follows; an exception in the callback of
    [then] goes to that of [catch]. *)
Definition onUploaded (data : object) (p : page) : page * notification :=
  match setConfig data (identityProvider p) with
  | Returns o =>
      (watchProvider (clearFileSelect (p <| identityProvider := o |>)),
       Success "The IDP metadata has been loaded from file.")
  | Throws _ => (p, Error "The file can not be uploaded. Please verify the file.")
  end.

Definition onImported (data : object) (p : page) : page * notification :=
  match setConfig data (identityProvider p) with
  | Returns o =>
      (watchProvider (withImport "" false (importFile p) (files p) (p <| identityProvider := o |>)),
       Success "Imported config information from url.")
  | Throws _ => (p, Error "Config can not be imported. Please verify the url.")
  end.

(** An edit of a field of the form, with the watch. *)
Definition editField (k : string) (v : jsval) (p : page) : page :=
  watchProvider (p <| identityProvider ::= obj_set k v |>).

(** ** The list of providers *)

Record configured := mkConfigured { c_alias : string; c_displayName : string; c_providerId : string; c_provider : option RealmLists.provider }.

#[global] Instance provider_eq_dec : EqDecision RealmLists.provider.
Proof. solve_decision. Defined.
#[global] Instance configured_eq_dec : EqDecision configured.
Proof. solve_decision. Defined.

(** The listener: the provider of each instance, where one is offered. *)
Definition attach (all : list RealmLists.provider) (c : configured) : configured :=
  match providerOf RealmLists.pr_id (c_providerId c) all with
  | Some p => mkConfigured (c_alias c) (c_displayName c) (c_providerId c) (Some p)
  | None => c
  end.

(** The deep watch of [configuredProviders] in a digest, with the value it last saw; [None] is
    AngularJS giving up. *)
Fixpoint configuredDigest (ttl : nat) (all : list RealmLists.provider) (last l : list configured)
    : option (list configured) :=
  if decide (l = last) then Some l
  else match ttl with
       | 0 => None
       | S ttl => configuredDigest ttl all l (attach all <$> l)
       end.

(** The list as the page first shows it: the providers offered are those left by
    [removeUsedSocial], and the watch has seen nothing yet. *)
Definition offered (all : list RealmLists.provider) (l : list configured) : list RealmLists.provider :=
  RealmLists.removeUsedSocial (Some (c_providerId <$> l)) all.

Definition shownProviders (all : list RealmLists.provider) (l : list configured) : option (list configured) :=
  configuredDigest 9 (offered all l) l (attach (offered all l) <$> l).

(** The name in a row of the list, from the name that a provider has. *)
Definition rowName (name : RealmLists.provider → string) (c : configured) : string :=
  if negb (String.eqb (c_displayName c) "") then c_displayName c
  else match c_provider c with
       | Some p => if String.eqb (RealmLists.pr_group p) "Social" then name p else c_alias c
       | None => c_alias c
       end.

(** ** The redirect URI *)

(** What [encodeURI] keeps: A-Z a-z 0-9 ; , / ? : @ & = + $ - _ . ! ~ * ' ( ) # *)
Definition uri_kept (a : ascii) : bool := uri_unreserved a || occurs a ";,/?:@&=+$#".

Definition encodeURI (s : string) : string := percent_encode uri_kept s.

(** [s.replace(/p.*/, r)], of a text that is one line. *)
Definition replaceTail (p r s : string) : string :=
  match find_s p s with Some i => take_s i s +:+ r | None => s end.

Definition callbackUrl (absUrl realm : string) : string :=
  encodeURI (replaceTail "/admin" "/realms/" absUrl +:+ realm +:+ "/broker/").

(** ** Saving and leaving *)

Inductive request :=
  | Save (realm alias : string) (body : object)
  | Update (realm : string) (alias : jsval) (body : object)
  | Remove (realm alias : string).

(** [save] up to its request. *)
Definition save (realm : string) (p : page) : string + request :=
  if newIdentityProvider p
  then if hasAlias (identityProvider p) then inr (Save realm "" (identityProvider p)) else inl noAlias
  else inr (Update realm (assoc "alias" (identityProvider p)) (identityProvider p)).

(** Where a page goes: to a URL, or the route is loaded again. *)
Inductive move := GoTo (url : string) | Reload.

Definition providerUrl (realm : string) (o : object) : string :=
  "/realms/" +:+ realm +:+ "/identity-provider-settings/provider/" +:+ to_string (assoc "providerId" o)
    +:+ "/" +:+ to_string (assoc "alias" o).

Definition onSaved (realm : string) (p : page) : move * string :=
  let alias := to_string (assoc "alias" (identityProvider p)) in
  if newIdentityProvider p
  then (GoTo (providerUrl realm (identityProvider p)), "The " +:+ alias +:+ " provider has been created.")
  else (Reload, "The " +:+ alias +:+ " provider has been updated.").

Definition addProviderUrl (realm id : string) : string := "/create/identity-provider/" +:+ realm +:+ "/" +:+ id.

Definition cancel (realm : string) (p : page) : move :=
  if newIdentityProvider p then GoTo ("/realms/" +:+ realm +:+ "/identity-provider-settings") else Reload.

(** [reset], which leaves no configuration behind. *)
Definition reset (p : page) : page := watchProvider (p <| identityProvider := [] |>).

(** The dialog and, once confirmed, the request. *)
Definition removeIdentityProvider (realm : string) (c : configured) : AdminShared.dialog * request :=
  (AdminShared.confirmDelete (c_alias c) "provider", Remove realm (c_alias c)).

(** ** The export *)

Definition exportName (contentType : string) : string :=
  "keycloak." +:+ (if String.eqb contentType "application/xml" then "xml"
                   else if String.eqb contentType "application/json" then "json" else "txt").

(** ** Mappers *)

(** The form of a mapper, which the configuration of an execution has too: what the form was
    opened with, what it shows, [changed], and the bodies of the requests without an answer. *)
Record editor := mkEditor { original : object; edited : object; e_changed : bool; sent : list object }.

Definition openEditor (o : object) : editor := mkEditor o o false [].

Definition watchEditor (e : editor) : editor :=
  mkEditor (original e) (edited e) (e_changed e || negb (equals (Obj (edited e)) (Obj (original e)))) (sent e).

Definition editTo (o : object) (e : editor) : editor :=
  watchEditor (mkEditor (original e) o (e_changed e) (sent e)).

Definition saveEditor (e : editor) : editor :=
  mkEditor (original e) (edited e) (e_changed e) (sent e ++ [edited e]).

(** The answer to the i-th of the requests, and the digest. *)
Definition onEditorSaved (i : nat) (e : editor) : editor :=
  watchEditor (mkEditor (edited e) (edited e) false (delete i (sent e))).

Definition resetEditor (e : editor) : editor := mkEditor (original e) (original e) false (sent e).

(** The parameters of the requests: [update] reads the provider of the page, [remove] the
    mapper. *)
Definition updateParams (realm : string) (provider mapper : object) : object :=
  [("realm", Str realm); ("alias", assoc "alias" provider); ("mapperId", assoc "id" mapper)].

Definition removeParams (realm : string) (mapper shown : object) : object :=
  [("realm", Str realm); ("alias", assoc "identityProviderAlias" mapper); ("mapperId", assoc "id" shown)].

Definition mappersUrl (realm alias : string) : string :=
  "/realms/" +:+ realm +:+ "/identity-provider-mappers/" +:+ alias +:+ "/mappers".

Definition mapperUrl (realm alias id : string) : string := mappersUrl realm alias +:+ "/" +:+ id.

(** A new mapper: the first of the types is chosen, and [save] reads its identifier. *)
Definition newMapper (alias : string) : object := [("identityProviderAlias", Str alias); ("config", Obj [])].

Definition firstType (types : list (string * object)) : option object := snd <$> head types.

Definition saveMapper (type : option object) (mapper : object) : outcome object :=
  match type with
  | Some t => Returns (obj_set "identityProviderMapper" (assoc "id" t) mapper)
  | None => Throws TypeError
  end.

Definition onMapperCreated (realm alias location : string) : string :=
  mapperUrl realm alias (ClientForms.createdId location).

(** ** What the page opens with *)

Lemma watchProvider_fields p :
  instance (watchProvider p) = instance p ∧ identityProvider (watchProvider p) = identityProvider p ∧
  importUrl (watchProvider p) = importUrl p ∧ fromUrl (watchProvider p) = fromUrl p ∧
  importFile (watchProvider p) = importFile p ∧ files (watchProvider p) = files p ∧
  newIdentityProvider (watchProvider p) = newIdentityProvider p.
Proof. unfold watchProvider. by destruct (equals _ _). Qed.

(** A provider that is there opens as changed exactly when it has no flow for after the login:
    the page gives it the empty one, and the resolved instance has none. *)
Theorem opens_changed factory inst :
  keys_once (Obj inst) = true → hasAlias inst = true →
  changed (watchProvider (openPage factory inst)) = true ↔
    truthy (assoc postBroker inst) = false ∧ assoc postBroker inst ≠ Str "".
Proof.
  intros Hk Ha. unfold openPage, watchProvider, defaultPostBroker. rewrite Ha. simpl.
  destruct (truthy (assoc postBroker inst)) eqn:Ht.
  - rewrite equals_refl by done. simpl. naive_solver.
  - apply keys_once_obj in Hk as Hk'. destruct Hk' as [_ Hn].
    destruct (equals (Obj (obj_set postBroker (Str "") inst)) (Obj inst)) eqn:E; simpl.
    + rewrite equals_obj in E by (by try apply obj_set_keys). specialize (E postBroker eq_refl).
      rewrite assoc_obj_set in E. split; [done|]. intros [_ []].
      destruct (assoc postBroker inst); try done. simpl in E. apply String.eqb_eq in E. by subst.
    + split; [|done]. intros _. split; [done|]. intros Hs. apply not_true_iff_false in E. apply E.
      apply equals_obj; [by apply obj_set_keys|done|]. intros k Hp.
      destruct (decide (k = postBroker)) as [->|Hne].
      * by rewrite assoc_obj_set, Hs.
      * rewrite assoc_obj_set_ne by done. apply equals_refl. by apply keys_once_assoc.
Qed.

(** ** Imports *)

Lemma merge_spec data c k :
  NoDup data.*1 → assoc k (merge data c) = if decide (k ∈ data.*1) then assoc k data else assoc k c.
Proof.
  unfold merge. revert c. induction data as [|[k' v] data IH]; intros c; [done|]. csimpl.
  intros [Hk Hd]%NoDup_cons. rewrite IH by done. destruct (String.eqb_spec k k') as [->|Hne].
  - rewrite decide_False by done. rewrite decide_True by (by left). apply assoc_obj_set.
  - rewrite assoc_obj_set_ne by done. destruct (decide (k ∈ data.*1)).
    + by rewrite decide_True by (by right).
    + rewrite decide_False; [done|]. set_solver.
Qed.

Lemma setConfig_spec data o c :
  assoc "config" o = Obj c →
  ∃ o', setConfig data o = Returns o' ∧ assoc "config" o' = Obj (merge data c) ∧
    ∀ k, k ≠ "config" → assoc k o' = assoc k o.
Proof.
  intros Hc. unfold setConfig. destruct data as [|d data]; [by exists o|]. rewrite Hc.
  eexists. split; [done|]. split; [apply assoc_obj_set|]. intros k Hk. by rewrite assoc_obj_set_ne.
Qed.

(** What is imported replaces the settings it names and leaves the others, those of an earlier
    import too: of two imports, a setting is that of the second where this one has it, then
    that of the first. *)
Theorem imports_accumulate first second p c :
  NoDup first.*1 → NoDup second.*1 → assoc "config" (identityProvider p) = Obj c →
  let p' := (onImported second (onUploaded first p).1).1 in
  ∃ c', assoc "config" (identityProvider p') = Obj c' ∧
    (∀ k, assoc k c' = if decide (k ∈ second.*1) then assoc k second
                       else if decide (k ∈ first.*1) then assoc k first else assoc k c) ∧
    ∀ k, k ≠ "config" → assoc k (identityProvider p') = assoc k (identityProvider p).
Proof.
  intros H1 H2 Hc. destruct (setConfig_spec first _ c Hc) as (o1 & E1 & Hc1 & Ho1).
  destruct (setConfig_spec second _ _ Hc1) as (o2 & E2 & Hc2 & Ho2). unfold onUploaded, onImported.
  rewrite E1. simpl. destruct (watchProvider_fields (clearFileSelect (p <| identityProvider := o1 |>))) as (_ & -> & _).
  simpl. rewrite E2. simpl.
  match goal with |- context [watchProvider ?q] => destruct (watchProvider_fields q) as (_ & -> & _) end. simpl.
  exists (merge second (merge first c)). split; [done|]. split.
  - intros k. by rewrite !merge_spec by done.
  - intros k Hk. by rewrite Ho2, Ho1.
Qed.

(** A new provider of SAML: the page of it gives the defaults, and keeps those of the page. *)
Theorem saml_defaults factory :
  ∃ p, initSamlProvider (openPage (Str factory) []) = Returns p ∧
    assoc "alias" (identityProvider p) = Str factory ∧ assoc postBroker (identityProvider p) = Str "" ∧
    assoc "config" (identityProvider p) =
      Obj [("useJwksUrl", Str "true");
           ("nameIDPolicyFormat", Str "urn:oasis:names:tc:SAML:2.0:nameid-format:persistent");
           ("signatureAlgorithm", Str "RSA_SHA256"); ("samlXmlKeyNameTranformer", Str "KEY_ID")].
Proof. by eexists. Qed.

(** *** The buttons *)

Inductive page_step (p : page) : page → Prop :=
  | step_select fs : page_step p (onFileSelect fs p)
  | step_type s : page_step p (typeUrl s p)
  | step_edit k v : page_step p (editField k v p)
  | step_uploaded data : page_step p (onUploaded data p).1
  | step_imported data : page_step p (onImported data p).1.

(** The button that uploads is shown only with files to upload, and the one that imports only
    with a URL. *)
Definition buttons_ok (p : page) : Prop :=
  (importFile p = true → is_Some (files p)) ∧ (importUrl p = true → fromUrl p ≠ "").

Lemma watchProvider_buttons p : buttons_ok p → buttons_ok (watchProvider p).
Proof. unfold buttons_ok. by destruct (watchProvider_fields p) as (_ & _ & -> & -> & -> & -> & _). Qed.

Lemma page_step_buttons p p' : page_step p p' → buttons_ok p → buttons_ok p'.
Proof.
  intros [fs|s|k v|data|data] [Hf Hu].
  - by split.
  - unfold typeUrl. destruct (String.eqb s (fromUrl p)); [done|]. split; [done|]. simpl.
    by intros ?%negb_true_iff%String.eqb_neq.
  - by apply watchProvider_buttons.
  - unfold onUploaded. destruct (setConfig _ _); [|done]. by apply watchProvider_buttons.
  - unfold onImported. destruct (setConfig _ _); [|done]. by apply watchProvider_buttons.
Qed.

(** Whatever is selected, typed, edited and imported: the button that is shown works, so the
    upload does not run over the files that [clearFileSelect] has set to null. *)
Theorem upload_safe factory inst p authUrl realm :
  rtc page_step (openPage factory inst) p → importFile p = true →
  ∃ a, uploadFile authUrl realm factory p = Returns a.
Proof.
  intros Hs Hi. assert (buttons_ok p) as [Hf _].
  { assert (buttons_ok (openPage factory inst)) as H by done. revert H. clear Hi.
    induction Hs as [|p1 p2 p3 H12 _ IH]; [done|]. intros H. apply IH. by eapply page_step_buttons. }
  destruct (Hf Hi) as [fs Hfs]. unfold uploadFile. rewrite Hfs. destruct (negb _); by eexists.
Qed.

(** After a file is imported the URL that was typed stays, and the button to import from it is
    gone until another one is typed. *)
Theorem upload_hides_import data p c s :
  assoc "config" (identityProvider p) = Obj c →
  let p' := (onUploaded data p).1 in
  fromUrl p' = fromUrl p ∧ importUrl p' = false ∧ importUrl (typeUrl (fromUrl p) p') = false ∧
  (s ≠ fromUrl p → importUrl (typeUrl s p') = negb (String.eqb s "")).
Proof.
  intros Hc. destruct (setConfig_spec data _ c Hc) as (o & E & _). unfold onUploaded. rewrite E. simpl.
  destruct (watchProvider_fields (clearFileSelect (p <| identityProvider := o |>))) as (_ & _ & Hu & Hf & _).
  unfold typeUrl. rewrite Hf, Hu. simpl. rewrite String.eqb_refl, Hu. split_and!; try done.
  intros Hs. by apply String.eqb_neq in Hs as ->.
Qed.

(** ** The list *)

Lemma providerOf_filter {A} (id : A → string) x ps :
  providerOf id x ps = last (filter (λ p, id p = x) ps).
Proof.
  unfold providerOf. induction ps as [|p ps IH] using rev_ind; [done|].
  rewrite foldl_app, filter_app. simpl. rewrite IH. destruct (String.eqb_spec (id p) x).
  - by rewrite filter_cons_True, filter_nil, last_snoc by done.
  - by rewrite filter_cons_False, filter_nil, (right_id_L [] (++)) by done.
Qed.

Lemma providerOf_Some {A} (id : A → string) x ps p : providerOf id x ps = Some p → p ∈ ps ∧ id p = x.
Proof.
  rewrite providerOf_filter. intros H%last_Some_elem_of%list_elem_of_filter. by destruct H.
Qed.

Lemma attach_idemp all c : attach all (attach all c) = attach all c.
Proof. unfold attach at 2 3. destruct (providerOf _ _ _) eqn:E; simpl; unfold attach; simpl; by rewrite E. Qed.

(** The listener replaces the value it watches; the digest ends all the same, because a second
    run changes nothing. *)
Theorem configured_settles all l : shownProviders all l = Some (attach (offered all l) <$> l).
Proof.
  unfold shownProviders. set (al := offered all l). cbn [configuredDigest]. destruct (decide _); [done|].
  assert (attach al <$> (attach al <$> l) = attach al <$> l) as Hl.
  { rewrite <-list_fmap_compose. apply list_fmap_ext. intros i c _. apply attach_idemp. }
  rewrite Hl. by rewrite decide_True.
Qed.

(** A configured social provider is no longer offered when the list is built, so no row has
    its provider: one without a display name shows its alias, not the name of the provider. *)
Theorem social_row_shows_alias all l rows name c :
  Forall (λ c, c_provider c = None) l →
  shownProviders all l = Some rows → c ∈ rows →
  (∀ p, c_provider c = Some p → p ∈ all ∧ RealmLists.pr_id p = c_providerId c ∧ RealmLists.pr_group p ≠ "Social") ∧
  (c_displayName c = "" → rowName name c = c_alias c).
Proof.
  intros Hl [= <-]%(eq_trans (eq_sym (configured_settles all l))) Hc.
  apply list_elem_of_fmap in Hc as (c0 & -> & Hc0).
  assert (∀ p, c_provider (attach (offered all l) c0) = Some p →
    p ∈ all ∧ RealmLists.pr_id p = c_providerId (attach (offered all l) c0) ∧ RealmLists.pr_group p ≠ "Social") as Hp.
  { intros p. unfold attach. destruct (providerOf _ _ _) as [q|] eqn:E; simpl.
    - intros [= ->]. apply providerOf_Some in E as [Hin Hid]. unfold offered in Hin.
      rewrite RealmLists.removeUsedSocial_spec in Hin. apply list_elem_of_filter in Hin as [Hn Hin].
      split_and!; [done..|]. intros Hs. apply Hn. split; [done|]. rewrite Hid. apply list_elem_of_fmap. by exists c0.
    - rewrite Forall_forall in Hl. by rewrite (Hl c0 Hc0). }
  split; [done|]. intros Hd. unfold rowName. rewrite Hd. simpl.
  destruct (c_provider _) as [p|] eqn:E; [|done]. destruct (Hp p eq_refl) as (_ & _ & Hs).
  by apply String.eqb_neq in Hs as ->.
Qed.

(** ** The redirect URI *)

(** The first occurrence of a pattern whose first character it has once. *)
Lemma find_s_first_occurrence c q s t :
  occurs c q = false → find_s (String c q) s = None →
  find_s (String c q) (s +:+ String c q +:+ t) = Some (String.length s).
Proof.
  intros Hc. induction s as [|a s IH]; intros Hf.
  - rewrite app_nil_l. simpl. by rewrite Ascii.eqb_refl, starts_with_app.
  - rewrite app_cons. cbn [find_s] in *. destruct (starts_with (String c q) (String a s)) eqn:Hs; [done|].
    destruct (find_s (String c q) s) eqn:Hf'; [done|]. rewrite IH by done.
    destruct (starts_with (String c q) (String a (s +:+ String c q +:+ t))) eqn:Hs'; [|done]. exfalso.
    rewrite <-(app_cons a s) in Hs'. destruct (starts_with_prefix _ _ _ Hs') as [H|([|b u] & Hu & E)]; [congruence|done|].
    rewrite E, app_cons in Hs'. injection E as -> ->. cbn [starts_with] in Hs'.
    apply andb_true_iff in Hs' as [_ Hs']. apply starts_with_spec in Hs' as [v Hv].
    rewrite !app_assoc_s in Hv. apply (f_equal (drop_s (String.length s))) in Hv. rewrite !drop_s_app in Hv.
    rewrite !app_cons in Hv. injection Hv as -> _. rewrite occurs_app in Hc. simpl in Hc.
    by rewrite Ascii.eqb_refl, orb_true_r in Hc.
Qed.

Lemma encodeURI_kept s : forall_chars uri_kept s = true → encodeURI s = s.
Proof.
  unfold encodeURI. induction s as [|a s IH]; simpl; [done|]. intros [-> Hs]%andb_true_iff. simpl. by rewrite IH.
Qed.

(** On a server whose URL does not have the text "/admin", the redirect URI is the endpoint of
    the broker of the realm, whatever page is open. *)
Theorem callbackUrl_spec root rest realm :
  find_s "/admin" root = None →
  callbackUrl (root +:+ "/admin" +:+ rest) realm = encodeURI (root +:+ "/realms/" +:+ realm +:+ "/broker/") ∧
  (forall_chars uri_kept root = true → forall_chars uri_kept realm = true →
   callbackUrl (root +:+ "/admin" +:+ rest) realm = root +:+ "/realms/" +:+ realm +:+ "/broker/").
Proof.
  intros Hf. assert (callbackUrl (root +:+ "/admin" +:+ rest) realm =
    encodeURI (root +:+ "/realms/" +:+ realm +:+ "/broker/")) as E.
  { unfold callbackUrl, replaceTail.
    assert (find_s "/admin" (root +:+ "/admin" +:+ rest) = Some (String.length root)) as ->
      by (by apply (find_s_first_occurrence "/" "admin")).
    by rewrite take_s_app, !app_assoc_s. }
  split; [done|]. intros Hr Hm. rewrite E. apply encodeURI_kept. by rewrite !forall_chars_app, Hr, Hm.
Qed.

(** On a host whose name starts with "admin" it is no URL of that host. *)
Theorem callbackUrl_admin_host rest realm :
  callbackUrl ("https://admin" +:+ rest) realm = encodeURI ("https://realms/" +:+ realm +:+ "/broker/").
Proof. done. Qed.

(** ** The page of a new provider *)

Definition providerRoute : string := "/realms/:realm/identity-provider-settings/provider/:provider_id/:alias".

(** Once a provider is created the console is at the page that edits it, opened for its
    alias. *)
Theorem created_provider_opens realm factory alias p :
  newIdentityProvider p = true →
  assoc "providerId" (identityProvider p) = Str factory → assoc "alias" (identityProvider p) = Str alias →
  AuthzRoutes.plain realm → AuthzRoutes.plain factory → AuthzRoutes.plain alias →
  ∃ url r, (onSaved realm p).1 = GoTo url ∧
    AuthzRoutes.dispatch AuthzRoutes.consoleRoutes url =
      Some (r, [("realm", realm); ("provider_id", factory); ("alias", alias)]) ∧
    AdminRoutes.rt_path r = Some providerRoute ∧ AdminRoutes.rt_controller r = Some "RealmIdentityProviderCtrl".
Proof.
  intros Hn Hf Ha Hr1 Hr2 Hr3. unfold onSaved, providerUrl. rewrite Hn, Hf, Ha.
  destruct (AuthzRoutes.console_url providerRoute "RealmIdentityProviderCtrl"
    (AuthzRoutes.argsOf [("realm", realm); ("provider_id", factory); ("alias", alias)])) as (r & Hd & Hp & Hc).
  - by vm_compute.
  - apply AuthzRoutes.plain_args; [done|]. repeat (constructor; [done|]). constructor.
  - eexists _, r. split; [done|]. by split; [apply Hd|].
Qed.

(** ** The form of a mapper *)

(** An administrator who waits for the answer to a request before the next step; [stored] is
    the last body the server took. *)
Inductive patient_edit : editor * object → editor * object → Prop :=
  | patient_type o e st : sent e = [] → patient_edit (e, st) (editTo o e, st)
  | patient_save e st : sent e = [] → patient_edit (e, st) (saveEditor e, st)
  | patient_answer e st b : sent e = [b] → patient_edit (e, st) (onEditorSaved 0 e, b)
  | patient_reset e st : sent e = [] → patient_edit (e, st) (resetEditor e, st).

Definition editor_ok (x : editor * object) : Prop :=
  let '(e, st) := x in
  (sent e = [] ∨ sent e = [edited e]) ∧ original e = st ∧
  (e_changed e = false → equals (Obj (edited e)) (Obj (original e)) = true).

Lemma patient_edit_ok x y :
  patient_edit x y → editor_ok x → (∀ b, b ∈ sent x.1 ++ [x.2] → keys_once (Obj b) = true) → editor_ok y.
Proof.
  intros [o e st Hs|e st Hs|e st b Hs|e st Hs]; intros (H1 & H2 & H3) Hk; simpl in *.
  - split_and!; [by left|done|]. by intros [_ ?%negb_false_iff]%orb_false_iff.
  - rewrite Hs. split_and!; [by right|done|done].
  - destruct H1 as [H1|H1]; rewrite Hs in H1; [done|]. injection H1 as ->. rewrite Hs.
    split_and!; [by left|done|]. intros _. apply equals_refl, Hk. rewrite Hs. set_solver.
  - rewrite Hs. split_and!; [by left|done|]. intros _. apply equals_refl, Hk. rewrite H2. set_solver.
Qed.

(** If he waits, the form without changes shows what the server has. *)
Theorem patient_form_saved o e st :
  rtc (λ x y, patient_edit x y ∧ ∀ b, b ∈ sent x.1 ++ [x.2] → keys_once (Obj b) = true)
    (openEditor o, o) (e, st) →
  keys_once (Obj o) = true →
  e_changed e = false → equals (Obj (edited e)) (Obj st) = true.
Proof.
  intros Hs Ho Hc. assert (editor_ok (e, st)) as (_ & <- & H); [|by apply H].
  assert (editor_ok (openEditor o, o)) as H0 by (split_and!; [by left|done|]; intros _; by apply equals_refl).
  revert H0. induction Hs as [|x y z [Hxy Hk] _ IH]; [done|]. intros H. apply IH. by eapply patient_edit_ok.
Qed.

(** If he types while the request is under way, the answer takes what he typed for saved: the
    form shows no change, and a reset keeps it. *)
Theorem late_edit_taken_for_saved o o1 o2 :
  keys_once (Obj o2) = true →
  let e := onEditorSaved 0 (editTo o2 (saveEditor (editTo o1 (openEditor o)))) in
  sent (saveEditor (editTo o1 (openEditor o))) = [o1] ∧ sent e = [] ∧
  edited e = o2 ∧ e_changed e = false ∧ edited (resetEditor e) = o2.
Proof. intros Hk. simpl. by rewrite equals_refl. Qed.

(** A mapper that is created has the type that was chosen, and the console goes to its page;
    with no types [save] throws. *)
Theorem created_mapper realm alias types server id :
  find_last "/" id = None →
  match types with
  | [] => saveMapper (firstType types) (newMapper alias) = Throws TypeError
  | (_, t) :: _ =>
      saveMapper (firstType types) (newMapper alias) =
        Returns [("identityProviderAlias", Str alias); ("config", Obj []); ("identityProviderMapper", assoc "id" t)]
  end ∧
  onMapperCreated realm alias (server +:+ "/" +:+ id) =
    "/realms/" +:+ realm +:+ "/identity-provider-mappers/" +:+ alias +:+ "/mappers/" +:+ id.
Proof.
  intros Hid. split; [by destruct types as [|[]]|].
  unfold onMapperCreated, mapperUrl, mappersUrl. by rewrite ClientForms.createdId_spec, !app_assoc_s.
Qed.

End IdentityProviders.
