(* ===== verification/AuthFlows.v ===== *)
(** The authentication flows of a realm (realm.js): the pages that create a flow, an execution
    and a configuration, [AuthenticationFlowsCtrl] with its table, its buttons and the requests
    they send, and the bindings of flows. *)

From S2P Require Import Prelude JsString Uri JsValue JsText AdminRoutes AuthzRoutes RealmLists RealmImport ClientForms AdminShared IdentityProviders.
Import JsString Uri JsValue JsText.
Import RealmLists (flow, mkFlow, f_id, f_alias, f_provider).
Import IdentityProviders (move, GoTo, Reload).

Module AuthFlows.

Abbreviation object := (list (string * jsval)).

(** ** Bindings *)

(** The loop of [RealmFlowBindingCtrl]: the flows for users and those for clients. *)
Fixpoint splitFlows (fs : list flow) (flows clientFlows : list flow) : list flow * list flow :=
  match fs with
  | [] => (flows, clientFlows)
  | f :: fs =>
      if String.eqb (f_provider f) "client-flow" then splitFlows fs flows (clientFlows ++ [f])
      else splitFlows fs (flows ++ [f]) clientFlows
  end.

(** ** Creating *)

Definition newFlow : object :=
  [("alias", Str ""); ("providerId", Str "basic-flow"); ("description", Str ""); ("topLevel", Bool true);
   ("builtIn", Bool false)].

Definition flowsUrl (realm : string) : string := "/realms/" +:+ realm +:+ "/authentication/flows".

Definition flowUrl (realm alias : string) : string := flowsUrl realm +:+ "/" +:+ alias.

(** A flow in another one. *)
Definition newExecutionFlow (parent : flow) : object :=
  [("alias", Str ""); ("type", Str (if String.eqb (f_provider parent) "client-flow" then "client-flow" else "basic-flow"));
   ("description", Str "")].

(** [$scope.provider]: the first of the providers, or an empty object. *)
Definition firstProvider (providers : list object) : object := default [] (head providers).

Definition saveExecutionFlow (provider flow : object) : object := obj_set "provider" (assoc "id" provider) flow.

(** The providers an execution may have in a flow. *)
Definition providersFor (parent : flow) (formActions authenticators clientAuthenticators : list object) : list object :=
  if String.eqb (f_provider parent) "form-flow" then formActions
  else if String.eqb (f_provider parent) "client-flow" then clientAuthenticators
  else authenticators.

Definition saveExecution (provider : object) : object := [("provider", assoc "id" provider)].

(** *** A configuration *)

(** The loop over the properties of the type, which may have entries without a name. *)
Definition defaultConfig (properties : list object) : object :=
  foldl (λ c p, if truthy (assoc "name" p) then obj_set (to_string (assoc "name" p)) (assoc "defaultValue" p) c else c)
    [] properties.

(** [configType && Array.isArray(configType.properties)] *)
Definition newConfig (configType : jsval) : object :=
  [("config", Obj match optp configType "properties" with
                  | Arr ps => defaultConfig ((λ p, match p with Obj o => o | _ => [] end) <$> ps)
                  | _ => []
                  end)].

Definition configUrl (realm flow provider id : string) : string :=
  flowsUrl realm +:+ "/" +:+ flow +:+ "/config/" +:+ provider +:+ "/" +:+ id.

Definition onConfigCreated (realm flow provider location : string) : string :=
  configUrl realm flow provider (ClientForms.createdId location).

(** The parameters of [remove], and where it goes. *)
Definition removeConfig (realm : string) (flowId : string) (config : object) : AdminShared.dialog * object * move :=
  (AdminShared.confirmDelete (to_string (assoc "alias" config)) "config",
   [("realm", Str realm); ("config", assoc "id" config)],
   GoTo (flowUrl realm flowId)).

(** ** The page of a flow *)

(** What the page does when it opens: it goes to the first flow, or asks for the executions of
    the one it shows; [LastFlowSelected.alias] is its second component. *)
Inductive opening := Goes (m : move) | Asks (alias : string).

Definition openFlowsPage (realm : string) (flows : list flow) (selected last : option string)
    : outcome opening * option string :=
  let '(f, last, goes) := RealmLists.openFlows flows selected last in
  (if goes then match flows with [] => Throws TypeError | f0 :: _ => Returns (Goes (GoTo (flowUrl realm (f_alias f0)))) end
   else match f with None => Throws TypeError | Some f => Returns (Asks (f_alias f)) end,
   last).

(** *** The table *)

(** What [setupForm] reads of an execution, which always has its choices and its level. *)
Definition viewOf (e : object) : RealmLists.execution :=
  RealmLists.mkExecution
    match assoc "requirementChoices" e with Arr l => to_string <$> l | _ => [] end
    match assoc "level" e with Num z => Z.to_nat z | _ => 0 end.

Definition nums (l : list nat) : jsval := Arr ((λ n, Num (Z.of_nat n)) <$> l).

(** The three lists it adds. *)
Definition decorate (r : RealmLists.row) (e : object) : object :=
  obj_set "postLevels" (nums (RealmLists.postLevels r))
    (obj_set "preLevels" (nums (RealmLists.preLevels r))
       (obj_set "empties" (nums (RealmLists.empties r)) e)).

Definition setupForm (data : list object) : list object :=
  zip_with decorate (RealmLists.setupForm (viewOf <$> data)) data.

(** [updateExecution]: the body of the request. *)
Definition updateExecution (e : object) : object :=
  RealmImport.obj_del "postLevels" (RealmImport.obj_del "preLevels"
    (RealmImport.obj_del "levels" (RealmImport.obj_del "empties" e))).

(** *** Buttons *)

Definition copyFlow (realm : string) (f : flow) (name : string) : string * object * move :=
  (AdminShared.suggestedName (f_alias f), [("newName", Str name)], GoTo (flowUrl realm name)).

(** After a flow is removed: the first of the flows the page was opened with. *)
Definition onFlowRemoved (realm : string) (flows : list flow) : outcome move :=
  match flows with [] => Throws TypeError | f :: _ => Returns (GoTo (flowUrl realm (f_alias f))) end.

Definition addFlow (realm : string) (f : flow) : string :=
  flowsUrl realm +:+ "/" +:+ f_id f +:+ "/create/flow/execution/" +:+ f_id f.

Definition addSubFlow (realm : string) (f : flow) (flowId : string) : string :=
  flowsUrl realm +:+ "/" +:+ flowId +:+ "/create/flow/execution/" +:+ f_alias f.

Definition addSubFlowExecution (realm : string) (f : flow) (flowId : string) : string :=
  flowsUrl realm +:+ "/" +:+ flowId +:+ "/create/execution/" +:+ f_alias f.

Definition addExecution (realm : string) (f : flow) : string :=
  flowsUrl realm +:+ "/" +:+ f_id f +:+ "/create/execution/" +:+ f_id f.

Definition createFlow (realm : string) : string := "/realms/" +:+ realm +:+ "/authentication/create/flow".

(** The dialog of [removeExecution] and the message after it. *)
Definition removeExecution (e : object) : AdminShared.dialog * string :=
  let what := if truthy (assoc "authenticationFlow" e) then "flow" else "execution" in
  (AdminShared.confirmDelete (to_string (assoc "displayName" e)) what, "The " +:+ what +:+ " was removed.").

(** ** Required actions *)

(** The dialog that registers an action: the first is selected, [undefined] where there is
    none. *)
Definition registerSelected (unregistered : list object) : jsval := from_option Obj Undefined (head unregistered).

(** ** Choosing and showing flows *)

(** Every flow is offered in one of the two lists, in its order. *)
Theorem bindings_partition fs :
  splitFlows fs [] [] = (filter (λ f, f_provider f ≠ "client-flow") fs, filter (λ f, f_provider f = "client-flow") fs).
Proof.
  assert (∀ a b, splitFlows fs a b =
    (a ++ filter (λ f, f_provider f ≠ "client-flow") fs, b ++ filter (λ f, f_provider f = "client-flow") fs)) as H;
    [|apply (H [] [])].
  induction fs as [|f fs IH]; intros a b; simpl; [by rewrite !filter_nil, !(right_id_L [] (++))|].
  rewrite !filter_cons. destruct (String.eqb_spec (f_provider f) "client-flow") as [E|E]; rewrite IH.
  - rewrite decide_False by (intros H; by apply H). rewrite decide_True by done. by rewrite <-(assoc_L (++)).
  - rewrite decide_True by done. rewrite decide_False by done. by rewrite <-(assoc_L (++)).
Qed.

Lemma openFlows_selected flows s last :
  s ≠ "" → RealmLists.openFlows flows (Some s) last =
    (match list_find (λ f, f_alias f = s) flows with Some (_, f) => Some f | None => head flows end, Some s, false).
Proof.
  intros Hs. unfold RealmLists.openFlows. apply String.eqb_neq in Hs as ->. by destruct flows.
Qed.

Lemma openFlows_last flows s :
  s ≠ "" → RealmLists.openFlows flows None (Some s) = RealmLists.openFlows flows (Some s) None.
Proof. done. Qed.

Lemma find_alias flows f : f ∈ flows → ∃ i g, list_find (λ g, f_alias g = f_alias f) flows = Some (i, g) ∧ f_alias g = f_alias f.
Proof.
  intros Hf. destruct (list_find_elem_of (λ g, f_alias g = f_alias f) flows f Hf eq_refl) as [[i g] E].
  exists i, g. split; [done|]. by apply list_find_Some in E as (_ & ? & _).
Qed.

(** The page of a flow shows that flow; the tab, left for another page and opened again, shows
    it again as long as it is there; opened for the first time, it goes to the page of the
    first flow. *)
Theorem flow_is_shown realm flows f :
  f ∈ flows → f_alias f ≠ "" →
  openFlowsPage realm flows None None = (Returns (Goes (GoTo (flowUrl realm (from_option f_alias "" (head flows))))), None) ∧
  ∀ last, let '(o, last') := openFlowsPage realm flows (Some (f_alias f)) last in
    o = Returns (Asks (f_alias f)) ∧
    ∀ later, f ∈ later → openFlowsPage realm later None last' = (Returns (Asks (f_alias f)), Some (f_alias f)).
Proof.
  intros Hf Ha. split; [by destruct flows; [set_solver|]|]. intros last. unfold openFlowsPage.
  rewrite openFlows_selected by done. destruct (find_alias flows f Hf) as (i & g & -> & Hg).
  split; [by rewrite Hg|]. intros later Hl. rewrite openFlows_last, openFlows_selected by done.
  destruct (find_alias later f Hl) as (j & h & -> & Hh). by rewrite Hh.
Qed.

(** After a removal the page goes to the first of the flows it knew; if that is the one
    removed, the first of the remaining ones is shown, and with none left it throws. *)
Theorem removal_shows_first realm f rest last :
  f_alias f ≠ "" → Forall (λ g, f_alias g ≠ f_alias f) rest →
  onFlowRemoved realm (f :: rest) = Returns (GoTo (flowUrl realm (f_alias f))) ∧
  openFlowsPage realm rest (Some (f_alias f)) last =
    (match rest with g :: _ => Returns (Asks (f_alias g)) | [] => Throws TypeError end, Some (f_alias f)).
Proof.
  intros Ha Hr. split; [done|]. unfold openFlowsPage. rewrite openFlows_selected by done.
  assert (list_find (λ g, f_alias g = f_alias f) rest = None) as -> by (by apply list_find_None).
  by destruct rest.
Qed.

(** ** The requirement of an execution *)

Lemma obj_del_app k o o' : RealmImport.obj_del k (o ++ o') = RealmImport.obj_del k o ++ RealmImport.obj_del k o'.
Proof. unfold RealmImport.obj_del. apply filter_app. Qed.

Lemma obj_del_absent k (o : object) : k ∉ o.*1 → RealmImport.obj_del k o = o.
Proof.
  unfold RealmImport.obj_del. induction o as [|[k' v] o IH]; csimpl; [done|]. rewrite not_elem_of_cons.
  intros [Hk Ho]. rewrite filter_cons_True by (simpl; congruence). by rewrite IH.
Qed.

Lemma obj_set_app k v (o o' : object) : k ∈ o.*1 → obj_set k v (o ++ o') = obj_set k v o ++ o'.
Proof.
  induction o as [|[k' v'] o IH]; csimpl; [set_solver|]. intros Hk. destruct (String.eqb_spec k k'); [done|].
  rewrite IH; [done|]. set_solver.
Qed.

Lemma obj_set_dom k v (o : object) x : x ∉ o.*1 → x ≠ k → x ∉ (obj_set k v o).*1.
Proof.
  induction o as [|[k' v'] o IH]; csimpl; [set_solver|]. intros Hx Hk.
  destruct (String.eqb_spec k k') as [->|]; csimpl; set_solver.
Qed.

(** The keys the table adds. *)
Definition tableKeys : list string := ["empties"; "levels"; "preLevels"; "postLevels"].

Lemma decorate_app r e :
  (∀ k, k ∈ tableKeys → k ∉ e.*1) →
  decorate r e = e ++ [("empties", nums (RealmLists.empties r)); ("preLevels", nums (RealmLists.preLevels r));
                       ("postLevels", nums (RealmLists.postLevels r))].
Proof.
  intros He. unfold decorate, tableKeys in *. rewrite (obj_set_fresh "empties") by (apply He; set_solver).
  rewrite (obj_set_fresh "preLevels"), (obj_set_fresh "postLevels").
  - by rewrite <-!(assoc_L (++)).
  - rewrite <-(assoc_L (++)), fmap_app. pose proof (He "postLevels"). set_solver.
  - rewrite fmap_app. pose proof (He "preLevels"). set_solver.
Qed.

(** The choice of a requirement sends the execution as the server gave it, with that
    requirement: what the table added is taken away. *)
Theorem choice_is_sent data i e v :
  data !! i = Some e → "requirement" ∈ e.*1 → (∀ k, k ∈ tableKeys → k ∉ e.*1) →
  ∃ shown, setupForm data !! i = Some shown ∧
    updateExecution shown = e ∧
    updateExecution (obj_set "requirement" v shown) = obj_set "requirement" v e.
Proof.
  intros Hi Hr Hk. unfold setupForm, RealmLists.setupForm. rewrite lookup_zip_with, !list_lookup_fmap, Hi. simpl.
  eexists. split; [done|]. rewrite decorate_app by done. rewrite obj_set_app by done.
  assert (∀ o x y z, (∀ k, k ∈ tableKeys → k ∉ (o : object).*1) →
    updateExecution (o ++ [("empties", x); ("preLevels", y); ("postLevels", z)]) = o) as H.
  { intros o x y z Ho. unfold updateExecution, tableKeys in *. rewrite !obj_del_app.
    rewrite (obj_del_absent "empties" o), (obj_del_absent "levels" o), (obj_del_absent "preLevels" o),
      (obj_del_absent "postLevels" o) by (apply Ho; set_solver).
    vm_compute (RealmImport.obj_del "postLevels" _). apply (right_id_L [] (++)). }
  split; apply H; [done|]. intros k Hin. apply obj_set_dom; [by apply Hk|].
  intros ->. unfold tableKeys in Hin. set_solver.
Qed.

(** ** A new configuration *)

(** Every property with a name has its default value, the last of those that share a name. *)
Theorem default_config_spec ps n :
  n ≠ "" → Forall (λ p, ∃ s, assoc "name" p = Str s) ps →
  assoc n (defaultConfig ps) =
    from_option (assoc "defaultValue") Undefined (last (filter (λ p, assoc "name" p = Str n) ps)).
Proof.
  intros Hn. unfold defaultConfig. induction ps as [|p ps IH] using rev_ind; [done|].
  intros [HF [[s Hs] _]%Forall_cons]%Forall_app. rewrite foldl_app, filter_app. simpl. rewrite Hs. simpl.
  destruct (decide (s = n)) as [->|Hne].
  - apply String.eqb_neq in Hn as ->. simpl. rewrite assoc_obj_set.
    by rewrite filter_cons_True, filter_nil, last_snoc by done.
  - rewrite filter_cons_False, filter_nil, (right_id_L [] (++)) by (rewrite Hs; congruence).
    destruct (negb (String.eqb s "")); [rewrite assoc_obj_set_ne by done|]; by apply IH.
Qed.

(** ** The buttons reach their pages *)

(** [url] leads to the page of [ctrl], for the parameters [ps]. *)
Definition leads (url ctrl : string) (ps : list (string * string)) : Prop :=
  ∃ r, AuthzRoutes.dispatch AuthzRoutes.consoleRoutes url = Some (r, ps) ∧ AdminRoutes.rt_controller r = Some ctrl.

Lemma leads_url path l url ctrl ps :
  url = AuthzRoutes.urlOf (AuthzRoutes.argsOf l) path → ps = AuthzRoutes.paramsOf (AuthzRoutes.argsOf l) path →
  AuthzRoutes.controllerOf path = Some ctrl → l ≠ [] → Forall (λ kv, AuthzRoutes.plain kv.2) l →
  leads url ctrl ps.
Proof.
  intros -> -> Hc Hl HF. destruct (AuthzRoutes.console_url path ctrl (AuthzRoutes.argsOf l)) as (r & Hd & _ & Hr);
    [done|by apply AuthzRoutes.plain_args|]. by exists r.
Qed.

(** The URL of the goal is that of [path], with the values [l]. *)
Ltac opens path l :=
  apply (leads_url path l);
  [unfold addFlow, addSubFlow, addExecution, addSubFlowExecution, configUrl, flowUrl, flowsUrl, createFlow;
   by rewrite ?app_assoc_s | done | by vm_compute | done | repeat (constructor; [done|]); constructor].

(** Each button of the page of a flow opens the page it is for, with the flow or the subflow as
    the flow to add to. *)
Theorem flow_buttons_open realm f sub provider id :
  Forall AuthzRoutes.plain [realm; f_id f; f_alias f; sub; provider; id] →
  leads (flowUrl realm (f_alias f)) "AuthenticationFlowsCtrl" [("realm", realm); ("flow", f_alias f)] ∧
  leads (addFlow realm f) "CreateExecutionFlowCtrl" [("realm", realm); ("flow", f_id f); ("topFlow", f_id f)] ∧
  leads (addSubFlow realm f sub) "CreateExecutionFlowCtrl" [("realm", realm); ("flow", sub); ("topFlow", f_alias f)] ∧
  leads (addExecution realm f) "CreateExecutionCtrl" [("realm", realm); ("flow", f_id f); ("topFlow", f_id f)] ∧
  leads (addSubFlowExecution realm f sub) "CreateExecutionCtrl" [("realm", realm); ("flow", sub); ("topFlow", f_alias f)] ∧
  leads (createFlow realm) "CreateFlowCtrl" [("realm", realm)] ∧
  leads (configUrl realm (f_id f) provider id) "AuthenticationConfigCtrl"
    [("realm", realm); ("flow", f_id f); ("provider", provider); ("config", id)].
Proof.
  rewrite !Forall_cons. intros (? & ? & ? & ? & ? & ? & _).
  set (flows := "/realms/:realm/authentication/flows/:flow"). split_and!.
  - opens flows [("realm", realm); ("flow", f_alias f)].
  - opens (flows +:+ "/create/flow/execution/:topFlow") [("realm", realm); ("flow", f_id f); ("topFlow", f_id f)].
  - opens (flows +:+ "/create/flow/execution/:topFlow") [("realm", realm); ("flow", sub); ("topFlow", f_alias f)].
  - opens (flows +:+ "/create/execution/:topFlow") [("realm", realm); ("flow", f_id f); ("topFlow", f_id f)].
  - opens (flows +:+ "/create/execution/:topFlow") [("realm", realm); ("flow", sub); ("topFlow", f_alias f)].
  - opens "/realms/:realm/authentication/create/flow" [("realm", realm)].
  - opens (flows +:+ "/config/:provider/:config")
      [("realm", realm); ("flow", f_id f); ("provider", provider); ("config", id)].
Qed.

(** A flow whose alias has a slash: the console goes from its creation, and from its choice,
    to the page that says there is none. *)
Theorem slash_in_alias :
  ∃ r, AuthzRoutes.dispatch AuthzRoutes.consoleRoutes (flowUrl "demo" "step-up/mobile") = Some (r, []) ∧
    AdminRoutes.rt_template r = AdminRoutes.Template "/partials/pagenotfound.html".
Proof. eexists. split; by vm_compute. Qed.

End AuthFlows.
