(* ===== verification/RealmTokens.v ===== *)
(** Further settings of a realm (realm.js): the lifespans of action tokens of
    [RealmTokenDetailCtrl], with the three watches that pass a lifespan between the form and the
    attributes of the realm; the tables of keys; the results of pushes and logouts; new
    keystores and new policies of client registration. *)

From S2P Require Import Prelude JsString Uri JsValue AngularEquals AdminServices RealmLists RealmImport IdentityProviders.
Import JsString Uri JsValue AngularEquals.

Module RealmTokens.

Abbreviation object := (list (string * jsval)).

(** ** Lifespans of action tokens *)

(** [actionTokenAttribute]: an object of [TimeUnit2.asUnit], or one without its method. *)
Record span := mkSpan { unit : string; time : jsval; hasMethod : bool }.

(** [TimeUnit2.asUnit] of an attribute: a time that no unit divides stays the value it is. *)
Definition readSpan (v : jsval) : span :=
  if truthy v then
    match to_number v with
    | Some z => let '(u, t) := AdminServices.asUnit (Z.max 60 z) in mkSpan u (if (t =? z)%Z then v else Num t) true
    | None => mkSpan "Minutes" v true
    end
  else mkSpan "Minutes" v true.

Definition times (n : Z) (v : jsval) : jsval := of_number ((λ z, (z * n)%Z) <$> to_number v).

(** [actionTokenAttribute.toSeconds()] *)
Definition toSeconds (s : span) : outcome jsval :=
  if hasMethod s then
    Returns match unit s with
            | "Minutes" => times 60 (time s)
            | "Hours" => times 3600 (time s)
            | "Days" => times 86400 (time s)
            | _ => Undefined
            end
  else Throws TypeError.

(** The scope, with what each watch last saw ([None] before its first run), and the number of
    requests of [refresh] without an answer. *)
Record tokenPage := mkTokens {
  realm : object;
  oldCopy : object;
  actionLifespanId : option string;
  attribute : span;
  t_changed : bool;
  seenRealm : option object;
  seenId : option (option string);
  seenAttribute : option span;
  refreshes : nat
}.

Definition eta_tokens (p : tokenPage) : tokenPage :=
  mkTokens (realm p) (oldCopy p) (actionLifespanId p) (attribute p) (t_changed p) (seenRealm p) (seenId p)
    (seenAttribute p) (refreshes p).

#[global] Instance set_realm : Field realm := ltac:(mk_field eta_tokens realm).
#[global] Instance set_actionLifespanId : Field actionLifespanId := ltac:(mk_field eta_tokens actionLifespanId).
#[global] Instance set_attribute : Field attribute := ltac:(mk_field eta_tokens attribute).
#[global] Instance set_t_changed : Field t_changed := ltac:(mk_field eta_tokens t_changed).
#[global] Instance set_seenRealm : Field seenRealm := ltac:(mk_field eta_tokens seenRealm).
#[global] Instance set_seenId : Field seenId := ltac:(mk_field eta_tokens seenId).
#[global] Instance set_seenAttribute : Field seenAttribute := ltac:(mk_field eta_tokens seenAttribute).
#[global] Instance set_refreshes : Field refreshes := ltac:(mk_field eta_tokens refreshes).

(** [realm.attributes], which the realm always has. *)
Definition attributes (r : object) : object := match assoc "attributes" r with Obj a => a | _ => [] end.

Definition setAttribute (k : string) (v : jsval) (r : object) : object :=
  obj_set "attributes" (Obj (obj_set k v (attributes r))) r.

Definition delAttribute (k : string) (r : object) : object :=
  obj_set "attributes" (Obj (RealmImport.obj_del k (attributes r))) r.

Definition keyOf (id : option string) : string :=
  "actionTokenGeneratedByUserLifespan." +:+ default "undefined" id.

(** *** The watches, in the order they are registered *)

(** Equality of the watched values: [angular.equals] passes over methods. *)
Definition sameSpan (s s' : span) : bool := String.eqb (unit s) (unit s') && equals (time s) (time s').

Definition realmDirty (p : tokenPage) : bool :=
  match seenRealm p with Some r => negb (equals (Obj (realm p)) (Obj r)) | None => true end.

Definition idDirty (p : tokenPage) : bool := negb (bool_decide (seenId p = Some (actionLifespanId p))).

Definition attributeDirty (p : tokenPage) : bool :=
  match seenAttribute p with Some s => negb (sameSpan (attribute p) s) | None => true end.

Definition watchRealm (p : tokenPage) : tokenPage :=
  if realmDirty p
  then p <| seenRealm := Some (realm p) |>
         <| t_changed := t_changed p || negb (equals (Obj (realm p)) (Obj (oldCopy p))) |>
  else p.

Definition watchId (p : tokenPage) : tokenPage :=
  if idDirty p then
    let s := readSpan (assoc (keyOf (actionLifespanId p)) (attributes (realm p))) in
    p <| seenId := Some (actionLifespanId p) |> <| attribute := s |>
      <| refreshes ::= λ n, match toSeconds s with Returns v => if truthy v then n else S n | Throws _ => n end |>
  else p.

(** An exception of a watch is reported, and the digest goes on. *)
Definition watchAttribute (p : tokenPage) : tokenPage :=
  if attributeDirty p then
    let p := p <| seenAttribute := Some (attribute p) |> in
    match actionLifespanId p with
    | None => p
    | Some id =>
        let p := p <| t_changed := true |> in
        match toSeconds (attribute p) with
        | Returns v => p <| realm ::= setAttribute (keyOf (Some id)) v |>
        | Throws _ => p
        end
    end
  else p.

Definition clean (p : tokenPage) : bool := negb (realmDirty p || idDirty p || attributeDirty p).

Definition round (p : tokenPage) : tokenPage := watchAttribute (watchId (watchRealm p)).

(** The digest; [None] is AngularJS giving up. *)
Fixpoint digestLoop (ttl : nat) (p : tokenPage) : option tokenPage :=
  if clean p then Some p else match ttl with 0 => None | S ttl => digestLoop ttl (round p) end.

Definition digest (p : tokenPage) : option tokenPage := digestLoop 10 p.

(** *** Events *)

(** The page as it opens, before its first digest. *)
Definition openTokens (r : object) : tokenPage :=
  mkTokens r r None (mkSpan "" Undefined false) false None None None 0.

Definition chooseAction (id : string) (p : tokenPage) : tokenPage := p <| actionLifespanId := Some id |>.

(** The two fields of the lifespan: an object keeps the method it has. *)
Definition typeTime (t : jsval) (p : tokenPage) : tokenPage :=
  p <| attribute := mkSpan (unit (attribute p)) t (hasMethod (attribute p)) |>.

Definition chooseUnit (u : string) (p : tokenPage) : tokenPage :=
  p <| attribute := mkSpan u (time (attribute p)) (hasMethod (attribute p)) |>.

Definition resetToDefaultToken (p : tokenPage) : tokenPage :=
  p <| attribute := mkSpan "Minutes" Undefined false |> <| realm ::= delAttribute (keyOf (actionLifespanId p)) |>.

Definition editRealm (k : string) (v : jsval) (p : tokenPage) : tokenPage := p <| realm ::= obj_set k v |>.

(** The answer to [refresh]. *)
Definition onRefreshed (p : tokenPage) : tokenPage := p <| t_changed := false |> <| refreshes ::= pred |>.

(** ** Keys *)

Record key := mkKey { kid : string; k_providerId : string; k_provider : option string }.

(** The answer of [Components.query]: each component by its identifier and its name. *)
Definition attachKey (components : list (string * string)) (k : key) : key :=
  match IdentityProviders.providerOf fst (k_providerId k) components with
  | Some c => mkKey (kid k) (k_providerId k) (Some c.2)
  | None => k
  end.

(** [keys.active] is a map from types to identifiers of keys. *)
Definition activeKeys (active : list (string * string)) (keys : list key) : list (string * key) :=
  omap (λ '(t, id), pair t <$> IdentityProviders.providerOf kid id keys) active.

Definition onComponents (components : list (string * string)) (active : list (string * string)) (keys : list key)
    : list key * list (string * key) :=
  let keys := attachKey components <$> keys in (keys, activeKeys active keys).

(** ** Results of requests to all clients *)

Inductive result := Warn (message : string) | Failure (message : string) | Done (message : string) | ReloadPage.

(** [failed] and [succeeded], [None] where the answer lacks the list. *)
Definition logoutAll (succeeded failed : option (list string)) : result :=
  if 0 <? length (default [] failed)
  then Failure ((if 0 <? length (default [] succeeded)
                 then "Successfully logout all users under: " +:+ join "," (default [] succeeded) +:+ " . " else "")
                +:+ "Failed to logout users under: " +:+ join "," (default [] failed)
                +:+ ". Verify availability of failed hosts and try again")
  else ReloadPage.

Definition pushRevocation (succeeded failed : option (list string)) : result :=
  if (length (default [] succeeded) =? 0) && (length (default [] failed) =? 0)
  then Warn "No push sent. No admin URI configured or no registered cluster nodes available"
  else if 0 <? length (default [] failed)
  then Failure ((if 0 <? length (default [] succeeded)
                 then "Successfully push notBefore to: " +:+ join "," (default [] succeeded) +:+ " . " else "")
                +:+ "Failed to push notBefore to: " +:+ join "," (default [] failed)
                +:+ ". Verify availability of failed hosts and try again")
  else Done "Successfully push notBefore to all configured clients".

(** ** New keystores and policies *)

(** A new keystore, from the factory that the loop finds. *)
Definition fillNew (c : object) (p : RealmLists.property) : object :=
  if truthy (assoc p.1 c) then c else obj_set p.1 (Arr [if truthy p.2 then p.2 else Str ""]) c.

Definition newKeystore (factory : string) (realmId : jsval) (properties : list RealmLists.property) : object :=
  [("name", Str factory); ("providerId", Str factory); ("providerType", Str "org.keycloak.keys.KeyProvider");
   ("parentId", realmId); ("config", Obj (foldl fillNew [("priority", Arr [Str "0"])] properties))].

(** A property of a policy: its type, its name and its default value. *)
Record policyProperty := mkPolicyProperty { pp_type : string; pp_name : string; pp_default : jsval }.

Definition isMultivalued (t : string) : bool := String.eqb t "MultivaluedString" || String.eqb t "MultivaluedList".

Definition toDefaultValue (p : policyProperty) : jsval :=
  if isMultivalued (pp_type p) then (if truthy (pp_default p) then pp_default p else Arr [])
  else Arr [if truthy (pp_default p) then pp_default p else Str ""].

Definition newPolicyConfig (ps : list policyProperty) : object :=
  foldl (λ c p, obj_set (pp_name p) (toDefaultValue p) c) [] ps.

(** The configuration the page edits. *)
Definition openPolicy (create : bool) (ps : list policyProperty) (config : object) : outcome object :=
  AdminServices.addLastEmptyValueToMultivaluedLists ((λ p, (pp_type p, pp_name p)) <$> ps)
    (if create then newPolicyConfig ps else config).

(** ** The digest of the page ends *)

Definition wf (p : tokenPage) : Prop := keys_once (Obj (realm p)) = true ∧ keys_once (time (attribute p)) = true.

Lemma attributes_once r : keys_once (Obj r) = true → keys_once (Obj (attributes r)) = true.
Proof.
  intros Hr. unfold attributes. pose proof (keys_once_assoc "attributes" r Hr) as H. by destruct (assoc _ r).
Qed.

Lemma setAttribute_once k v r :
  keys_once (Obj r) = true → keys_once v = true → keys_once (Obj (setAttribute k v r)) = true.
Proof. intros Hr Hv. apply keys_once_obj_set; [done|]. by apply keys_once_obj_set; [apply attributes_once|]. Qed.

Lemma delAttribute_once k r : keys_once (Obj r) = true → keys_once (Obj (delAttribute k r)) = true.
Proof.
  intros Hr. apply keys_once_obj_set; [done|]. apply attributes_once in Hr. rewrite keys_once_obj in *.
  destruct Hr as [Hv Hn]. unfold RealmImport.obj_del. split.
  { rewrite Forall_forall in *. intros kv [_ Hin]%list_elem_of_filter. by apply Hv. }
  clear Hv. induction (attributes r) as [|[k' v] a IH]; [constructor|]. apply NoDup_cons in Hn as [Hk Hn].
  rewrite filter_cons. destruct (decide _); [|by apply IH]. apply NoDup_cons. split; [|by apply IH].
  intros (kv & E & [_ Hin]%list_elem_of_filter)%list_elem_of_fmap. apply Hk, list_elem_of_fmap. by exists kv.
Qed.

Lemma readSpan_once v : keys_once v = true → keys_once (time (readSpan v)) = true.
Proof.
  intros Hv. unfold readSpan. destruct (truthy v), (to_number v) as [z|]; try done.
  destruct (AdminServices.asUnit _) as [u t]. simpl. by destruct (t =? z)%Z.
Qed.

Lemma toSeconds_once s v : toSeconds s = Returns v → keys_once v = true.
Proof.
  unfold toSeconds. destruct (hasMethod s); [|done]. intros [= <-].
  repeat case_match; try done; unfold times; by destruct (to_number (time s)).
Qed.

Lemma watchRealm_spec p :
  wf p →
  realmDirty (watchRealm p) = false ∧ realm (watchRealm p) = realm p ∧ attribute (watchRealm p) = attribute p ∧
  actionLifespanId (watchRealm p) = actionLifespanId p ∧ seenId (watchRealm p) = seenId p ∧
  seenAttribute (watchRealm p) = seenAttribute p ∧ refreshes (watchRealm p) = refreshes p ∧
  (t_changed p = true → t_changed (watchRealm p) = true).
Proof.
  intros [Hr _]. unfold watchRealm. destruct (realmDirty p) eqn:E; [|done].
  split_and!; try done; [|by simpl; intros ->]. unfold realmDirty. simpl. by rewrite equals_refl.
Qed.

Lemma sameSpan_refl s : keys_once (time s) = true → sameSpan s s = true.
Proof. intros Hs. unfold sameSpan. by rewrite String.eqb_refl, equals_refl. Qed.

(** What [watchAttribute] writes. *)
Definition written (p : tokenPage) : object :=
  match attributeDirty p, actionLifespanId p, toSeconds (attribute p) with
  | true, Some id, Returns v => setAttribute (keyOf (Some id)) v (realm p)
  | _, _, _ => realm p
  end.

Lemma watchAttribute_spec p :
  wf p →
  attributeDirty (watchAttribute p) = false ∧ realm (watchAttribute p) = written p ∧
  attribute (watchAttribute p) = attribute p ∧ actionLifespanId (watchAttribute p) = actionLifespanId p ∧
  seenId (watchAttribute p) = seenId p ∧ refreshes (watchAttribute p) = refreshes p ∧
  keys_once (Obj (written p)) = true ∧
  (t_changed p = true ∨ (attributeDirty p = true ∧ is_Some (actionLifespanId p)) → t_changed (watchAttribute p) = true).
Proof.
  intros [Hr Ht]. unfold watchAttribute, written. destruct (attributeDirty p) eqn:E.
  2:{ split_and!; try done. intros [?|[? _]]; done. }
  assert (∀ q, seenAttribute q = Some (attribute q) → attribute q = attribute p → attributeDirty q = false) as Hc.
  { intros q Hq Ha. unfold attributeDirty. rewrite Hq, Ha. by rewrite sameSpan_refl. }
  simpl. destruct (actionLifespanId p) as [id|] eqn:Eid; simpl.
  - destruct (toSeconds (attribute p)) as [v|e] eqn:Ev; simpl; split_and!; try done; try (by apply Hc).
    apply setAttribute_once; [done|]. by eapply toSeconds_once.
  - split_and!; try done; [by apply Hc|]. intros [?|[_ [? ?]]]; done.
Qed.

Lemma idDirty_false p : idDirty p = false ↔ seenId p = Some (actionLifespanId p).
Proof. unfold idDirty. by rewrite negb_false_iff, bool_decide_eq_true. Qed.

Lemma attributeDirty_ext p q :
  attribute p = attribute q → seenAttribute p = seenAttribute q → attributeDirty p = attributeDirty q.
Proof. unfold attributeDirty. by intros -> ->. Qed.

Lemma watchId_clean p : idDirty p = false → watchId p = p.
Proof. unfold watchId. by intros ->. Qed.

Lemma watchAttribute_clean p : attributeDirty p = false → watchAttribute p = p.
Proof. unfold watchAttribute. by intros ->. Qed.

Lemma tokens_fuel n p p' : digestLoop n p = Some p' → digestLoop (S n) p = Some p'.
Proof.
  revert p. induction n as [|n IH]; intros p; simpl.
  - by destruct (clean p).
  - destruct (clean p); [done|]. apply IH.
Qed.

(** The watches of a choice that has been dealt with run twice at most, the second time for
    what [watchAttribute] wrote. *)
Lemma settle p :
  wf p → idDirty p = false →
  ∃ p', digestLoop 2 p = Some p' ∧ clean p' = true ∧ wf p' ∧ realm p' = written p ∧ attribute p' = attribute p ∧
    actionLifespanId p' = actionLifespanId p ∧ refreshes p' = refreshes p ∧
    (t_changed p = true ∨ (attributeDirty p = true ∧ is_Some (actionLifespanId p)) → t_changed p' = true).
Proof.
  intros Hwf Hid. destruct (clean p) eqn:Hc.
  { exists p. cbn [digestLoop]. rewrite Hc. unfold clean in Hc.
    apply negb_true_iff, orb_false_iff in Hc as [_ Ha]. unfold written. rewrite Ha. split_and!; try done.
    intros [?|[? _]]; done. }
  destruct (watchRealm_spec p Hwf) as (Hr1 & Hr & Ha & Hi & Hsi & Hsa & Hf & Ht).
  assert (idDirty (watchRealm p) = false) as Hid1 by (apply idDirty_false in Hid; apply idDirty_false; congruence).
  assert (attributeDirty (watchRealm p) = attributeDirty p) as Had by (by apply attributeDirty_ext).
  assert (written (watchRealm p) = written p) as Hw by (unfold written; by rewrite Had, Hi, Ha, Hr).
  destruct (watchAttribute_spec (watchRealm p)) as (Hb1 & Hbr & Hba & Hbi & Hbs & Hbf & Hbk & Hbt).
  { destruct Hwf. by split; rewrite ?Hr, ?Ha. }
  set (q := watchAttribute (watchRealm p)) in *.
  assert (round p = q) as Hq by (unfold round; by rewrite watchId_clean).
  assert (wf q) as Hwq by (split; [by rewrite Hbr|rewrite Hba, Ha; apply Hwf]).
  assert (idDirty q = false) as Hidq by (apply idDirty_false in Hid1; apply idDirty_false; congruence).
  destruct (watchRealm_spec q Hwq) as (Hc1 & Hcr & Hca & Hci & Hcs & Hcsa & Hcf & Hct).
  assert (idDirty (watchRealm q) = false) as Hid2 by (apply idDirty_false in Hidq; apply idDirty_false; congruence).
  assert (attributeDirty (watchRealm q) = false) as Had2 by (by rewrite (attributeDirty_ext _ q)).
  assert (round q = watchRealm q) as Hqq by (unfold round; by rewrite watchId_clean, watchAttribute_clean).
  assert (clean (watchRealm q) = true) as Hcc by (unfold clean; by rewrite Hc1, Hid2, Had2).
  exists (if clean q then q else watchRealm q). split.
  { cbn [digestLoop]. rewrite Hc, Hq. destruct (clean q) eqn:E; [done|]. by rewrite Hqq, Hcc. }
  assert (t_changed p = true ∨ attributeDirty p = true ∧ is_Some (actionLifespanId p) → t_changed q = true) as Hfin.
  { intros H. apply Hbt. rewrite Had, Hi. naive_solver. }
  destruct (clean q) eqn:E; split_and!; try done; try congruence; try (by auto).
  destruct Hwq. by split; rewrite ?Hcr, ?Hca.
Qed.

Lemma watchId_spec p :
  wf p → idDirty p = true →
  let s := readSpan (assoc (keyOf (actionLifespanId p)) (attributes (realm p))) in
  wf (watchId p) ∧ idDirty (watchId p) = false ∧ attribute (watchId p) = s ∧ realm (watchId p) = realm p ∧
  actionLifespanId (watchId p) = actionLifespanId p ∧ seenAttribute (watchId p) = seenAttribute p ∧
  t_changed (watchId p) = t_changed p ∧ realmDirty (watchId p) = realmDirty p ∧
  refreshes (watchId p) =
    match toSeconds s with Returns v => if truthy v then refreshes p else S (refreshes p) | Throws _ => refreshes p end.
Proof.
  intros [Hr Ht] Hd. unfold watchId. rewrite Hd. simpl. split_and!; try done.
  - split; [done|]. simpl. apply readSpan_once. apply keys_once_assoc. by apply attributes_once.
  - apply idDirty_false. done.
Qed.

(** One round and then [settle]. *)
Lemma settle_choice p :
  wf p → idDirty p = true →
  let q := watchId (watchRealm p) in
  ∃ p', digest p = Some p' ∧ clean p' = true ∧ wf p' ∧ realm p' = written q ∧ attribute p' = attribute q ∧
    actionLifespanId p' = actionLifespanId p ∧ refreshes p' = refreshes q ∧ (t_changed p = true → t_changed p' = true).
Proof.
  intros Hwf Hd q. destruct (watchRealm_spec p Hwf) as (Hr1 & Hr & Ha & Hi & Hsi & Hsa & Hf & Ht).
  assert (wf (watchRealm p)) as Hw1 by (destruct Hwf; by split; rewrite ?Hr, ?Ha).
  assert (idDirty (watchRealm p) = true) as Hd1 by (unfold idDirty in *; by rewrite Hsi, Hi).
  destruct (watchId_spec _ Hw1 Hd1) as (Hw2 & Hd2 & Ha2 & Hr2 & Hi2 & Hs2 & Ht2 & Hrd2 & Hf2). fold q in Hw2, Hd2, Hi2, Ht2, Hrd2.
  destruct (watchAttribute_spec q Hw2) as (Hb1 & Hbr & Hba & Hbi & Hbs & Hbf & Hbk & Hbt).
  set (q' := watchAttribute q) in *.
  assert (wf q') as Hw3 by (split; [by rewrite Hbr|rewrite Hba; apply Hw2]).
  assert (idDirty q' = false) as Hd3 by (apply idDirty_false in Hd2; apply idDirty_false; congruence).
  destruct (settle q' Hw3 Hd3) as (p' & Hp & Hc & Hw & Hpr & Hpa & Hpi & Hpf & Hpt).
  exists p'. split.
  { assert (digestLoop 3 p = Some p') as H3.
    { cbn [digestLoop]. assert (clean p = false) as ->; [|by fold q'].
      unfold clean. by rewrite Hd, orb_true_r. }
    unfold digest. by do 7 apply tokens_fuel in H3. }
  assert (written q' = realm q') as Hwr by (unfold written; by rewrite Hb1).
  split_and!; try done; try congruence. intros H. apply Hpt. left. apply Hbt. left. rewrite Ht2. by apply Ht.
Qed.

Lemma settle_edit p :
  wf p → idDirty p = false →
  ∃ p', digest p = Some p' ∧ clean p' = true ∧ wf p' ∧ realm p' = written p ∧ attribute p' = attribute p ∧
    actionLifespanId p' = actionLifespanId p ∧ refreshes p' = refreshes p ∧
    (t_changed p = true ∨ (attributeDirty p = true ∧ is_Some (actionLifespanId p)) → t_changed p' = true).
Proof.
  intros Hwf Hd. destruct (settle p Hwf Hd) as (p' & H & Hp'). exists p'. split; [|done].
  unfold digest. by do 8 apply tokens_fuel in H.
Qed.

Lemma clean_id p : clean p = true → idDirty p = false.
Proof. unfold clean. intros [[_ H]%orb_false_iff _]%negb_true_iff%orb_false_iff. done. Qed.

Lemma digest_clean p : clean p = true → digest p = Some p.
Proof. intros H. unfold digest. cbn [digestLoop]. by rewrite H. Qed.

(** Whatever the page is at, its watches settle within the ten rounds AngularJS allows. *)
Theorem tokens_digest_ends p : wf p → ∃ p', digest p = Some p' ∧ clean p' = true ∧ wf p'.
Proof.
  intros Hwf. destruct (idDirty p) eqn:Hd.
  - destruct (settle_choice p Hwf Hd) as (p' & ? & ? & ? & _). by exists p'.
  - destruct (settle_edit p Hwf Hd) as (p' & ? & ? & ? & _). by exists p'.
Qed.

(** ** What is typed, and what is lost *)

Lemma attributes_set k v r : attributes (setAttribute k v r) = obj_set k v (attributes r).
Proof. unfold attributes at 1, setAttribute. by rewrite assoc_obj_set. Qed.

Lemma attributes_del k r : attributes (delAttribute k r) = RealmImport.obj_del k (attributes r).
Proof. unfold attributes at 1, delAttribute. by rewrite assoc_obj_set. Qed.

(** A lifespan typed for the chosen action is written to the attributes in seconds, and the page
    can be saved. *)
Theorem typed_lifespan_written p id z n :
  wf p → clean p = true → actionLifespanId p = Some id → hasMethod (attribute p) = true →
  (unit (attribute p), n) ∈ [("Minutes", 60%Z); ("Hours", 3600%Z); ("Days", 86400%Z)] →
  attributeDirty (typeTime (Num z) p) = true →
  ∃ p', digest (typeTime (Num z) p) = Some p' ∧ clean p' = true ∧ t_changed p' = true ∧
    assoc (keyOf (Some id)) (attributes (realm p')) = Num (z * n) ∧
    (∀ k, k ≠ keyOf (Some id) → assoc k (attributes (realm p')) = assoc k (attributes (realm p))) ∧
    (∀ k, k ≠ "attributes" → assoc k (realm p') = assoc k (realm p)).
Proof.
  intros [Hr Ht] Hc Hid Hm Hu Hd. set (q := typeTime (Num z) p) in *.
  destruct (settle_edit q) as (p' & Hp & Hc' & _ & Hpr & _ & _ & _ & Hch).
  { by split. }
  { apply clean_id in Hc. by apply idDirty_false in Hc; apply idDirty_false. }
  exists p'. split; [done|]. split; [done|]. split.
  { apply Hch. right. split; [done|]. by exists id. }
  assert (realm p' = setAttribute (keyOf (Some id)) (Num (z * n)) (realm p)) as ->.
  { rewrite Hpr. unfold written. rewrite Hd. unfold q, typeTime, toSeconds. simpl. rewrite Hid, Hm.
    rewrite !elem_of_cons in Hu. by destruct Hu as [[= -> ->]|[[= -> ->]|[[= -> ->]|[]%not_elem_of_nil]]]. }
  split_and!.
  - by rewrite attributes_set, assoc_obj_set.
  - intros k Hk. by rewrite attributes_set, assoc_obj_set_ne.
  - intros k Hk. unfold setAttribute. by rewrite assoc_obj_set_ne.
Qed.

(** [resetToDefaultToken] leaves an object without [toSeconds]: the lifespan of the action is
    removed, and a time typed afterwards is not written, although the page can be saved. *)
Theorem typed_after_reset_lost p id t :
  wf p → clean p = true → actionLifespanId p = Some id → keys_once t = true → t ≠ Undefined →
  ∃ p1 p2, digest (resetToDefaultToken p) = Some p1 ∧ digest (typeTime t p1) = Some p2 ∧
    time (attribute p2) = t ∧ t_changed p2 = true ∧
    assoc (keyOf (Some id)) (attributes (realm p1)) = Undefined ∧ realm p2 = realm p1.
Proof.
  intros [Hr Ht] Hc Hid Hk Hne. set (q := resetToDefaultToken p).
  assert (wf q) as Hq by (split; [by apply delAttribute_once|done]).
  destruct (settle_edit q Hq) as (p1 & Hp1 & Hc1 & Hw1 & Hr1 & Ha1 & Hi1 & _).
  { apply clean_id in Hc. by apply idDirty_false in Hc; apply idDirty_false. }
  assert (realm p1 = delAttribute (keyOf (Some id)) (realm p)) as Hreal.
  { rewrite Hr1. unfold written, q, resetToDefaultToken. simpl. rewrite Hid. by destruct (attributeDirty _). }
  set (q2 := typeTime t p1). assert (wf q2) as Hq2 by (split; [apply Hw1|done]).
  assert (attributeDirty q2 = true) as Hd.
  { unfold attributeDirty. assert (attributeDirty p1 = false) as Hd1.
    { unfold clean in Hc1. by apply negb_true_iff, orb_false_iff in Hc1 as [_ ?]. }
    unfold attributeDirty in Hd1. change (seenAttribute q2) with (seenAttribute p1).
    destruct (seenAttribute p1) as [s|]; [|done]. apply negb_false_iff, andb_true_iff in Hd1 as [_ He].
    rewrite Ha1 in He. apply equals_undefined in He. unfold sameSpan. simpl. rewrite He.
    destruct (equals t Undefined) eqn:E; [|by rewrite andb_false_r]. by apply equals_undefined_r in E. }
  destruct (settle_edit q2 Hq2) as (p2 & Hp2 & _ & _ & Hr2 & Ha2 & _ & _ & Hch).
  { apply clean_id in Hc1. by apply idDirty_false in Hc1; apply idDirty_false. }
  exists p1, p2. split_and!; [done|done|by rewrite Ha2| | |].
  - apply Hch. right. split; [done|]. exists id. change (actionLifespanId q2) with (actionLifespanId p1). by rewrite Hi1.
  - by rewrite Hreal, attributes_del, RealmImport.assoc_obj_del, String.eqb_refl.
  - rewrite Hr2. unfold written. rewrite Hd. change (actionLifespanId q2) with (actionLifespanId p1).
    rewrite Hi1. change (actionLifespanId q) with (actionLifespanId p). rewrite Hid.
    unfold toSeconds. simpl. by rewrite Ha1.
Qed.

(** The choice of an action that has no lifespan asks for the realm, and the answer takes the
    page for unchanged: what was edited before is still there and cannot be saved. *)
Theorem choice_disables_save p id :
  wf p → clean p = true → actionLifespanId p ≠ Some id → t_changed p = true →
  assoc (keyOf (Some id)) (attributes (realm p)) = Undefined →
  ∃ p1, digest (chooseAction id p) = Some p1 ∧ t_changed p1 = true ∧ refreshes p1 = S (refreshes p) ∧
    digest (onRefreshed p1) = Some (onRefreshed p1) ∧ t_changed (onRefreshed p1) = false ∧
    ∀ k, k ≠ "attributes" → assoc k (realm (onRefreshed p1)) = assoc k (realm p).
Proof.
  intros Hwf Hc Hid Ht Hn. set (q := chooseAction id p).
  assert (wf q) as Hq by done.
  assert (idDirty q = true) as Hd.
  { apply clean_id, idDirty_false in Hc. unfold idDirty. apply negb_true_iff, bool_decide_eq_false. simpl.
    rewrite Hc. congruence. }
  destruct (watchRealm_spec q Hq) as (_ & Hr & Ha & Hi & Hsi & _ & Hf & _).
  assert (wf (watchRealm q)) as Hw1 by (destruct Hq; by split; rewrite ?Hr, ?Ha).
  assert (idDirty (watchRealm q) = true) as Hd1 by (unfold idDirty in *; by rewrite Hsi, Hi).
  destruct (watchId_spec _ Hw1 Hd1) as (_ & _ & Ha2 & Hr2 & _ & _ & _ & _ & Hf2).
  destruct (settle_choice q Hq Hd) as (p1 & Hp1 & Hc1 & _ & Hpr & _ & _ & Hpf & Hpt).
  rewrite Hi, Hr in Hf2. simpl in Hf2. rewrite Hn in Hf2. simpl in Hf2. rewrite Hf in Hf2.
  exists p1. split_and!; [done|by apply Hpt|by rewrite Hpf| |done|].
  - by apply digest_clean.
  - intros k Hk. simpl. rewrite Hpr. unfold written. repeat case_match; unfold setAttribute;
      rewrite ?assoc_obj_set_ne by done; by rewrite Hr2, Hr.
Qed.

(** ** Keys *)

(** A key shows the provider it is from, and a type its active key: the last of those with its
    identifier. *)
Theorem active_keys_spec components active keys t id :
  Forall (λ k, k_provider k = None) keys → NoDup active.*1 → (t, id) ∈ active →
  let '(shown, act) := onComponents components active keys in
  (∀ k, k ∈ shown → ∀ c, k_provider k = Some c → (k_providerId k, c) ∈ components) ∧
  (∀ k, (t, k) ∈ act ↔ last (filter (λ k, kid k = id) shown) = Some k).
Proof.
  intros Hnone Hnd Hin. simpl. split.
  - intros k (k0 & -> & Hk0)%list_elem_of_fmap c. unfold attachKey.
    destruct (IdentityProviders.providerOf _ _ _) as [[i n]|] eqn:E; simpl.
    + intros [= <-]. apply IdentityProviders.providerOf_Some in E as [E1 E2]. simpl in E2. by subst.
    + rewrite Forall_forall in Hnone. by rewrite (Hnone k0).
  - intros k. unfold activeKeys. rewrite list_elem_of_omap. split.
    + intros ([t' id'] & Hin' & H). destruct (IdentityProviders.providerOf _ id' _) as [k'|] eqn:E; [|done].
      injection H as -> ->. rewrite IdentityProviders.providerOf_filter in E.
      assert (id' = id) as ->; [|done]. clear E.
      induction active as [|[t1 id1] active IH]; [by apply not_elem_of_nil in Hin|].
      apply NoDup_cons in Hnd as [Hn Hnd]. rewrite elem_of_cons in Hin, Hin'.
      destruct Hin as [Hin|Hin], Hin' as [Hin'|Hin']; [congruence| | |by apply IH];
        exfalso; apply Hn, list_elem_of_fmap; [exists (t, id')|exists (t, id)]; split; simpl; congruence.
    + intros H. exists (t, id). split; [done|]. by rewrite IdentityProviders.providerOf_filter, H.
Qed.

(** ** Results *)

(** The administrator sees an error exactly when a client failed, and it names the clients that
    failed; a push that reached no client is a warning. *)
Theorem push_results succeeded failed :
  (∃ m, pushRevocation succeeded failed = Failure m) ↔ default [] failed ≠ [].
Proof.
  unfold pushRevocation. destruct (default [] failed) as [|f fs] eqn:Ef, (default [] succeeded) eqn:Es; simpl;
    split; try (by intros [? ?]); try done; intros _; by eexists.
Qed.

(** ** New components *)

(** A new policy has a value for each of its properties: that of the last with its name. *)
Theorem new_policy_config ps n :
  assoc n (newPolicyConfig ps) = from_option toDefaultValue Undefined (last (filter (λ p, pp_name p = n) ps)).
Proof.
  unfold newPolicyConfig. induction ps as [|p ps IH] using rev_ind; [done|]. rewrite foldl_app, filter_app. simpl.
  destruct (decide (pp_name p = n)) as [<-|Hne].
  - by rewrite assoc_obj_set, filter_cons_True, filter_nil, last_snoc by done.
  - by rewrite assoc_obj_set_ne, filter_cons_False, filter_nil, (right_id_L [] (++)) by done.
Qed.

End RealmTokens.
