(* ===== verification/ScopeMappings.v ===== *)
(** The scope mappings of a client ([ClientScopeMappingCtrl]) and of a client scope
    ([ClientScopeScopeMappingCtrl]), which run the same statements (clients.js).

    The lists of the page are those of [RoleMappings], arrays in a store that queries return and
    answers fill; the statements differ from those of role mappings, and so does what they
    keep current. *)

From S2P Require Import Prelude JsString JsValue RoleMappings.
Import RoleMappings.

Module ScopeMappings.

Section page.
Context {role : Type}.
Abbreviation scope := (@RoleMappings.scope role).

(** [updateRealmRoles], [updateScopeRealmRoles] *)
Definition updateRealmRoles (s : scope) : scope :=
  assign RealmComposite None (assign RealmMappings None (assign RealmRoles None s)).

(** [updateClientRoles], [updateScopeClientRoles] *)
Definition updateClientRoles (s : scope) : scope :=
  match targetClient s with
  | Some c => assign ClientComposite (Some c) (assign ClientMappings (Some c) (assign ClientRoles (Some c) s))
  | None => clear ClientComposite (clear ClientMappings (clear ClientRoles s))
  end.

(** The page when it opens: [realmMappings] and the lists of the client are empty arrays before
    the queries. *)
Definition openPage : scope :=
  updateRealmRoles
    (mkScope [[]; []; []; []] (λ v, match v with RealmMappings => Some 0 | ClientRoles => Some 1
                                               | ClientComposite => Some 2 | ClientMappings => Some 3 | _ => None end)
       None [] [] [] [] []).

Definition withTarget (c : option string) (s : scope) : scope :=
  mkScope (store s) (vars s) c (selectedRealmRoles s) (selectedRealmMappings s) (selectedClientRoles s)
    (selectedClientMappings s) (pending s).

(** A choice of the client, with [changeClient]. *)
Definition changeClient (c : option string) (s : scope) : scope := updateClientRoles (withTarget c s).

(** The handlers up to their requests, with the body; those for a client read its identifier for
    the URL. *)
Definition addRealmRole (s : scope) : scope * list role :=
  (mkScope (store s) (vars s) (targetClient s) [] (selectedRealmMappings s) (selectedClientRoles s)
     (selectedClientMappings s) (pending s), selectedRealmRoles s).

Definition deleteRealmRole (s : scope) : scope * list role :=
  (mkScope (store s) (vars s) (targetClient s) (selectedRealmRoles s) [] (selectedClientRoles s)
     (selectedClientMappings s) (pending s), selectedRealmMappings s).

Definition addClientRole (s : scope) : scope * outcome (string * list role) :=
  (mkScope (store s) (vars s) (targetClient s) (selectedRealmRoles s) (selectedRealmMappings s) []
     (selectedClientMappings s) (pending s),
   match targetClient s with Some c => Returns (c, selectedClientRoles s) | None => Throws TypeError end).

Definition deleteClientRole (s : scope) : scope * outcome (string * list role) :=
  (mkScope (store s) (vars s) (targetClient s) (selectedRealmRoles s) (selectedRealmMappings s)
     (selectedClientRoles s) [] (pending s),
   match targetClient s with Some c => Returns (c, selectedClientMappings s) | None => Throws TypeError end).

(** ** The page and the server *)

(** The server: what it answers, and what the two kinds of change do.  The roles that are mapped
    or may be mapped, of the realm or of a client, change only by a change of their kind; the
    effective roles may change by both, since roles are composed of others. *)
Context {server : Type} (answer : server → query → list role).
Context (realmChange clientChange : server → server → Prop).

Definition direct (v : var) : bool := match v with RealmComposite | ClientComposite => false | _ => true end.

Context (realm_keeps : ∀ s s' v c, realmChange s s' → isClient v = true → direct v = true →
  answer s' (v, c) = answer s (v, c)).
Context (client_keeps : ∀ s s' v c, clientChange s s' → isClient v = false → direct v = true →
  answer s' (v, c) = answer s (v, c)).

Record system := mkSystem { page : scope; srv : server; realmOpen : nat; clientOpen : nat }.

Inductive step (x : system) : system → Prop :=
  | step_addRealm s' : realmChange (srv x) s' →
      step x (mkSystem (addRealmRole (page x)).1 s' (S (realmOpen x)) (clientOpen x))
  | step_deleteRealm s' : realmChange (srv x) s' →
      step x (mkSystem (deleteRealmRole (page x)).1 s' (S (realmOpen x)) (clientOpen x))
  | step_addClient s' : is_Some (targetClient (page x)) → clientChange (srv x) s' →
      step x (mkSystem (addClientRole (page x)).1 s' (realmOpen x) (S (clientOpen x)))
  | step_deleteClient s' : is_Some (targetClient (page x)) → clientChange (srv x) s' →
      step x (mkSystem (deleteClientRole (page x)).1 s' (realmOpen x) (S (clientOpen x)))
  | step_realmAnswered n : realmOpen x = S n →
      step x (mkSystem (updateRealmRoles (page x)) (srv x) n (clientOpen x))
  | step_clientAnswered n : clientOpen x = S n →
      step x (mkSystem (updateClientRoles (page x)) (srv x) (realmOpen x) n)
  | step_changeClient c : step x (mkSystem (changeClient c (page x)) (srv x) (realmOpen x) (clientOpen x))
  | step_query r q : (r, q) ∈ pending (page x) →
      step x (mkSystem (onQueryAnswered r (answer (srv x) q) (page x)) (srv x) (realmOpen x) (clientOpen x)).

(** A change under way after whose answer the list is queried again. *)
Definition excused (x : system) (v : var) : Prop := if isClient v then 0 < clientOpen x else 0 < realmOpen x.

Definition current (x : system) (v : var) : Prop :=
  ∀ r q, vars (page x) v = Some r → queryFor v (targetClient (page x)) = Some q →
    (r, q) ∈ pending (page x) ∨
    (∀ q', (r, q') ∉ pending (page x)) ∧ (store (page x) !! r = Some (answer (srv x) q) ∨ excused x v).

Definition system_ok (x : system) : Prop := page_ok (page x) ∧ ∀ v, direct v = true → current x v.

(** Lists that are queried again are current; for the others nothing changes. *)
Lemma scope_requeried vs s s' sv n m :
  page_ok s → relabel (assignAll vs s) s' →
  (∀ v, direct v = true → v ∉ vs → current (mkSystem s sv n m) v) → system_ok (mkSystem s' sv n m).
Proof.
  intros Hok Hr Hn. split; [eapply relabel_ok; [exact Hr|by apply assignAll_ok]|]. intros v Hd r q Hv Hq. simpl in *.
  destruct (assignAll_spec vs s v) as [Hw He].
  pose proof (relabel_extends _ _ v Hr) as Hext. destruct (decide (v ∈ vs)) as [Hin|Hin].
  - left. eapply extends_waits; [exact Hext|by apply Hw|done|done].
  - pose proof (extends_trans _ _ _ _ (He Hin) Hext) as (Ht & Hv' & Hp & Hs & Hold & _). simpl in *.
    rewrite Hv' in Hv. rewrite Ht in Hq. destruct Hok as (_ & _ & Hvars).
    destruct (Hn v Hd Hin r q Hv Hq) as [H1|[Hno H1]]; [left; by apply Hp|]. right. split.
    + intros q' Hq'. apply (Hno q'), Hold; [by eapply Hvars|done].
    + destruct H1 as [H1|H1]; [left; by apply Hs|by right].
Qed.

(** A change of the server, before its answer. *)
Lemma scope_changed_ok s s' sv sv' n m n' m' :
  relabel s s' → n ≤ n' → m ≤ m' →
  (∀ v, direct v = true → (if isClient v then 0 < m' else 0 < n') ∨ ∀ c, answer sv' (v, c) = answer sv (v, c)) →
  system_ok (mkSystem s sv n m) → system_ok (mkSystem s' sv' n' m').
Proof.
  intros (E1 & E2 & E3 & E4) Hn Hm Hc [Hok Hcur]. split.
  { unfold page_ok in *. simpl in *. by rewrite E1, E2, E4. }
  intros v Hd r q Hv Hq. simpl in *. rewrite E2 in Hv. rewrite E3 in Hq. rewrite E1, E4.
  destruct (Hcur v Hd r q Hv Hq) as [H1|[Hno H1]]; [by left|]. right. split; [done|].
  destruct (Hc v Hd) as [H2|H2]; [by right|]. simpl in *. destruct H1 as [H1|H1].
  - left. rewrite H1. destruct q as [v' c]. assert (v' = v) as -> by
      (unfold queryFor in Hq; destruct (isClient v), (targetClient s); simplify_eq/=; done). by rewrite H2.
  - right. unfold excused in *. simpl in *. destruct (isClient v); lia.
Qed.

Lemma updateRealmRoles_relabel s :
  relabel (assignAll [RealmRoles; RealmMappings; RealmComposite] s) (updateRealmRoles s).
Proof. by split_and!. Qed.

(** The lists of the client, queried for the client that is chosen or set to null. *)
Lemma updateClientRoles_ok s sv n m :
  page_ok s → (∀ v, isClient v = false → direct v = true → current (mkSystem s sv n m) v) →
  system_ok (mkSystem (updateClientRoles s) sv n m).
Proof.
  intros Hok Hreal. unfold updateClientRoles. destruct (targetClient s) as [c|] eqn:E.
  - apply (scope_requeried [ClientRoles; ClientMappings; ClientComposite] s); [done| |].
    + unfold assignAll, relabel. simpl. unfold clientOf. simpl. by rewrite E.
    + intros v Hd Hv. apply Hreal; [|done]. destruct v; [done..|set_solver|set_solver|set_solver].
  - set (s' := clear _ _). assert (∀ v r, vars s' v = Some r → isClient v = false ∧ vars s v = Some r) as Hv.
    { intros v r. unfold s', clear. simpl. unfold setVar. repeat case_decide; [done..|]. by destruct v. }
    split.
    + destruct Hok as (H1 & H2 & H3). split_and!; [done|done|]. intros v r [_ Hr]%Hv. by eapply H3.
    + intros v Hd r q [Hcl Hr]%Hv Hq. by apply (Hreal v Hcl Hd r q).
Qed.

Lemma scope_onQueryAnswered_ok r q x :
  system_ok x → (r, q) ∈ pending (page x) →
  system_ok (mkSystem (onQueryAnswered r (answer (srv x) q) (page x)) (srv x) (realmOpen x) (clientOpen x)).
Proof.
  intros [(Hnd & Hp & Hv) Hc] Hin. split.
  - split_and!; simpl.
    + eapply sublist_NoDup; [exact Hnd|]. apply fmap_sublist, sublist_filter.
    + intros r' q' [_ Hin']%list_elem_of_filter. rewrite length_insert. by eapply Hp.
    + intros v r' Hr'. rewrite length_insert. by eapply Hv.
  - intros v Hd r' q' Hr' Hq'. simpl in *. destruct (Hc v Hd r' q' Hr' Hq') as [H1|[Hno H1]].
    + destruct (decide (r' = r)) as [->|Hne]; [|left; by apply list_elem_of_filter].
      right. rewrite (pending_unique _ _ _ _ Hnd Hin H1) in *. split.
      * intros q'' [Hne _]%list_elem_of_filter. done.
      * left. by rewrite list_lookup_insert_eq by (by eapply Hp).
    + right. split; [intros q'' [_ Hq'']%list_elem_of_filter; by apply (Hno q'')|].
      destruct H1 as [H1|H1]; [left|by right]. rewrite list_lookup_insert_ne; [done|].
      intros ->. by apply (Hno q).
Qed.

Lemma scope_step_ok x x' : step x x' → system_ok x → system_ok x'.
Proof.
  intros Hs Hx. pose proof Hx as [Hok Hc]. destruct x as [s sv n m]. simpl in *.
  destruct Hs as [s' Hch|s' Hch|s' _ Hch|s' _ Hch|n' Hn|m' Hm|c|r q Hin]; simpl in *.
  1,2: apply (scope_changed_ok s _ sv s' n m); [by split_and!|lia|lia| |done];
    intros v Hd; destruct (isClient v) eqn:E; [right; intros c; by apply realm_keeps|left; lia].
  1,2: apply (scope_changed_ok s _ sv s' n m); [by split_and!|lia|lia| |done];
    intros v Hd; destruct (isClient v) eqn:E; [left; lia|right; intros c; by apply client_keeps].
  - eapply scope_requeried; [done|apply updateRealmRoles_relabel|]. intros v Hd Hv r q Hr Hq.
    destruct (Hc v Hd r q Hr Hq) as [H1|[Hno H1]]; [by left|]. right. split; [done|].
    destruct H1 as [H1|H1]; [by left|]. right. unfold excused in *. simpl in *.
    destruct v; simpl in *; try lia; set_solver.
  - apply updateClientRoles_ok; [done|]. intros v Hcl Hd r q Hr Hq.
    destruct (Hc v Hd r q Hr Hq) as [H1|[Hno H1]]; [by left|]. right. split; [done|].
    destruct H1 as [H1|H1]; [by left|]. right. unfold excused in *. simpl in *. by rewrite Hcl in *.
  - apply updateClientRoles_ok; [done|]. intros v Hcl Hd r q Hr Hq. apply (Hc v Hd r q Hr).
    unfold queryFor in *. by rewrite Hcl in *.
  - by apply (scope_onQueryAnswered_ok r q (mkSystem s sv n m)).
Qed.

Lemma scope_openPage_ok sv : system_ok (mkSystem openPage sv 0 0).
Proof.
  apply (scope_requeried [RealmRoles; RealmMappings; RealmComposite]
    (mkScope [[]; []; []; []] (λ v, match v with RealmMappings => Some 0 | ClientRoles => Some 1
                                               | ClientComposite => Some 2 | ClientMappings => Some 3 | _ => None end)
       None [] [] [] [] [])).
  - split_and!; simpl; [constructor|by intros r q ?%not_elem_of_nil|]. intros v r. destruct v; intros; simplify_eq; lia.
  - by split_and!.
  - intros v Hd Hv r q Hr Hq. unfold queryFor in Hq. simpl in *. destruct v; simplify_eq/=; set_solver.
Qed.

(** However changes, answers and choices of a client follow each other, once all of them are
    answered the lists of mapped and of available roles are the server's. *)
Theorem scope_lists_become_current sv x :
  rtc step (mkSystem openPage sv 0 0) x →
  realmOpen x = 0 → clientOpen x = 0 → pending (page x) = [] →
  ∀ v r q, direct v = true → vars (page x) v = Some r → queryFor v (targetClient (page x)) = Some q →
    store (page x) !! r = Some (answer (srv x) q).
Proof.
  intros Hs Hr Hc Hp. assert (system_ok x) as [_ Hcur].
  { pose proof (scope_openPage_ok sv) as H0. induction Hs as [|x1 x2 x3 H1 _ IH]; [done|].
    apply IH; [done..|]. by eapply scope_step_ok. }
  intros v r q Hd Hv Hq. destruct (Hcur v Hd r q Hv Hq) as [H1|[_ [H1|H1]]].
  - rewrite Hp in H1. by apply not_elem_of_nil in H1.
  - done.
  - unfold excused in H1. destruct (isClient v); lia.
Qed.

(** The effective roles of the other kind are not queried again after a change: the list of
    effective realm roles stays that of before when roles of a client are added, and the other
    way round. *)
Theorem effective_roles_stale s r :
  page_ok s →
  (vars s RealmComposite = Some r →
   vars (updateClientRoles s) RealmComposite = Some r ∧ store (updateClientRoles s) !! r = store s !! r) ∧
  (vars s ClientComposite = Some r →
   vars (updateRealmRoles s) ClientComposite = Some r ∧ store (updateRealmRoles s) !! r = store s !! r).
Proof.
  intros (_ & _ & Hv). split; intros Hr; pose proof (Hv _ _ Hr) as Hlt.
  - unfold updateClientRoles. destruct (targetClient s) as [c|]; simpl.
    + split; [done|]. by rewrite !lookup_app_l by (rewrite ?length_app; lia).
    + by split.
  - unfold updateRealmRoles. simpl. split; [done|]. by rewrite !lookup_app_l by (rewrite ?length_app; lia).
Qed.

(** [changeClient] does not reset the selection, as that of role mappings does: unless the box
    of roles does, the roles selected before are sent for the client chosen since. *)
Theorem selection_outlives_client s c :
  (addClientRole (changeClient (Some c) s)).2 = Returns (c, selectedClientRoles s).
Proof. done. Qed.

End page.
End ScopeMappings.
