(* ===== verification/ClientEvaluate.v ===== *)
(** The page that evaluates the scopes of a client, [ClientClientScopesEvaluateCtrl] of
    clients.js: the user and the scope parameter it asks for, the tabs, and what it shows of the
    answers.  The lists of scopes it keeps are in [ClientScopes].

    Mappers and roles are arrays that a query returns at once: what is shown is known by the
    query it was asked with.  The token comes by a callback, which assigns it when it comes. *)

From S2P Require Import Prelude JsString JsValue ClientScopes.
Import JsString JsValue.

Module ClientEvaluate.

(** A query for roles: their container and the scope parameter. *)
Definition roleQuery : Type := string * string.

(** A request for a token: the user and the scope parameter. *)
Definition tokenRequest : Type := string * string.

Record page := mkPage {
  scopeParam : string;
  userId : option string;                  (* null or '' is no user *)
  protocolMappers : option string;         (* by its scope parameter *)
  realmRoles : option roleQuery;           (* granted and not granted *)
  clientRoles : option roleQuery;
  targetClient : option string;
  accessToken : option tokenRequest;
  selectedTab : nat;
  asked : list tokenRequest                (* tokens that have not come *)
}.

Definition eta_page (p : page) : page :=
  mkPage (scopeParam p) (userId p) (protocolMappers p) (realmRoles p) (clientRoles p) (targetClient p)
    (accessToken p) (selectedTab p) (asked p).

#[global] Instance set_scopeParam : Field scopeParam := ltac:(mk_field eta_page scopeParam).
#[global] Instance set_userId : Field userId := ltac:(mk_field eta_page userId).
#[global] Instance set_protocolMappers : Field protocolMappers := ltac:(mk_field eta_page protocolMappers).
#[global] Instance set_realmRoles : Field realmRoles := ltac:(mk_field eta_page realmRoles).
#[global] Instance set_clientRoles : Field clientRoles := ltac:(mk_field eta_page clientRoles).
#[global] Instance set_targetClient : Field targetClient := ltac:(mk_field eta_page targetClient).
#[global] Instance set_accessToken : Field accessToken := ltac:(mk_field eta_page accessToken).
#[global] Instance set_selectedTab : Field selectedTab := ltac:(mk_field eta_page selectedTab).
#[global] Instance set_asked : Field asked := ltac:(mk_field eta_page asked).

Definition clearEvalResponse (p : page) : page :=
  mkPage (scopeParam p) (userId p) None None None None None 0 (asked p).

(** [updateState], with the lists it has computed. *)
Definition updateState (e : ClientScopes.evaluation) (p : page) : page :=
  clearEvalResponse (p <| scopeParam := ClientScopes.scopeParam e |>).

Definition openPage (defaults optionals : list ClientScopes.clientScope) : page :=
  updateState (ClientScopes.openEvaluation defaults optionals) (mkPage "" None None None None None None 0 []).

(** [selectUser], with the identifier of the user, if there is one. *)
Definition selectUser (user : option string) (p : page) : page :=
  let p := clearEvalResponse p in
  match user with
  | Some id => if String.eqb id "" then p <| userId := None |> else p <| userId := Some id |>
  | None => p <| userId := None |>
  end.

(** [updateScopeRealmRoles] and [updateScopeClientRoles] *)
Definition updateScopeRealmRoles (realm : string) (p : page) : page :=
  p <| realmRoles := Some (realm, scopeParam p) |>.

Definition updateScopeClientRoles (p : page) : page :=
  p <| clientRoles := (λ c, (c, scopeParam p)) <$> targetClient p |>.

Definition showTab (tab : nat) (p : page) : page := p <| selectedTab := tab |>.

(** [sendEvaluationRequest]; [oidc] is [client.protocol === 'openid-connect']. *)
Definition sendEvaluationRequest (realm : string) (oidc : bool) (p : page) : page :=
  let p := p <| protocolMappers := Some (scopeParam p) |> in
  let p := updateScopeRealmRoles realm p in
  let p := match userId p with
           | Some u => if oidc then p <| asked ::= λ l, l ++ [(u, scopeParam p)] |> else p
           | None => p
           end in
  showTab 1 p.

(** A choice of the client whose roles are shown, with [changeClient]. *)
Definition changeClient (c : option string) (p : page) : page :=
  updateScopeClientRoles (p <| targetClient := c |>).

(** The answer to the i-th request for a token; [None] is an empty body. *)
Definition onToken (i : nat) (ok : bool) (p : page) : page :=
  match asked p !! i with
  | Some r => p <| asked := delete i (asked p) |> <| accessToken := if ok then Some r else None |>
  | None => p
  end.

Definition isResponseAvailable (p : page) : bool := bool_decide (is_Some (protocolMappers p)).
Definition isTokenAvailable (p : page) : bool := bool_decide (is_Some (accessToken p)).
Definition protocolMappersShown (p : page) : bool := selectedTab p =? 1.
Definition rolesShown (p : page) : bool := selectedTab p =? 2.
Definition tokenShown (p : page) : bool := selectedTab p =? 3.

(** The classes of the tabs. *)
Definition tabCss (tab : nat) : option (string * string * string) :=
  match tab with
  | 1 => Some ("active", "", "")
  | 2 => Some ("", "active", "")
  | 3 => Some ("", "", "active")
  | _ => None
  end.

Inductive step (realm : string) (oidc : bool) (p : page) : page → Prop :=
  | step_scopes e : step realm oidc p (updateState e p)
  | step_user u : step realm oidc p (selectUser u p)
  | step_send : step realm oidc p (sendEvaluationRequest realm oidc p)
  | step_client c : step realm oidc p (changeClient c p)
  | step_tab t : step realm oidc p (showTab t p)
  | step_token i ok : step realm oidc p (onToken i ok p).

(** ** What is shown belongs to the scopes that are chosen *)

Definition lists_ok (realm : string) (p : page) : Prop :=
  (∀ s, protocolMappers p = Some s → s = scopeParam p) ∧
  (∀ q, realmRoles p = Some q → q = (realm, scopeParam p)) ∧
  (∀ q, clientRoles p = Some q → ∃ c, targetClient p = Some c ∧ q = (c, scopeParam p)).

Lemma selectUser_cleared u p : ∃ q, selectUser u p = clearEvalResponse p <| userId := q |>.
Proof. unfold selectUser. destruct u as [id|]; [destruct (String.eqb id "")|]; by eexists. Qed.

Lemma step_lists realm oidc p p' : step realm oidc p p' → lists_ok realm p → lists_ok realm p'.
Proof.
  intros [a|u| |c|t|i ok] (H1 & H2 & H3).
  - by split_and!.
  - destruct (selectUser_cleared u p) as [q ->]. by split_and!.
  - unfold sendEvaluationRequest. destruct (userId _), oidc; split_and!; simpl; try done; by intros ? [= <-].
  - split_and!; simpl; [done|done|]. intros q. destruct c as [c|]; [|done]. intros [= <-]. by exists c.
  - by split_and!.
  - unfold onToken. destruct (asked p !! i); by split_and!.
Qed.

(** Whatever is chosen, asked for and answered in whatever order: the mappers and roles the page
    shows are those of the scopes, the realm and the client that are chosen now. *)
Theorem evaluation_shows_chosen realm oidc defaults optionals p :
  rtc (step realm oidc) (openPage defaults optionals) p → lists_ok realm p.
Proof.
  intros Hs. assert (lists_ok realm (openPage defaults optionals)) as H by (by split_and!). revert H.
  induction Hs as [|p1 p2 p3 H12 _ IH]; [done|]. intros H. apply IH. by eapply step_lists.
Qed.

(** A token asked for while no other is under way, and answered before another choice, is that of
    the user and the scopes that are chosen. *)
Theorem token_of_waiting realm oidc p :
  asked p = [] →
  let p1 := sendEvaluationRequest realm oidc p in
  match userId p with
  | Some u => if oidc then accessToken (onToken 0 true p1) = Some (u, scopeParam p1) ∧ asked (onToken 0 true p1) = []
              else asked p1 = []
  | None => asked p1 = []
  end.
Proof.
  intros Ha. unfold sendEvaluationRequest, onToken. simpl.
  destruct (userId p) as [u|], oidc; simpl; by rewrite ?Ha.
Qed.

(** A token that comes after another user is chosen is shown as that user's: the answer is
    assigned whatever has been chosen since. *)
Theorem late_token_shown realm p u u' :
  u' ≠ "" → userId p = Some u → asked p = [] →
  let p1 := selectUser (Some u') (sendEvaluationRequest realm true p) in
  let p2 := onToken 0 true p1 in
  userId p2 = Some u' ∧ isTokenAvailable p1 = false ∧ isTokenAvailable p2 = true ∧
  accessToken p2 = Some (u, scopeParam p).
Proof.
  intros Hu' Hu Ha. unfold sendEvaluationRequest. simpl. rewrite Hu. unfold selectUser.
  apply String.eqb_neq in Hu' as ->. unfold onToken. simpl. by rewrite Ha.
Qed.

(** Each tab highlights itself and no other. *)
Theorem tabs_exclusive t :
  1 ≤ t ≤ 3 → ∀ p, let q := showTab t p in
  (protocolMappersShown q, rolesShown q, tokenShown q) = (t =? 1, t =? 2, t =? 3) ∧
  tabCss t = Some (if t =? 1 then "active" else "", if t =? 2 then "active" else "", if t =? 3 then "active" else "").
Proof. intros Ht p. do 4 (destruct t as [|t]; [by try lia|]). lia. Qed.

End ClientEvaluate.
