(* ===== verification/ClientMappers.v ===== *)
(** Protocol mappers (clients.js): the lists of mappers, the page of a mapper of a client
    ([ClientProtocolMapperCtrl]) and of a client scope ([ClientScopeProtocolMapperCtrl]), and the
    pages that create one. *)

From S2P Require Import Prelude JsString Uri JsValue JsText AngularEquals ClientScopes ClientForms AdminShared IdentityProviders.
Import JsString Uri JsValue JsText AngularEquals.

Module ClientMappers.

Abbreviation object := (list (string * jsval)).

(** ** Types of mappers *)

(** The map from identifiers to types. *)
Definition mapperTypes (types : list object) : object :=
  foldl (λ m t, obj_set (to_string (assoc "id" t)) (Obj t) m) [] types.

(** [model.mapperType], by the loop without [break]. *)
Definition typeOf (types : list object) (mapper : object) : option object :=
  foldl (λ found t, if strict_eq (assoc "id" t) (assoc "protocolMapper" mapper) then Some t else found) None types.

(** ** The page of a mapper *)

(** The closure's [mapper], and [model.mapper] and [model.changed]. *)
Record page := mkPage { original : jsval; mapper : jsval; changed : bool }.

Definition openMapper (m : object) : page := mkPage (Obj m) (Obj m) false.

(** The watch of [model.mapper]. *)
Definition watchMapper (p : page) : page :=
  if equals (mapper p) (original p) then p else mkPage (original p) (mapper p) true.

(** A new value, with the watch when it is another one. *)
Definition setMapper (v : jsval) (p : page) : page :=
  if equals v (mapper p) then mkPage (original p) v (changed p) else watchMapper (mkPage (original p) v (changed p)).

(** [save] up to the request: its identifier and body. *)
Definition saveMapper (p : page) : outcome (jsval * jsval) :=
  id ← getp (mapper p) "id"; Returns (id, mapper p).

(** The answer on the page of a client: [mapper = angular.copy($scope.mapper)], a variable that
    [$scope] does not have. *)
Definition onSaved (p : page) : page := mkPage Undefined (mapper p) false.

(** The answer on the page of a client scope: the route is loaded again, with what the server
    has. *)
Definition onScopeSaved (server : object) : page := openMapper server.

Definition resetMapper (p : page) : page :=
  let q := setMapper (original p) p in mkPage (original q) (mapper q) false.

(** The dialog of [remove], and the identifier of its request. *)
Definition removeMapper (p : page) : outcome (AdminShared.dialog * jsval) :=
  name ← getp (mapper p) "name"; id ← getp (mapper p) "id";
  Returns (AdminShared.confirmDelete (to_string name) "mapper", id).

(** ** Creating a mapper *)

(** The pages of a client and of a client scope; only the first watches the type and applies
    the defaults of its properties. *)
Inductive owner := OfClient | OfScope.

Record newPage := mkNew { n_mapper : object; n_types : list object; n_type : option object }.

Definition propertiesOf (t : object) : option (list (jsval * jsval)) :=
  match assoc "properties" t with
  | Arr ps => Some ((λ p, match p with Obj o => (assoc "name" o, assoc "defaultValue" o) | _ => (Undefined, Undefined) end) <$> ps)
  | _ => None
  end.

Definition applyDefaults (o : owner) (p : newPage) : newPage :=
  match o with
  | OfClient =>
      mkNew (obj_set "config" (Obj (ClientScopes.defaultConfig (t ← n_type p; propertiesOf t))) (n_mapper p))
        (n_types p) (n_type p)
  | OfScope => p
  end.

(** The page after its first digest: the first type is chosen. *)
Definition openNew (o : owner) (protocol : jsval) (types : list object) : newPage :=
  applyDefaults o
    (mkNew [("protocol", ClientScopes.protocolOr protocol); ("config", Obj [])] types (head types)).

Definition chooseType (o : owner) (t : object) (p : newPage) : newPage :=
  if bool_decide (n_type p = Some t) then p else applyDefaults o (mkNew (n_mapper p) (n_types p) (Some t)).

Definition saveNew (p : newPage) : outcome object :=
  match n_type p with
  | Some t => Returns (obj_set "protocolMapper" (assoc "id" t) (n_mapper p))
  | None => Throws TypeError
  end.

Definition mapperUrl (realm : string) (o : owner) (owner id : string) : string :=
  "/realms/" +:+ realm +:+ match o with OfClient => "/clients/" | OfScope => "/client-scopes/" end +:+ owner
    +:+ "/mappers/" +:+ id.

Definition onCreated (realm : string) (o : owner) (owner location : string) : string :=
  mapperUrl realm o owner (ClientForms.createdId location).

(** ** Types *)

(** A type is found by its identifier in the map exactly when one of the list has it, and then
    it is the last of them. *)
Theorem mapperTypes_spec types id :
  assoc id (mapperTypes types) = from_option Obj Undefined (last (filter (λ t, to_string (assoc "id" t) = id) types)).
Proof.
  unfold mapperTypes. induction types as [|t types IH] using rev_ind; [done|].
  rewrite foldl_app, filter_app. simpl. destruct (decide (to_string (assoc "id" t) = id)) as [<-|Hne].
  - by rewrite assoc_obj_set, filter_cons_True, filter_nil, last_snoc by done.
  - by rewrite assoc_obj_set_ne, filter_cons_False, filter_nil, (right_id_L [] (++)) by done.
Qed.

(** ** Editing *)

Lemma setMapper_original v p : original (setMapper v p) = original p.
Proof. unfold setMapper, watchMapper. by repeat case_match. Qed.

Lemma setMapper_mapper v p : mapper (setMapper v p) = v.
Proof. unfold setMapper, watchMapper. by repeat case_match. Qed.

Lemma resetMapper_spec p : resetMapper p = mkPage (original p) (original p) false.
Proof. unfold resetMapper. by rewrite setMapper_original, setMapper_mapper. Qed.

(** Before anything is saved a reset brings back the mapper, whatever was edited. *)
Theorem reset_before_save m vs :
  resetMapper (foldl (λ p v, setMapper v p) (openMapper m) vs) = openMapper m.
Proof.
  rewrite resetMapper_spec. assert (∀ p, original (foldl (λ p v, setMapper v p) p vs) = original p) as ->; [|done].
  induction vs as [|v vs IH]; intros p; simpl; [done|]. by rewrite IH, setMapper_original.
Qed.

(** After a save a reset empties the form of a mapper of a client: the mapper it compares to is
    [undefined].  From then on saving and removing throw. *)
Theorem reset_after_mapper_saved m vs ws :
  let p := resetMapper (foldl (λ p v, setMapper v p) (onSaved (foldl (λ p v, setMapper v p) (openMapper m) vs)) ws) in
  p = mkPage Undefined Undefined false ∧ saveMapper p = Throws TypeError ∧ removeMapper p = Throws TypeError.
Proof.
  assert (∀ ws p, original (foldl (λ p v, setMapper v p) p ws) = original p) as Hf.
  { clear. intros ws. induction ws as [|v ws IH]; intros p; simpl; [done|]. by rewrite IH, setMapper_original. }
  simpl. rewrite resetMapper_spec, Hf. done.
Qed.

(** Any edit after it counts as a change, also one that restores what was saved. *)
Theorem edit_after_save_changed p v w :
  v ≠ Undefined → equals v (mapper p) = false →
  changed (setMapper v (onSaved p)) = true ∧ changed (setMapper w (setMapper v (onSaved p))) = true.
Proof.
  intros Hv He. assert (setMapper v (onSaved p) = mkPage Undefined v true) as ->.
  { unfold setMapper, watchMapper. simpl. rewrite He. by destruct (equals v Undefined) eqn:E;
      [apply equals_undefined_r in E|]. }
  split; [done|]. unfold setMapper, watchMapper. simpl. by destruct (equals w v), (equals w Undefined).
Qed.

(** ** Creating *)

(** A new mapper of a client starts with the defaults of its type, also after another type is
    chosen; one of a client scope starts, and stays, without. *)
Theorem new_mapper_defaults protocol types t ts :
  types = t :: ts →
  (∀ t', assoc "config" (n_mapper (chooseType OfClient t' (openNew OfClient protocol types))) =
           Obj (ClientScopes.defaultConfig (propertiesOf t'))) ∧
  (∀ t', assoc "config" (n_mapper (chooseType OfScope t' (openNew OfScope protocol types))) = Obj []).
Proof.
  intros ->. split; intros t'; unfold chooseType, openNew; simpl; case_bool_decide as E; simpl;
    rewrite ?assoc_obj_set; try done. by injection E as ->.
Qed.

(** What is sent names the protocol and the type, and its page is that of the answer. *)
Theorem created_client_mapper realm o own protocol t ts server id :
  find_last "/" id = None →
  ∃ b, saveNew (openNew o protocol (t :: ts)) = Returns b ∧
    assoc "protocol" b = ClientScopes.protocolOr protocol ∧ assoc "protocolMapper" b = assoc "id" t ∧
    onCreated realm o own (server +:+ "/" +:+ id) = mapperUrl realm o own id.
Proof.
  intros Hid. unfold onCreated. rewrite ClientForms.createdId_spec by done.
  destruct o; (eexists; split; [done|]; split; [|split; [|done]]; simpl; done).
Qed.

End ClientMappers.
