(* ===== verification/ClientTabs.v ===== *)
(** Tabs of a client (clients.js): import and export of keys, the secret, sessions, clustering,
    revocation, installation, identity providers, and the list of clients; and the members of a
    role (roles.js). *)

From S2P Require Import Prelude JsString Uri JsValue Json JsText AngularEquals AdminServices RealmImport RealmTokens AdminShared IdentityProviders.
Import JsString Uri JsValue Json JsText AngularEquals.

Module ClientTabs.

Abbreviation object := (list (string * jsval)).

Definition clientUrl (realm client : string) : string := "/realms/" +:+ realm +:+ "/clients/" +:+ client.

(** ** Keys *)

(** [callingContext], which the routes set. *)
Inductive context := Saml | Jwt.

Definition certificatesUrl (authUrl realm client attribute : string) : string :=
  authUrl +:+ "/admin/realms/" +:+ realm +:+ "/clients/" +:+ client +:+ "/certificates/" +:+ attribute.

Definition uploadUrl (c : context) (authUrl realm client attribute : string) : string :=
  certificatesUrl authUrl realm client attribute +:+ match c with Saml => "/upload" | Jwt => "/upload-certificate" end.

Definition redirectLocation (c : context) (realm client : string) : string :=
  clientUrl realm client +:+ match c with Saml => "/saml/keys" | Jwt => "/credentials" end.

Definition keyFormats (c : context) : list string :=
  ["JKS"; "PKCS12"; "Certificate PEM"] ++ match c with Saml => [] | Jwt => ["Public Key PEM"; "JSON Web Key Set"] end.

Definition hideKeystoreSettings (format : string) : bool :=
  String.eqb format "Certificate PEM" || String.eqb format "Public Key PEM" || String.eqb format "JSON Web Key Set".

(** [uploadFile]: a request for each file, with the settings of the form. *)
Definition uploadFile (c : context) (authUrl realm client attribute : string) (settings : object) (files : list string)
    : list (string * object * string) :=
  (λ f, (uploadUrl c authUrl realm client attribute, settings, f)) <$> files.

(** *** The export *)

Definition downloadUrl (c : context) (authUrl realm client attribute : string) : string :=
  certificatesUrl authUrl realm client attribute +:+ match c with Saml => "/download" | Jwt => "/generate-and-download" end.

Definition newJks (c : context) (realm clientId : string) : object :=
  [("keyAlias", Str clientId); ("realmAlias", Str realm);
   ("realmCertificate", Bool match c with Saml => true | Jwt => false end); ("format", Str "JKS")].

(** The file that is saved, and where the page goes before. *)
Definition onDownloaded (c : context) (realm client : string) (jks : object) : string * option string :=
  ("keystore" +:+ (if strict_eq (assoc "format" jks) (Str "PKCS12") then ".p12" else ".jks"),
   match c with Saml => None | Jwt => Some (clientUrl realm client +:+ "/credentials") end).

(** [String.fromCharCode] of bytes: each byte is a code unit. *)
Fixpoint fromBytes (s : string) : string :=
  match s with
  | "" => ""
  | String a s =>
      let n := code a in
      (if n <? 128 then String a ""
       else String (ascii_of_nat (192 + n / 64)) (String (ascii_of_nat (128 + n mod 64)) "")) +:+ fromBytes s
  end.

(** The message of an error, from the bytes of its body; what is thrown is caught. *)
Definition downloadError (body : string) : jsval :=
  match (e ← JSON_parse (fromBytes body); getp e "error_description") with
  | Returns d => if truthy d then d else Str "Error downloading"
  | Throws _ => Str "Error downloading"
  end.

Definition cancelExport (realm client : string) : string := clientUrl realm client +:+ "/credentials".

(** *** The secret *)

(** The answers of [ClientSecretCtrl]: the secret shown. *)
Definition onSecret (value : string) : string := value.
Definition onSecretFailed : string := "error".

(** ** Sessions *)

Section sessions.
Context {A : Type}.

(** [query.first], what is shown, and the pages asked for, by their first row. *)
Record sessions := mkSessions { first : Z; shown : list A; asked : list Z }.

Definition max : Z := 5.

Definition openSessions : sessions := mkSessions 0 [] [].

Definition loadUsers (s : sessions) : sessions := mkSessions (first s) (shown s) (asked s ++ [first s]).

Definition at_first (f : Z) (s : sessions) : sessions :=
  loadUsers (mkSessions (if (f <? 0)%Z then 0 else f) (shown s) (asked s)).

Definition firstPage (s : sessions) : sessions := at_first 0 s.
Definition previousPage (s : sessions) : sessions := at_first (first s - max) s.
Definition nextPage (s : sessions) : sessions := loadUsers (mkSessions (first s + max) (shown s) (asked s)).

(** The answer to the i-th query. *)
Definition onSessions (rows : Z → list A) (i : nat) (s : sessions) : sessions :=
  match asked s !! i with
  | Some f => mkSessions (first s) (rows f) (delete i (asked s))
  | None => s
  end.

(** [RoleMembersCtrl]: the array of the last query, by the row it starts at. *)
Record members := mkMembers { m_first : Z; m_users : Z }.

Definition searchQuery (m : members) : members := mkMembers (m_first m) (m_first m).
Definition openMembers : members := searchQuery (mkMembers 0 0).
Definition firstMembers (m : members) : members := searchQuery (mkMembers 0 (m_users m)).
Definition previousMembers (m : members) : members :=
  searchQuery (mkMembers (if (m_first m - max <? 0)%Z then 0 else (m_first m - max)%Z) (m_users m)).
Definition nextMembers (m : members) : members := searchQuery (mkMembers (m_first m + max) (m_users m)).

End sessions.
Arguments sessions : clear implicits.

(** ** Clustering *)

(** The two assignments to the client, for its time in seconds. *)
Definition openClustering (client : object) (t : Z) : outcome object :=
  let u := AdminServices.autoUnit t in
  x ← AdminServices.toUnit t u;
  Returns (obj_set "nodeReRegistrationTimeout" (Num x) (obj_set "nodeReRegistrationTimeoutUnit" (Str u) client)).

(** The watch, which compares with the copy made before. *)
Definition clusteringChanged (oldCopy client : object) : bool := negb (equals (Obj client) (Obj oldCopy)).

(** [save], up to the request, for the time and the unit of the form. *)
Definition saveClustering (client : object) (t : Z) (u : string) : outcome object :=
  s ← AdminServices.toSeconds t u;
  Returns (obj_set "nodeReRegistrationTimeout" (Num s) (RealmImport.obj_del "nodeReRegistrationTimeoutUnit" client)).

(** The hosts of [registeredNodes], in the order of its keys, with their times. *)
Definition nodeRegistrations (nodes : list (string * Z)) : list (string * Z) :=
  (λ '(host, t), (host, (t * 1000)%Z)) <$> nodes.

(** [ClientClusteringNodeCtrl]: the host of the form, whether it is registered, and whether the
    page creates; [nodes] is [None] for a client without nodes. *)
Definition openNode (param : option string) (nodes : option (list (string * Z))) : outcome (option string * bool * bool) :=
  match param with
  | None => Returns (None, false, true)
  | Some host =>
      match nodes with
      | None => Throws TypeError
      | Some ns =>
          Returns (Some host,
            match list_find (λ n, n.1 = host) ns with Some (_, n) => negb (n.2 =? 0)%Z | None => false end, false)
      end
  end.

(** *** Results *)

Definition clientPush (succeeded failed : option (list string)) : RealmTokens.result :=
  match RealmTokens.pushRevocation succeeded failed with
  | RealmTokens.Done _ => RealmTokens.Done ("Successfully push notBefore to: " +:+ join "," (default [] succeeded))
  | r => r
  end.

Definition testNodesAvailable (succeeded failed : option (list string)) : RealmTokens.result :=
  if (length (default [] succeeded) =? 0) && (length (default [] failed) =? 0)
  then RealmTokens.Warn "No requests sent. No admin URI configured or no registered cluster nodes available"
  else if 0 <? length (default [] failed)
  then RealmTokens.Failure
         ((if 0 <? length (default [] succeeded)
           then "Successfully verify availability for " +:+ join "," (default [] succeeded) +:+ " . " else "")
          +:+ "Failed to verify availability for: " +:+ join "," (default [] failed)
          +:+ ". Fix or unregister failed cluster nodes and try again")
  else RealmTokens.Done ("Successfully sent requests to: " +:+ join "," (default [] succeeded)).

(** ** Installation *)

Record format := mkFormat { fm_id : string; fm_mediaType : string; fm_filename : string }.

Section installation.
(** [angular.toJson(v, true)] *)
Context (toJson : jsval → string).

(** The format that is chosen, the text shown, and the formats asked for. *)
Record installation := mkInstallation { configFormat : option format; text : option jsval; requested : list format }.

Definition openInstallation : installation := mkInstallation None None [].

(** A choice, with [changeFormat]; the empty choice has no identifier to ask for. *)
Definition changeFormat (f : option format) (p : installation) : outcome installation :=
  match f with
  | Some f => Returns (mkInstallation (Some f) (text p) (requested p ++ [f]))
  | None => Throws TypeError
  end.

Definition fromJson (v : jsval) : outcome jsval := match v with Str s => JSON_parse s | v => Returns v end.

(** The answer to the i-th request: an archive is kept as it is; otherwise the callback reads
    the media type of the format that is chosen by then. *)
Definition onInstallation (i : nat) (data : jsval) (p : installation) : outcome installation :=
  match requested p !! i with
  | None => Returns p
  | Some f =>
      t ← (if String.eqb (fm_mediaType f) "application/zip" then Returns data
           else match configFormat p with
                | None => Throws TypeError
                | Some g => if String.eqb (fm_mediaType g) "application/json"
                            then v ← fromJson data; Returns (Str (toJson v)) else Returns data
                end);
      Returns (mkInstallation (configFormat p) (Some t) (delete i (requested p)))
  end.

(** [download]: the content and the name of the file. *)
Definition downloadInstallation (p : installation) : outcome (option jsval * string) :=
  match configFormat p with Some f => Returns (text p, fm_filename f) | None => Throws TypeError end.

End installation.

(** ** The list of clients *)

(** [search.clientId], [None] until something is typed; a client by its [clientId]. *)
Record clientList := mkList { clients : list string; search : option string; numberOfPages : nat; currentPage : nat }.

Definition pageSize : nat := 20.

(** [Math.ceil(n / pageSize)] *)
Definition pagesOf (n : nat) : nat := (n + (pageSize - 1)) / pageSize.

(** [filterFilter], by the text of [search.clientId]: an exclamation mark negates, and capitals
    and small letters are the same. *)
Definition lower (a : ascii) : ascii := if is_upper a then ascii_of_nat (code a + 32) else a.

Fixpoint lowercase (s : string) : string :=
  match s with "" => "" | String a s => String (lower a) (lowercase s) end.

Fixpoint matchesTerm (term c : string) : bool :=
  match term with
  | String "!"%char term => negb (matchesTerm term c)
  | _ => bool_decide (is_Some (find_s (lowercase term) (lowercase c)))
  end.

Definition matching (s : option string) (l : list string) : list string :=
  match s with Some t => filter (λ c, matchesTerm t c = true) l | None => l end.

(** The watch of [search]. *)
Definition typeSearch (s : string) (p : clientList) : clientList :=
  mkList (clients p) (Some s) (pagesOf (length (matching (Some s) (clients p)))) 1.

Definition openList : clientList := mkList [] None (pagesOf 0) 1.

(** The answer to a query. *)
Definition onClients (l : list string) (p : clientList) : clientList :=
  mkList l (search p) (pagesOf (length l)) (currentPage p).

(** [searchClient]: the parameter it asks with. *)
Definition searchClient (p : clientList) : outcome string :=
  match search p with Some s => Returns s | None => Throws TypeError end.

(** ** Identity providers of a client *)

(** A provider of the client: its identifier and [retrieveToken]; a row of the page has the
    identifier of its provider. *)
Record clientProvider := mkClientProvider { cp_id : string; cp_retrieveToken : jsval }.

(** [toString], of what is truthy of the booleans of the client's representation; without
    providers the array is empty. *)
Definition providersOf (l : option (list (string * bool))) : list clientProvider :=
  (λ p, mkClientProvider p.1 (if p.2 : bool then Str "true" else Bool false)) <$> default [] l.

Definition missingProvider (id : string) : clientProvider := mkClientProvider id (Str "false").

(** [$scope.identityProviders[i] = ...], where the array may get holes. *)
Definition setRow (i : nat) (r : clientProvider) (rows : list (option clientProvider)) : list (option clientProvider) :=
  <[i := Some r]> (rows ++ replicate (S i - length rows) None).

(** The first loop: a provider of the realm that the client has gets a row at the client's
    index; the others are missing. *)
Definition placeProvider (cs : list clientProvider) (st : list (option clientProvider) * list string) (id : string)
    : list (option clientProvider) * list string :=
  match list_find (λ c, cp_id c = id) cs with
  | Some (i, c) => (setRow i (mkClientProvider id (cp_retrieveToken c)) st.1, st.2)
  | None => (st.1, st.2 ++ [id])
  end.

(** The second loop: what is missing is pushed to both arrays. *)
Definition openProviders (cs : list clientProvider) (realmIds : list string)
    : list (option clientProvider) * list clientProvider :=
  let '(rows, missing) := foldl (placeProvider cs) ([], []) realmIds in
  (rows ++ (Some <$> (missingProvider <$> missing)), cs ++ (missingProvider <$> missing)).

(** ** Keys *)

(** The settings of a keystore are asked for exactly where the file is one, and every format is
    offered that the page of the key has. *)
Theorem keystore_settings c f : f ∈ keyFormats c → hideKeystoreSettings f = negb (bool_decide (f ∈ ["JKS"; "PKCS12"])).
Proof.
  unfold keyFormats. destruct c; simpl; rewrite !elem_of_cons; intros H;
    repeat (destruct H as [->|H]; [by vm_compute|]); by apply not_elem_of_nil in H.
Qed.

(** Leaving the import goes back to the page it was opened from; leaving the export of a SAML
    key goes to the credentials, which are another page. *)
Theorem saml_export_leaves_elsewhere realm client :
  cancelExport realm client = redirectLocation Jwt realm client ∧
  cancelExport realm client ≠ redirectLocation Saml realm client.
Proof.
  split; [done|]. unfold cancelExport, redirectLocation. intros H.
  apply (f_equal (drop_s (String.length (clientUrl realm client)))) in H. by rewrite !drop_s_app in H.
Qed.

Lemma fromBytes_ascii s : forall_chars (λ a, code a <? 128) s = true → fromBytes s = s.
Proof. induction s as [|a s IH]; simpl; [done|]. intros [-> Hs]%andb_true_iff. simpl. by rewrite IH. Qed.

(** A failed download shows the description of the server, if it is one and in ASCII, and the
    default message whatever else the body is. *)
Theorem download_error_message body :
  forall_chars (λ a, code a <? 128) body = true →
  downloadError body = Str "Error downloading" ∨
  ∃ o, JSON_parse body = Returns o ∧ getp o "error_description" = Returns (downloadError body) ∧
    truthy (downloadError body) = true.
Proof.
  intros Ha. unfold downloadError. rewrite fromBytes_ascii by done.
  destruct (JSON_parse body) as [v|e]; [|by left]. simpl.
  destruct (getp v "error_description") as [d|e] eqn:E; [|by left].
  destruct (truthy d) eqn:Ht; [|by left]. right. by exists v.
Qed.

(** Other descriptions are garbled: the bytes of UTF-8 are taken for characters. *)
Theorem download_error_garbled :
  downloadError ("{" +:+ quote "error_description" +:+ ":" +:+ quote "clé" +:+ "}") = Str "clÃ©".
Proof. by vm_compute. Qed.

(** ** Sessions *)

Section paging.
Context {A : Type} (rows : Z → list A).

(** Answers in the order of the queries. *)
Inductive in_order (s : sessions A) : sessions A → Prop :=
  | order_first : in_order s (firstPage s)
  | order_previous : in_order s (previousPage s)
  | order_next : in_order s (nextPage s)
  | order_load : in_order s (loadUsers s)
  | order_answer : in_order s (onSessions rows 0 s).

Definition sessions_ok (s : sessions A) : Prop :=
  (0 ≤ first s)%Z ∧ match last (asked s) with Some f => f = first s | None => shown s = rows (first s) end.

Lemma loadUsers_ok s : (0 ≤ first s)%Z → sessions_ok (loadUsers s).
Proof. intros Hf. split; [done|]. simpl. by rewrite last_snoc. Qed.

Lemma in_order_ok s s' : in_order s s' → sessions_ok s → sessions_ok s'.
Proof.
  intros [| | | |] [Hf Hl]; try (apply loadUsers_ok; simpl; unfold max; try lia).
  - destruct (Z.ltb_spec (first s - 5) 0); lia.
  - unfold onSessions. destruct (asked s) as [|f l] eqn:E; simpl; [by split; rewrite ?E|]. split; [done|]. simpl.
    destruct l as [|f' l]; [by simpl in Hl; subst|]. rewrite last_cons_cons in Hl.
    destruct (last (f' :: l)) eqn:El; [done|]. by apply last_None in El.
Qed.

(** As long as answers come in order, the rows are those of the page that is chosen once all
    have come, and no page starts before the first row. *)
Theorem sessions_shown s :
  rtc in_order (loadUsers openSessions) s → asked s = [] → (0 ≤ first s)%Z ∧ shown s = rows (first s).
Proof.
  intros Hs Ha. assert (sessions_ok s) as [H1 H2]; [|rewrite Ha in H2; done].
  assert (sessions_ok (loadUsers openSessions)) as H0 by done. clear Ha. revert H0.
  induction Hs as [|s1 s2 s3 H _ IH]; [done|]. intros H0. apply IH. by eapply in_order_ok.
Qed.

(** An answer that is overtaken is shown under the page chosen since. *)
Theorem sessions_overtaken s f :
  asked s = [] → first s = f → (0 ≤ f)%Z →
  let s2 := onSessions rows 0 (onSessions rows 1 (previousPage (nextPage s))) in
  first s2 = f ∧ asked s2 = [] ∧ shown s2 = rows (f + max)%Z.
Proof.
  intros Ha <- Hf. unfold previousPage, nextPage, at_first, loadUsers, onSessions, max. simpl. rewrite Ha. simpl.
  destruct (Z.ltb_spec (first s + 5 - 5) 0); [lia|]. split_and!; [lia|done|done].
Qed.

End paging.

(** The members of a role are always those of the page that is chosen: a query replaces the
    array, and answers fill their own. *)
Inductive members_step (m : members) : members → Prop :=
  | members_first : members_step m (firstMembers m)
  | members_previous : members_step m (previousMembers m)
  | members_next : members_step m (nextMembers m)
  | members_search : members_step m (searchQuery m).

Theorem members_shown m : rtc members_step openMembers m → m_users m = m_first m ∧ (0 ≤ m_first m)%Z ∧ (m_first m mod max = 0)%Z.
Proof.
  intros Hs. assert (m_users openMembers = m_first openMembers ∧ (0 ≤ m_first openMembers)%Z ∧ (m_first openMembers mod max = 0)%Z) as H by done.
  revert H. induction Hs as [|m1 m2 m3 H12 _ IH]; [done|]. intros (_ & H1 & H2). apply IH.
  unfold max in *. destruct H12; unfold firstMembers, previousMembers, nextMembers, searchQuery, max; simpl;
    try destruct (Z.ltb_spec (m_first m1 - 5) 0); split_and!; try done; Z.div_mod_to_equations; lia.
Qed.

(** ** Clustering *)

(** The page compares the client with a copy made before the unit is added to it: it opens as
    changed. *)
Theorem clustering_opens_changed client t shown :
  keys_once (Obj client) = true → assoc "nodeReRegistrationTimeoutUnit" client = Undefined →
  openClustering client t = Returns shown → clusteringChanged client shown = true.
Proof.
  intros Hk Hu H. unfold openClustering in H. destruct (AdminServices.toUnit _ _) as [x|]; [|done].
  injection H as <-. unfold clusteringChanged. apply negb_true_iff, not_true_iff_false.
  apply keys_once_obj in Hk as [_ Hn]. rewrite equals_obj by (by repeat apply obj_set_keys).
  intros H. specialize (H "nodeReRegistrationTimeoutUnit" eq_refl).
  by rewrite assoc_obj_set_ne, assoc_obj_set, Hu in H by done.
Qed.

(** A time that a form shows in the property [k], with its unit in [ku], goes back to what it
    was, except where the choice of the unit misreads it. *)
Lemma time_form_roundtrip k ku (o : object) t x :
  k ≠ ku → AdminServices.toUnit t (AdminServices.autoUnit t) = Returns x → ¬ AdminServices.misread t →
  assoc ku o = Undefined → assoc k o = Num t →
  AdminServices.toSeconds x (AdminServices.autoUnit t) = Returns t ∧
  ∀ k', assoc k' (obj_set k (Num t) (RealmImport.obj_del ku (obj_set k (Num x) (obj_set ku (Str (AdminServices.autoUnit t)) o)))) =
        assoc k' o.
Proof.
  intros Hne E Hm Hu Ht. pose proof (proj2 (AdminServices.autoUnit_roundtrip t) Hm) as Hr. rewrite E in Hr. simpl in Hr.
  split; [done|]. intros k'. destruct (decide (k' = k)) as [->|Hk]; [by rewrite assoc_obj_set|].
  rewrite assoc_obj_set_ne, RealmImport.assoc_obj_del by done.
  destruct (String.eqb_spec k' ku) as [->|Hk']; [done|]. by rewrite !assoc_obj_set_ne.
Qed.

(** What is saved unedited is the client as it was, except for the times that the choice of the
    unit misreads. *)
Theorem clustering_roundtrip client t shown x :
  openClustering client t = Returns shown → assoc "nodeReRegistrationTimeoutUnit" client = Undefined →
  assoc "nodeReRegistrationTimeout" client = Num t → assoc "nodeReRegistrationTimeout" shown = Num x →
  ¬ AdminServices.misread t →
  ∃ body, saveClustering shown x (AdminServices.autoUnit t) = Returns body ∧ ∀ k, assoc k body = assoc k client.
Proof.
  intros H Hu Ht Hx Hm. unfold openClustering in H.
  destruct (AdminServices.toUnit t (AdminServices.autoUnit t)) as [y|] eqn:E; [|done]. injection H as <-.
  rewrite assoc_obj_set in Hx. injection Hx as ->.
  destruct (time_form_roundtrip "nodeReRegistrationTimeout" "nodeReRegistrationTimeoutUnit" client t x) as [Hr Hb]; [done..|].
  unfold saveClustering. rewrite Hr. by eexists.
Qed.

(** The three pages tell a failure from a success in the same way. *)
Theorem results_agree succeeded failed :
  ((∃ m, clientPush succeeded failed = RealmTokens.Failure m) ↔ default [] failed ≠ []) ∧
  ((∃ m, testNodesAvailable succeeded failed = RealmTokens.Failure m) ↔ default [] failed ≠ []).
Proof.
  unfold clientPush, testNodesAvailable, RealmTokens.pushRevocation.
  destruct (default [] failed), (default [] succeeded); simpl; split; split; try (by intros [? ?]); try done;
    intros H; first [by destruct H|by eexists].
Qed.

(** ** Installation *)

(** A format that is answered before another is chosen is shown, as JSON printed again or as it
    is, and is what is downloaded under its name. *)
Theorem installation_shown toJson f data p :
  requested p = [] →
  (fm_mediaType f = "application/json" → ∃ v, fromJson data = Returns v) →
  ∃ p1 p2, changeFormat (Some f) p = Returns p1 ∧ onInstallation toJson 0 data p1 = Returns p2 ∧ requested p2 = [] ∧
    ∃ t, downloadInstallation p2 = Returns (Some t, fm_filename f) ∧
      (t = data ∨ ∃ v, fromJson data = Returns v ∧ t = Str (toJson v)).
Proof.
  intros Hr Hj. exists (mkInstallation (Some f) (text p) [f]).
  assert (∃ t, onInstallation toJson 0 data (mkInstallation (Some f) (text p) [f]) = Returns (mkInstallation (Some f) (Some t) []) ∧
            (t = data ∨ ∃ v, fromJson data = Returns v ∧ t = Str (toJson v))) as (t & Ht & Hd).
  { unfold onInstallation. simpl. destruct (String.eqb (fm_mediaType f) "application/zip"); [by exists data; auto|].
    destruct (String.eqb_spec (fm_mediaType f) "application/json") as [E|E]; [|by exists data; auto].
    destruct (Hj E) as [v Hv]. rewrite Hv. eexists. split; [done|]. eauto. }
  eexists. split; [by simpl; rewrite Hr|]. split; [exact Ht|]. split; [done|]. by exists t.
Qed.

(** The answer about an earlier format that comes last is downloaded under the name of the
    format chosen since. *)
Theorem installation_overtaken toJson f g d1 d2 :
  fm_mediaType f ≠ "application/json" → fm_mediaType g ≠ "application/json" →
  (p1 ← changeFormat (Some f) openInstallation; p2 ← changeFormat (Some g) p1;
   p3 ← onInstallation toJson 1 d2 p2; p4 ← onInstallation toJson 0 d1 p3; downloadInstallation p4) =
  Returns (Some d1, fm_filename g).
Proof.
  intros Hf%String.eqb_neq Hg%String.eqb_neq. unfold onInstallation. simpl.
  destruct (String.eqb (fm_mediaType g) "application/zip"); simpl; rewrite ?Hg; simpl;
    destruct (String.eqb (fm_mediaType f) "application/zip"); simpl; rewrite ?Hg; done.
Qed.

(** ** The list of clients *)

(** The number of pages is that of the clients that match, once something is typed or as long as
    nothing is; what is typed before the clients have come is not counted when they come. *)
Theorem client_pages s l p :
  numberOfPages (typeSearch s p) = pagesOf (length (matching (Some s) (clients p))) ∧
  (search p = None → numberOfPages (onClients l p) = pagesOf (length (matching (search p) l))) ∧
  numberOfPages (onClients l (typeSearch s openList)) = pagesOf (length l) ∧
  numberOfPages (typeSearch s openList) = 0.
Proof. split_and!; [done|by intros ->|done|done]. Qed.

(** The button of the search throws before anything is typed. *)
Theorem search_untyped_throws l : searchClient (onClients l openList) = Throws TypeError.
Proof. done. Qed.

(** Every client is on one of the pages. *)
Theorem client_pages_cover n i : i < n → ∃ k, 1 ≤ k ≤ pagesOf n ∧ (k - 1) * pageSize ≤ i < k * pageSize.
Proof.
  intros Hi. exists (i / pageSize + 1). unfold pagesOf, pageSize. 
  pose proof (Nat.div_mod_eq i 20). pose proof (Nat.mod_upper_bound i 20 ltac:(lia)).
  pose proof (Nat.div_mod_eq (n + (20 - 1)) 20). pose proof (Nat.mod_upper_bound (n + (20 - 1)) 20 ltac:(lia)). lia.
Qed.

(** ** Identity providers *)

Lemma setRow_length i r rows : length (setRow i r rows) = Nat.max (length rows) (S i).
Proof. unfold setRow. rewrite length_insert, length_app, length_replicate. lia. Qed.

Lemma setRow_lookup i r rows j :
  setRow i r rows !! j ≫= id = if decide (j = i) then Some r else rows !! j ≫= id.
Proof.
  unfold setRow. destruct (decide (j = i)) as [->|Hne].
  - by rewrite list_lookup_insert_eq by (rewrite length_app, length_replicate; lia).
  - rewrite list_lookup_insert_ne by done. destruct (decide (j < length rows)) as [Hj|Hj].
    + by rewrite lookup_app_l.
    + rewrite lookup_app_r, (lookup_ge_None_2 rows) by lia. simpl.
      destruct (replicate _ None !! _) as [o|] eqn:E; [|done]. by apply lookup_replicate in E as [-> _].
Qed.

(** The provider that the inner loop stops at, where every provider is there once. *)
Lemma find_provider cs i c : NoDup (cp_id <$> cs) → cs !! i = Some c → list_find (λ c', cp_id c' = cp_id c) cs = Some (i, c).
Proof.
  intros Hn Hi. apply list_find_Some. split_and!; [done..|]. intros j c' Hj Hlt Heq.
  assert (j = i) by (eapply NoDup_lookup; [exact Hn|by rewrite list_lookup_fmap, Hj|by rewrite list_lookup_fmap, Hi, Heq]). lia.
Qed.

(** What the first loop has built: the rows of the client's providers seen so far, each at the
    index of its provider. *)
Definition placed (cs : list clientProvider) (seen : list string) (rows : list (option clientProvider)) : Prop :=
  length rows ≤ length cs ∧
  ∀ i c, cs !! i = Some c → rows !! i ≫= id = if decide (cp_id c ∈ seen) then Some c else None.

Lemma placed_step cs seen st id :
  NoDup (cp_id <$> cs) → placed cs seen st.1 → placed cs (seen ++ [id]) (placeProvider cs st id).1.
Proof.
  intros Hn [Hl Hp]. unfold placeProvider. destruct (list_find _ cs) as [[i c]|] eqn:E.
  - apply list_find_Some in E as (Hi & Hid & _). subst id. simpl. split.
    { rewrite setRow_length. apply lookup_lt_Some in Hi. lia. }
    intros j c' Hj. rewrite setRow_lookup. destruct (decide (j = i)) as [->|Hne].
    + assert (c' = c) as -> by congruence. rewrite decide_True by set_solver. by destruct c.
    + rewrite (Hp _ _ Hj). apply decide_ext. split; [set_solver|]. intros [H|H%list_elem_of_singleton]%elem_of_app; [done|].
      exfalso. apply Hne. eapply NoDup_lookup; [exact Hn|by rewrite list_lookup_fmap, Hj|by rewrite list_lookup_fmap, Hi, H].
  - split; [done|]. intros j c Hj. simpl. rewrite (Hp _ _ Hj). apply decide_ext. split; [set_solver|].
    intros [H|H%list_elem_of_singleton]%elem_of_app; [done|]. subst id. by rewrite (find_provider _ _ _ Hn Hj) in E.
Qed.

Lemma placed_all cs ids seen st :
  NoDup (cp_id <$> cs) → placed cs seen st.1 → placed cs (seen ++ ids) (foldl (placeProvider cs) st ids).1.
Proof.
  intros Hn. revert seen st. induction ids as [|id ids IH]; intros seen st Hp; simpl; [by rewrite (right_id_L [] (++))|].
  rewrite (cons_middle id seen ids), (assoc_L (++)). by apply IH, placed_step.
Qed.

(** Where every provider of the client is one of the realm, the rows of the page and the
    providers of the client that is saved stand at the same indices. *)
Theorem provider_rows_aligned cs realmIds :
  NoDup (cp_id <$> cs) → Forall (λ c, cp_id c ∈ realmIds) cs →
  (openProviders cs realmIds).1 = Some <$> (openProviders cs realmIds).2.
Proof.
  intros Hn Hall. unfold openProviders.
  pose proof (placed_all cs realmIds [] ([], []) Hn) as Hp. simpl in Hp.
  destruct (foldl (placeProvider cs) ([], []) realmIds) as [rows missing]. simpl in *.
  destruct Hp as [Hl Hp]; [split; [simpl; lia|done]|].
  rewrite fmap_app. f_equal. apply list_eq. intros i. rewrite list_lookup_fmap.
  destruct (cs !! i) as [c|] eqn:Hi; simpl.
  - specialize (Hp i c Hi). rewrite decide_True in Hp by (by eapply Forall_lookup_1 in Hall).
    destruct (rows !! i) as [[c'|]|]; naive_solver.
  - apply lookup_ge_None in Hi. apply lookup_ge_None. lia.
Qed.

(** A provider of the client that the realm has no more leaves the rows after it one index
    before their provider. *)
Theorem provider_rows_misaligned :
  let '(rows, saved) := openProviders (providersOf (Some [("a", true); ("gone", true)])) ["a"; "b"] in
  map (option_map cp_id) rows = [Some "a"; Some "b"] ∧ map cp_id saved = ["a"; "gone"; "b"].
Proof. done. Qed.

End ClientTabs.
