(* ===== verification/ClientStorage.v ===== *)
(** Client storage providers (clients.js): the list of [ClientStoresCtrl] and the page of
    [GenericClientStorageCtrl]. The page fills in settings as the generic page of user storage
    does (UserStorage.v), which the theorems compare it with. *)

From S2P Require Import Prelude JsString Uri JsValue JsText AngularEquals ClientForms UserStorage.
Import JsString Uri JsValue JsText AngularEquals.

Module ClientStorage.

Abbreviation object := (list (string * jsval)).
Abbreviation property := (string * jsval)%type.

Definition providerType : string := "org.keycloak.storage.client.ClientStorageProvider".

(** ** The list *)

Definition addProvider (realm provider : string) : string :=
  "/create/client-storage/" +:+ realm +:+ "/providers/" +:+ provider.

Definition getInstanceLink (realm providerId id : string) : string :=
  "/realms/" +:+ realm +:+ "/client-storage/providers/" +:+ providerId +:+ "/" +:+ id.

Definition isProviderEnabled (config : object) : bool :=
  negb (truthy (assoc "enabled" config)) || loose_eq (UserStorage.first (assoc "enabled" config)) (Str "true").

Definition getInstancePriority (config : object) : jsval :=
  if truthy (assoc "priority" config) then UserStorage.first (assoc "priority" config) else Str "0".

(** ** The page of a provider *)

(** A factory by its identifier, with its properties. *)
Abbreviation factory := (string * list property)%type.

(** The loop over the factories of the server; reading the identifier of what it found throws
    where it found nothing. *)
Definition findFactory (providers : option (list factory)) (providerId : string) : outcome factory :=
  match providers with
  | None => Throws TypeError
  | Some l => match list_find (λ p, p.1 = providerId) l with
              | Some (_, p) => Returns p
              | None => Throws TypeError
              end
  end.

(** The settings that [initClientStorageSettings] starts a new provider with. *)
Definition newSettings (props : list property) : object :=
  let config := UserStorage.setAll [] [("priority", "0"); ("enabled", "true")] in
  UserStorage.setProperties props (UserStorage.setAll config UserStorage.cacheDefaults).

(** What it fills in of a provider that exists. *)
Definition fillSettings (props : list property) (config : object) : object :=
  let config := UserStorage.fill config ("enabled", "true") in
  let config := foldl UserStorage.fill config UserStorage.cacheDefaults in
  UserStorage.fillEmpty props (UserStorage.fill config ("priority", "0")).

(** [$scope]: whether the provider is a new one, the one that is edited, the one that the watch
    compares it with, and whether the buttons are enabled. *)
Record page := mkPage { create : bool; instance : object; original : object; changed : bool }.

Definition newInstance (realmId : string) (p : factory) (instance : object) : object :=
  obj_set "config" (Obj (newSettings p.2))
    (obj_set "parentId" (Str realmId)
      (obj_set "providerType" (Str providerType)
        (obj_set "providerId" (Str p.1) (obj_set "name" (Str p.1) instance)))).

Definition openProvider (providers : option (list factory)) (providerId realmId : string) (instance : object)
    : outcome page :=
  p ← findFactory providers providerId;
  if truthy (assoc "providerId" instance)
  then match assoc "config" instance with
       | Obj c => let i := obj_set "config" (Obj (fillSettings p.2 c)) instance in Returns (mkPage false i i false)
       | _ => Throws TypeError
       end
  else let i := newInstance realmId p instance in Returns (mkPage true i i true).

(** An edit, and the watch that follows it. *)
Definition watchInstance (i : object) (p : page) : page :=
  mkPage (create p) i (original p)
    (if equals (Obj i) (Obj (original p)) then changed p else true).

Inductive request := Save (body : object) | Update (componentId : jsval) (body : object).

(** The button is disabled before the answer has come. *)
Definition save (p : page) : page * request :=
  (mkPage (create p) (instance p) (original p) false,
   if create p then Save (instance p) else Update (assoc "id" (original p)) (instance p)).

Definition onSaved (realm location : string) (p : page) : string :=
  "/realms/" +:+ realm +:+ "/client-storage/providers/" +:+ to_string (assoc "providerId" (instance p)) +:+ "/"
    +:+ ClientForms.createdId location.

(** Where [cancel] goes; [None] reloads the route. *)
Definition cancel (realm : string) (p : page) : option string :=
  if create p then Some ("/realms/" +:+ realm +:+ "/client-stores") else None.

(** ** Settings *)

Lemma findFactory_id providers providerId f : findFactory providers providerId = Returns f → f.1 = providerId.
Proof.
  unfold findFactory. destruct providers as [l|]; [|done].
  destruct (list_find _ l) as [[i f']|] eqn:El; [|done]. intros [= ->]. by apply list_find_Some in El as (_ & ? & _).
Qed.

(** The page fills in what the generic page of user storage without synchronisation does. *)
Theorem client_storage_like_user_storage props config :
  newSettings props = UserStorage.config (UserStorage.genericCreate false props) ∧
  fillSettings props config = UserStorage.config (UserStorage.genericEdit false props config).
Proof. done. Qed.

Lemma fill_set_id kv config : truthy (assoc kv.1 config) = true → UserStorage.fill config kv = config.
Proof. intros H. unfold UserStorage.fill. by rewrite H. Qed.

Lemma fills_set_id l config :
  Forall (λ kv, truthy (assoc kv.1 config) = true) l → foldl UserStorage.fill config l = config.
Proof. induction 1 as [|kv l H _ IH]; [done|]. simpl. by rewrite fill_set_id. Qed.

Lemma fillEmpty_set_id props config :
  Forall (λ p, truthy (assoc p.1 config) = true) props → UserStorage.fillEmpty props config = config.
Proof. unfold UserStorage.fillEmpty. induction 1 as [|p props H _ IH]; [done|]. simpl. by rewrite H. Qed.

(** Settings that are all there stay as they are. *)
Lemma fillSettings_id props config :
  (∀ k, k ∈ UserStorage.genericKeys false props → truthy (assoc k config) = true) → fillSettings props config = config.
Proof.
  unfold UserStorage.genericKeys. intros H.
  assert (∀ A (l : list (string * A)), l.*1 ⊆ UserStorage.genericKeys false props →
    Forall (λ kv, truthy (assoc kv.1 config) = true) l) as Hs.
  { intros A l Hl. apply Forall_forall. intros kv Hkv. apply H, Hl. by apply list_elem_of_fmap_2. }
  unfold fillSettings, UserStorage.genericKeys in *. rewrite (fill_set_id ("enabled", "true")) by (apply H; set_solver).
  rewrite (fills_set_id UserStorage.cacheDefaults) by (apply Hs; set_solver).
  rewrite (fill_set_id ("priority", "0")) by (apply H; set_solver).
  apply fillEmpty_set_id, Hs. set_solver.
Qed.

(** Filling in twice is filling in once. *)
Theorem fillSettings_idemp props config : fillSettings props (fillSettings props config) = fillSettings props config.
Proof.
  apply fillSettings_id. destruct (UserStorage.genericEdit_extends false props config) as (_ & H & _). exact H.
Qed.

Lemma setProperties_truthy props config k :
  truthy (assoc k config) = true ∨ k ∈ props.*1 → truthy (assoc k (UserStorage.setProperties props config)) = true.
Proof.
  unfold UserStorage.setProperties. revert config. induction props as [|p props IH]; intros config; simpl.
  - intros [H|H]; [done|]. by apply not_elem_of_nil in H.
  - intros H. apply IH. destruct (decide (k = p.1)) as [->|Hne]; [left; by rewrite assoc_obj_set|].
    rewrite assoc_obj_set_ne by done. set_solver.
Qed.

(** A new provider has every setting of the page. *)
Lemma newSettings_complete props k : k ∈ UserStorage.genericKeys false props → truthy (assoc k (newSettings props)) = true.
Proof.
  unfold UserStorage.genericKeys, newSettings. intros H. apply setProperties_truthy.
  rewrite !elem_of_app in H. destruct H as [H|[H|[H|[H|H]]]]; [..|by right]; left.
  - by apply not_elem_of_nil in H.
  - by apply list_elem_of_singleton in H as ->.
  - unfold UserStorage.cacheDefaults in H. simpl in H.
    repeat (apply elem_of_cons in H as [->|H]; [done|]). by apply not_elem_of_nil in H.
  - by apply list_elem_of_singleton in H as ->.
Qed.

(** A provider that was created without an edit opens with the settings it was created with,
    now unchanged. *)
Theorem created_provider_opens_same providers providerId realmId p id :
  providerId ≠ "" → openProvider providers providerId realmId [] = Returns p →
  ∃ q, openProvider providers providerId realmId (obj_set "id" (Str id) (instance p)) = Returns q ∧
    assoc "config" (instance q) = assoc "config" (instance p) ∧
    (create p, changed p) = (true, true) ∧ (create q, changed q) = (false, false).
Proof.
  intros Hne. unfold openProvider. destruct (findFactory providers providerId) as [f|] eqn:E; [|done].
  pose proof (findFactory_id _ _ _ E) as Hf.
  intros [= <-]. cbn -[newSettings fillSettings].
  rewrite Hf. destruct providerId; [done|]. cbn -[newSettings fillSettings].
  eexists. split; [done|]. cbn -[newSettings fillSettings]. split; [|done].
  by rewrite fillSettings_id by apply newSettings_complete.
Qed.

(** ** Saving *)

(** Where the server refuses what was saved, the buttons are disabled until the next edit, though
    the page shows what is not saved; another edit enables them unless it is the provider that
    was loaded. *)
Theorem refused_provider_disabled p i :
  changed (save p).1 = false ∧ instance (save p).1 = instance p ∧
  changed (watchInstance i (save p).1) = negb (equals (Obj i) (Obj (original p))).
Proof. split; [done|]. split; [done|]. simpl. by destruct (equals _ _). Qed.

(** What is created gets the page of the identifier in the answer. *)
Theorem created_provider_page providers providerId realmId realm p server id :
  openProvider providers providerId realmId [] = Returns p → find_last "/" id = None →
  onSaved realm (server +:+ "/" +:+ id) p = getInstanceLink realm providerId id.
Proof.
  unfold openProvider. destruct (findFactory providers providerId) as [f|] eqn:E; [|done].
  pose proof (findFactory_id _ _ _ E) as Hf.
  intros [= <-] Hid. unfold onSaved. rewrite ClientForms.createdId_spec by done. simpl. by rewrite Hf.
Qed.

End ClientStorage.
