(* ===== verification/AdminDirectives.v ===== *)
(** Dialogs and directives of app.js beyond those of AdminView.v: the two dialogs that choose a
    role ([RoleSelectorModalCtrl], [ComponentRoleSelectorModalCtrl]), the filter [capitalize],
    the switches ([onoffswitch], [onoffswitchstring], [onoffswitchvalue]) on the checkbox of
    AngularJS, the validation of [kcSave], and the fieldsets that collapse. *)

From S2P Require Import Prelude JsString Uri JsValue AngularEquals AdminView.
Import JsString Uri JsValue AngularEquals.

Module AdminDirectives.

Abbreviation object := (list (string * jsval)).

(** ** The dialogs that choose a role *)

(** A client by its identifier and its [clientId]; a role by its name. *)
Record client := mkClient { c_id : string; clientId : string }.

(** The dialog: the client and the roles that are chosen, the roles that the lists offer
    ([clientRoles] is empty before the first answer), and the queries for roles of a client
    that are not answered. *)
Record selector := mkSelector {
  selected : option client;
  selectedRealmRole : option string;
  selectedClientRole : option string;
  realmRoles : list string;
  clientRoles : list string;
  asked : list client
}.

Definition openSelector : selector := mkSelector None None None [] [] [].

(** [changeClient]; the list of roles that becomes empty takes the choice away. *)
Definition changeClient (c : option client) (s : selector) : selector :=
  match c with
  | Some c => mkSelector (Some c) (selectedRealmRole s) (selectedClientRole s) (realmRoles s) (clientRoles s) (asked s ++ [c])
  | None => mkSelector None (selectedRealmRole s) None (realmRoles s) [] (asked s)
  end.

Definition onRealmRoles (roles : list string) (s : selector) : selector :=
  mkSelector (selected s) (selectedRealmRole s) (selectedClientRole s) roles (clientRoles s) (asked s).

Definition onClientsOf (clients : list client) (s : selector) : selector :=
  match clients with c :: _ => changeClient (Some c) s | [] => s end.

(** The answer to the i-th query; AngularJS takes the choice away that is no option any more. *)
Definition onClientRoles (i : nat) (roles : list string) (s : selector) : selector :=
  mkSelector (selected s) (selectedRealmRole s) None (realmRoles s) roles (delete i (asked s)).

Definition chooseRealmRole (r : string) (s : selector) : selector :=
  mkSelector (selected s) (Some r) (selectedClientRole s) (realmRoles s) (clientRoles s) (asked s).

Definition chooseClientRole (r : string) (s : selector) : selector :=
  mkSelector (selected s) (selectedRealmRole s) (Some r) (realmRoles s) (clientRoles s) (asked s).

(** What the buttons write of the choice. *)
Definition realmRoleValue (s : selector) : outcome string :=
  match selectedRealmRole s with Some r => Returns r | None => Throws TypeError end.

Definition clientRoleValue (s : selector) : outcome string :=
  match selected s, selectedClientRole s with
  | Some c, Some r => Returns (clientId c +:+ "." +:+ r)
  | _, _ => Throws TypeError
  end.

(** [config[configName] = ...] of the one dialog, [config[configName][0] = ...] of the other. *)
Definition writeValue (configName v : string) (config : object) : outcome object :=
  Returns (obj_set configName (Str v) config).

Definition writeComponentValue (configName v : string) (config : object) : outcome object :=
  match assoc configName config with
  | Undefined | Null => Throws TypeError
  | Arr l => Returns (obj_set configName (Arr (Str v :: tail l)) config)
  | _ => Returns config
  end.

Definition selectRealmRole (write : string → object → outcome object) (s : selector) (config : object) : outcome object :=
  v ← realmRoleValue s; write v config.

Definition selectClientRole (write : string → object → outcome object) (s : selector) (config : object) : outcome object :=
  v ← clientRoleValue s; write v config.

(** The dialog at work, where the server has [rolesOf] of a client; the queries are answered in
    order or in any order, and a role is chosen from its list. *)
Inductive selector_step (rolesOf : string → list string) (inOrder : bool) (s : selector) : selector → Prop :=
  | step_clients clients : selector_step rolesOf inOrder s (onClientsOf clients s)
  | step_client c : selector_step rolesOf inOrder s (changeClient c s)
  | step_answer i c : asked s !! i = Some c → (inOrder = true → i = 0) →
      selector_step rolesOf inOrder s (onClientRoles i (rolesOf (c_id c)) s)
  | step_realm roles : selector_step rolesOf inOrder s (onRealmRoles roles s)
  | step_choose_realm r : r ∈ realmRoles s → selector_step rolesOf inOrder s (chooseRealmRole r s)
  | step_choose r : r ∈ clientRoles s → selector_step rolesOf inOrder s (chooseClientRole r s).

(** ** [capitalize] *)

(** [\s], of the characters of ASCII. *)
Definition is_space (a : ascii) : bool :=
  ((9 <=? code a) && (code a <=? 13)) || (code a =? 32).

(** [split(/\s+/)], whether a run of spaces is being left out. *)
Fixpoint words (inRun : bool) (s : string) : list string :=
  match s with
  | "" => [""]
  | String a s' =>
      if is_space a then (if inRun then words true s' else "" :: words true s')
      else match words false s' with
           | w :: ws => String a w :: ws
           | [] => [String a ""]
           end
  end.

(** [toUpperCase] of the letters of ASCII. *)
Definition upper (a : ascii) : ascii := if is_lower a then ascii_of_nat (code a - 32) else a.

Definition capital (w : string) : string := match w with "" => "" | String a w => String (upper a) w end.

Definition capitalize (input : string) : option string :=
  match input with
  | "" => None
  | _ => Some (join " " (capital <$> words false input))
  end.

(** ** Switches *)

(** The checkbox of AngularJS with its two values: whether a model is shown as checked, and what
    a click makes of it. *)
Definition checked (trueValue model : jsval) : bool := equals model trueValue.

Definition clickBox (trueValue falseValue model : jsval) : jsval :=
  if negb (checked trueValue model) then trueValue else falseValue.

(** What the attribute [ng-true-value] holds for the constants the pages give: a text in
    quotes. *)
Definition constant (text : option string) (fallback : string) : jsval := Str (default fallback text).

(** The values of the three switches; an attribute that is missing or empty gets its default. *)
Inductive switch := Onoffswitch | Onoffswitchstring | Onoffswitchvalue (trueValue falseValue : option string).

Definition values (s : switch) : jsval * jsval :=
  match s with
  | Onoffswitch => (Bool true, Bool false)
  | Onoffswitchstring => (Str "true", Str "false")
  | Onoffswitchvalue t f => (constant t "true", constant f "false")
  end.

Definition texts (onText offText : string) : string * string :=
  (if String.eqb onText "" then "ON" else onText, if String.eqb offText "" then "OFF" else offText).

(** The handler of keys: [keyCode || which] is a space or the return key. *)
Definition isToggleKey (keyCode which : Z) : bool :=
  let code := if (keyCode =? 0)%Z then which else keyCode in (code =? 32)%Z || (code =? 13)%Z.

Definition isOn (s : switch) (model : jsval) : bool := checked (values s).1 model.
Definition toggle (s : switch) (model : jsval) : jsval := clickBox (values s).1 (values s).2 model.

(** ** Forms *)

(** What a click on the button does to the form around it: [None] where there is none with a
    name, otherwise whether it is valid. *)
Inductive effect := Nothing | CallSave | InvalidFields.

Definition submitForm (form : option bool) : effect :=
  match form with None => Nothing | Some true => CallSave | Some false => InvalidFields end.

Definition pressSave (t : Z) (changed : option bool) (form : option bool) (b : AdminView.save_button)
    : AdminView.save_button * effect :=
  let '(b', goes) := AdminView.clickSave t changed b in (b', if goes : bool then submitForm form else Nothing).

(** ** Fieldsets *)

(** The icon of the legend points down, and which of the groups of fields are hidden. *)
Record fieldset := mkFieldset { down : bool; hidden : list bool }.

Definition toggleGroups (f : fieldset) : fieldset := mkFieldset (negb (down f)) (negb <$> hidden f).

(** [uncollapsed] and [collapsed], of groups that are shown. *)
Definition uncollapsed (groups : nat) : fieldset := mkFieldset true (replicate groups false).
Definition collapsed (groups : nat) : fieldset := mkFieldset false (negb <$> replicate groups false).

(** ** Choosing a role *)

(** With answers in order, the last query is about the client that is chosen, and where none
    waits the list has that client's roles; a choice is always one of the list. *)
Definition selector_ok (rolesOf : string → list string) (s : selector) : Prop :=
  (∀ r, selectedClientRole s = Some r → r ∈ clientRoles s) ∧
  (∀ c, selected s = Some c → match last (asked s) with Some c' => c = c' | None => clientRoles s = rolesOf (c_id c) end).

Lemma selector_ok_step rolesOf s s' : selector_step rolesOf true s s' → selector_ok rolesOf s → selector_ok rolesOf s'.
Proof.
  assert (∀ c, selector_ok rolesOf s → selector_ok rolesOf (changeClient c s)) as Hc.
  { intros [c|] [Hr Hs]; split; simpl; [done| |done|done]. intros c' [= <-]. by rewrite last_snoc. }
  intros H Hok. destruct H as [[|c l]|c|i c Hi H0|roles|r Hr|r Hr]; try exact Hok; try by apply Hc.
  - rewrite (H0 eq_refl) in *. destruct Hok as [_ Hs]. split; [done|]. simpl. intros c' Hc'. specialize (Hs c' Hc').
    destruct (asked s) as [|c0 l]; [done|]. injection Hi as ->. destruct l as [|c1 l]; [by simpl in *; subst|].
    rewrite last_cons_cons in Hs. simpl. destruct (last (c1 :: l)) eqn:E; [done|]. by apply last_None in E.
  - destruct Hok as [_ Hs]. split; [|done]. by intros r' [= <-].
Qed.

(** What the dialog writes names a role of the client that is chosen, where the answers come in
    order and none is awaited. *)
Theorem client_role_of_client rolesOf s v :
  rtc (selector_step rolesOf true) openSelector s → asked s = [] → clientRoleValue s = Returns v →
  ∃ c r, selected s = Some c ∧ r ∈ rolesOf (c_id c) ∧ v = clientId c +:+ "." +:+ r.
Proof.
  intros Hs Ha Hv. assert (selector_ok rolesOf s) as [Hr Hc].
  { assert (selector_ok rolesOf openSelector) as H by done. revert H. clear Ha Hv.
    induction Hs; [done|]. intros H'. eapply IHHs, selector_ok_step; eauto. }
  unfold clientRoleValue in Hv. destruct (selected s) as [c|]; [|done]. destruct (selectedClientRole s) as [r|]; [|done].
  injection Hv as <-. specialize (Hc c eq_refl). rewrite Ha in Hc. simpl in Hc. exists c, r. rewrite <- Hc. auto.
Qed.

(** Between the choice of another client and the answer, the roles of the first one are offered
    and written under the name of the other. *)
Theorem role_of_other_client rolesOf a b r :
  r ∈ rolesOf (c_id a) →
  ∃ s, rtc (selector_step rolesOf true) openSelector s ∧ selected s = Some b ∧
    clientRoleValue s = Returns (clientId b +:+ "." +:+ r).
Proof.
  intros Hr. eexists. split.
  { eapply rtc_l; [apply (step_client _ _ _ (Some a))|]. eapply rtc_l; [by apply (step_answer _ _ _ 0 a)|].
    eapply rtc_l; [apply (step_client _ _ _ (Some b))|]. apply rtc_once, (step_choose _ _ _ r). exact Hr. }
  done.
Qed.

(** Both dialogs write what is chosen, the one as a text and the other as the first of an array,
    whose rest stays; an option that the settings do not have can be written by the first alone. *)
Theorem dialogs_write configName v config l :
  (∃ c, writeValue configName v config = Returns c ∧ assoc configName c = Str v) ∧
  (assoc configName config = Arr l →
   ∃ c, writeComponentValue configName v config = Returns c ∧ assoc configName c = Arr (Str v :: tail l)) ∧
  (assoc configName config = Undefined → writeComponentValue configName v config = Throws TypeError).
Proof.
  unfold writeValue, writeComponentValue. split_and!.
  - eexists. split; [done|]. apply assoc_obj_set.
  - intros ->. eexists. split; [done|]. apply assoc_obj_set.
  - by intros ->.
Qed.

(** ** [capitalize] *)

Definition nospace (w : string) : bool := forall_chars (λ a, negb (is_space a)) w.

(** Words after the first: only the last can be empty. *)
Inductive tidy : list string → Prop :=
  | tidy_last w : nospace w = true → tidy [w]
  | tidy_cons w l : nospace w = true → w ≠ "" → tidy l → tidy (w :: l).

Definition tidy_rest (l : list string) : Prop := ∃ w l', l = w :: l' ∧ nospace w = true ∧ (l' = [] ∨ tidy l').

Lemma words_tidy s : tidy (words true s) ∧ tidy_rest (words false s).
Proof.
  induction s as [|a s [IHt (w & l & E & Hw & Hl)]]; simpl.
  - split; [by constructor|]. exists "", []. auto.
  - destruct (is_space a) eqn:Ha; [split; [done|]; exists "", (words true s); auto|]. rewrite E.
    assert (nospace (String a w) = true) by (unfold nospace in *; simpl; by rewrite Ha, Hw).
    split; [|by exists (String a w), l]. destruct Hl as [->|Hl]; by constructor.
Qed.

Lemma words_app w t : nospace w = true → words false (w +:+ String " " t) = w :: words true t.
Proof.
  unfold nospace. induction w as [|a w IH]; [done|]. rewrite app_cons. simpl.
  intros [Ha Hw]%andb_true_iff. apply negb_true_iff in Ha. by rewrite Ha, IH.
Qed.

Lemma words_nospace w : nospace w = true → words false w = [w].
Proof.
  unfold nospace. induction w as [|a w IH]; [done|]. simpl. intros [Ha Hw]%andb_true_iff.
  apply negb_true_iff in Ha. by rewrite Ha, IH.
Qed.

Lemma words_true_false s : match s with "" => true | String a _ => negb (is_space a) end = true → words true s = words false s.
Proof. destruct s as [|a s]; [done|]. simpl. by intros ->%negb_true_iff. Qed.

Lemma words_join l : tidy l → words true (join " " l) = l.
Proof.
  induction 1 as [w Hw|w l Hw Hne Hl IH].
  - simpl. rewrite words_true_false; [by apply words_nospace|]. destruct w; [done|]. by apply andb_true_iff in Hw as [? _].
  - rewrite join_cons by (by destruct Hl). rewrite words_true_false.
    + rewrite app_cons, app_nil_l, words_app by done. by rewrite IH.
    + destruct w; [done|]. by apply andb_true_iff in Hw as [? _].
Qed.

Lemma words_join_rest l : tidy_rest l → words false (join " " l) = l.
Proof.
  intros (w & l' & -> & Hw & [->|Hl]); [by apply words_nospace|].
  rewrite join_cons by (by destruct Hl). rewrite app_cons, app_nil_l, words_app by done. by rewrite words_join.
Qed.

Lemma upper_space a : is_space (upper a) = is_space a.
Proof. by destruct a as [[] [] [] [] [] [] [] []]. Qed.

Lemma upper_idemp a : upper (upper a) = upper a.
Proof. by destruct a as [[] [] [] [] [] [] [] []]. Qed.

Lemma capital_nospace w : nospace (capital w) = nospace w.
Proof. destruct w as [|a w]; [done|]. unfold nospace. simpl. by rewrite upper_space. Qed.

Lemma capital_idemp w : capital (capital w) = capital w.
Proof. destruct w as [|a w]; [done|]. simpl. by rewrite upper_idemp. Qed.

Lemma capital_tidy l : tidy_rest l → tidy_rest (capital <$> l).
Proof.
  assert (∀ l, tidy l → tidy (capital <$> l)) as Ht.
  { induction 1 as [w Hw|w l0 Hw Hne _ IH]; simpl; constructor; rewrite ?capital_nospace; try done. by destruct w. }
  intros (w & l' & -> & Hw & Hl). exists (capital w), (capital <$> l'). rewrite capital_nospace.
  split; [done|]. split; [done|]. destruct Hl as [->|Hl]; auto.
Qed.

(** The result has the words of the text, each with a capital, and single spaces between them;
    to capitalize it again changes nothing. *)
Theorem capitalize_spec s t :
  capitalize s = Some t → words false t = capital <$> words false s ∧ capitalize t = Some t.
Proof.
  unfold capitalize. destruct s as [|a s]; [done|]. intros H%(inj Some). subst t.
  set (ws := words false (String a s)). assert (tidy_rest ws) as Hws by apply words_tidy.
  pose proof (words_join_rest _ (capital_tidy _ Hws)) as Hj. split; [exact Hj|].
  destruct (join " " (capital <$> ws)) as [|b t] eqn:E; [exfalso|].
  - clear Hws E. subst ws. simpl in Hj. destruct (is_space a).
    + injection Hj as Hj. destruct (proj1 (words_tidy s)); done.
    + destruct (words false s); by simpl in Hj.
  - transitivity (Some (join " " (capital <$> words false (String b t)))); [done|].
    rewrite Hj, <- E. do 2 f_equal. rewrite <- list_fmap_compose. apply list_fmap_ext. intros i w _. apply capital_idemp.
Qed.

(** ** Switches *)

Lemma equals_refl_value s : equals (values s).1 (values s).1 = true.
Proof. destruct s; simpl; [done..|]. apply String.eqb_refl. Qed.

(** A click turns the switch, whatever it showed; what it shows is one of its two values
    afterwards. *)
Theorem toggle_turns s model :
  (values s).1 ≠ (values s).2 →
  isOn s (toggle s model) = negb (isOn s model) ∧ (toggle s model = (values s).1 ∨ toggle s model = (values s).2).
Proof.
  intros Hne. unfold isOn, toggle, clickBox, checked. destruct (equals model (values s).1); simpl.
  - split; [|auto]. apply not_true_iff_false. intros H. apply Hne. symmetry.
    destruct s; simpl in *; [done..|]. unfold constant. f_equal. by apply String.eqb_eq.
  - split; [apply equals_refl_value|auto].
Qed.

(** Without values, [onoffswitchvalue] is [onoffswitchstring]; a switch of the other type shows
    the value that is on as off. *)
Theorem switches_compared :
  values (Onoffswitchvalue None None) = values Onoffswitchstring ∧
  isOn Onoffswitch (Str "true") = false ∧ isOn Onoffswitchstring (Bool true) = false ∧
  toggle Onoffswitch (Str "true") = Bool true.
Proof. done. Qed.

(** ** Saving *)

(** [save] is called for a valid form alone, that is changed and was not clicked just before. *)
Theorem save_only_valid t changed form b :
  (pressSave t changed form b).2 = CallSave ↔ form = Some true ∧ changed ≠ Some false ∧ AdminView.disabled b = false.
Proof.
  unfold pressSave, AdminView.clickSave. destruct b as [[] w], changed as [[]|], form as [[]|]; simpl; naive_solver.
Qed.

(** An invalid form disables the button as well: corrected at once, it is not saved before the
    delay has passed. *)
Theorem invalid_form_delays t t' changed b :
  (pressSave t changed (Some false) b).2 = InvalidFields →
  (pressSave t' changed (Some true) (pressSave t changed (Some false) b).1).2 = Nothing.
Proof.
  unfold pressSave, AdminView.clickSave. by destruct b as [[] w], changed as [[]|].
Qed.

(** ** Fieldsets *)

(** The icon points down exactly where the groups are shown. *)
Theorem icon_tells n f :
  rtc (λ f g, g = toggleGroups f) (uncollapsed n) f ∨ rtc (λ f g, g = toggleGroups f) (collapsed n) f →
  hidden f = replicate n (negb (down f)).
Proof.
  assert (∀ f g, rtc (λ f g, g = toggleGroups f) f g → hidden f = replicate n (negb (down f)) → hidden g = replicate n (negb (down g))) as Hs.
  { induction 1 as [|f1 g h -> _ IH]; [done|]. intros H. apply IH. simpl. by rewrite H, fmap_replicate. }
  intros [H|H]; eapply Hs; eauto; simpl. apply fmap_replicate.
Qed.

End AdminDirectives.
