(* ===== verification/AccountAdapter.v ===== *)
(** The adapter that the account console (keycloak-preview) carries: a copy of keycloak.js that
    differs from the one of the adapters in the choice of the adapter, in the options of [init]
    and in the Cordova adapter. Each part that differs is modelled on the same world as the
    original, and compared with it. *)

From S2P Require Import Prelude JsString Uri JsValue World Promise Token Storage Urls Callback Adapter Iframe Refresh Init EventLoop.
Import JsString Uri JsValue World Promise Token Storage Urls Callback Adapter Iframe Refresh Init EventLoop.

Module AccountAdapter.

Section account.
Context {env : Env}.

(** ** The choice of the adapter *)

Definition accountLoadAdapter (type : jsval) : IO AdapterKind :=
  if negb (truthy type) || loose_eq type (Str "default") then mret DefaultAdapter
  else if loose_eq type (Str "cordova") then disableIframe;; mret CordovaAdapter
  else throw (Thrown ("invalid adapter type: " +:+ to_string type)).

Definition accountChooseAdapter (initOptions : jsval) : IO AdapterKind :=
  let a := optp initOptions "adapter" in
  if truthy initOptions && strict_eq a (Str "cordova") then accountLoadAdapter (Str "cordova")
  else if truthy initOptions && strict_eq a (Str "default") then accountLoadAdapter Undefined
  else if truthy initOptions && is_object a then mret (if is_nullish a then NoAdapter else CustomAdapter)
  else
    b ← gets (λ w, b_hasOldCordova (br w) || b_hasCordova (br w));
    if b : bool then accountLoadAdapter (Str "cordova") else accountLoadAdapter Undefined.

(** The statements under [if (initOptions)]: there is no option [redirectUri]. *)
Definition accountReadOptions (initOptions : jsval) : IO unit :=
  let o := optp initOptions in
  when (negb (is_undefined (o "useNonce")))
    (modify (λ w, w <| useNonce := o "useNonce" |>));;
  when (negb (is_undefined (o "checkLoginIframe")))
    (modify (λ w, w <| loginIframe -> li_enable := o "checkLoginIframe" |>));;
  when (truthy (o "checkLoginIframeInterval"))
    (modify (λ w, w <| loginIframe -> li_interval := o "checkLoginIframeInterval" |>));;
  when (strict_eq (o "onLoad") (Str "login-required"))
    (modify (λ w, w <| kc -> kc_loginRequired := Bool true |>));;
  when (truthy (o "responseMode"))
    (if strict_eq (o "responseMode") (Str "query") || strict_eq (o "responseMode") (Str "fragment")
     then modify (λ w, w <| kc -> kc_responseMode := o "responseMode" |>)
     else throw (Thrown "Invalid value for responseMode"));;
  when (truthy (o "flow"))
    (t ← lift (responseTypeOf (o "flow"));
     modify (λ w, w <| kc -> kc_responseType := t |> <| kc -> kc_flow := o "flow" |>));;
  when (negb (is_nullish (o "timeSkew")))
    (modify (λ w, w <| kc -> kc_timeSkew := o "timeSkew" |>)).

Definition accountInit (initOptions : jsval) : IO nat :=
  modify (λ w, w <| kc -> kc_authenticated := Bool false |>);;
  st ← createCallbackStorage;
  modify (λ w, w <| callbackStorage := st |>);;
  a ← accountChooseAdapter initOptions;
  modify (λ w, w <| adapter := a |>);;
  when (truthy initOptions) (accountReadOptions initOptions);;
  modify (λ w, w <| kc ::= defaultOptions |>);;
  promise ← createPromise;
  initPromise ← createPromise;
  success initPromise (KInitSuccess promise);;
  error initPromise (KInitError promise);;
  configPromise ← loadConfig;
  success configPromise (KProcessInit initOptions initPromise);;
  error configPromise (KConfigError promise);;
  mret promise.

(** ** The Cordova adapter *)

Definition accountCordovaOptions (options : jsval) : string :=
  "location=no" +:+ if truthy options && loose_eq (optp options "prompt") (Str "none") then ",hidden=yes" else "".

Definition accountCordova_login (options : jsval) : IO nat :=
  p ← createPromise;
  loginUrl ← createLoginUrl options;
  cordovaOpenWindowWrapper loginUrl "_blank" (accountCordovaOptions options) (LoginWindow p);;
  mret p.

(** It returns nothing; the window closes at the redirect, as that of the account does. *)
Definition accountCordova_register (options : jsval) : IO (option nat) :=
  registerUrl ← createRegisterUrl Undefined;
  cordovaOpenWindowWrapper registerUrl "_blank" "location=no" AccountWindow;;
  mret None.

(** The listeners of a login window: there is none for [exit]. *)
Definition accountFinishLogin (i promise : nat) (url : string) : IO unit :=
  callback ← parseCallback url;
  processCallback callback promise;;
  emit (OCloseWindow i);;
  setWindow i (λ x, x <| win_flag := true |>).

Definition accountLoginWindow (i p : nat) (win : app_window) (e : window_event) : IO unit :=
  match e with
  | LoadStart url => when (isLocalhost url) (accountFinishLogin i p url)
  | LoadError url =>
      when (negb (win_flag win))
        (if isLocalhost url then accountFinishLogin i p url
         else setError p Undefined;; emit (OCloseWindow i))
  | Exit => mret tt
  end.

(** ** Opening *)

Lemma io_bind_ext {A B} (m m' : IO A) (f g : A → IO B) w :
  m w = m' w → (∀ a w, f a w = g a w) → (m ≫= f) w = (m' ≫= g) w.
Proof. intros Hm Hf. unfold mbind, M_bind. rewrite Hm. by destruct (m' w) as [[] ?]. Qed.

Lemma strict_eq_Str v s : strict_eq v (Str s) = true → v = Str s.
Proof. destruct v; simpl; try done. by intros ->%String.eqb_eq. Qed.

(** The two choose the same adapter unless the native one is asked for, which the copy does not
    have: it falls back on what the browser has. *)
Lemma accountChooseAdapter_same o w :
  optp o "adapter" ≠ Str "cordova-native" → accountChooseAdapter o w = chooseAdapter o w.
Proof.
  intros Hne. unfold accountChooseAdapter, chooseAdapter, builtinAdapter. cbn [existsb].
  destruct (truthy o); cbn [andb]; [|run_io; by destruct (b_hasOldCordova _ || b_hasCordova _)].
  destruct (strict_eq (optp o "adapter") (Str "cordova")) eqn:Ec; [by rewrite (strict_eq_Str _ _ Ec)|].
  destruct (strict_eq (optp o "adapter") (Str "default")) eqn:Ed; [by rewrite (strict_eq_Str _ _ Ed)|].
  destruct (strict_eq (optp o "adapter") (Str "cordova-native")) eqn:En; [by apply strict_eq_Str in En|]. cbn [orb].
  destruct (is_object (optp o "adapter")); [done|]. run_io. by destruct (b_hasOldCordova _ || b_hasCordova _).
Qed.

Lemma accountReadOptions_same o w : truthy (optp o "redirectUri") = false → accountReadOptions o w = readOptions o w.
Proof.
  intros Hr. unfold accountReadOptions, readOptions. rewrite Hr. cbn [when].
  repeat (apply io_bind_ext; [done|intros _ w']). clear. unfold mbind, M_bind. by destruct (is_nullish _).
Qed.

(** [init] of the copy is that of the original wherever neither the native adapter nor a
    redirect URI is asked for. *)
Theorem account_init_same o w :
  optp o "adapter" ≠ Str "cordova-native" → truthy (optp o "redirectUri") = false → accountInit o w = init o w.
Proof.
  intros Ha Hr. unfold accountInit, init. do 3 (apply io_bind_ext; [done|intros ? ?]).
  apply io_bind_ext; [by apply accountChooseAdapter_same|intros ? ?]. apply io_bind_ext; [done|intros ? ?].
  apply io_bind_ext; [|done]. destruct (truthy o); [by apply accountReadOptions_same|done].
Qed.

(** Asked for the native adapter, the copy takes the default one outside of Cordova. *)
Theorem account_native_ignored o w :
  optp o "adapter" = Str "cordova-native" → truthy o = true →
  b_hasOldCordova (br w) = false → b_hasCordova (br w) = false →
  (accountChooseAdapter o w).1 = Returns DefaultAdapter ∧ (chooseAdapter o w).1 = Returns CordovaNativeAdapter.
Proof.
  intros Ha Ho H1 H2. unfold accountChooseAdapter, chooseAdapter. rewrite Ha, Ho. run_io. by rewrite H1, H2.
Qed.

(** A redirect URI among the options is ignored by the copy. *)
Theorem account_redirectUri_ignored o w a w' :
  accountReadOptions o w = (a, w') → kc_redirectUri (kc w') = kc_redirectUri (kc w).
Proof.
  intros H. assert (preserves (λ w', kc_redirectUri (kc w') = kc_redirectUri (kc w)) (accountReadOptions o)) as Hp.
  { unfold accountReadOptions. preserve ltac:(by intros). }
  specialize (Hp w eq_refl). by rewrite H in Hp.
Qed.

(** ** The Cordova adapter *)

Lemma accountCordovaOptions_same o :
  truthy (optp o "cordovaOptions") = false → createCordovaOptions o = accountCordovaOptions o.
Proof.
  intros H. unfold createCordovaOptions, shallowCloneCordovaOptions, accountCordovaOptions. rewrite H.
  destruct (truthy o) eqn:E; cbn [andb]; [by destruct (loose_eq _ _)|].
  replace (loose_eq (optp o "prompt") (Str "none")) with false; [done|].
  unfold optp. rewrite E. symmetry. destruct o as [| |[]|z| |s| |]; try done; simpl in *.
  destruct (String.eqb_spec s ""); [by subst|done].
Qed.

(** Where the application gives no options of its own, the two log in alike. *)
Theorem account_cordova_login_same o w :
  truthy (optp o "cordovaOptions") = false → accountCordova_login o w = cordova_login o w.
Proof.
  intros H. unfold accountCordova_login, cordova_login. by rewrite accountCordovaOptions_same.
Qed.

(** The copy opens a window to register, where the original throws. *)
Theorem account_registers o w url w' :
  createRegisterUrl Undefined w = (Returns url, w') →
  (∃ w2, accountCordova_register o w = (Returns None, w2) ∧ last (windows w2) = Some (mkWindow AccountWindow false false)) ∧
  (cordova_register o w).1 = Throws ReferenceError.
Proof.
  intros H. unfold accountCordova_register, cordova_register, cordovaOpenWindowWrapper. 
  unfold mbind, M_bind. rewrite H. split; [|done]. eexists. split; [done|]. apply last_snoc.
Qed.

(** ** The login window *)

Lemma finish_same i p url w r w1 :
  accountFinishLogin i p url w = (r, w1) →
  ∃ w2, finishLogin i p url w = (r, w2) ∧ (w2 = w1 ∨ w2 = w1 <| windows ::= alter (λ x, x <| win_closed := true |>) i |>).
Proof.
  unfold accountFinishLogin, finishLogin, closeBrowser, setWindow, emit, mbind, M_bind.
  destruct (parseCallback url w) as [[cb|x] wp]; [|intros [= <- <-]; eauto].
  destruct (processCallback cb p wp) as [[[]|x] w0]; intros [= <- <-]; [|eauto].
  eexists. split; [done|]. right. unfold modify, upd, set_windows, set_trace, set_win_flag, set_win_closed. destruct w0. cbn. f_equal.
  apply list_eq. intros j. destruct (decide (j = i)) as [->|]; [|by rewrite !list_lookup_alter_ne by done].
  rewrite !list_lookup_alter_eq. by destruct (_ !! i).
Qed.

(** Until the window is left, both listeners do the same, and the worlds differ in the variable
    [closed] alone. *)
Theorem account_window_same i p win url w e r w1 :
  win_role win = LoginWindow p → e = LoadStart url ∨ e = LoadError url → accountLoginWindow i p win e w = (r, w1) →
  ∃ w2, handleWindow i win e w = (r, w2) ∧
    (w2 = w1 ∨ w2 = w1 <| windows ::= alter (λ x, x <| win_closed := true |>) i |>).
Proof.
  intros Hr [->| ->]; unfold accountLoginWindow, handleWindow; rewrite Hr.
  - destruct (isLocalhost url); [apply finish_same|]. intros [= <- <-]. eauto.
  - destruct (win_flag win); [intros [= <- <-]; by eauto|]. cbn [negb when].
    destruct (isLocalhost url); [apply finish_same|]. unfold closeBrowser, setWindow, emit, mbind, M_bind.
    destruct (setError p Undefined w) as [[[]|x] w0]; intros [= <- <-]; eauto.
Qed.

(** The user who closes the window leaves the promise of the copy as it is, for good; the
    original rejects it. *)
Theorem account_exit_ignored i p win w :
  win_role win = LoginWindow p → win_closed win = false →
  accountLoginWindow i p win Exit w = (Returns tt, w) ∧
  handleWindow i win Exit w = setError p (Obj [("reason", Str "closed_by_user")]) w.
Proof. intros Hr Hc. unfold handleWindow. by rewrite Hr, Hc. Qed.

End account.

End AccountAdapter.
