(* ===== verification/UserPages.v ===== *)
(** Pages of a user (users.js) beyond the attributes and the paging of AdminUsers.v: credentials
    ([UserCredentialsCtrl]), links to the provider a user comes from, required actions and
    impersonation ([UserDetailCtrl]), the links to identity providers, memberships of groups, the
    requests of the pages of user storage, and the page of an LDAP mapper. *)

From S2P Require Import Prelude JsString Uri JsValue JsText AngularEquals AdminServices AdminUsers AdminRoutes AuthzRoutes ClientForms UserStorage AdminShared IdentityProviders AuthFlows.
Import JsString Uri JsValue JsText AngularEquals.

Module UserPages.

Abbreviation object := (list (string * jsval)).

(** ** Credentials *)

(** [$scope] of the page; [c_loaded] is the closure's [user], [c_changed] the variable [changed],
    which the page reads. *)
Record credentials := mkCredentials {
  c_loaded : object;
  c_user : object;
  password : jsval;
  confirmPassword : jsval;
  isTotp : jsval;
  pwdChange : bool;
  userChange : bool;
  emailActions : list string;
  emailActionsTimeout : string * Z;
  c_changed : jsval
}.

Definition totpOf (user : object) : jsval := if truthy (assoc "totp" user) then assoc "totp" user else Bool false.

(** The page after its first digest, for the lifespan of the realm's action tokens. *)
Definition openCredentials (lifespan : Z) (user : object) : credentials :=
  mkCredentials user user Undefined Undefined (totpOf user) false false [] (AdminServices.asUnit lifespan) Undefined.

(** The two watches. *)
Definition watchUser (c : credentials) : credentials :=
  mkCredentials (c_loaded c) (c_user c) (password c) (confirmPassword c) (isTotp c) (pwdChange c)
    (negb (equals (Obj (c_user c)) (Obj (c_loaded c)))) (emailActions c) (emailActionsTimeout c) (c_changed c).

Definition watchPwd (c : credentials) : credentials :=
  mkCredentials (c_loaded c) (c_user c) (password c) (confirmPassword c) (isTotp c)
    (AdminUsers.watchPassword (password c)) (userChange c) (emailActions c) (emailActionsTimeout c) (c_changed c).

Definition typePasswords (p q : jsval) (c : credentials) : credentials :=
  watchPwd (mkCredentials (c_loaded c) (c_user c) p q (isTotp c) (pwdChange c) (userChange c) (emailActions c)
              (emailActionsTimeout c) (c_changed c)).

Definition editUser (u : object) (c : credentials) : credentials :=
  watchUser (mkCredentials (c_loaded c) u (password c) (confirmPassword c) (isTotp c) (pwdChange c) (userChange c)
               (emailActions c) (emailActionsTimeout c) (c_changed c)).

Definition chooseEmail (actions : list string) (timeout : string * Z) (c : credentials) : credentials :=
  mkCredentials (c_loaded c) (c_user c) (password c) (confirmPassword c) (isTotp c) (pwdChange c) (userChange c)
    actions timeout (c_changed c).

(** The dialog of [resetPassword] that is answered, either way: the fields are emptied. *)
Definition onPasswordDialog (c : credentials) : credentials := typePasswords Null Null c.

Definition resetCredentials (c : credentials) : credentials :=
  mkCredentials (c_loaded c) (c_loaded c) (Str "") (Str "") (totpOf (c_loaded c)) false false (emailActions c)
    (emailActionsTimeout c) (c_changed c).

(** What [sendExecuteActionsEmail] does: it shows a message, or asks and sends the actions with
    their lifespan. *)
Inductive email := SaveFirst | AskAndSend (lifespan : option Z) (actions : list string).

Definition sendExecuteActionsEmail (c : credentials) : email :=
  if truthy (c_changed c) then SaveFirst
  else AskAndSend (AdminServices.asUnit_toSeconds (emailActionsTimeout c)) (emailActions c).

Definition onEmailSent (c : credentials) : credentials := chooseEmail [] (emailActionsTimeout c) c.

Inductive credentials_step (c : credentials) : credentials → Prop :=
  | step_type p q : credentials_step c (typePasswords p q c)
  | step_edit u : credentials_step c (editUser u c)
  | step_choose l t : credentials_step c (chooseEmail l t c)
  | step_dialog : credentials_step c (onPasswordDialog c)
  | step_reset : credentials_step c (resetCredentials c)
  | step_sent : credentials_step c (onEmailSent c).

(** ** The page of a user *)

(** [userReqActionList]: the actions that are enabled, by their alias. *)
Definition userReqActionList (data : list (string * bool)) : list string := (filter (λ a, a.2 = true) data).*1.

(** The name and the link of a component, with the right to see the realm or without. *)
Definition componentLink (viewRealm : bool) (realm absUrl name providerId id : string) : string * string :=
  (name, if viewRealm then "#/realms/" +:+ realm +:+ "/user-storage/providers/" +:+ providerId +:+ "/" +:+ id
         else absUrl).

(** [impersonate]: the console goes to the account, or opens it in a window of its own. *)
Inductive impersonation := Navigate (url : string) | NewWindow (url : string).

Definition onImpersonated (sameRealm : bool) (redirect : string) : impersonation :=
  if sameRealm then Navigate redirect else NewWindow redirect.

(** ** Links to identity providers *)

(** The callback of [removeProviderLink]. *)
Definition onLinkRemoved (link : string) (federatedIdentities : list string) : list string :=
  AdminUsers.spliceOut link federatedIdentities.

Definition federatedUrl (realm user : string) : string :=
  "/realms/" +:+ realm +:+ "/users/" +:+ user +:+ "/federated-identity".

(** ** Memberships *)

(** The group whose identifier [joinGroup] and [leaveGroup] send; [joinGroup] says that none is
    selected, [leaveGroup] does nothing. *)
Inductive membership := Update (group : string) | NoGroup | Nothing.

Definition joinGroup (currentNode : option string) : membership :=
  match currentNode with Some g => Update g | None => NoGroup end.

Definition leaveGroup (selectedGroup : option string) : membership :=
  match selectedGroup with Some g => Update g | None => Nothing end.

Definition getSelectedClass (selected : bool) (cutNode : option string) (id : string) : option string :=
  if selected then Some "selected"
  else match cutNode with Some c => if String.eqb c id then Some "cut" else None | None => None end.

(** ** User storage *)

Definition federationUrl (realm : string) : string := "/realms/" +:+ realm +:+ "/user-federation".

Definition addProvider (realm provider : string) : string :=
  "/create/user-storage/" +:+ realm +:+ "/providers/" +:+ provider.

Definition getInstanceLink (realm providerId id : string) : string :=
  "/realms/" +:+ realm +:+ "/user-storage/providers/" +:+ providerId +:+ "/" +:+ id.

(** The answer to the creation of a provider, and [cancel]; [None] loads the route again. *)
Definition onStorageSaved (realm providerId location : string) : string :=
  getInstanceLink realm providerId (ClientForms.createdId location).

Definition cancelStorage (create : bool) (realm : string) : option string :=
  if create then Some (federationUrl realm) else None.

(** [triggerSync]: the message, after the route is loaded again. *)
Definition onSync (status : option string) : string :=
  match status with
  | Some s => "Sync of users finished successfully. " +:+ s
  | None => "Error during sync of users"
  end.

(** [initConnectionTest]: what is tested is what the page shows, saved or not. *)
Definition initConnectionTest (testAction realm : string) (instanceId : jsval) (config : object) : object :=
  [("action", Str testAction); ("realm", Str realm); ("connectionUrl", assoc "connectionUrl" config);
   ("bindDn", assoc "bindDn" config); ("bindCredential", assoc "bindCredential" config);
   ("useTruststoreSpi", assoc "useTruststoreSpi" config);
   ("connectionTimeout", assoc "connectionTimeout" config); ("componentId", instanceId)].

(** ** The page of an LDAP mapper *)

(** The closure's [mapper], completed, [$scope.mapper] and [changed]. *)
Record mapperPage := mkMapperPage { m_loaded : object; m_mapper : object; m_changed : bool }.

(** The type that the loop finds; without one its properties are read of [undefined]. *)
Definition openMapper (types : list (string * list UserStorage.property)) (providerId : string) (mapper config : object)
    : outcome mapperPage :=
  match list_find (λ t, t.1 = providerId) types with
  | None => Throws TypeError
  | Some (_, t) =>
      let m := obj_set "config" (Obj (UserStorage.openMapper t.2 config)) mapper in Returns (mkMapperPage m m false)
  end.

Definition editMapper (m : object) (p : mapperPage) : mapperPage :=
  mkMapperPage (m_loaded p) m (if equals (Obj m) (Obj (m_loaded p)) then m_changed p else true).

Definition resetMapper (p : mapperPage) : mapperPage := mkMapperPage (m_loaded p) (m_loaded p) false.

Definition mappersUrl (realm provider : string) : string := "/realms/" +:+ realm +:+ "/ldap-mappers/" +:+ provider.

Definition onMapperCreated (realm provider location : string) : string :=
  mappersUrl realm provider +:+ "/mappers/" +:+ ClientForms.createdId location.

(** ** Credentials: theorems *)

(** The flags say what the page shows, whatever is done on it. *)
Theorem credentials_flags lifespan user c :
  keys_once (Obj user) = true → rtc credentials_step (openCredentials lifespan user) c →
  pwdChange c = truthy (password c) ∧ userChange c = negb (equals (Obj (c_user c)) (Obj user)) ∧ c_loaded c = user.
Proof.
  intros Hk Hs. pose proof (equals_refl _ Hk) as Hr.
  assert (pwdChange (openCredentials lifespan user) = truthy (password (openCredentials lifespan user)) ∧
    userChange (openCredentials lifespan user) = negb (equals (Obj (c_user (openCredentials lifespan user))) (Obj user)) ∧
    c_loaded (openCredentials lifespan user) = user) as H by (simpl; by rewrite Hr).
  revert H. induction Hs as [|c1 c2 c3 H12 _ IH]; [done|]. intros (H1 & H2 & H3). apply IH.
  destruct H12; simpl; rewrite ?H3; try done. by rewrite Hr.
Qed.

(** [changed], which the button for an email reads, is a variable that no statement of the page
    sets: the email can be sent with changes that are not saved. *)
Theorem email_despite_changes lifespan user u p :
  equals (Obj u) (Obj user) = false → truthy p = true →
  ∃ c, rtc credentials_step (openCredentials lifespan user) c ∧ userChange c = true ∧ pwdChange c = true ∧
    sendExecuteActionsEmail c = AskAndSend (AdminServices.asUnit_toSeconds (AdminServices.asUnit lifespan)) [].
Proof.
  intros Hu Hp. eexists. split.
  { eapply rtc_l; [apply (step_edit _ u)|]. apply rtc_once, (step_type _ p p). }
  simpl. unfold AdminUsers.watchPassword. by rewrite Hu, Hp.
Qed.

Theorem email_never_refused lifespan user c :
  rtc credentials_step (openCredentials lifespan user) c → sendExecuteActionsEmail c ≠ SaveFirst.
Proof.
  intros Hs. assert (c_changed c = Undefined) as H; [|unfold sendExecuteActionsEmail; by rewrite H].
  assert (c_changed (openCredentials lifespan user) = Undefined) as H by done. revert H.
  induction Hs as [|c1 c2 c3 H12 _ IH]; [done|]. intros H. apply IH. by destruct H12.
Qed.

(** The lifespan that is sent, where it is not edited, is the realm's for full minutes that the
    choice of the unit does not misread. *)
Theorem email_lifespan lifespan user :
  sendExecuteActionsEmail (openCredentials lifespan user) = AskAndSend (Some lifespan) [] ↔
  (lifespan = 0 ∨ (60 ≤ lifespan ∧ lifespan mod 60 = 0 ∧ ¬ AdminServices.misread lifespan))%Z.
Proof.
  rewrite <- AdminServices.asUnit_roundtrip. unfold sendExecuteActionsEmail. simpl.
  split; [by intros [= ->]|by intros ->].
Qed.

(** ** Links: theorems *)

(** Removing a link leaves the others, and its provider can be linked again. *)
Theorem link_removed link links :
  NoDup links → link ∈ links →
  onLinkRemoved link links = filter (λ x, x ≠ link) links ∧
  ∀ providers, link ∈ providers → NoDup providers → links ⊆ providers →
    link ∈ AdminUsers.getAvailableProvidersToCreate providers (onLinkRemoved link links).
Proof.
  intros Hn Hin. pose proof (AdminUsers.spliceOut_known link links Hn Hin) as [Hs _]. split; [done|].
  intros ps Hp Hps Hsub. unfold onLinkRemoved. rewrite Hs.
  destruct (AdminUsers.available_providers_spec ps (filter (λ x, x ≠ link) links)) as [-> _];
    [done|by apply NoDup_filter|by intros x [_ Hx]%list_elem_of_filter; apply Hsub|].
  apply list_elem_of_filter. rewrite list_elem_of_filter. naive_solver.
Qed.

(** ** The mapper: theorems *)

(** The page opens unchanged with every setting of its type, and [reset] shows it so again. *)
Theorem mapper_page_reset types providerId mapper config p :
  openMapper types providerId mapper config = Returns p →
  ∃ t c, t ∈ types ∧ t.1 = providerId ∧ assoc "config" (m_mapper p) = Obj c ∧ UserStorage.extends t.2.*1 config c ∧
    m_changed p = false ∧ ∀ m, resetMapper (editMapper m p) = p.
Proof.
  unfold openMapper. destruct (list_find _ types) as [[i t]|] eqn:E; [|done]. intros [= <-].
  apply list_find_Some in E as (Hi & Ht & _). exists t, (UserStorage.openMapper t.2 config).
  split_and!; [by eapply list_elem_of_lookup_2|done|apply assoc_obj_set|apply UserStorage.fillProperties_extends|done|done].
Qed.

(** ** Navigation *)

Lemma no_slash s : AuthzRoutes.plain s → find_last "/" s = None.
Proof.
  intros (_ & H & _). induction s as [|a s IH]; [done|]. cbn [occurs] in H. apply orb_false_iff in H as [Ha Hs].
  cbn [find_last]. rewrite IH by done. by rewrite Ha.
Qed.

(** The URL of the goal is that of the route [path], with the values [l]. *)
Ltac goes path l :=
  apply (AuthFlows.leads_url path l);
  [by rewrite ?app_assoc_s | done | by vm_compute | done | repeat (constructor; [done|]); constructor].

(** The pages of user storage lead where they mean to: to the list, to the page that creates a
    provider, to that of one that exists, and to its mappers. *)
Theorem storage_pages_open realm provider id mapper server :
  Forall AuthzRoutes.plain [realm; provider; id; mapper] →
  AuthFlows.leads (federationUrl realm) "UserFederationCtrl" [("realm", realm)] ∧
  AuthFlows.leads (addProvider realm provider) "GenericUserStorageCtrl" [("realm", realm); ("provider", provider)] ∧
  AuthFlows.leads (onStorageSaved realm provider (server +:+ "/" +:+ id)) "GenericUserStorageCtrl"
    [("realm", realm); ("provider", provider); ("componentId", id)] ∧
  AuthFlows.leads (mappersUrl realm id) "LDAPMapperListCtrl" [("realm", realm); ("componentId", id)] ∧
  AuthFlows.leads (onMapperCreated realm id (server +:+ "/" +:+ mapper)) "LDAPMapperCtrl"
    [("realm", realm); ("componentId", id); ("mapperId", mapper)] ∧
  AuthFlows.leads (federatedUrl realm id) "UserFederatedIdentityCtrl" [("realm", realm); ("user", id)].
Proof.
  rewrite !Forall_cons. intros (? & ? & Hid & Hm & _). unfold onStorageSaved, onMapperCreated.
  rewrite !ClientForms.createdId_spec by (apply no_slash, Hid || apply no_slash, Hm).
  unfold federationUrl, addProvider, getInstanceLink, mappersUrl, federatedUrl. split_and!.
  - goes "/realms/:realm/user-federation" [("realm", realm)].
  - goes "/create/user-storage/:realm/providers/:provider" [("realm", realm); ("provider", provider)].
  - goes "/realms/:realm/user-storage/providers/:provider/:componentId"
      [("realm", realm); ("provider", provider); ("componentId", id)].
  - goes "/realms/:realm/ldap-mappers/:componentId" [("realm", realm); ("componentId", id)].
  - goes "/realms/:realm/ldap-mappers/:componentId/mappers/:mapperId"
      [("realm", realm); ("componentId", id); ("mapperId", mapper)].
  - goes "/realms/:realm/users/:user/federated-identity" [("realm", realm); ("user", id)].
Qed.

(** The providers that the console has pages of their own for open there: LDAP with its
    controller, Kerberos with its template. *)
Theorem special_storage_opens realm id :
  Forall AuthzRoutes.plain [realm; id] →
  AuthFlows.leads (addProvider realm "ldap") "LDAPUserStorageCtrl" [("realm", realm)] ∧
  AuthFlows.leads (getInstanceLink realm "ldap" id) "LDAPUserStorageCtrl" [("realm", realm); ("componentId", id)] ∧
  AuthFlows.leads (addProvider realm "kerberos") "GenericUserStorageCtrl" [("realm", realm)] ∧
  AuthFlows.leads (getInstanceLink realm "kerberos" id) "GenericUserStorageCtrl" [("realm", realm); ("componentId", id)].
Proof.
  rewrite !Forall_cons. intros (? & ? & _). unfold addProvider, getInstanceLink. split_and!.
  - goes "/create/user-storage/:realm/providers/ldap" [("realm", realm)].
  - goes "/realms/:realm/user-storage/providers/ldap/:componentId" [("realm", realm); ("componentId", id)].
  - goes "/create/user-storage/:realm/providers/kerberos" [("realm", realm)].
  - goes "/realms/:realm/user-storage/providers/kerberos/:componentId" [("realm", realm); ("componentId", id)].
Qed.

End UserPages.
