(* ===== verification/ClientKeys.v ===== *)
(** clients.js: [Array.prototype.remove], the page of SAML keys ([ClientSamlKeyCtrl]) with the
    pages of keys it leads to, the import of a client by upload ([ClientImportCtrl]), and the roles
    of a client ([ClientRoleDetailCtrl]). *)

From S2P Require Import Prelude JsString Uri JsValue AdminRoutes AuthzRoutes AuthFlows UserPages ClientTabs.
Import JsString Uri JsValue.

Module ClientKeys.

(** ** [Array.prototype.remove] *)

Section arrays.
Context {A : Type}.

(** [a.slice(n)]: a negative index counts from the end. *)
Definition slice (n : Z) (l : list A) : list A :=
  drop (Z.to_nat (if (n <? 0)%Z then Z.max 0 (Z.of_nat (length l) + n) else n)) l.

(** [remove(from, to)] for indices of the array; [None] is an argument that is left out.  A length
    that is shorter than the array's cuts it. *)
Definition remove (from : Z) (to : option Z) (l : list A) : list A :=
  let last := match to with Some t => if (t =? 0)%Z then from else t | None => from end in
  let start := if (last + 1 =? 0)%Z then Z.of_nat (length l) else (last + 1)%Z in
  let len := if (from <? 0)%Z then (Z.of_nat (length l) + from)%Z else from in
  take (Z.to_nat len) l ++ slice start l.

End arrays.

(** ** Keys of SAML *)

(** Which key, and the part of the URL it has. *)
Inductive key := Signing | Encryption.

Definition keyType (k : key) : string := match k with Signing => "Signing" | Encryption => "Encryption" end.
Definition attribute (k : key) : string := match k with Signing => "saml.signing" | Encryption => "saml.encryption" end.

Definition importKey (realm client : string) (k : key) : string :=
  ClientTabs.clientUrl realm client +:+ "/saml/" +:+ keyType k +:+ "/import/" +:+ attribute k.

Definition exportKey (realm client : string) (k : key) : string :=
  ClientTabs.clientUrl realm client +:+ "/saml/" +:+ keyType k +:+ "/export/" +:+ attribute k.

(** [importCertificate] and [generateSigningKey] of [ClientSignedJWTCtrl]. *)
Definition importCertificate (realm client : string) : string :=
  ClientTabs.clientUrl realm client +:+ "/credentials/client-jwt/Signing/import/jwt.credential".

Definition generateSigningKey (realm client : string) : string :=
  ClientTabs.clientUrl realm client +:+ "/credentials/client-jwt/Signing/export/jwt.credential".

(** The information on a key: which generation is shown, and those that requests will bring; the
    first is that of the page, the others are of keys that were generated. *)
Record keyPage := mkKeyPage { shownKey : option nat; serverKey : nat; coming : list nat }.

Definition openKeys : keyPage := mkKeyPage None 0 [0].

Definition generate (p : keyPage) : keyPage := mkKeyPage (shownKey p) (S (serverKey p)) (coming p ++ [S (serverKey p)]).

(** The answer to the i-th request. *)
Definition onKey (i : nat) (p : keyPage) : keyPage :=
  match coming p !! i with
  | Some k => mkKeyPage (Some k) (serverKey p) (delete i (coming p))
  | None => p
  end.

(** The page at work, with answers that keep their order. *)
Inductive key_step (p : keyPage) : keyPage → Prop :=
  | step_generate : key_step p (generate p)
  | step_answer : key_step p (onKey 0 p).

(** ** Import by upload *)

(** The files that are chosen; [None] is [null]. *)
Definition clearFileSelect : option (list string) := None.

(** [uploadFile]: the URL of each upload, which reads the format that is chosen. *)
Definition uploadFile (authUrl realm : string) (configFormat : option string) (files : option (list string))
    : outcome (list (string * string)) :=
  match files with
  | None => Throws TypeError
  | Some [] => Returns []
  | Some l => match configFormat with
              | None => Throws TypeError
              | Some f => Returns ((λ file, (authUrl +:+ "/admin/realms/" +:+ realm +:+ "/client-importers/" +:+ f +:+ "/upload", file)) <$> l)
              end
  end.

(** ** Roles of a client *)

Definition rolesUrl (realm client : string) : string := ClientTabs.clientUrl realm client +:+ "/roles".

(** Once a role is created it is asked for by its name, and the console goes to its identifier. *)
Definition onRoleCreated (realm client id : string) : string := rolesUrl realm client +:+ "/" +:+ id.

(** ** Arrays: theorems *)

(** An index takes away the element there, counted from the end where it is negative; two take
    away what is from the one to the other. *)
Theorem array_remove_spec {A} (l : list A) (i : Z) :
  (- Z.of_nat (length l) ≤ i < Z.of_nat (length l))%Z →
  remove i None l = delete (Z.to_nat (i mod Z.of_nat (length l))) l ∧
  (∀ j, (0 ≤ i)%Z → (i ≤ j < Z.of_nat (length l))%Z → (j ≠ 0 ∨ i = 0)%Z →
   remove i (Some j) l = take (Z.to_nat i) l ++ drop (S (Z.to_nat j)) l).
Proof.
  intros Hi. assert (0 < Z.of_nat (length l))%Z as Hl by lia. split.
  - unfold remove, slice. rewrite delete_take_drop.
    destruct (Z.ltb_spec i 0) as [Hneg|Hpos].
    + assert (i mod Z.of_nat (length l) = Z.of_nat (length l) + i)%Z as ->.
      { symmetry. apply (Z.mod_unique_pos _ _ (-1)); lia. }
      replace (Z.of_nat (length l) + i)%Z with (i + Z.of_nat (length l))%Z by lia.
      f_equal. f_equal. destruct (Z.eqb_spec (i + 1) 0) as [E|E].
      * destruct (Z.ltb_spec (Z.of_nat (length l)) 0); lia.
      * destruct (Z.ltb_spec (i + 1) 0); lia.
    + rewrite Z.mod_small by lia. f_equal. f_equal. destruct (Z.eqb_spec (i + 1) 0); [lia|].
      destruct (Z.ltb_spec (i + 1) 0); lia.
  - intros j H0 Hj Hz. unfold remove, slice.
    replace (if (j =? 0)%Z then i else j) with j by (destruct (Z.eqb_spec j 0); lia).
    destruct (Z.eqb_spec (j + 1) 0); [lia|]. destruct (Z.ltb_spec i 0); [lia|]. destruct (Z.ltb_spec (j + 1) 0); [lia|].
    f_equal. f_equal. lia.
Qed.

(** ** Keys: theorems *)

(** The last request brings the key that the server has. *)
Definition keys_ok (p : keyPage) : Prop :=
  match last (coming p) with Some k => k = serverKey p | None => shownKey p = Some (serverKey p) end.

Lemma keys_ok_step p p' : key_step p p' → keys_ok p → keys_ok p'.
Proof.
  unfold keys_ok. intros [|] H; [simpl; by rewrite last_snoc|]. unfold onKey.
  destruct (coming p) as [|k l] eqn:E; simpl; [by rewrite E|].
  destruct l as [|k' l]; [by simpl in *; subst|]. rewrite last_cons_cons in H.
  destruct (last (k' :: l)) eqn:El; [done|]. by apply last_None in El.
Qed.

(** Once every request is answered, in order, the information is that of the key the server has. *)
Theorem keys_current p : rtc key_step openKeys p → coming p = [] → shownKey p = Some (serverKey p).
Proof.
  intros Hs Hc. assert (keys_ok p) as Hp; [|unfold keys_ok in Hp; by rewrite Hc in Hp].
  assert (keys_ok openKeys) as H by done. clear Hc. revert H.
  induction Hs as [|p1 p2 p3 H12 _ IH]; [done|]. intros H. by eapply IH, keys_ok_step.
Qed.

(** The answer about the key of the page, coming after that about a key that was generated,
    shows the key that is no more. *)
Theorem old_key_shown : shownKey (onKey 0 (onKey 1 (generate openKeys))) = Some 0.
Proof. done. Qed.

(** [plain], of a text that is known. *)
Definition plainText (s : string) : bool :=
  negb (String.eqb s "") && negb (occurs "/" s) && negb (bool_decide (s ∈ AuthzRoutes.literals AuthzRoutes.consoleRoutes)).

Lemma plainText_spec s : plainText s = true → AuthzRoutes.plain s.
Proof.
  unfold plainText. rewrite !andb_true_iff, !negb_true_iff. intros [[H1 H2] H3].
  split_and!; [by apply String.eqb_neq|done|by apply bool_decide_eq_false in H3].
Qed.

(** Each button opens the page for its key. *)
Theorem key_pages_open realm client k :
  AuthzRoutes.plain realm → AuthzRoutes.plain client →
  AuthFlows.leads (importKey realm client k) "ClientCertificateImportCtrl"
    [("realm", realm); ("client", client); ("keyType", keyType k); ("attribute", attribute k)] ∧
  AuthFlows.leads (exportKey realm client k) "ClientCertificateExportCtrl"
    [("realm", realm); ("client", client); ("keyType", keyType k); ("attribute", attribute k)] ∧
  AuthFlows.leads (importCertificate realm client) "ClientCertificateImportCtrl"
    [("realm", realm); ("client", client); ("keyType", "Signing"); ("attribute", "jwt.credential")] ∧
  AuthFlows.leads (generateSigningKey realm client) "ClientCertificateExportCtrl"
    [("realm", realm); ("client", client); ("keyType", "Signing"); ("attribute", "jwt.credential")].
Proof.
  intros Hr Hc. unfold importKey, exportKey, importCertificate, generateSigningKey, ClientTabs.clientUrl.
  assert (Forall AuthzRoutes.plain ["Signing"; "Encryption"; "saml.signing"; "saml.encryption"; "jwt.credential"]) as Hp
    by (repeat (constructor; [by apply plainText_spec; vm_compute|]); constructor).
  rewrite !Forall_cons in Hp. destruct Hp as (? & ? & ? & ? & ? & _).
  destruct k; cbn [keyType attribute]; split_and!.
  all: match goal with
    | |- AuthFlows.leads _ _ [_; _; (_, ?t); (_, ?a)] =>
        first [UserPages.goes "/realms/:realm/clients/:client/saml/:keyType/import/:attribute"
                 [("realm", realm); ("client", client); ("keyType", t); ("attribute", a)]
              |UserPages.goes "/realms/:realm/clients/:client/saml/:keyType/export/:attribute"
                 [("realm", realm); ("client", client); ("keyType", t); ("attribute", a)]
              |UserPages.goes "/realms/:realm/clients/:client/credentials/client-jwt/:keyType/import/:attribute"
                 [("realm", realm); ("client", client); ("keyType", t); ("attribute", a)]
              |UserPages.goes "/realms/:realm/clients/:client/credentials/client-jwt/:keyType/export/:attribute"
                 [("realm", realm); ("client", client); ("keyType", t); ("attribute", a)]]
    end.
Qed.

(** ** Uploads: theorems *)

(** After [cancel], which forgets the files by [null], an upload throws; so it does before a
    format is chosen. *)
Theorem upload_after_cancel authUrl realm f file :
  uploadFile authUrl realm f clearFileSelect = Throws TypeError ∧
  uploadFile authUrl realm None (Some [file]) = Throws TypeError.
Proof. done. Qed.

(** The page of a role that was created opens. *)
Theorem created_role_opens realm client id :
  AuthzRoutes.plain realm → AuthzRoutes.plain client → AuthzRoutes.plain id →
  AuthFlows.leads (onRoleCreated realm client id) "ClientRoleDetailCtrl"
    [("realm", realm); ("client", client); ("role", id)].
Proof.
  intros Hr Hc Hi. unfold onRoleCreated, rolesUrl, ClientTabs.clientUrl.
  UserPages.goes "/realms/:realm/clients/:client/roles/:role" [("realm", realm); ("client", client); ("role", id)].
Qed.

End ClientKeys.
