(* ===== verification/RealmPages.v ===== *)
(** Pages of realm.js: the page of a realm with its renaming ([RealmDetailCtrl]), a new realm and
    its import ([RealmCreateCtrl]), the login settings, the providers of keys, the settings of
    events, the export of a realm, initial access tokens, the counts of a partial import, and the
    removal of a configuration. *)

From S2P Require Import Prelude JsString Uri JsValue Json AngularEquals AdminServices RealmLists RealmImport AdminRoutes AuthzRoutes AuthFlows UserPages ClientTabs.
Import JsString Uri JsValue Json AngularEquals.

Module RealmPages.

Abbreviation object := (list (string * jsval)).

(** ** The page of a realm *)

(** [$scope.realm], [$scope.realmName], [$scope.changed] and the closure's [oldCopy]. *)
Record detail := mkDetail { d_realm : object; d_name : jsval; d_changed : bool; d_old : object }.

Definition openRealm (realm : object) : detail := mkDetail realm (assoc "realm" realm) false realm.

(** An edit of the realm or of its name, with the watch that follows. *)
Definition editRealm (r : object) (p : detail) : detail :=
  mkDetail r (d_name p) (if equals (Obj r) (Obj (d_old p)) then d_changed p else true) (d_old p).

Definition editName (n : jsval) (p : detail) : detail :=
  mkDetail (d_realm p) n (if equals n (assoc "realm" (d_old p)) then d_changed p else true) (d_old p).

(** [save]: the name the request is for, its body, and whether the name is another. *)
Definition saveRealm (p : detail) : detail * (jsval * object * bool) :=
  (mkDetail (d_realm p) (d_name p) false (d_old p),
   (assoc "realm" (d_old p), obj_set "realm" (d_name p) (d_realm p), negb (equals (d_name p) (assoc "realm" (d_old p))))).

(** The realms that the server lists afterwards, by their names. *)
Definition onRealms (names : list jsval) (saved : jsval) (p : detail) : detail :=
  if existsb (λ n, loose_eq n saved) names then mkDetail (d_realm p) (d_name p) (d_changed p) (d_realm p) else p.

Definition resetRealm (p : detail) : detail := mkDetail (d_old p) (d_name p) false (d_old p).

(** [String.prototype.endsWith] *)
Definition ends_with (s p : string) : bool :=
  (String.length p <=? String.length s) && String.eqb (drop_s (String.length s - String.length p) s) p.

(** Where the console goes once the realm is saved. *)
Inductive destination :=
  | Go (url : string)                       (* $location.url *)
  | RefreshThenGo (url : string)            (* after two refreshes of the permissions *)
  | Replace (href : string).                (* window.location.replace *)

(** For names without a dollar sign, which [replace] would read as a pattern. *)
Definition newLocation (href oldName newName : string) : string :=
  replace_first (replace_first href ("/" +:+ oldName +:+ "/") ("/" +:+ newName +:+ "/"))
    ("/realms/" +:+ oldName) ("/realms/" +:+ newName).

Definition afterSave (nameChanged : bool) (iss masterRealm href oldName newName : string) : destination :=
  if nameChanged
  then if ends_with iss masterRealm then RefreshThenGo ("/realms/" +:+ newName)
       else Replace (newLocation href oldName newName)
  else Go ("/realms/" +:+ newName).

(** ** A new realm *)

(** [$scope.realm], the name that the watch of ['realm.realm'] saw last, [changed] and
    [importing]. *)
Record creation := mkCreation { n_realm : object; n_seen : jsval; n_changed : bool; n_importing : bool }.

Definition newRealm : object := [("enabled", Bool true)].

(** The two watches, in their order. *)
Definition digestCreation (p : creation) : creation :=
  let changed := if equals (Obj (n_realm p)) (Obj newRealm) then n_changed p else true in
  let name := assoc "realm" (n_realm p) in
  if equals name (n_seen p) then mkCreation (n_realm p) (n_seen p) changed (n_importing p)
  else mkCreation (obj_set "id" name (n_realm p)) name changed (n_importing p).

(** The page after its first digest, in which the watch of the name runs. *)
Definition openCreation : creation := mkCreation (obj_set "id" Undefined newRealm) Undefined false false.

Definition setProperty (k : string) (v : jsval) (p : creation) : creation :=
  digestCreation (mkCreation (obj_set k v (n_realm p)) (n_seen p) (n_changed p) (n_importing p)).

Definition importFile (content : string) (p : creation) : outcome creation :=
  v ← JSON_parse content;
  match v with
  | Obj o => Returns (digestCreation (mkCreation o (n_seen p) (n_changed p) true))
  | _ => Throws NotModelled
  end.

(** ** Login settings *)

(** The watch of ['realm.loginWithEmailAllowed']. *)
Definition watchLoginWithEmail (r : object) : object :=
  if truthy (assoc "loginWithEmailAllowed" r) then obj_set "duplicateEmailsAllowed" (Bool false) r else r.

(** The switch of the one, and that of the other, which the page shows where the first is off. *)
Inductive login_step (r : object) : object → Prop :=
  | login_switch b : login_step r (watchLoginWithEmail (obj_set "loginWithEmailAllowed" (Bool b) r))
  | login_duplicates b : truthy (assoc "loginWithEmailAllowed" r) = false →
      login_step r (obj_set "duplicateEmailsAllowed" (Bool b) r)
  | login_other k v : k ≠ "loginWithEmailAllowed" → k ≠ "duplicateEmailsAllowed" → login_step r (obj_set k v r).

(** ** Providers of keys *)

(** The two loops: an instance, by the identifier of its provider, gets the provider, by the last
    that has it. *)
Definition attachProviders {A} (providers : list (string * A)) (instances : list string) : list (string * option A) :=
  (λ i, (i, foldl (λ found p, if String.eqb p.1 i then Some p.2 else found) None providers)) <$> instances.

(** ** Settings of events *)

Definition openEvents (config : object) (t : Z) : outcome object :=
  let u := AdminServices.autoUnit t in
  x ← AdminServices.toUnit t u;
  Returns (obj_set "eventsExpiration" (Num x) (obj_set "expirationUnit" (Str u) config)).

Definition saveEvents (config : object) (t : Z) (u : string) : outcome object :=
  s ← AdminServices.toSeconds t u;
  Returns (obj_set "eventsExpiration" (Num s) (RealmImport.obj_del "expirationUnit" config)).

(** ** Export and import *)

Definition asks (exportGroupsAndRoles exportClients : bool) : bool := exportGroupsAndRoles || exportClients.

(** [$httpParamSerializer] sorts the keys. *)
Definition exportUrl (authUrl realm : string) (exportGroupsAndRoles exportClients : bool) : string :=
  let params := (if exportClients then ["exportClients=true"] else []) ++
                (if exportGroupsAndRoles then ["exportGroupsAndRoles=true"] else []) in
  authUrl +:+ "/admin/realms/" +:+ realm +:+ "/partial-export" +:+
  match params with [] => "" | _ => "?" +:+ join "&" params end.

(** [length] of a value of a file. *)
Definition lengthOf (v : jsval) : outcome nat :=
  match v with
  | Arr l => Returns (length l)
  | Undefined | Null => Throws TypeError
  | _ => Throws NotModelled
  end.

Fixpoint clientRolesCount (clientRoles : list (string * jsval)) : outcome nat :=
  match clientRoles with
  | [] => Returns 0
  | (_, v) :: l => n ← lengthOf v; m ← clientRolesCount l; Returns (n + m)
  end.

(** [itemCount], of a file that is an object. *)
Definition itemCount (importing : bool) (o : object) (section : string) : outcome nat :=
  if negb importing then Returns 0
  else
    realmRoles ← RealmImport.hasRealmRoles (Obj o);
    if realmRoles && String.eqb section "roles.realm" then lengthOf (assoc "realm" (RealmImport.rolesOf o))
    else
      clientRoles ← RealmImport.hasClientRoles (Obj o);
      if clientRoles && String.eqb section "roles.client" then clientRolesCount (RealmImport.clientsOf o)
      else if bool_decide (section ∈ o.*1) then lengthOf (assoc section o) else Returns 0.

(** ** Initial access tokens *)

Definition saveInitialAccess (expiration : Z) (unit : string) (count : Z) : outcome object :=
  s ← AdminServices.toSeconds expiration unit;
  Returns [("expiration", Num s); ("count", Num count)].

(** ** Configurations *)

Definition onConfigRemoved (realm flowId : string) : string :=
  "/realms/" +:+ realm +:+ "/authentication/flows/" +:+ flowId.

(** ** The page of a realm: theorems *)

(** What is edited is sent, under the name the realm had; once the server lists it, [reset] shows
    it. *)
Theorem realm_edit_saved realm r n names :
  let p := editName n (editRealm r (openRealm realm)) in
  (saveRealm p).2 = (assoc "realm" realm, obj_set "realm" n r, negb (equals n (assoc "realm" realm))) ∧
  (existsb (λ m, loose_eq m n) names = true → d_realm (resetRealm (onRealms names n (saveRealm p).1)) = r).
Proof. split; [done|]. intros H. unfold onRealms. by rewrite H. Qed.

(** [reset] takes back the realm and not its name: the page shows the new one with its buttons
    disabled, and the next save renames the realm. *)
Theorem reset_keeps_name realm n r :
  let p := resetRealm (editName n (openRealm realm)) in
  d_changed p = false ∧ d_name p = n ∧
  (saveRealm (editRealm r p)).2 = (assoc "realm" realm, obj_set "realm" n r, negb (equals n (assoc "realm" realm))).
Proof. done. Qed.

Lemma replace_first_at pre p r post :
  find_s p (pre +:+ p +:+ post) = Some (String.length pre) → replace_first (pre +:+ p +:+ post) p r = pre +:+ r +:+ post.
Proof.
  intros H. unfold replace_first. rewrite H. rewrite take_s_app.
  by rewrite <- length_app_s, <- (app_assoc_s pre p post), drop_s_app.
Qed.

(** The administrator of the realm itself is sent to the console of the new name, where the old
    one is not found earlier in the URL. *)
Theorem renamed_location base old new rest :
  let mid := "/console/#" in
  find_s ("/" +:+ old +:+ "/") ((base +:+ "/admin") +:+ ("/" +:+ old +:+ "/") +:+ ("console/#/realms/" +:+ old +:+ rest)) =
    Some (String.length (base +:+ "/admin")) →
  find_s ("/realms/" +:+ old) ((base +:+ "/admin/" +:+ new +:+ mid) +:+ ("/realms/" +:+ old) +:+ rest) =
    Some (String.length (base +:+ "/admin/" +:+ new +:+ mid)) →
  newLocation (base +:+ "/admin/" +:+ old +:+ mid +:+ "/realms/" +:+ old +:+ rest) old new =
  base +:+ "/admin/" +:+ new +:+ mid +:+ "/realms/" +:+ new +:+ rest.
Proof.
  intros mid H1 H2. unfold newLocation.
  replace (base +:+ "/admin/" +:+ old +:+ mid +:+ "/realms/" +:+ old +:+ rest)
    with ((base +:+ "/admin") +:+ ("/" +:+ old +:+ "/") +:+ ("console/#/realms/" +:+ old +:+ rest)) by (by rewrite !app_assoc_s).
  rewrite replace_first_at by done.
  replace ((base +:+ "/admin") +:+ ("/" +:+ new +:+ "/") +:+ ("console/#/realms/" +:+ old +:+ rest))
    with ((base +:+ "/admin/" +:+ new +:+ mid) +:+ ("/realms/" +:+ old) +:+ rest) by (by rewrite !app_assoc_s).
  rewrite replace_first_at by done. by rewrite !app_assoc_s.
Qed.

(** A realm that is called as the context path of the server: the path is replaced. *)
Theorem renamed_context_path :
  newLocation "https://host/auth/admin/auth/console/#/realms/auth" "auth" "new" =
  "https://host/new/admin/auth/console/#/realms/new".
Proof. by vm_compute. Qed.

Lemma ends_with_app s p : ends_with (s +:+ p) p = true.
Proof.
  unfold ends_with. rewrite length_app_s.
  replace (String.length s + String.length p - String.length p) with (String.length s) by lia.
  rewrite drop_s_app, String.eqb_refl. apply andb_true_iff. split; [apply Nat.leb_le; lia|done].
Qed.

(** The administrator of a realm whose name ends with that of the master realm is taken for one
    of the master realm: the console stays at the URL of the old name. *)
Theorem suffix_taken_for_master server prefix master href old new :
  afterSave true (server +:+ "/realms/" +:+ prefix +:+ master) master href old new = RefreshThenGo ("/realms/" +:+ new).
Proof.
  unfold afterSave. replace (server +:+ "/realms/" +:+ prefix +:+ master)
    with ((server +:+ "/realms/" +:+ prefix) +:+ master) by (by rewrite !app_assoc_s). by rewrite ends_with_app.
Qed.

(** ** A new realm: theorems *)

Inductive creation_step (p : creation) : creation → Prop :=
  | step_name n : creation_step p (setProperty "realm" (Str n) p)
  | step_property k v : k ≠ "realm" → k ≠ "id" → creation_step p (setProperty k v p).

Definition creation_ok (p : creation) : Prop :=
  assoc "realm" (n_realm p) = n_seen p ∧ assoc "id" (n_realm p) = n_seen p ∧
  (n_seen p = Undefined ∨ ∃ n, n_seen p = Str n).

(** The identifier of a realm that is typed in is its name. *)
Theorem typed_realm_id p :
  rtc creation_step openCreation p → assoc "id" (n_realm p) = assoc "realm" (n_realm p).
Proof.
  intros Hs. assert (creation_ok p) as (H1 & H2 & _); [|by rewrite H1, H2].
  assert (creation_ok openCreation) as H by (split_and!; [done..|by left]). revert H.
  induction Hs as [|p1 p2 p3 H12 _ IH]; [done|]. intros (H1 & H2 & H3). apply IH. clear IH.
  destruct H12 as [n|k v Hk Hi]; unfold setProperty, digestCreation; cbn [n_realm n_seen].
  - rewrite assoc_obj_set. destruct (equals (Str n) (n_seen p1)) eqn:E.
    + assert (n_seen p1 = Str n) as Hn.
      { destruct H3 as [H3|[m H3]]; rewrite H3 in *; [done|]. cbn in E. by apply String.eqb_eq in E as ->. }
      split_and!; cbn [n_realm n_seen]; [by rewrite assoc_obj_set|by rewrite assoc_obj_set_ne, H2|by right; exists n].
    + split_and!; cbn [n_realm n_seen]; [by rewrite assoc_obj_set_ne, assoc_obj_set|by rewrite assoc_obj_set|by right; exists n].
  - rewrite assoc_obj_set_ne, H1 by done.
    assert (equals (n_seen p1) (n_seen p1) = true) as -> by (destruct H3 as [->|[m ->]]; [done|apply String.eqb_refl]).
    split_and!; cbn [n_realm n_seen]; [by rewrite assoc_obj_set_ne|by rewrite assoc_obj_set_ne|done].
Qed.

(** The identifier of a file is replaced by its name, unless that name was typed before. *)
Theorem imported_realm_id content o name id p :
  JSON_parse content = Returns (Obj o) → assoc "realm" o = Str name → assoc "id" o = Str id →
  ∃ q, importFile content p = Returns q ∧
    assoc "id" (n_realm q) = if equals (Str name) (n_seen p) then Str id else Str name.
Proof.
  intros Hj Hn Hi. unfold importFile. rewrite Hj. eexists. split; [done|].
  unfold digestCreation. cbn [n_realm n_seen]. rewrite Hn.
  destruct (equals (Str name) (n_seen p)); cbn [n_realm]; [done|apply assoc_obj_set].
Qed.

(** ** Login settings: theorems *)

(** No realm is saved that allows duplicate emails and to log in with an email. *)
Theorem no_duplicates_with_email r r' :
  rtc login_step (watchLoginWithEmail r) r' → truthy (assoc "loginWithEmailAllowed" r') = true →
  assoc "duplicateEmailsAllowed" r' = Bool false.
Proof.
  assert (∀ r, truthy (assoc "loginWithEmailAllowed" (watchLoginWithEmail r)) = true →
    assoc "duplicateEmailsAllowed" (watchLoginWithEmail r) = Bool false) as Hw.
  { intros q. unfold watchLoginWithEmail. destruct (truthy (assoc "loginWithEmailAllowed" q)) eqn:E; [intros _; apply assoc_obj_set|congruence]. }
  intros Hs. assert (truthy (assoc "loginWithEmailAllowed" (watchLoginWithEmail r)) = true →
    assoc "duplicateEmailsAllowed" (watchLoginWithEmail r) = Bool false) as H by apply Hw. revert H.
  induction Hs as [|r1 r2 r3 H12 _ IH]; [done|]. intros H. apply IH.
  destruct H12 as [b|b Hb|k v H1 H2]; [apply Hw| |by rewrite !assoc_obj_set_ne].
  by rewrite assoc_obj_set_ne, Hb by done.
Qed.

(** ** Lists and forms: theorems *)

(** An instance gets the last provider with its identifier, if there is one. *)
Theorem attachProviders_spec {A} (providers : list (string * A)) instances i id :
  instances !! i = Some id →
  attachProviders providers instances !! i = Some (id, snd <$> last (filter (λ p, p.1 = id) providers)).
Proof.
  intros Hi. unfold attachProviders. rewrite list_lookup_fmap, Hi. simpl. do 2 f_equal.
  induction providers as [|p l IH] using rev_ind; [done|].
  rewrite foldl_app, filter_app, filter_cons, filter_nil. simpl.
  destruct (String.eqb_spec p.1 id) as [E|E]; [by rewrite decide_True, last_snoc|].
  by rewrite decide_False, (right_id_L [] (++)).
Qed.

(** The settings of events that are saved unedited are what they were, except for the times that
    the choice of the unit misreads. *)
Theorem events_settings_roundtrip config t shown x :
  openEvents config t = Returns shown → assoc "expirationUnit" config = Undefined →
  assoc "eventsExpiration" config = Num t → assoc "eventsExpiration" shown = Num x → ¬ AdminServices.misread t →
  ∃ body, saveEvents shown x (AdminServices.autoUnit t) = Returns body ∧ ∀ k, assoc k body = assoc k config.
Proof.
  intros H Hu Ht Hx Hm. unfold openEvents in H.
  destruct (AdminServices.toUnit t (AdminServices.autoUnit t)) as [y|] eqn:E; [|done]. injection H as <-.
  rewrite assoc_obj_set in Hx. injection Hx as ->.
  destruct (ClientTabs.time_form_roundtrip "eventsExpiration" "expirationUnit" config t x) as [Hr Hb]; [done..|].
  unfold saveEvents. rewrite Hr. by eexists.
Qed.

(** The page asks before an export exactly where the URL has parameters. *)
Theorem export_asks authUrl realm g c :
  asks g c = false ↔ exportUrl authUrl realm g c = authUrl +:+ "/admin/realms/" +:+ realm +:+ "/partial-export".
Proof.
  split; [by destruct g, c|]. intros H. apply (f_equal String.length) in H.
  unfold exportUrl in H. rewrite !length_app_s in H. destruct g, c; simpl in H; try done; lia.
Qed.

(** The counts of a file are the lengths of its sections. *)
Theorem itemCount_spec o section l :
  RealmImport.file_ok o →
  (section ∉ ["roles.realm"; "roles.client"] → section ∈ o.*1 → assoc section o = Arr l →
   itemCount true o section = Returns (length l)) ∧
  (assoc "realm" (RealmImport.rolesOf o) = Arr l → l ≠ [] → itemCount true o "roles.realm" = Returns (length l)).
Proof.
  intros Hok. unfold itemCount. destruct (RealmImport.roles_spec o Hok) as [-> ->]. cbn [negb]. split.
  - intros Hs Hin Ha. cbn.
    rewrite (proj2 (String.eqb_neq section "roles.realm")), (proj2 (String.eqb_neq section "roles.client")) by set_solver.
    rewrite !andb_false_r. cbn. rewrite bool_decide_true by done. by rewrite Ha.
  - intros Ha Hl. unfold RealmImport.contains. rewrite Ha. destruct l; [done|]. done.
Qed.

(** Once a configuration is removed the console goes to the page of flows with the identifier of
    the flow, where it looks for its alias: it shows the first flow, and remembers the
    identifier as the flow that was chosen. *)
Theorem removed_config_shows_first realm first flows f last :
  AuthzRoutes.plain realm → AuthzRoutes.plain (RealmLists.f_id f) →
  Forall (λ g, RealmLists.f_alias g ≠ RealmLists.f_id f) (first :: flows) →
  AuthFlows.leads (onConfigRemoved realm (RealmLists.f_id f)) "AuthenticationFlowsCtrl"
    [("realm", realm); ("flow", RealmLists.f_id f)] ∧
  RealmLists.openFlows (first :: flows) (Some (RealmLists.f_id f)) last = (Some first, Some (RealmLists.f_id f), false).
Proof.
  intros Hr Hf Hall. split.
  - unfold onConfigRemoved.
    UserPages.goes "/realms/:realm/authentication/flows/:flow" [("realm", realm); ("flow", RealmLists.f_id f)].
  - unfold RealmLists.openFlows. rewrite (proj2 (String.eqb_neq _ _)) by apply Hf.
    by rewrite (proj2 (list_find_None _ _)).
Qed.

End RealmPages.
