(* ===== verification/SharedState.v ===== *)
(** State that pages of the console share: [Current], the realm of the console, and
    [UserSearchState], the search of users (services.js), with the pages that read them
    (groups.js, users.js), and the default groups of a realm. *)

From S2P Require Import Prelude JsString Uri JsValue AdminRoutes AuthzRoutes AuthFlows UserPages.
Import JsString Uri JsValue.

Module SharedState.

(** ** [Current] *)

(** The parameter [realm] of the route, [current.realms] by the query that fills it, the realms
    that query has brought, [current.realm], and the queries that are not answered. *)
Record current := mkCurrent {
  route : option string;
  latest : nat;
  realms : list string;
  realm : option string;
  waiting : list nat
}.

Definition noCurrent : current := mkCurrent None 0 [] None [].

(** [$routeChangeStart]: another array, which is empty until it is filled. *)
Definition routeChange (r : option string) (c : current) : current :=
  mkCurrent r (S (latest c)) [] (realm c) (waiting c ++ [S (latest c)]).

(** The loop over the realms: the last of that name. *)
Definition realmOf (r : option string) (names : list string) : option string :=
  match r with
  | None => None
  | Some n => if String.eqb n "" then None
              else foldl (λ found m, if String.eqb m n then Some m else found) None names
  end.

(** The answer to a query. *)
Definition onRealms (i : nat) (names : list string) (c : current) : current :=
  mkCurrent (route c) (latest c) (if i =? latest c then names else realms c) (realmOf (route c) names)
    (filter (λ j, j ≠ i) (waiting c)).

Inductive current_step (names : list string) (c : current) : current → Prop :=
  | step_route r : current_step names c (routeChange r c)
  | step_answer i : i ∈ waiting c → current_step names c (onRealms i names c).

(** The realm that [removeGroup], [removeUser] and [removeClient] of the tabs send. *)
Definition removalRealm (c : current) : outcome string :=
  match realm c with Some r => Returns r | None => Throws TypeError end.

(** [removeRealm]: the name in the dialog is read when it opens, that of the request when it is
    confirmed. *)
Definition removeRealm (opened confirmed : current) : outcome (string * string) :=
  named ← removalRealm opened; removed ← removalRealm confirmed; Returns (named, removed).

(** ** [UserSearchState] *)

Record search := mkSearch { s_realm : string; s_search : string; s_max : Z; s_first : Z; isFirstSearch : bool }.

Definition noSearch : search := mkSearch "" "" 20 0 true.

(** What a query asks for. *)
Definition asks (s : search) : string * string * Z * Z := (s_realm s, s_search s, s_max s, s_first s).

(** [init] of [UserListCtrl]: the page asks at once where there was a search before. *)
Definition openUsers (r : string) (s : search) : search * option (string * string * Z * Z) :=
  let s := mkSearch r (s_search s) (s_max s) (s_first s) (isFirstSearch s) in
  (s, if isFirstSearch s then None else Some (asks s)).

Definition typeSearch (t : string) (s : search) : search :=
  mkSearch (s_realm s) t (s_max s) (s_first s) (isFirstSearch s).

Definition firstPage (s : search) : search := mkSearch (s_realm s) (s_search s) (s_max s) 0 (isFirstSearch s).

Definition nextPage (s : search) : search :=
  mkSearch (s_realm s) (s_search s) (s_max s) (s_first s + s_max s) (isFirstSearch s).

Definition onUsers (s : search) : search := mkSearch (s_realm s) (s_search s) (s_max s) (s_first s) false.

(** ** Groups *)

Definition createGroup (realm : string) (selected : option string) : string :=
  "/create/group/" +:+ realm +:+ "/parent/" +:+ default "realm" selected.

Inductive default_request := AddDefault (group : string) | RemoveDefault (group : string) | SelectFirst.

Definition addDefaultGroup (currentNode : option string) : default_request :=
  match currentNode with Some g => AddDefault g | None => SelectFirst end.

Definition removeDefaultGroup (selectedGroup : option string) : outcome default_request :=
  match selectedGroup with Some g => Returns (RemoveDefault g) | None => Throws TypeError end.

(** ** [Current]: theorems *)

Lemma realmOf_spec r names :
  realmOf r names = match r with Some n => if bool_decide (n ≠ "" ∧ n ∈ names) then Some n else None | None => None end.
Proof.
  destruct r as [n|]; [|done]. unfold realmOf. destruct (String.eqb_spec n "") as [->|Hn]; [by rewrite bool_decide_false by naive_solver|].
  induction names as [|m names IH] using rev_ind; [by rewrite bool_decide_false by set_solver|].
  rewrite foldl_app. simpl. destruct (String.eqb_spec m n) as [->|Hm]; [by rewrite bool_decide_true by set_solver|].
  rewrite IH. repeat case_bool_decide; naive_solver set_solver.
Qed.

Definition current_ok (names : list string) (c : current) : Prop :=
  Forall (λ i, i ≤ latest c) (waiting c) ∧
  (latest c ∈ waiting c ∨ (realms c = names ∧ realm c = realmOf (route c) names)).

Lemma current_ok_step names c c' : current_step names c c' → 0 < latest c → current_ok names c → current_ok names c'.
Proof.
  intros [r|i Hi] _ [Hw Hl]; split; simpl.
  - apply Forall_app. split; [eapply Forall_impl; [exact Hw|simpl; lia]|by repeat constructor].
  - left. set_solver.
  - apply Forall_forall. intros j [_ Hj]%list_elem_of_filter. by eapply Forall_forall in Hw.
  - destruct (Nat.eqb_spec i (latest c)) as [->|Hne]; [by right|].
    destruct Hl as [Hl|[Hr _]]; [left; apply list_elem_of_filter; naive_solver|by right].
Qed.

(** Once every query is answered, the list is the server's and the realm is that of the route,
    in whatever order the answers came. *)
Theorem current_follows_route names r c :
  rtc (current_step names) (routeChange r noCurrent) c → waiting c = [] →
  realms c = names ∧ realm c = match route c with
                              | Some n => if bool_decide (n ≠ "" ∧ n ∈ names) then Some n else None
                              | None => None end.
Proof.
  intros Hs Hw. rewrite <- realmOf_spec. assert (current_ok names c) as [_ [H|H]]; [|by rewrite Hw in H; apply not_elem_of_nil in H|done].
  assert (0 < latest (routeChange r noCurrent)) as Hp by (simpl; lia).
  assert (current_ok names (routeChange r noCurrent)) as Ho.
  { split; [by repeat constructor|left; set_solver]. }
  clear Hw. revert Hp Ho. induction Hs as [|c1 c2 c3 H12 _ IH]; [done|]. intros Hp Ho. apply IH.
  - destruct H12; simpl; lia.
  - by eapply current_ok_step.
Qed.

(** After a change of the realm and before the answer, a tab still removes from the realm
    before. *)
Theorem removal_from_realm_before names a b :
  a ∈ names → a ≠ "" →
  ∃ c, rtc (current_step names) (routeChange (Some a) noCurrent) c ∧ route c = Some b ∧ removalRealm c = Returns a.
Proof.
  intros Ha Hne. exists (routeChange (Some b) (onRealms 1 names (routeChange (Some a) noCurrent))). split.
  { eapply rtc_l; [apply (step_answer _ _ 1); set_solver|]. apply rtc_once, step_route. }
  split; [done|]. unfold removalRealm. cbn [realm routeChange onRealms route].
  by rewrite realmOf_spec, bool_decide_true.
Qed.

(** The dialog that removes a realm may name the realm before, and remove the one that is shown. *)
Theorem removed_realm_not_named names a b :
  a ∈ names → b ∈ names → a ≠ "" → b ≠ "" →
  ∃ opened confirmed, rtc (current_step names) (routeChange (Some a) noCurrent) opened ∧
    rtc (current_step names) opened confirmed ∧ route opened = Some b ∧ removeRealm opened confirmed = Returns (a, b).
Proof.
  intros Ha Hb Hna Hnb. set (c := onRealms 1 names (routeChange (Some a) noCurrent)).
  exists (routeChange (Some b) c), (onRealms 2 names (routeChange (Some b) c)). split_and!.
  - eapply rtc_l; [apply (step_answer _ _ 1); set_solver|]. apply rtc_once, step_route.
  - apply rtc_once, step_answer. set_solver.
  - done.
  - unfold removeRealm, removalRealm. cbn -[realmOf]. by rewrite !realmOf_spec, !bool_decide_true.
Qed.

(** ** [UserSearchState]: theorems *)

(** A list that is left is asked for again as it was, when it is come back to. *)
Theorem search_remembered r s :
  s_realm s = r → isFirstSearch s = false → (openUsers r s).2 = Some (asks s).
Proof. intros <- H. unfold openUsers. simpl. rewrite H. by destruct s. Qed.

(** The users of another realm are asked for with the text and from the place of the realm
    before. *)
Theorem search_of_other_realm a b t :
  (openUsers b (onUsers (nextPage (typeSearch t (openUsers a noSearch).1)))).2 = Some (b, t, 20%Z, 20%Z).
Proof. done. Qed.

(** ** Groups: theorems *)

(** The button that removes a default group throws where none is selected; the one that adds
    says so. *)
Theorem default_groups_unselected :
  addDefaultGroup None = SelectFirst ∧ removeDefaultGroup None = Throws TypeError.
Proof. done. Qed.

(** The page of a new group opens, below the group that is selected or at the top. *)
Theorem new_group_opens r g :
  Forall AuthzRoutes.plain [r; g] →
  AuthFlows.leads (createGroup r (Some g)) "GroupCreateCtrl" [("realm", r); ("parentId", g)].
Proof.
  rewrite !Forall_cons. intros (? & ? & _). unfold createGroup. simpl default.
  UserPages.goes "/create/group/:realm/parent/:parentId" [("realm", r); ("parentId", g)].
Qed.

End SharedState.
