(* ===== verification/AuthzLists.v ===== *)
(** Lists and settings of a resource server (authz-controller.js): the paging that
    [ResourceServerResourceCtrl], [ResourceServerScopeCtrl], [ResourceServerPolicyCtrl] and
    [ResourceServerPermissionCtrl] share, their buttons, and [ResourceServerDetailCtrl] with the
    import and the export of its settings. *)

From S2P Require Import Prelude JsString Uri JsValue Json AngularEquals AdminRoutes AuthzRoutes AuthFlows UserPages.
Import JsString Uri JsValue Json AngularEquals.

Module AuthzLists.

Abbreviation object := (list (string * jsval)).

(** ** Paging *)

(** What a request asks for. *)
Record query := mkQuery { q_max : Z; q_first : Z; q_search : string }.

(** [$scope]: the query, the request whose answer is shown, [searchLoaded], [lastSearch], and the
    requests that are not answered. *)
Record page := mkPage {
  current : query;
  shown : option query;
  searchLoaded : bool;
  lastSearch : string;
  waiting : list query
}.

Definition listSizes : list Z := [5; 10; 20]%Z.

Definition searchQuery (p : page) : page :=
  mkPage (current p) (shown p) false (lastSearch p) (waiting p ++ [current p]).

Definition at_first (first : Z) (p : page) : page :=
  searchQuery (mkPage (mkQuery (q_max (current p)) first (q_search (current p))) (shown p) (searchLoaded p) (lastSearch p)
                 (waiting p)).

(** The page once the resource server has come. *)
Definition openList : page := searchQuery (mkPage (mkQuery 20 0 "") None false "" []).

Definition firstPage (p : page) : page := at_first 0 p.

Definition previousPage (p : page) : page :=
  let first := (q_first (current p) - q_max (current p))%Z in at_first (if (first <? 0)%Z then 0 else first) p.

Definition nextPage (p : page) : page := at_first (q_first (current p) + q_max (current p)) p.

(** The fields of the page, before they are sent. *)
Definition edit (max : Z) (text : string) (p : page) : page :=
  mkPage (mkQuery max (q_first (current p)) text) (shown p) (searchLoaded p) (lastSearch p) (waiting p).

(** The answer to the i-th request. *)
Definition onAnswer (i : nat) (p : page) : page :=
  match waiting p !! i with
  | Some q => mkPage (current p) (Some q) true (q_search (current p)) (delete i (waiting p))
  | None => p
  end.

(** The page at work, where the answers keep their order; each search is sent by its button. *)
Inductive list_step (p : page) : page → Prop :=
  | step_first : list_step p (firstPage p)
  | step_previous : list_step p (previousPage p)
  | step_next : list_step p (nextPage p)
  | step_search max text : max ∈ listSizes → list_step p (firstPage (edit max text p))
  | step_answer : list_step p (onAnswer 0 p).

(** ** Buttons *)

Definition serverUrl (realm client : string) : string :=
  "/realms/" +:+ realm +:+ "/clients/" +:+ client +:+ "/authz/resource-server".

Definition addPolicy (realm client type : string) : string := serverUrl realm client +:+ "/policy/" +:+ type +:+ "/create".

Definition addPermission (realm client type : string) : string :=
  serverUrl realm client +:+ "/permission/" +:+ type +:+ "/create".

(** [createPolicy] of a resource or of a scope: where the page is to return to, the path of the
    permission, and what its search has. *)
Definition createPolicy (kind param realm client id : string) : string * string * (string * string) :=
  (serverUrl realm client +:+ "/" +:+ kind, addPermission realm client kind, (param, id)).

(** The list that is left to, once a policy, a permission or a scope is deleted. *)
Definition onDeleted (kind realm client : string) : string := serverUrl realm client +:+ "/" +:+ kind.

Definition onScopeCreated (realm client id : string) : string := serverUrl realm client +:+ "/scope/" +:+ id.

(** ** Settings *)

(** The settings that came, those of the form, [changed], the text of an export and how many
    exports are not answered, and [importing]. *)
Record settingsPage := mkSettings {
  s_data : object;
  s_server : object;
  s_changed : bool;
  s_settings : option jsval;
  s_exports : nat;
  s_importing : bool
}.

Definition openSettings (data : object) : settingsPage := mkSettings data data false None 0 false.

(** An edit, with its watch. *)
Definition editServer (o : object) (p : settingsPage) : settingsPage :=
  mkSettings (s_data p) o (if equals (Obj o) (Obj (s_data p)) then s_changed p else true) (s_settings p) (s_exports p)
    (s_importing p).

Definition exportServer (p : settingsPage) : settingsPage :=
  mkSettings (s_data p) (s_server p) (s_changed p) (s_settings p) (S (s_exports p)) (s_importing p).

(** The answer to an export; its text is that of the data, printed. *)
Definition onSettings (text : jsval) (p : settingsPage) : settingsPage :=
  match s_exports p with
  | S n => mkSettings (s_data p) (s_server p) (s_changed p) (Some text) n (s_importing p)
  | 0 => p
  end.

Definition cancelExport (p : settingsPage) : settingsPage :=
  mkSettings (s_data p) (s_server p) (s_changed p) None (s_exports p) (s_importing p).

(** A file that is chosen. *)
Definition onFileSelect (content : string) (p : settingsPage) : outcome settingsPage :=
  v ← JSON_parse content;
  match v with
  | Obj o => let p := editServer o p in
             Returns (mkSettings (s_data p) (s_server p) (s_changed p) (s_settings p) (s_exports p) true)
  | _ => Throws NotModelled
  end.

(** The requests: the client they are for and their body. *)
Definition saveServer (p : settingsPage) : jsval * object := (assoc "clientId" (s_server p), s_server p).
Definition importServer (clientId : string) (p : settingsPage) : jsval * object := (Str clientId, s_server p).

(** The name of the file that [downloadSettings] saves. *)
Definition settingsFile (p : settingsPage) : string := to_string (assoc "name" (s_server p)) +:+ "-authz-config.json".

(** ** Paging: theorems *)

Definition list_ok (p : page) : Prop :=
  (0 ≤ q_first (current p))%Z ∧ (0 < q_max (current p))%Z ∧ (q_first (current p) mod q_max (current p) = 0)%Z ∧
  match last (waiting p) with Some q => q = current p | None => shown p = Some (current p) end.

Lemma at_first_ok f p :
  (0 < q_max (current p))%Z → (0 ≤ f)%Z → (f mod q_max (current p) = 0)%Z → list_ok (at_first f p).
Proof. intros Hm Hf Hd. unfold list_ok. simpl. by rewrite last_snoc. Qed.

Lemma list_ok_step p p' : list_step p p' → list_ok p → list_ok p'.
Proof.
  intros [| | |max text Hm|] (Hf & Hmax & Hd & Hw).
  - by apply at_first_ok.
  - unfold previousPage. destruct (Z.ltb_spec (q_first (current p) - q_max (current p)) 0); apply at_first_ok;
      try done; try lia. rewrite Zminus_mod, Hd, Z_mod_same_full. by rewrite Zmod_0_l.
  - apply at_first_ok; [done|lia|]. rewrite Zplus_mod, Hd, Z_mod_same_full. by rewrite Zmod_0_l.
  - apply at_first_ok; simpl; [|done|by rewrite Zmod_0_l]. unfold listSizes in Hm. set_solver by lia.
  - unfold onAnswer. destruct (waiting p) as [|q l] eqn:E; [simpl; unfold list_ok; rewrite E; by split_and!|].
    split_and!; [done..|]. simpl. destruct l as [|q' l]; [by simpl in Hw; subst|].
    rewrite last_cons_cons in Hw. destruct (last (q' :: l)) eqn:El; [done|]. by apply last_None in El.
Qed.

(** Where the answers keep their order, what is shown once all have come is what was asked for
    last, a whole number of pages from the start. *)
Theorem list_shows_asked p :
  rtc list_step openList p → waiting p = [] →
  shown p = Some (current p) ∧ (0 ≤ q_first (current p))%Z ∧ (q_first (current p) mod q_max (current p) = 0)%Z.
Proof.
  intros Hs Hw. assert (list_ok p) as (H1 & _ & H2 & H3); [|rewrite Hw in H3; done].
  assert (list_ok openList) as H by (by split_and!). clear Hw. revert H.
  induction Hs as [|p1 p2 p3 H12 _ IH]; [done|]. intros H. by eapply IH, list_ok_step.
Qed.

(** With an answer to come the page says that it is loaded, and shows what it was asked for
    before; the text it says it searched for is the one that is in the field by then. *)
Theorem loaded_too_early text :
  let p := onAnswer 0 (firstPage (edit 20 text openList)) in
  searchLoaded p = true ∧ waiting p = [mkQuery 20 0 text] ∧ shown p = Some (mkQuery 20 0 "") ∧ lastSearch p = text.
Proof. done. Qed.

(** ** Buttons: theorems *)

(** The types of policies and permissions that the console has pages for, with the controllers. *)
Definition policyPages : list (string * string) :=
  [("rules", "ResourceServerPolicyDroolsDetailCtrl"); ("user", "ResourceServerPolicyUserDetailCtrl");
   ("client", "ResourceServerPolicyClientDetailCtrl"); ("role", "ResourceServerPolicyRoleDetailCtrl");
   ("group", "ResourceServerPolicyGroupDetailCtrl"); ("js", "ResourceServerPolicyJSDetailCtrl");
   ("time", "ResourceServerPolicyTimeDetailCtrl"); ("aggregate", "ResourceServerPolicyAggregateDetailCtrl")].

Definition permissionPages : list (string * string) :=
  [("resource", "ResourceServerPolicyResourceDetailCtrl"); ("scope", "ResourceServerPolicyScopeDetailCtrl")].

Definition serverRoute : string := "/realms/:realm/clients/:client/authz/resource-server".

(** Every type opens its page, for the client it was chosen at. *)
Theorem policy_buttons_open realm client type ctrl :
  AuthzRoutes.plain realm → AuthzRoutes.plain client →
  ((type, ctrl) ∈ policyPages → AuthFlows.leads (addPolicy realm client type) ctrl [("realm", realm); ("client", client)]) ∧
  ((type, ctrl) ∈ permissionPages →
   AuthFlows.leads (addPermission realm client type) ctrl [("realm", realm); ("client", client)]).
Proof.
  intros Hr Hc. unfold addPolicy, addPermission, serverUrl. split; intros H; unfold policyPages, permissionPages in H;
    repeat (apply elem_of_cons in H as [[= -> ->]|H]);
    try (by apply not_elem_of_nil in H).
  all: match goal with
    | |- AuthFlows.leads ?u _ _ =>
        match u with context [("/policy/" +:+ ?t +:+ _)] =>
          UserPages.goes (serverRoute +:+ "/policy/" +:+ t +:+ "/create") [("realm", realm); ("client", client)] end
    | |- AuthFlows.leads ?u _ _ =>
        match u with context [("/permission/" +:+ ?t +:+ _)] =>
          UserPages.goes (serverRoute +:+ "/permission/" +:+ t +:+ "/create") [("realm", realm); ("client", client)] end
    end.
Qed.

(** The page of a permission for a resource or a scope opens from their lists, and the lists open
    to return to and once something is deleted. *)
Theorem lists_open realm client id :
  AuthzRoutes.plain realm → AuthzRoutes.plain client → AuthzRoutes.plain id →
  AuthFlows.leads (createPolicy "resource" "rsrid" realm client id).1.1 "ResourceServerResourceCtrl" [("realm", realm); ("client", client)] ∧
  AuthFlows.leads (createPolicy "scope" "scpid" realm client id).1.1 "ResourceServerScopeCtrl" [("realm", realm); ("client", client)] ∧
  AuthFlows.leads (onDeleted "policy" realm client) "ResourceServerPolicyCtrl" [("realm", realm); ("client", client)] ∧
  AuthFlows.leads (onDeleted "permission" realm client) "ResourceServerPermissionCtrl" [("realm", realm); ("client", client)] ∧
  AuthFlows.leads (onScopeCreated realm client id) "ResourceServerScopeDetailCtrl"
    [("realm", realm); ("client", client); ("id", id)].
Proof.
  intros Hr Hc Hi. unfold createPolicy, onDeleted, onScopeCreated, serverUrl. cbn [fst]. split_and!.
  - UserPages.goes (serverRoute +:+ "/resource") [("realm", realm); ("client", client)].
  - UserPages.goes (serverRoute +:+ "/scope") [("realm", realm); ("client", client)].
  - UserPages.goes (serverRoute +:+ "/policy") [("realm", realm); ("client", client)].
  - UserPages.goes (serverRoute +:+ "/permission") [("realm", realm); ("client", client)].
  - UserPages.goes (serverRoute +:+ "/scope/:id") [("realm", realm); ("client", client); ("id", id)].
Qed.

(** ** Settings: theorems *)

(** What is imported is the file, for the client of the page; a file that is the settings that
    came does not enable the button. *)
Theorem imported_settings content o data clientId :
  JSON_parse content = Returns (Obj o) →
  ∃ p, onFileSelect content (openSettings data) = Returns p ∧ importServer clientId p = (Str clientId, o) ∧
    s_importing p = true ∧ s_changed p = negb (equals (Obj o) (Obj data)).
Proof.
  intros H. unfold onFileSelect. rewrite H. eexists. split; [done|]. split; [done|]. split; [done|].
  simpl. by destruct (equals (Obj o) (Obj data)).
Qed.

(** An export that is asked for twice and left comes back with the second answer. *)
Theorem left_export_returns data t1 t2 :
  s_settings (onSettings t2 (cancelExport (onSettings t1 (exportServer (exportServer (openSettings data)))))) = Some t2.
Proof. done. Qed.

End AuthzLists.
