(* ===== verification/Navigation.v ===== *)
(** Where the pages of clients lead: the URLs that the controllers of clients.js build, against
    the routes of the console. *)

From S2P Require Import Prelude JsString Uri JsValue JsText AdminRoutes AuthzRoutes ClientForms AuthFlows UserPages ClientMappers ClientTabs ClientStorage.
Import JsString Uri JsValue JsText.

Module Navigation.

(** The tabs of a client that keys, the secret and the mappers go back to, and the pages of what
    was created. *)
Theorem client_pages_open realm client mapper server :
  Forall AuthzRoutes.plain [realm; client; mapper] →
  AuthFlows.leads (ClientTabs.redirectLocation ClientTabs.Saml realm client) "ClientSamlKeyCtrl"
    [("realm", realm); ("client", client)] ∧
  AuthFlows.leads (ClientTabs.redirectLocation ClientTabs.Jwt realm client) "ClientCredentialsCtrl"
    [("realm", realm); ("client", client)] ∧
  AuthFlows.leads (ClientTabs.cancelExport realm client) "ClientCredentialsCtrl" [("realm", realm); ("client", client)] ∧
  AuthFlows.leads (ClientMappers.onCreated realm ClientMappers.OfClient client (server +:+ "/" +:+ mapper))
    "ClientProtocolMapperCtrl" [("realm", realm); ("client", client); ("id", mapper)] ∧
  AuthFlows.leads (ClientMappers.onCreated realm ClientMappers.OfScope client (server +:+ "/" +:+ mapper))
    "ClientScopeProtocolMapperCtrl" [("realm", realm); ("clientScope", client); ("id", mapper)].
Proof.
  rewrite !Forall_cons. intros (? & ? & Hm & _). unfold ClientMappers.onCreated.
  rewrite !ClientForms.createdId_spec by (by apply UserPages.no_slash).
  unfold ClientTabs.redirectLocation, ClientTabs.cancelExport, ClientTabs.clientUrl, ClientMappers.mapperUrl. split_and!.
  - UserPages.goes "/realms/:realm/clients/:client/saml/keys" [("realm", realm); ("client", client)].
  - UserPages.goes "/realms/:realm/clients/:client/credentials" [("realm", realm); ("client", client)].
  - UserPages.goes "/realms/:realm/clients/:client/credentials" [("realm", realm); ("client", client)].
  - UserPages.goes "/realms/:realm/clients/:client/mappers/:id" [("realm", realm); ("client", client); ("id", mapper)].
  - UserPages.goes "/realms/:realm/client-scopes/:clientScope/mappers/:id"
      [("realm", realm); ("clientScope", client); ("id", mapper)].
Qed.

(** The pages of client storage. *)
Theorem client_storage_open realm provider id :
  Forall AuthzRoutes.plain [realm; provider; id] →
  AuthFlows.leads (ClientStorage.addProvider realm provider) "GenericClientStorageCtrl"
    [("realm", realm); ("provider", provider)] ∧
  AuthFlows.leads (ClientStorage.getInstanceLink realm provider id) "GenericClientStorageCtrl"
    [("realm", realm); ("provider", provider); ("componentId", id)] ∧
  ∀ p, ClientStorage.create p = true →
    ∃ url, ClientStorage.cancel realm p = Some url ∧ AuthFlows.leads url "ClientStoresCtrl" [("realm", realm)].
Proof.
  rewrite !Forall_cons. intros (? & ? & ? & _). unfold ClientStorage.addProvider, ClientStorage.getInstanceLink.
  split_and!.
  - UserPages.goes "/create/client-storage/:realm/providers/:provider" [("realm", realm); ("provider", provider)].
  - UserPages.goes "/realms/:realm/client-storage/providers/:provider/:componentId"
      [("realm", realm); ("provider", provider); ("componentId", id)].
  - intros p Hp. unfold ClientStorage.cancel. rewrite Hp. eexists. split; [done|].
    UserPages.goes "/realms/:realm/client-stores" [("realm", realm)].
Qed.

End Navigation.
