(* ===== verification/Witnesses.v ===== *)
(** Concrete states and inputs at which the theorems of the development apply.

    The application of the examples runs at http://app/page against the realm
    [demo] of http://kc/auth; its browser has native promises, a local storage and
    random numbers 0/16, 1/16, ... *)

From S2P Require Import Prelude JsString Uri Base64 JsValue Json World Promise Token Uuid Storage CallbackStore Urls Adapter Callback Redirect Iframe Refresh Init EventLoop Invariants Microtasks Login Security Authz StatusIframe.
Import JsString Uri Base64 JsValue Json World Promise Token Uuid Storage CallbackStore Urls Adapter Callback Redirect Iframe Refresh Init EventLoop Invariants Microtasks Login Security.

Module Witnesses.

(** ** The browser, the page and the application *)

(** An application without an adapter of its own. *)
Definition noCustom : AdapterOps :=
  mkAdapterOps (λ _, throw TypeError) (λ _, throw TypeError) (λ _, throw TypeError)
    (throw TypeError) (λ _, throw TypeError).

#[local] Instance env : Env := browserEnv noCustom.

#[local] Instance noCustom_polite : Polite custom.
Proof. split; intros; by intros w Hn. Defined.

Definition browser : Browser :=
  mkBrowser 1000000 (λ n, Z.of_nat (n mod 16) # 16)%Q 0 "http://app/page" (Str "http://app")
    "http:" "app" "" [] (Some [("theme", "dark")]) [] true false false false.

Definition config : jsval :=
  Obj [("url", Str "http://kc/auth"); ("realm", Str "demo"); ("clientId", Str "app")].

(** [new Keycloak(config)] *)
Definition page : World := newKeycloak config (λ _, true) browser.

(** After [kc.init({checkLoginIframe: false})]. *)
Definition started : World := Eval vm_compute in
  run noCustom [EvApi (ApiInit (Obj [("checkLoginIframe", Bool false)]))] page.

(** A token with a payload. *)
Definition jwt (payload : list (string * jsval)) : jsval :=
  Str ("h." +:+ b64url (JSON_stringify (Obj payload)) +:+ ".s").

Definition access : list (string * jsval) :=
  [("nonce", Str "n-1"); ("exp", Num 1300); ("iat", Num 1000); ("sub", Str "alice");
   ("session_state", Str "s-1");
   ("realm_access", Obj [("roles", Arr [Str "user"; Str "admin"])]);
   ("resource_access", Obj [("app", Obj [("roles", Arr [Str "view"])])])].

Definition refresh : list (string * jsval) := [("nonce", Str "n-1"); ("iat", Num 1000)].

(** Logged in, with a promise that waits. *)
Definition loggedIn : World := Eval vm_compute in
  (setToken (jwt access) (jwt refresh) Undefined (Some (inject_Z 1000000)) (fresh started)).2.

Definition waiter : nat := length (promises started).

Lemma started_native : native started.
Proof. split; [by vm_compute|]. vm_compute. repeat constructor. Defined.

Lemma loggedIn_native : native loggedIn.
Proof. split; [by vm_compute|]. vm_compute. repeat constructor. Defined.

(** ** Tokens *)

Lemma decodeToken_roundtrip_witness : decodeToken (jwt access) = Returns (Obj access).
Proof. apply (decodeToken_roundtrip "h" (Obj access) "s"); by vm_compute. Defined.

Lemma accepted_jwt : accepted (jwt access).
Proof. intros _. exists access. by vm_compute. Defined.

Lemma accepted_refresh : accepted (jwt refresh).
Proof. intros _. exists refresh. by vm_compute. Defined.

Lemma accepted_undefined : accepted Undefined.
Proof. by intros H. Defined.

Lemma setToken_invariant_witness :
  ∃ w', setToken (jwt access) (jwt refresh) Undefined None started = (Returns tt, w') ∧
        coherent (kc w') ∧ rest w' = rest started.
Proof.
  apply setToken_invariant; [apply accepted_jwt|apply accepted_refresh|apply accepted_undefined].
Defined.

Lemma roles_of_token_witness :
  hasRealmRole (Str "admin") loggedIn = (Returns true, loggedIn) ∧
  hasResourceRole (Str "view") (Str "app") loggedIn = (Returns true, loggedIn) ∧
  hasResourceRole (Str "view") (Str "other") loggedIn = (Returns false, loggedIn) ∧
  hasResourceRole (Str "view") (Str "toString") loggedIn = (Throws TypeError, loggedIn).
Proof.
  destruct (roles_of_token (jwt access) (jwt refresh) Undefined (Some (inject_Z 1000000))
              (fresh started) loggedIn access "admin") as [H1 _]; [by vm_compute..|].
  destruct (roles_of_token (jwt access) (jwt refresh) Undefined (Some (inject_Z 1000000))
              (fresh started) loggedIn access "view") as (_ & H2 & H3); [by vm_compute..|].
  split_and!.
  - exact (H1 [("roles", Arr [Str "user"; Str "admin"])] [Str "user"; Str "admin"] eq_refl eq_refl).
  - exact (H2 [("app", Obj [("roles", Arr [Str "view"])])] "app" [("roles", Arr [Str "view"])]
             [Str "view"] eq_refl ltac:(done) eq_refl eq_refl).
  - apply (H3 [("app", Obj [("roles", Arr [Str "view"])])] "other" eq_refl ltac:(done)).
    apply (bool_decide_unpack _). by vm_compute.
  - apply (H3 [("app", Obj [("roles", Arr [Str "view"])])] "toString" eq_refl ltac:(done)).
    apply (bool_decide_unpack _). by vm_compute.
Defined.

(** ** Storage, UUIDs, URLs *)

Lemma browser_fair : fair browser.
Proof.
  intros n. unfold browser. cbn [b_random]. pose proof (Nat.mod_upper_bound n 16 ltac:(lia)).
  unfold Qle, Qlt. simpl. lia.
Defined.

Lemma createUUID_v4_witness : ∃ u n, createUUID page = (Returns u, drawn n page) ∧ uuid_v4 u = true.
Proof. apply createUUID_v4, browser_fair. Defined.

Lemma theme_wf : storage_wf [("theme", "dark")].
Proof.
  split; [apply NoDup_singleton|]. intros kv Hkv. apply list_elem_of_singleton in Hkv as ->.
  by vm_compute.
Defined.

(** An item of the application, an attempt that is over and one that is not. *)
Definition threeItems : items :=
  [("theme", "dark");
   (key_of "old", JSON_stringify (Obj [("state", Str "old"); ("expires", Num 999999)]));
   (key_of "new", JSON_stringify (Obj [("state", Str "new"); ("expires", Num 2000000)]))].

Lemma threeItems_wf : storage_wf threeItems.
Proof.
  split; [apply (bool_decide_unpack _); by vm_compute|]. intros kv Hkv. unfold threeItems in Hkv.
  rewrite !elem_of_cons, elem_of_nil in Hkv. destruct Hkv as [->|[->|[->|[]]]]; by vm_compute.
Defined.

Lemma clearExpired_keeps_witness :
  ∃ ls', clearExpired (with_items threeItems page) = (Returns tt, with_items ls' page) ∧
    ("theme", "dark") ∈ ls' ∧ (∃ v, (key_of "new", v) ∈ ls') ∧ ∀ v, (key_of "old", v) ∉ ls'.
Proof.
  destruct (clearExpired_keeps (with_items threeItems page) threeItems eq_refl threeItems_wf)
    as (ls' & H & Hsub & Happ & Hlive & Hstale).
  exists ls'. split; [exact H|].
  assert (("theme", "dark") ∈ ls') as Htheme by (by apply Happ; [left|]).
  split; [exact Htheme|]. split.
  - eexists. apply (Hlive (key_of "new", _) 2000000%Z); [by right; right; left| | |]; [|done|done].
    eexists. by split; [vm_compute|].
  - intros v Hv. apply (Hstale 1 (key_of "old", v)); [| |intros prev [= <-]; by right|exact Hv].
    + pose proof (elem_of_sublist _ _ _ Hv Hsub) as Hin. unfold threeItems in Hin.
      rewrite !elem_of_cons, elem_of_nil in Hin. destruct Hin as [[=]|[[= ->]|[[=]|[]]]]. done.
    + pose proof (elem_of_sublist _ _ _ Hv Hsub) as Hin. unfold threeItems in Hin.
      rewrite !elem_of_cons, elem_of_nil in Hin. destruct Hin as [[=]|[[= ->]|[[=]|[]]]].
      split; [done|]. split; [done|]. left. exists 999999%Z. split; [|done]. eexists. by split; [vm_compute|].
Defined.

Lemma clearExpired_skips_witness :
  let w := with_items [("kc-callback-1", "{}"); ("kc-callback-2", "{}")] page in
  clearExpired w = (Returns tt, with_items [("kc-callback-2", "{}")] w).
Proof.
  intros w. apply (clearExpired_skips w "kc-callback-1" "{}"); [done|done|done|by split|by split].
Defined.

Definition attempt : list (string * jsval) := [("state", Str "s"); ("nonce", Str "n")].

Lemma local_add_get_witness :
  ∃ w1 w2 w3, local_add attempt page = (Returns tt, w1) ∧
    local_get (Str "s") (w1 <| br -> b_now := 2000000%Z |>) =
      (Returns (Obj (stored attempt (now page))), w2) ∧
    local_get (Str "s") w2 = (Returns Null, w3).
Proof. apply (local_add_get page [("theme", "dark")]); [done|apply theme_wf|done|done|done]. Defined.

(** Ready to log in silently. *)
Definition options : jsval := Obj [("prompt", Str "none"); ("loginHint", Str "a&b=c")].

Lemma started_ready :
  ready options started [("theme", "dark")]
    (Str "http://kc/auth/realms/demo/protocol/openid-connect/auth") "openid".
Proof. split; [apply browser_fair|done|done|done|apply theme_wf|done|done]. Defined.

Lemma createLoginUrl_parameters_witness :
  ∃ state nonce w' query,
    createLoginUrl options started =
      (Returns ("http://kc/auth/realms/demo/protocol/openid-connect/auth" +:+ "?" +:+ query), w') ∧
    uuid_v4 state = true ∧ uuid_v4 nonce = true ∧
    let params := loginParams (kc started) (useNonce started) (redirectOf options started)
                    state nonce "openid" options in
    (Forall (λ p, utf8_valid p.2 = true) params →
     parseQuery query = (λ p, (p.1, Returns p.2)) <$> params).
Proof. exact (createLoginUrl_parameters options started _ _ _ started_ready). Defined.

(** The redirect of the server: [state], [session_state], [code], in this order. *)
Definition serverParams (state : string) : list (string * string) :=
  [("state", state); ("session_state", "s-1"); ("code", "c-1")].

Lemma server_redirects state :
  plain state → state ≠ "" →
  redirected "standard" "fragment" "http://app/page" state (serverParams state).
Proof.
  intros Hs Hn. split; try done; [by left|by left| |].
  - repeat constructor; done || apply Hs.
  - exists "code", "c-1". by split; [right; left|].
Defined.

Lemma started_local : inv (CallbackStore := local_store) started.
Proof. split; [done|]. split; [done|]. exists [("theme", "dark")]. split; [done|apply theme_wf]. Defined.

Lemma login_redirect_roundtrip_witness :
  ∃ state nonce w1 url, createLoginUrl options started = (Returns url, w1) ∧
    ∃ oauth w2, parseCallback (redirectUrl "fragment" "http://app/page" (serverParams state)) (tick 1000 w1)
                = (Returns (Obj oauth), w2) ∧
      assoc "valid" oauth = Bool true ∧ assoc "storedNonce" oauth = Str nonce ∧
      assoc "session_state" oauth = Str "s-1" ∧ assoc "newUrl" oauth = Str "http://app/page".
Proof.
  destruct (login_redirect_roundtrip options started local_store _ _ "standard" "fragment"
    (ready_starting _ _ _ _ _ started_ready) eq_refl started_local eq_refl eq_refl)
    as (state & nonce & w1 & Huuid & Hurl & H); [by right; exists "none"|].
  exists state, nonce, w1. eexists. split; [exact Hurl|].
  destruct (H "http://app/page" (serverParams state) 1000
    (server_redirects state (uuid_plain _ Huuid) (uuid_nonempty _ Huuid)) ltac:(done))
    as (oauth & w2 & _ & _ & Hp & Hv & Hnonce & _ & Hnew & Hall & _).
  exists oauth, w2. split; [exact Hp|]. split; [exact Hv|]. split; [exact Hnonce|]. split; [|exact Hnew].
  exact (Hall "session_state" eq_refl).
Defined.

(** ** The redirect *)

Definition codeResponse : list (string * jsval) :=
  [("code", Str "c-1"); ("redirectUri", Str "http%3A%2F%2Fapp%2Fpage"); ("storedNonce", Str "n-1")].

Lemma processCallback_code_witness :
  ∃ r, processCallback (Obj codeResponse) waiter started = (Returns tt, (send r started).2) ∧
    req_url r = "http://kc/auth/realms/demo/protocol/openid-connect/token" ∧
    req_body r = Some "code=c-1&grant_type=authorization_code&client_id=app&redirect_uri=http%3A%2F%2Fapp%2Fpage".
Proof.
  destruct (processCallback_code codeResponse waiter started "http://kc/auth" "c-1"
              "http%3A%2F%2Fapp%2Fpage") as (r & H & _ & _ & Hu & Hb & _); try done.
  exists r. split; [exact H|]. rewrite Hu, Hb. split; by vm_compute.
Defined.

Definition denied : list (string * jsval) :=
  [("error", Str "access_denied"); ("error_description", Str "no")].

Lemma processCallback_error_witness :
  ∃ w', processCallback (Obj denied) waiter (fresh started) = (Returns tt, w') ∧
    state_of w' waiter = Some (Rejected (errorData (Obj denied))).
Proof.
  destruct (processCallback_error denied waiter (fresh started) (fresh_native _ started_native) eq_refl)
    as (w' & H & _ & _ & Hs & _).
  exists w'. split; [exact H|]. apply Hs. by vm_compute.
Defined.

(** The tokens of a login whose nonce was another one. *)
Definition otherLogin : jsval := Obj [("storedNonce", Str "n-2")].
Definition theNonce : jsval := Obj [("storedNonce", Str "n-1")].

Lemma nonce_mismatch_rejected_witness :
  ∃ w', authSuccess otherLogin waiter (inject_Z 999000) (jwt access) (jwt refresh) Undefined true
          (fresh started) = (Returns (midpoint (inject_Z 999000) (fresh started)), w') ∧
    kc_token (kc w') = Undefined ∧ state_of w' waiter = Some (Rejected Undefined).
Proof.
  assert (truthy (kc_loginRequired (kc (fresh started))) = true → canLogin (fresh started)) as Hl by (intros; by vm_compute in *).
  destruct (nonce_mismatch_rejected otherLogin waiter (inject_Z 999000) (jwt access) (jwt refresh)
    Undefined true (fresh started) "n-2" (fresh_native _ started_native) Hl accepted_jwt accepted_refresh
    accepted_undefined eq_refl eq_refl) as (w' & Ha & Hp & _ & _ & Ht & _).
  { exists (jwt access). split; [by left|]. split; [done|]. exists access. split; [by vm_compute|].
    right. by exists "n-1". }
  exists w'. split; [exact Ha|]. split; [exact Ht|]. apply Hp. by vm_compute.
Defined.

Definition acceptedState : World :=
  (authSuccess theNonce waiter (inject_Z 999000) (jwt access) (jwt refresh) Undefined true
     (fresh started)).2.

Lemma accepted_tokens_have_the_nonce_witness :
  state_of acceptedState waiter = Some (Fulfilled Undefined) ∧
  nonceIs "n-1" (kc_tokenParsed (kc acceptedState)).
Proof.
  assert (state_of (fresh started) waiter = Some Pending) as Hp by (by vm_compute).
  assert (authSuccess theNonce waiter (inject_Z 999000) (jwt access) (jwt refresh) Undefined true
    (fresh started) = (Returns (midpoint (inject_Z 999000) (fresh started)), acceptedState)) as Ha
    by (by vm_compute).
  assert (state_of acceptedState waiter = Some (Fulfilled Undefined)) as Hv by (by vm_compute).
  split; [exact Hv|].
  destruct (accepted_tokens_have_the_nonce theNonce waiter _ _ _ _ _ (fresh started) acceptedState _
    "n-1" Undefined (fresh_native _ started_native) Hp eq_refl eq_refl eq_refl Ha Hv) as [H _].
  exact H.
Defined.

(** ** The status iframe *)

(** Logged in, with an iframe of the server and one check under way. *)
Definition checking : World := Eval vm_compute in
  loggedIn <| loginIframe := mkLoginIframe (Bool true) [waiter] (Num 5) true (Str "http://kc") (Some 0) |>.

Lemma checking_native : native checking.
Proof. split; [by vm_compute|]. vm_compute. repeat constructor. Defined.

Lemma checking_origin : Str "http://kc" = li_iframeOrigin (loginIframe checking).
Proof. by vm_compute. Defined.

Lemma messageCallback_foreign_witness :
  messageCallback "http://evil" true (Str "changed") checking = (Returns tt, checking).
Proof.
  apply messageCallback_foreign. left.
  rewrite <- checking_origin. discriminate.
Defined.

Lemma messageCallback_unchanged_witness :
  ∃ w', messageCallback "http://kc" true (Str "unchanged") checking = (Returns tt, w') ∧
    state_of w' waiter = Some (Fulfilled Undefined).
Proof.
  destruct (messageCallback_unchanged "http://kc" checking checking_native checking_origin)
    as (w' & H & _ & _ & Hs).
  exists w'. split; [exact H|]. apply Hs; [by left|by vm_compute].
Defined.




Lemma checkLoginIframe_spec_witness :
  ∃ w', checkLoginIframe checking = (Returns (length (promises checking)), w') ∧
    li_callbackList (loginIframe w') = [waiter; length (promises checking)] ∧ trace w' = trace checking.
Proof.
  destruct (checkLoginIframe_spec checking checking_native) as (w' & H & _ & _ & Hl & Ht).
  exists w'. by split_and!.
Defined.

(** ** Refreshing *)

(** One refresh under way, one promise waiting. *)
Definition refreshing : World := Eval vm_compute in
  loggedIn <| refreshQueue := [waiter] |>.

Lemma refreshing_native : native refreshing.
Proof. split; [by vm_compute|]. vm_compute. repeat constructor. Defined.

Definition answer : list (string * jsval) :=
  [("access_token", jwt access); ("refresh_token", jwt refresh)].

Lemma onRefreshResponse_success_witness :
  ∃ w', onRefreshResponse (inject_Z 999000) 200 (JSON_stringify (Obj answer)) refreshing = (Returns tt, w') ∧
    refreshQueue w' = [] ∧ state_of w' waiter = Some (Fulfilled (Bool true)).
Proof.
  assert (JSON_parse (JSON_stringify (Obj answer)) = Returns (Obj answer)) as Hj by (by vm_compute).
  destruct (onRefreshResponse_success (inject_Z 999000) _ (Obj answer) (jwt access) (jwt refresh)
    Undefined refreshing refreshing_native Hj eq_refl eq_refl accepted_jwt accepted_refresh
    accepted_undefined) as (w1 & w' & _ & H & _ & _ & Hq & _ & Hs).
  exists w'. split; [exact H|]. split; [exact Hq|]. apply Hs; [by left|by vm_compute].
Defined.

Lemma onRefreshResponse_failure_witness :
  ∃ w', onRefreshResponse (inject_Z 999000) 400 "" refreshing = (Returns tt, w') ∧
    kc w' = forget_tokens (kc refreshing) ∧ state_of w' waiter = Some (Rejected (Bool true)).
Proof.
  assert (400%Z = 400%Z → truthy (kc_loginRequired (kc refreshing)) = true → canLogin refreshing) as Hl by (intros; by vm_compute in *).
  destruct (onRefreshResponse_failure (inject_Z 999000) 400 "" refreshing refreshing_native
    ltac:(done) Hl) as (w' & H & Hk & _ & _ & Hs & _).
  exists w'. split; [exact H|]. split; [exact Hk|]. apply Hs; [by left|by vm_compute].
Defined.

(** The token was requested at 999,000, stamped at 999,500 by a clock in step with
    the browser's, and its answer is handled at 1,000,000. *)
Definition timedAccess : list (string * jsval) :=
  [("exp", Num 1300); ("iat", Num 999); ("sub", Str "alice")].

Definition timedAnswer : list (string * jsval) :=
  [("access_token", jwt timedAccess); ("refresh_token", jwt refresh)].

Definition timed : World :=
  (onRefreshResponse (inject_Z 999000) 200 (JSON_stringify (Obj timedAnswer)) refreshing).2.

Lemma isTokenExpired_accuracy_witness :
  isTokenExpired (Num 30) timed = (Returns false, timed) ∧
  (2 * (1000 * 1300 - (now timed - 0)) > 2 * (1000 * 30) - 2000 - (now refreshing - 999000))%Z.
Proof.
  assert (truthy (kc_loginRequired (kc refreshing)) = true → canLogin refreshing) as Hl by (intros; by vm_compute in *).
  assert (answerSets 999000 (JSON_stringify (Obj timedAnswer)) refreshing timed) as Ha
    by (left; by vm_compute).
  destruct (isTokenExpired_accuracy 30 999000 999500 0 _ (Obj timedAnswer)
    ("h." +:+ b64url (JSON_stringify (Obj timedAccess)) +:+ ".s") timedAccess 1300 refreshing timed timed
    refreshing_native Hl Ha) as (b & Hb & H); [by vm_compute..|].
  assert ((isTokenExpired (Num 30) timed).1 = Returns false) as Hf by (by vm_compute).
  rewrite Hb in Hf. cbn [fst] in Hf. injection Hf as ->. split; [exact Hb|exact H].
Defined.

Lemma refreshing_request : ∃ r, refreshOf refreshing = Returns r.
Proof. eexists. by vm_compute. Defined.

Lemma updateToken_spec_witness :
  ∃ w', updateToken (Num (-1)) refreshing = (Returns (length (promises refreshing)), w') ∧
    refreshQueue w' = [waiter; length (promises refreshing)] ∧ inflight w' = inflight refreshing.
Proof.
  destruct refreshing_request as [r Hr].
  assert (truthy (li_enable (loginIframe refreshing)) = false) as He by (by vm_compute).
  assert (truthy (kc_refreshToken (kc refreshing)) = true) as Ht by (by vm_compute).
  destruct (updateToken_spec (Num (-1)) refreshing true r refreshing_native He Ht eq_refl Hr)
    as (w' & H & _ & _ & Hq & Hi).
  exists w'. split; [exact H|]. split; [exact Hq|]. rewrite Hi.
  by rewrite decide_False, List.app_nil_r by done.
Defined.

Lemma refresh_stuck_witness :
  onRefreshResponse (inject_Z 999000) 200 "<html>" refreshing = (Throws SyntaxError, refreshing) ∧
  inflight (updateExec 7 (Num (-1)) refreshing).2 = inflight refreshing.
Proof.
  destruct (refresh_stuck (inject_Z 999000) "<html>" SyntaxError refreshing refreshing_native)
    as [H Hall]; [by vm_compute|done|].
  split; [exact H|]. by apply (Hall 7 (Num (-1)) refreshing refreshing_native).
Defined.

Lemma clearToken_logs_out_witness :
  ∃ w', clearToken loggedIn = (Returns tt, w') ∧
    hasRealmRole (Str "admin") w' = (Returns false, w') ∧
    isTokenExpired (Num 5) w' = (Throws (Thrown "Not authenticated"), w').
Proof.
  assert (truthy (kc_loginRequired (kc loggedIn)) = true → canLogin loggedIn) as Hl by (intros; by vm_compute in *).
  destruct (clearToken_logs_out loggedIn (Num 5) (Str "admin") (Str "app") loggedIn_native Hl)
    as (w' & H & H').
  assert (truthy (kc_token (kc loggedIn)) = true) as Ht by (by vm_compute).
  rewrite Ht in H'. destruct H' as (_ & Hr & _ & He & _). exists w'. by split_and!.
Defined.

(** ** The event loop *)

Definition afterUpdate : World := (handle (EvApi (ApiUpdateToken (Num (-1)))) page).2.

Lemma one_refresh_at_a_time_witness :
  refreshes afterUpdate ≤ 1 ∧ (refreshes afterUpdate = 1 → refreshQueue afterUpdate ≠ []).
Proof.
  apply (one_refresh_at_a_time config (λ _, true) browser afterUpdate eq_refl).
  apply rtc_once. exact (step_handle page (EvApi (ApiUpdateToken (Num (-1)))) I).
Defined.

(** ** Configuration and initialisation *)

Lemma page_native : native page.
Proof. split; [done|constructor]. Defined.

Lemma loadConfig_object_witness :
  ∃ w' secret, loadConfig page = (Returns 0, w') ∧
    kc w' = configured [("url", Str "http://kc/auth"); ("realm", Str "demo"); ("clientId", Str "app")]
              secret (kc page) ∧ state_of w' 0 = Some (Fulfilled Undefined).
Proof.
  destruct (loadConfig_object page _ page_native eq_refl eq_refl eq_refl eq_refl eq_refl)
    as (w' & secret & H & _ & Hk & Hs & _).
  exists w', secret. by split_and!.
Defined.

Definition keycloakJson : list (string * jsval) :=
  [("auth-server-url", Str "http://kc/auth"); ("realm", Str "demo"); ("resource", Str "app")].

Lemma onConfigResponse_spec_witness :
  ∃ w' secret, onConfigResponse 0 200 (JSON_stringify (Obj keycloakJson)) "" (fresh page) = (Returns tt, w') ∧
    kc w' = (kc page) <| kc_authServerUrl := Str "http://kc/auth" |> <| kc_realm := Str "demo" |>
              <| kc_clientId := Str "app" |> <| kc_clientSecret := secret |>
              <| kc_endpoints := KeycloakEndpoints |>.
Proof.
  destruct (onConfigResponse_spec (fresh page) 0 200 (JSON_stringify (Obj keycloakJson)) ""
    keycloakJson (fresh_native _ page_native) eq_refl) as [H _].
  destruct H as (w' & secret & H & _ & Hk & _); [by left|by vm_compute|].
  exists w', secret. by split.
Defined.

Lemma processInit_invalid_onLoad_witness :
  processInit (Obj [("onLoad", Str "check-sos")]) 1 started =
    (Throws (Thrown "Invalid value for onLoad"), started).
Proof. by apply processInit_invalid_onLoad. Defined.

(** ** Redirects that are processed although they should not be *)

Lemma cordova_ignores_state_witness :
  ∃ w' r, handleWindow 0 (mkWindow (LoginWindow waiter) false false)
            (LoadStart "http://localhost#state=forged&session_state=s-1&code=c-1") started = (Returns tt, w') ∧
    inflight w' = inflight started ++ [(nextRequest started, r)] ∧
    req_body r = Some "code=c-1&grant_type=authorization_code&client_id=app&redirect_uri=undefined".
Proof.
  destruct (cordova_ignores_state 0 waiter started [("theme", "dark")] "forged" (serverParams "forged")
    "c-1" "http://kc/auth") as (w' & r & H & Hi & Hb); try done; [apply theme_wf| | |].
  { apply (bool_decide_unpack _). by vm_compute. }
  { split; try done; [by left|by left|repeat constructor; done|]. exists "code", "c-1". by split; [right; left|]. }
  exists w', r. split; [exact H|]. split; [exact Hi|]. rewrite Hb. by vm_compute.
Defined.

(** The hybrid flow, with a nonce in the tokens that is not the stored one. *)
Definition hybrid : World := Eval vm_compute in
  (fresh started) <| kc -> kc_flow := Str "hybrid" |>.

Definition hybridResponse : list (string * jsval) :=
  [("code", Str "c-1"); ("access_token", jwt access); ("storedNonce", Str "n-2");
   ("redirectUri", Str "r")].

Definition hybridSet : World := Eval vm_compute in
  (setToken (jwt access) Null Undefined (Some (midpoint (inject_Z (now hybrid)) hybrid)) hybrid).2.

Lemma hybrid_native : native hybrid.
Proof. split; [by vm_compute|]. vm_compute. repeat constructor. Defined.

Lemma hybrid_exchange_after_nonce_failure_witness :
  ∃ w' r, processCallback (Obj hybridResponse) waiter hybrid = (Returns tt, w') ∧
    state_of w' waiter = Some (Rejected Undefined) ∧
    inflight w' = inflight hybrid ++ [(nextRequest hybrid, r)].
Proof.
  assert (∃ r, codeRequest (Obj hybridResponse) waiter (midpoint (inject_Z (now hybrid)) hybrid)
    (forget_tokens (kc hybridSet)) = Returns r) as [r Hr] by (eexists; by vm_compute).
  assert (setToken (assoc "access_token" hybridResponse) Null (assoc "id_token" hybridResponse)
    (Some (midpoint (inject_Z (now hybrid)) hybrid)) hybrid = (Returns tt, hybridSet)) as Hset
    by (by vm_compute).
  assert (kc_token (kc hybridSet) = assoc "access_token" hybridResponse) as Ht by (by vm_compute).
  assert (invalidNonce (kc hybridSet) (assoc "storedNonce" hybridResponse) = true) as Hi by (by vm_compute).
  destruct (hybrid_exchange_after_nonce_failure hybridResponse waiter hybrid hybridSet r
    hybrid_native eq_refl eq_refl eq_refl eq_refl eq_refl Hset Ht eq_refl eq_refl Hi Hr eq_refl)
    as (w' & H & Hs & Hin).
  exists w', r. by split_and!.
Defined.

(** ** keycloak-authz.js *)

Lemma formatPermission_spec_witness :
  Authz.formatPermission (Obj [("id", Str "r-1"); ("scopes", Arr [Str "read"; Str "write"])]) =
    Returns "r-1#read,write".
Proof. exact (Authz.formatPermission_spec "r-1" ["read"; "write"]
  [("id", Str "r-1"); ("scopes", Arr [Str "read"; Str "write"])] eq_refl eq_refl eq_refl). Defined.

Definition authzInstance : Authz.authz :=
  Authz.newAuthz (Authz.mkView (Str "http://kc/auth") (Str "demo") (Str "app") (Str "t")).

Lemma onToken_spec_witness :
  (∃ s', Authz.onToken (Authz.mkHandlers true true true) 200
          (JSON_stringify (Obj [("access_token", Str "rpt")])) authzInstance = (Returns tt, s') ∧
    Authz.az_rpt s' = Str "rpt") ∧
  ∃ s', Authz.onToken (Authz.mkHandlers true true true) 403 "<html>" authzInstance = (Returns tt, s') ∧
    Authz.az_trace s' = Authz.AzDeny :: Authz.az_trace authzInstance.
Proof.
  pose proof (Authz.onToken_spec (Authz.mkHandlers true true true) 200
    (JSON_stringify (Obj [("access_token", Str "rpt")])) authzInstance) as [H _].
  pose proof (Authz.onToken_spec (Authz.mkHandlers true true true) 403 "<html>" authzInstance) as H'.
  split.
  - destruct (H (Obj [("access_token", Str "rpt")]) "rpt") as (s' & H1 & Hr & _);
      [by vm_compute|done|done|done|]. exists s'. by split.
  - eexists. split; [exact H'|]. done.
Defined.

(** ** login-status-iframe.html *)

Definition statusPage : StatusIframe.iframe :=
  StatusIframe.mkIframe (Some ("app", "http://app")) "KEYCLOAK_SESSION=demo/u-1/s-1" "http://kc/status".

Lemma receiveMessage_sound_witness :
  StatusIframe.receiveMessage statusPage "http://app" (Str "app s-1") =
    StatusIframe.Answer "unchanged" "http://app" ∧
  ∃ clientId sessionState, Str "app s-1" = Str (clientId +:+ " " +:+ sessionState) ∧
    StatusIframe.if_init statusPage = Some (clientId, "http://app") ∧
    StatusIframe.sessionOf statusPage = Some sessionState.
Proof.
  assert (StatusIframe.receiveMessage statusPage "http://app" (Str "app s-1") =
    StatusIframe.Answer "unchanged" "http://app") as H by (by vm_compute).
  split; [exact H|].
  by apply (StatusIframe.receiveMessage_sound statusPage "http://app" (Str "app s-1") _ _ H).
Defined.

(** ** The callback storages *)

Definition cookies : World := page <| callbackStorage := CookieStorage |>.

Lemma cookies_refine : CallbackStore.refines (store := CallbackStore.cookie_store) cookies
  (CallbackStore.mkSpec ∅ 1000000).
Proof.
  split_and!; [split; [done|split; constructor]|done|]. intros s. simpl. rewrite lookup_empty.
  by intros v e Hin%elem_of_nil.
Defined.

Lemma storages_refine_witness :
  ∃ w' rs b, CallbackStore.performAll
      [CallbackStore.Add "s-1" [("state", Str "s-1")]; CallbackStore.Tick 5; CallbackStore.Take "s-1";
       CallbackStore.Take "s-1"] cookies = (Returns rs, w') ∧
    CallbackStore.spec_run (store := CallbackStore.cookie_store) (CallbackStore.mkSpec ∅ 1000000)
      [CallbackStore.Add "s-1" [("state", Str "s-1")]; CallbackStore.Tick 5; CallbackStore.Take "s-1";
       CallbackStore.Take "s-1"] rs b ∧
    CallbackStore.refines (store := CallbackStore.cookie_store) w' b ∧
    CallbackStore.storeOf w' = Some CallbackStore.cookie_store.
Proof.
  apply (CallbackStore.storages_refine cookies CallbackStore.cookie_store); [done|exact cookies_refine|].
  repeat constructor; by vm_compute.
Defined.

(** ** A whole login *)

#[local] Instance noCustom_quiet : Quiet custom.
Proof. split; intros; intros w Hn; (split; [done|]); cbn; lia. Defined.

Lemma microtasks_terminate_witness :
  ∃ n, n ≤ potential started ∧ microtasks (drain n started) = [].
Proof. apply (microtasks_terminate started), started_native. Defined.







End Witnesses.
