(* ===== verification/AdminWitnesses.v ===== *)
(** Concrete states and inputs at which the theorems about the admin console apply. *)

From S2P Require Import Prelude JsString Uri JsValue Json JsText AdminResources AdminLoaders AdminRoutes AuthzRoutes AdminServices AdminHttp RoleControl AdminView AdminUsers RoleMappings AdminAccess RealmSettings RealmLists RealmImport AngularEquals ClientDetail ClientScopes PolicyPages AuthzSelections UserStorage.
Import JsString Uri JsValue Json JsText.

Module AdminWitnesses.

(** ** Routes, loaders, services *)

Definition realmRoute : AdminRoutes.route :=
  AdminRoutes.mkRoute (Some "/realms/:realm") (AdminRoutes.Template "/partials/realm-detail.html")
    [AdminRoutes.mkResolve "realm" ["RealmLoader"] (AdminRoutes.Load "RealmLoader");
     AdminRoutes.mkResolve "serverInfo" ["ServerInfoLoader"] (AdminRoutes.Load "ServerInfoLoader")]
    (Some "RealmDetailCtrl").

Lemma realmRoute_in : realmRoute ∈ AuthzRoutes.consoleRoutes.
Proof. unfold AuthzRoutes.consoleRoutes. apply elem_of_app. left. unfold AdminRoutes.routes, AdminRoutes.routes1. apply elem_of_app. left. right. by left. Defined.

Lemma routes_supply_their_resolvers_witness :
  is_Some (AdminLoaders.lookupLoader "RealmLoader").
Proof.
  apply (AuthzRoutes.routes_supply_their_resolvers realmRoute
    (AdminRoutes.mkResolve "realm" ["RealmLoader"] (AdminRoutes.Load "RealmLoader"))); [|by left|done].
  apply realmRoute_in.
Defined.

Definition realmLoader : AdminLoaders.loader :=
  AdminLoaders.mkLoader "RealmLoader" ["Loader"; "Realm"; "$route"; "$q"]
    (AdminLoaders.Fetch AdminLoaders.Get "Realm" [("id", AdminLoaders.Param "realm")]).

Lemma loaders_bind_their_services_witness : AdminLoaders.openParams realmLoader = Some [].
Proof.
  apply AdminRoutes.loaders_bind_their_services; [|done|done].
  unfold AdminLoaders.loaders. apply elem_of_app. left. right. right. by left.
Defined.

Lemma notifications_timer_witness :
  AdminServices.notify_ok (AdminServices.warn "b" (AdminServices.info "a" AdminServices.noNotification)).
Proof.
  apply AdminServices.notifications_timer. eapply rtc_l; [apply AdminServices.step_info|].
  apply rtc_once, AdminServices.step_warn.
Defined.

Lemma multivalued_roundtrip_witness :
  assoc "urls" (AdminServices.removeLastEmptyValue [("urls", Arr [Str "a"; Str ""])]) = Arr [Str "a"].
Proof.
  apply (AdminServices.multivalued_roundtrip [("MultivaluedString", "urls")] [("urls", Arr [Str "a"])]
    [("urls", Arr [Str "a"; Str ""])]) with (k := "urls").
  - intros k. simpl. destruct (String.eqb k "urls"); [|done]. split; [|done].
    apply Forall_singleton. by exists "a".
  - intros k Hk. apply list_elem_of_singleton in Hk as ->. split; [|by eexists].
    split; [|done]. apply Forall_singleton. by exists "a".
  - done.
Defined.

(** The page of the realm [demo]. *)
Lemma dispatch_roundtrip_witness :
  AuthzRoutes.dispatch AuthzRoutes.consoleRoutes "/realms/demo" = Some (realmRoute, [("realm", "demo")]).
Proof.
  apply (AuthzRoutes.dispatch_roundtrip realmRoute "/realms/:realm" (λ _, "demo")); [apply realmRoute_in|done|].
  intros x. split; [done|]. split; [done|]. apply (bool_decide_unpack _). by vm_compute.
Defined.

(** ** The spinner *)

(** A request is answered; of two more that follow one is answered after the timeout. *)
Lemma spinner_follows_requests_witness :
  AdminHttp.spinning false (AdminHttp.answerRequest 0 (AdminHttp.onLoadingTimer 2
    (AdminHttp.sendRequest false (AdminHttp.sendRequest false
      (AdminHttp.answerRequest 0 (AdminHttp.sendRequest false AdminHttp.started)))))).
Proof.
  apply (AdminHttp.spinner_follows_requests _ true).
  refine (AdminHttp.reached_answer _ 0 _ true _ _); [vm_compute; lia|].
  apply AdminHttp.reached_timer; [by left|].
  apply AdminHttp.reached_send; [done|]. apply AdminHttp.reached_send; [done|].
  refine (AdminHttp.reached_answer _ 0 _ false _ _); [vm_compute; lia|].
  apply AdminHttp.reached_send; [done|]. apply AdminHttp.reached_start.
Defined.

(** ** Roles *)

Definition viewer : RoleControl.role := RoleControl.mkRole 0 "r-1" "viewer".
Definition editor : RoleControl.role := RoleControl.mkRole 1 "r-2" "editor".

Definition rolePanel : RoleControl.run :=
  RoleControl.mkRun (RoleControl.mkPanel [viewer; editor] [] [] []) ∅ [] [].

(** A role is selected and added; the server does it and answers. *)
Definition rolePanelEvents : list RoleControl.event :=
  [RoleControl.Select [viewer]; RoleControl.ClickAdd; RoleControl.Serve true 0; RoleControl.Answer true 0].

Definition rolePanelAfter : RoleControl.run :=
  RoleControl.mkRun (RoleControl.mkPanel [editor] [] [] [viewer]) (∅ ∪ RoleControl.ids [viewer]) [] [].

Lemma role_lists_agree_witness :
  RoleControl.agree [viewer; editor] (RoleControl.lists rolePanelAfter, RoleControl.server rolePanelAfter).
Proof.
  eapply (RoleControl.role_lists_agree [viewer; editor] rolePanel rolePanelAfter); try reflexivity.
  - intros x y Hx Hy. set_unfold. naive_solver.
  - apply (bool_decide_unpack _). by vm_compute.
  - split_and!; [done|set_solver|set_solver|done].
  - eapply rtc_l; [by exists (RoleControl.Select [viewer])|].
    eapply rtc_l; [by exists RoleControl.ClickAdd|].
    eapply rtc_l; [by exists (RoleControl.Serve true 0)|].
    apply rtc_once. by exists (RoleControl.Answer true 0).
Defined.

(** A server that knows the realm roles mapped to a user. *)
Definition mapped (s : list string) (q : RoleMappings.query) : list string :=
  match q.1 with RoleMappings.RealmMappings => s | _ => ["other"] end.

Definition shownRoles : RoleMappings.scope (role := string) :=
  RoleMappings.onQueryAnswered 5 ["other"] (RoleMappings.onQueryAnswered 4 ["other"]
    (RoleMappings.onQueryAnswered 3 ["admin"] RoleMappings.openPage)).

Lemma lists_become_current_witness : RoleMappings.store shownRoles !! 3 = Some ["admin"].
Proof.
  apply (RoleMappings.lists_become_current mapped (λ _ _, True) (λ s s', s' = s)
           (λ s s' H, f_equal (λ x, mapped x (RoleMappings.RealmMappings, None)) H) ["admin"]
           (RoleMappings.mkSystem shownRoles ["admin"] 0 0 0 0 false)) with (v := RoleMappings.RealmMappings) (r := 3) (q := (RoleMappings.RealmMappings, None)); try done; [|by left].
  eapply rtc_l; [apply (RoleMappings.step_query _ _ _ _ 3 (RoleMappings.RealmMappings, None)); by left|].
  eapply rtc_l; [apply (RoleMappings.step_query _ _ _ _ 4 (RoleMappings.RealmRoles, None)); by left|].
  apply rtc_once, (RoleMappings.step_query mapped (λ _ _, True) (λ s s', s' = s)
    (RoleMappings.onQueryAnswered 4 ["other"] (RoleMappings.onQueryAnswered 3 ["admin"] RoleMappings.openPage))
    5 (RoleMappings.RealmComposite, None)). by left.
Defined.

Definition chosenRoles : RealmLists.defaultRoles :=
  RealmLists.mkDefaults ["admin"; "user"] ["user"] [] ["offline"].

Lemma default_roles_partition_witness :
  "user" ∈ RealmLists.defaults (RealmLists.addRealmDefaultRole chosenRoles).
Proof.
  destruct (RealmLists.default_roles_partition RealmLists.addRealmDefaultRole
    RealmLists.deleteRealmDefaultRole ["admin"; "user"; "offline"]
    (RealmLists.openRealm ["admin"; "offline"; "user"] (Some ["offline"])) chosenRoles) as (_ & H & _);
    [..|apply H; right; by left].
  - by left.
  - apply (bool_decide_unpack _). by vm_compute.
  - split_and!; [done|set_solver|set_solver|constructor|constructor].
  - apply rtc_once. refine (RealmLists.default_select _ _ (RealmLists.openRealm ["admin"; "offline"; "user"]
      (Some ["offline"])) ["user"] _ _); [|by repeat constructor; set_solver].
    intros x ->%list_elem_of_singleton. right. by left.
Defined.

(** ** Rights *)

Definition whoami : jsval :=
  Obj [("realm", Str "master"); ("realm_access", Obj [("demo", Arr [Str "view-users"; Str "manage-clients"])])].

Definition grantedRoles (r : string) : list string :=
  if String.eqb r "demo" then ["view-users"; "manage-clients"] else [].

Lemma access_spec_witness :
  AdminAccess.getAccessObject whoami (AdminAccess.realmObject "demo") AdminAccess.ViewEvents = Returns true.
Proof.
  destruct (AdminAccess.access_spec whoami grantedRoles "demo") as (_ & _ & _ & H).
  - eexists _, _. split; [done|]. split; [done|]. intros r. unfold grantedRoles. cbn [assoc].
    destruct (String.eqb r "demo"); [by left|by right].
  - apply H; [done|]. set_solver.
Defined.

(** ** Settings *)

Definition lengthPolicy : RealmSettings.policyType := RealmSettings.mkPolicyType "length" (Str "8").
Definition hashPolicy : RealmSettings.policyType := RealmSettings.mkPolicyType "hashAlgorithm" (Str "pbkdf2").

Lemma policy_roundtrip_witness :
  RealmSettings.parse [hashPolicy; lengthPolicy] "length(12) and hashAlgorithm(a(b))" =
    [RealmSettings.mkPolicy lengthPolicy (Str "12"); RealmSettings.mkPolicy hashPolicy (Str "a(b)")].
Proof.
  apply (RealmSettings.policy_roundtrip [hashPolicy; lengthPolicy]
    [RealmSettings.mkPolicy lengthPolicy (Str "12"); RealmSettings.mkPolicy hashPolicy (Str "a(b)")]).
  repeat constructor; [by exists "12"|by exists "a(b)"].
Defined.

Definition exported : list (string * jsval) :=
  [("users", Arr [Obj []]); ("clients", Arr [Obj []]);
   ("roles", Obj [("realm", Arr [Obj []]); ("client", Obj [("app", Arr [])])])].

(** Everything but the users. *)
Lemma saveBody_spec_witness :
  ∃ body, RealmImport.saveBody (RealmImport.mkSwitches false false true false true true) "SKIP" (Obj exported) =
            Returns (Obj body) ∧ assoc "users" body = Undefined ∧ assoc "clients" body = Arr [Obj []].
Proof.
  destruct (RealmImport.saveBody_spec (RealmImport.mkSwitches false false true false true true) "SKIP" exported)
    as (body & E & _ & H & _).
  - split; [apply (bool_decide_unpack _); by vm_compute|]. intros _. eexists. split; [done|]. intros _. by eexists.
  - exists body. split; [exact E|]. by rewrite !H.
Defined.

(** ** Pages and users *)

Lemma pages_partition_witness :
  concat ((λ k, AdminView.pageOf ["a"; "b"; "c"] 2 (QArith_base.inject_Z (Z.of_nat k + 1)))
    <$> seq 0 (AdminView.pagesFor 3 2)) = ["a"; "b"; "c"].
Proof. apply (AdminView.pages_partition ["a"; "b"; "c"] 2). lia. Defined.

Lemma detail_roundtrip_witness :
  ∃ d, AdminUsers.openDetail [("phone", Arr [Str "1#2"; Str "3"])] = Returns d ∧
       (AdminUsers.beginSave d).2 = [("phone", Arr [Str "1#2"; Str "3"])].
Proof.
  destruct (AdminUsers.detail_roundtrip [("phone", Arr [Str "1#2"; Str "3"])]) as (d & H1 & H2 & _).
  - apply Forall_singleton. by exists ["1#2"; "3"].
  - by exists d.
Defined.

(** ** Clients *)

Definition shop : list (string * jsval) :=
  [("clientId", Str "shop"); ("publicClient", Bool true); ("standardFlowEnabled", Bool true);
   ("redirectUris", Arr []); ("webOrigins", Arr [])].

(** Authorization services are switched on for a public client. *)
Lemma client_page_consistent_witness :
  ∃ d, ClientDetail.visit ["openid-connect"; "saml"] shop
         [ClientDetail.EditField "authorizationServicesEnabled" (Bool true)] = Some d ∧
       ClientDetail.accessType d = ClientDetail.accessTypeOf (ClientDetail.clientEdit d).
Proof.
  destruct (ClientDetail.client_page_consistent ["openid-connect"; "saml"] shop
    [ClientDetail.EditField "authorizationServicesEnabled" (Bool true)]) as (d & H1 & H2 & _);
    [vm_compute; reflexivity..|]. exists d. exact (conj H1 H2).
Defined.

(** A redirect URI is typed, a switch set, and the client saved. *)
Definition shopEvents : list ClientDetail.event :=
  [ClientDetail.TypeRedirectUri "https://shop/*"; ClientDetail.ToggleSwitch "samlEncrypt" true;
   ClientDetail.SelectAccessType "bearer-only"].

Definition shopDetail : ClientDetail.detail :=
  Eval vm_compute in
    default (ClientDetail.openPage [] []) (ClientDetail.visit ["openid-connect"; "saml"] shop shopEvents).

Definition shopBody : list (string * jsval) :=
  Eval vm_compute in match (ClientDetail.save shopDetail).1 with Returns (Some b) => b | _ => [] end.

Definition shopAfter : ClientDetail.detail := Eval vm_compute in (ClientDetail.save shopDetail).2.

Lemma client_save_roundtrip_witness :
  ClientDetail.accessType (ClientDetail.openPage ["openid-connect"; "saml"] shopBody) =
    ClientDetail.accessType shopDetail.
Proof.
  refine (proj1 (ClientDetail.client_save_roundtrip ["openid-connect"; "saml"] shop shopEvents
    shopDetail shopAfter shopBody _ _ _ _)); vm_compute; reflexivity.
Defined.

(** One scope is added and the server answers. *)
Lemma setup_counters_witness :
  let s := (ClientScopes.onAnswer 0 true
              (ClientScopes.click ClientScopes.AddDefault ["a"] (ClientScopes.mkSetup 0 0 [] [] []))).1 in
  ClientScopes.shown s = ClientScopes.server s.
Proof.
  apply (ClientScopes.setup_counters (ClientScopes.mkSetup 0 0 [] [] [])); [reflexivity..| |reflexivity].
  eapply rtc_l; [by apply (ClientScopes.orderly_click ClientScopes.AddDefault ["a"])|].
  apply rtc_once, ClientScopes.orderly_answer. vm_compute. lia.
Defined.

(** ** Policies *)










Definition policyRole (id : string) (required : bool) : list (string * jsval) :=
  [("id", Str id); ("required", Bool required)].

Lemma policyRoles_identified :
  AuthzSelections.identified [policyRole "1" true; policyRole "2" false].
Proof.
  split; [repeat constructor; by eexists|]. apply (bool_decide_unpack _). vm_compute. exact I.
Defined.

(** Two roles, whose answers come the other way round. *)
Lemma role_policy_roundtrip_witness :
  AuthzSelections.rolesBody
    (foldl (AuthzSelections.roleAnswer [policyRole "1" true; policyRole "2" false])
       (AuthzSelections.onClients [] AuthzSelections.openRoles) [[("id", Str "2")]; [("id", Str "1")]]) ≡ₚ
  [[("id", Str "1"); ("required", Bool true)]; [("id", Str "2")]].
Proof.
  apply (AuthzSelections.role_policy_roundtrip [policyRole "1" true; policyRole "2" false] []
           [[("id", Str "2")]; [("id", Str "1")]]); [done|apply policyRoles_identified|].
  apply Permutation_swap.
Defined.

(** The clients come, then the role of the policy; a client is chosen, whose two roles are that
    one and another, and the other is selected. *)
Definition rolePage0 : AuthzSelections.rolePage :=
  AuthzSelections.roleAnswer [policyRole "1" true] (AuthzSelections.onClients [[("id", Str "c")]] AuthzSelections.openRoles)
    [("id", Str "1"); ("containerId", Str "c")].

Definition rolePage1 : AuthzSelections.rolePage :=
  AuthzSelections.clientRolesAnswer (AuthzSelections.chooseClient (Some [("id", Str "c")]) rolePage0)
    [[("id", Str "1")]; [("id", Str "2")]; [("id", Str "3")]].

Lemma roles_stay_apart_witness :
  AuthzSelections.rolesApart (AuthzSelections.selectRole [("id", Str "2")] rolePage1) ∧
  AuthzSelections.clientRoles (AuthzSelections.selectRole [("id", Str "2")] rolePage1) =
    Some [[("id", Str "3"); ("container", Obj [("name", Undefined)])]].
Proof.
  split; [|vm_compute; reflexivity].
  eapply (AuthzSelections.roles_stay_apart [policyRole "1" true] (AuthzSelections.mkRoleRun rolePage0 [])
    (AuthzSelections.mkRoleRun (AuthzSelections.selectRole [("id", Str "2")] rolePage1) [])); [| | |reflexivity|by left].
  - split; [repeat constructor; by eexists|]. apply (bool_decide_unpack _). vm_compute. exact I.
  - eapply rtc_l; [by apply (AuthzSelections.step_clients _ _ _ [[("id", Str "c")]])|].
    apply rtc_once. by apply (AuthzSelections.step_role _ _ [] [] (policyRole "1" true)).
  - eapply rtc_l; [apply (AuthzSelections.step_client _ _ _ (Some [("id", Str "c")]))|].
    eapply rtc_l; [apply (AuthzSelections.step_client_roles _ _ _ [[("id", Str "1")]; [("id", Str "2")]; [("id", Str "3")]]);
      repeat constructor; by eexists|].
    apply rtc_once. by eapply AuthzSelections.step_select.
Defined.

(** ** Groups *)

Definition someGroups : list UserStorage.group :=
  [UserStorage.Group "1" "/a" [UserStorage.Group "2" "/a/b" []]; UserStorage.Group "3" "/c" []].

Lemma group_tree_spec_witness : "/a" ∉ UserStorage.paths (UserStorage.joinable someGroups ["/a"]).
Proof.
  refine (proj2 (UserStorage.group_tree_spec someGroups ["/a"] _) "/a" _); [|by left].
  apply (bool_decide_unpack _). vm_compute. exact I.
Defined.

End AdminWitnesses.
